(* ===== verification/_CoqProject ===== *)
-Q . S2P
Prelude.v
Canonical.v
Locks.v
DestinationEdits.v
Dates.v
Temporal.v
Types.v
Hours.v
Text.v
Evaluate.v
PlanningDrafts.v
Planning.v
Jobs.v
Scheduler.v
Transaction.v
Policies.v
HoursDrafts.v
Store.v
NoCopy.v
Effects.v
Notices.v
Reconciliation.v
Verification.v
Ingestion.v
ConflictResponse.v
ConflictInputs.v
ConflictCoordinator.v
ConflictService.v
PolicyService.v
PolicyPreviews.v
PolicyRecovery.v
PlanningStore.v
PlanningInputs.v
PlanningCoordinator.v
PlanningReconcile.v
PlanningService.v
