(* ===== verification/Prelude.v ===== *)
(** * Planipus: a verification development

    Planipus copies events between calendars under policies that say what may
    be copied and how much of it is disclosed, plans availability boundaries
    and meetings, and declines invitations that meet private conflicts. Its
    core is in TypeScript: [packages/calendar-sync] holds the pure evaluators,
    [server] the database, the workers and the provider adapters.

    ** Parts and files

    - [Prelude]: results that may throw ([res]), JavaScript collections ([new
      Set], stable [sort]), the order of strings, tables, tactics and hints.
    - [Canonical] ([calendar-sync/src/canonical.ts]): JSON values, canonical
      text, fingerprints. [canonicalizeJson] is shown to decide equality of
      documents.
    - [Locks] ([server/src/calendar-protection-lock.ts]): the advisory locks of
      provider calendars, the sessions that wait for them, a step relation.
    - [DestinationEdits] ([destination-edits.ts]): the policy for copies that
      were edited or deleted at the destination.
    - [Dates], [Temporal], [Text]: the calendar of day numbers and JavaScript
      [Date]; what the code uses of [temporal-polyfill], as a class of
      operations, a class of laws and an instance; text functions.
    - [Types], [Hours], [Evaluate] ([types.ts], [hours.ts], [evaluate.ts]): the
      data of policies and events, opening hours across clock changes, and the
      evaluation of one event under one policy.
    - [PlanningDrafts], [Planning] ([server/src/planning/types.ts],
      [validation.ts], [engine.ts]): the parser of planning rules and the
      planner.
    - [Jobs], [Scheduler] ([server/src/jobs/queue.ts], [leased-job.ts],
      [server/src/scheduler.ts]): the job table as a finite map, each method of
      [PostgresJobQueue] a function on it, the worker with its heartbeats, the
      periodic tick and the retention.
    - [Transaction]: the errors a transaction tells apart, the monad of a
      transaction over any database, [try], [catch], rollback, and the
      weakest preconditions its proofs compose.
    - [Policies] ([server/src/policy/service.ts]): the draft of a policy, its
      compilation into the policy the evaluator reads, the result of a
      preview, and who acts.
    - [HoursDrafts] ([policy/service.ts], [validateInlineHoursProfile]): the
      parser of the hours profiles a person writes.
    - [Store] ([server/src/database/types.ts], [providers/types.ts],
      [sync/basis.ts], [sync/query.ts]): the rows of the sync tables, jobs
      that wait, and the provider as an interface over an unknown remote state.
    - [NoCopy]: the contract between bridges and private availability: what a
      command may do to the state both share, and which locks make its check
      hold until it commits.
    - [Effects] ([server/src/sync/effects.ts]): the outbox, its lease and the
      execution of an effect against the provider.
    - [Notices] ([server/src/sync/notices.ts]): the notices of edited copies
      and the decisions of a person on a held copy.
    - [Reconciliation] ([server/src/sync/reconciliation.ts]): from the
      observations of a calendar to copies and effects, page by page.
    - [Verification] ([server/src/sync/verification.ts]): the periodic reading
      of copies, and the repair or the hold of those that changed.
    - [Ingestion] ([server/src/sync/coordinator.ts]): the discovery of
      calendars and the incremental synchronisation of their events.
    - [ConflictResponse] ([server/src/conflict-response/types.ts],
      [validation.ts], [engine.ts]): rules that decline invitations, their
      parser, which invitations may be declined, and what a preview counts.
    - [ConflictInputs] ([server/src/conflict-response/inputs.ts],
      [privacy-hash.ts], [providers/calendar-identity.ts]):
      the tables of conflict response, the calendars a rule is authorised to
      use, the freshness of the calendar of work, and the availability that
      four concurrent workers ask of the providers.
    - [ConflictCoordinator] ([server/src/conflict-response/coordinator.ts]):
      the reconciliation of a rule and the application of one decline.
    - [ConflictService] ([server/src/conflict-response/service.ts]): the
      commands of the owner of a rule: preview, activation, pause and
      resumption, a requested reconciliation, removal.
    - [PolicyService], [PolicyPreviews], [PolicyRecovery]
      ([server/src/policy/service.ts]): the commands of the owner of a bridge:
      preview, activation, pause and resumption, a requested reconciliation;
      what a preview counts and foretells; the retry of blocked copies.
    - [PlanningStore], [PlanningInputs] ([server/src/planning/service.ts],
      [server/migrations/0004_planning_rules.sql]): the tables of planning, the
      provider that writes planned events, the input and the snapshot of a plan.
    - [PlanningCoordinator], [PlanningReconcile]
      ([server/src/planning/coordinator.ts]): the reconciliation of a planning
      rule and the application of a planned event, with the theorems on
      applications; the theorems on reconciliations.
    - [PlanningService] ([server/src/planning/service.ts]): the commands of the
      owner of a planning rule: preview, activation, the decision on a
      suggestion, pause and resumption, removal, a requested plan.

    [Ingestion] mirrors the calendars of the provider in the table of
    observations and enqueues the reconciliations that read it. The evaluator
    ([Evaluate]) decides what a copy should be; [Reconciliation] evaluates every observation and records the wanted copy
    and a pending effect in one transaction; the effect executor ([Effects])
    writes it; [Verification] reads the copies again, and repairs or holds
    them; [Notices] asks a person. All five work on the tables of [Store], and
    theorems about one are stated with the definitions of the others
    ([Reconciliation.reconciliation_converges] runs a reconciliation, an
    execution and a reconciliation). Jobs ([Jobs]) carry the work between the
    scheduler and the workers, and [Effects], [Notices] and
    [ConflictCoordinator] enqueue through [Jobs.enqueue]. Fingerprints
    ([Canonical]) bind policies, copies and effects.

    [PolicyService] creates the bridges that [Reconciliation] carries out, and
    [PolicyPreviews.preview_foretells_first_pass] ties what was previewed to
    the first pass; [PolicyRecovery] puts dead effects of the same tables back
    to work. [ConflictService] creates the rules of [ConflictCoordinator] from
    the selections of [ConflictInputs]. The two services meet in [NoCopy]: its
    abstract state has the bridges and the protected calendars, each service is
    shown to make only steps of it ([ConflictService.commands_respect_copies],
    [PolicyService.bridge_commands_respect_copies]), and
    [NoCopy.protected_calendars_are_never_copied] is proved of these steps
    under the locks of [Locks], whatever transactions interleave.
    [PlanningCoordinator] plans with [Planning] over the observations of
    [Ingestion], and writes through jobs of [Jobs] as the other parts do;
    [PlanningService] creates its rules and ends them, and
    [PlanningService.removal_leaves_only_deletions] is stated with the
    applications of [PlanningCoordinator].

    ** How code is modelled

    A function of the source is a function here, with its name where Rocq
    allows it. A thrown error is a [Throw] of [res]; a database transaction is
    a function on tables (finite maps keyed by id) or a computation of
    [Transaction.M], where [try], [catch] and rollback are written out; what other
    transactions do in between is an argument or a step relation. The clock,
    the ids of [newId] and the random part of a delay are arguments. Numbers
    are [Z]; JSON numbers are the dyadic numbers of doubles, and the bound of
    safe integers is checked where the code checks it. Strings are Latin-1.

    Libraries that are not part of the repository are classes with their
    documented laws and a concrete instance for the witnesses: Unicode
    normalisation, SHA-256, [temporal-polyfill], [Intl] and the list of time
    zones, the calendar provider.

    Loops that the source bounds by data have fuel in [Hours] and [Planning],
    computed from the input. [Hours.evaluateHours_total] and
    [Hours.materializeHours_spec] show that the one of [Hours] never runs out,
    [Planning.planScheduling_terminates] that the one of [Planning] does not
    on a draft that the parser admits. The pages of [Reconciliation] have the
    fuel of [Reconciliation.reconcile_covers_calendar], one more than the number
    of full pages.

    ** What the theorems show

    - Evaluation: nothing outside the view of the privacy policy influences any
      output; writes happen only under an active policy; the operation is the
      one ownership, drift and fingerprint decide; evaluation converges; the
      disclosure manifest is truthful; evaluation always returns.
    - Hours and planning: intervals cover exactly the open instants; meetings
      are disjoint, admissible and optimal; the planner ends; parsed drafts are
      valid, and valid drafts are parsed back.
    - Jobs: uniqueness of active keys, mutual exclusion of leases, no outcome
      without ownership, progress of punctual workers, every due job is
      served, retry bounds, once-only jobs, idempotent ticks.
    - Effects: an execution refines a small specification of verdicts; no
      provider call without authority; effects of a projection in order; every
      execution ends the lease; replacements are consistent.
    - Ingestion: a synchronisation that ends leaves exactly the events that the
      pages of one listing say; one that fails infers no absence and keeps its
      tokens.
    - Reconciliation: a scheduled write is the evaluation of the policy, with
      consistent evidence, on a copy that may be written; held copies are left;
      nothing outside the view of the privacy policy reaches the database; the
      pass covers the calendar, and passes and executions converge.
    - Verification and notices: a verification reads before it acts and refines
      a small specification of responses; every due copy is reached; decisions
      on held copies do what they say or nothing.
    - Conflict response: the selection of calendars is authorised; every
      schedule of the workers returns the same availability; only eligible,
      conflicting invitations are declined, after everything was checked
      again; what the provider confirmed is recorded; a reconciliation stays
      within the daily budget, does what the preview announced, and leaves a
      job for every pending action; a rule starts only as it was previewed, a
      paused or removed one declines nothing.
    - Bridges: one starts only as it was previewed, from a preview that is used
      once; a preview counts every source and foretells the first pass; a retry
      replays only what is still justified; the parser of hours profiles admits
      exactly the valid ones, and they can be evaluated.
    - Planned events: a rule starts only as it was previewed; a reconciliation
      moves no meeting that the settings of the owner keep, carries out the
      rest of the plan, and leaves a job for what waits; an application writes
      only what is intended, on the event that carries the mark of its row, and
      records exactly what the calendar confirmed; a decision on a suggestion
      does what it says; a removed rule only deletes.
    - Locks and copies: sessions never deadlock and exclude each other; no
      calendar is copied while a rule protects it.

    Eight defects came out of the modelling: the planner rejects a slot that
    starts when an all-day event ends ([Planning.all_day_end_rejects_adjacent_slot]);
    a deferred effect forgets that it may have been sent
    ([Effects.pause_forgets_ambiguity]); a copy whose evidence was erased is
    recorded as converged with content that was never written
    ([Reconciliation.erased_evidence_hides_change]); the reconciliation that a
    stale restore announces is rolled back ([Notices.stale_restore_schedules_nothing]);
    an event that an interrupted full scan saw and the repeated one does not
    list stays ([Ingestion.interrupted_scan_keeps_absent]); the preview of a
    bridge announces the creation of an invitation that the destination account
    has received itself, which reconciliation then excludes
    ([PolicyPreviews.Samples.preview_ignores_invitations]); a plan that is
    previewed or activated ignores busy events that have no planning marker
    ([PlanningCoordinator.Samples.unmarked_events_are_ignored]); a meeting whose
    cancellation was accepted is planned again when a reconciliation comes
    before its deletion ([PlanningReconcile.Samples.cancelled_meeting_is_planned_again]).

    ** Not modelled

    The HTTP interface ([server/src/api/app.ts]), whose handlers check a request
    against a schema of the web framework and call the services; configuration,
    commands and process signals; migrations, but for the index that keeps the
    route of a bridge unique; OAuth, cookies and API tokens, and the envelope
    encryption, which are calls of cryptographic and web libraries; the Google
    adapter, which turns the calls of the provider interface into requests of a
    third-party service, and the fake provider of the demonstration mode; the
    listings for the user interface; the MCP server, which forwards to the HTTP interface; the web client, and everything that is not
    TypeScript.

    Of the database, the constraints a proof needs are hypotheses (a projection of an effect exists,
    a new id is fresh); isolation is that of the row locks the code takes. *)

From Stdlib Require Export Ascii.
From stdpp Require Export prelude strings list gmap sorting pretty.
From stdpp Require Import options.

(** ** Notations *)

Declare Scope planipus_scope.
Delimit Scope planipus_scope with planipus.

(** JavaScript's [left < right] on strings: code units, left to right. *)
Notation "x <s? y" := (String.ltb x y) (at level 68, no associativity) : planipus_scope.
Notation "x =s? y" := (String.eqb x y) (at level 68, no associativity) : planipus_scope.
(** Concatenation computes on a literal or constructed left operand. *)
#[global] Arguments String.append !s1 s2 : simpl nomatch.

(** ** Computations that may throw *)

(** A JavaScript computation that returns an [A] or throws an [E]. *)
Inductive res (E A : Type) : Type :=
| Ok (value : A)
| Throw (error : E).
Arguments Ok {E A} value.
Arguments Throw {E A} error.

(** [m otherwise e]: the value of [m], or throw [e]. *)
Definition otherwise {E A} (m : option A) (e : E) : res E A :=
  match m with Some a => Ok a | None => Throw e end.

#[export] Instance res_ret E : MRet (res E) := λ A a, Ok a.
#[export] Instance res_bind E : MBind (res E) := λ A B f m,
  match m with Ok a => f a | Throw e => Throw e end.
#[export] Instance res_fmap E : FMap (res E) := λ A B f m,
  match m with Ok a => Ok (f a) | Throw e => Throw e end.
#[export] Instance res_eq_dec E A `{EqDecision E, EqDecision A} : EqDecision (res E A).
Proof. solve_decision. Defined.

(** JavaScript's [m ?? x]. *)
Definition nullish {A} (m : option A) (x : A) : A :=
  match m with Some a => a | None => x end.

(** [Array.prototype.map] with a callback that may throw: the first throw
    stops the traversal. *)
Fixpoint traverse {E A B} (f : A → res E B) (xs : list A) : res E (list B) :=
  match xs with
  | [] => Ok []
  | x :: xs => y ← f x; ys ← traverse f xs; Ok (y :: ys)
  end.

(** ** JavaScript collections *)

(** [[...new Set(xs)]]: the first occurrence of every value, in order. *)
Fixpoint new_set_aux {A} `{EqDecision A} (seen xs : list A) : list A :=
  match xs with
  | [] => []
  | x :: xs =>
      if bool_decide (x ∈ seen) then new_set_aux seen xs
      else x :: new_set_aux (x :: seen) xs
  end.
Definition new_set {A} `{EqDecision A} (xs : list A) : list A := new_set_aux [] xs.

(** [xs.includes(x)]. *)
Definition includes {A} `{EqDecision A} (xs : list A) (x : A) : bool := bool_decide (x ∈ xs).

(** [xs.sort(cmp)], which is stable: [leb x y] is [cmp(x, y) <= 0]. *)
Fixpoint insert_sorted {A} (leb : A → A → bool) (x : A) (xs : list A) : list A :=
  match xs with
  | [] => [x]
  | y :: ys => if leb x y then x :: y :: ys else y :: insert_sorted leb x ys
  end.
Definition sort_by {A} (leb : A → A → bool) (xs : list A) : list A :=
  foldr (insert_sorted leb) [] xs.

(** The sum of [f] over a list, for [reduce((total, x) => total + f(x), 0)]. *)
Definition sum_by {A} (f : A → Z) (xs : list A) : Z :=
  fold_left (λ total x, (total + f x)%Z) xs 0%Z.

(** ** Tactics and hints *)

Create HintDb planipus.

(** Invert an equation on [res]: a bind that returned, or a bind that threw. *)
Ltac res_inv H :=
  repeat match type of H with
  | Ok _ = Ok _ => injection H; clear H; intros; subst
  | Throw _ = Throw _ => injection H; clear H; intros; subst
  | Ok _ = Throw _ => discriminate H
  | Throw _ = Ok _ => discriminate H
  | mbind _ ?m = _ => let E := fresh "Hres" in destruct m eqn:E; cbn [mbind res_bind] in H
  | fmap _ ?m = _ => let E := fresh "Hres" in destruct m eqn:E; cbn [fmap res_fmap] in H
  end.

(** Case on every [if] and [match] of the goal whose scrutinee is a variable
    or an application, remembering the equations. *)
Ltac cases := repeat (case_match; simplify_eq/=).

(** Turn boolean comparisons of the context and the goal into propositions. *)
Ltac bool_to_prop :=
  repeat match goal with
  | H : _ && _ = true |- _ => apply andb_true_iff in H as [? ?]
  | H : _ || _ = false |- _ => apply orb_false_iff in H as [? ?]
  | H : negb _ = true |- _ => apply negb_true_iff in H
  | H : negb _ = false |- _ => apply negb_false_iff in H
  | H : bool_decide _ = true |- _ => apply bool_decide_eq_true_1 in H
  | H : bool_decide _ = false |- _ => apply bool_decide_eq_false_1 in H
  | H : (_ <? _)%Z = true |- _ => apply Z.ltb_lt in H
  | H : (_ <? _)%Z = false |- _ => apply Z.ltb_ge in H
  | H : (_ <=? _)%Z = true |- _ => apply Z.leb_le in H
  | H : (_ <=? _)%Z = false |- _ => apply Z.leb_gt in H
  | H : (_ =? _)%Z = true |- _ => apply Z.eqb_eq in H
  | H : (_ =? _)%Z = false |- _ => apply Z.eqb_neq in H
  | H : (_ =? _)%string = true |- _ => apply String.eqb_eq in H
  | H : (_ =? _)%string = false |- _ => apply String.eqb_neq in H
  end.

(** Membership in a concrete concatenation of lists. *)
Ltac in_list :=
  first [ assumption
        | apply elem_of_app; first [left; in_list | right; in_list]
        | apply elem_of_cons; first [left; reflexivity | right; in_list] ].

(** ** Lemmas on [res] *)

Section res_lemmas.
Context {E : Type}.

Lemma bind_Ok_inv {A B} (m : res E A) (f : A → res E B) b :
  mbind f m = Ok b ↔ ∃ a, m = Ok a ∧ f a = Ok b.
Proof. destruct m; cbn; naive_solver. Qed.

Lemma otherwise_Some {A} (m : option A) (e : E) a : otherwise m e = Ok a ↔ m = Some a.
Proof. destruct m; cbn; naive_solver. Qed.

Lemma traverse_Ok {A B} (f : A → res E B) xs ys :
  traverse f xs = Ok ys ↔ Forall2 (λ x y, f x = Ok y) xs ys.
Proof.
  revert ys; induction xs as [|x xs IH]; intros ys; cbn.
  - split; [intros [= <-]; constructor | by inversion 1].
  - rewrite bind_Ok_inv. setoid_rewrite bind_Ok_inv. split.
    + intros (y & Hy & ys' & Hys & [= <-]). constructor; [done|by apply IH].
    + inversion 1; subst. eexists; split; [done|]. eexists; split; [by apply IH|done].
Qed.

(** A traversal succeeds when every element does. *)
Lemma traverse_total {A B} (f : A → res E B) xs :
  (∃ ys, traverse f xs = Ok ys) ↔ ∀ x, x ∈ xs → ∃ y, f x = Ok y.
Proof.
  setoid_rewrite traverse_Ok. split.
  - intros [ys Hys] x [i Hi]%list_elem_of_lookup.
    destruct (Forall2_lookup_l _ _ _ _ _ Hys Hi) as (y & _ & Hy). eauto.
  - induction xs as [|x xs IH]; intros Hxs; [by exists []|].
    destruct IH as [ys Hys]; [set_solver|]. destruct (Hxs x) as [y Hy]; [set_solver|].
    exists (y :: ys). by constructor.
Qed.

Lemma traverse_length {A B} (f : A → res E B) xs ys :
  traverse f xs = Ok ys → length ys = length xs.
Proof. rewrite traverse_Ok. intros H. symmetry. by eapply Forall2_length. Qed.
End res_lemmas.

(** ** Lemmas on [new_set] *)

Section new_set_lemmas.
Context {A : Type} `{EqDecision A}.

Lemma elem_of_new_set_aux seen xs (x : A) :
  x ∈ new_set_aux seen xs ↔ x ∈ xs ∧ x ∉ seen.
Proof.
  revert seen; induction xs as [|y xs IH]; intros seen; cbn; [set_solver|].
  case_bool_decide; rewrite ?elem_of_cons, IH; [|rewrite elem_of_cons];
    destruct (decide (x = y)); set_solver.
Qed.

Lemma NoDup_new_set_aux seen (xs : list A) : NoDup (new_set_aux seen xs).
Proof.
  revert seen; induction xs as [|y xs IH]; intros seen; cbn; [constructor|].
  case_bool_decide; [apply IH|]. constructor; [|apply IH].
  rewrite elem_of_new_set_aux. set_solver.
Qed.

Lemma elem_of_new_set (xs : list A) x : x ∈ new_set xs ↔ x ∈ xs.
Proof. unfold new_set. rewrite elem_of_new_set_aux. set_solver. Qed.

Lemma NoDup_new_set (xs : list A) : NoDup (new_set xs).
Proof. apply NoDup_new_set_aux. Qed.

Lemma new_set_aux_id seen (xs : list A) :
  NoDup xs → (∀ x, x ∈ xs → x ∉ seen) → new_set_aux seen xs = xs.
Proof.
  intros Hnd. revert seen. induction Hnd as [|x xs Hx Hnd IH]; intros seen Hs; cbn; [done|].
  rewrite bool_decide_eq_false_2 by set_solver. f_equal. apply IH. set_solver.
Qed.

(** A list without duplicates is its own set. *)
Lemma new_set_id (xs : list A) : NoDup xs → new_set xs = xs.
Proof. intros. apply new_set_aux_id; [done|set_solver]. Qed.

Lemma new_set_length_aux seen (xs : list A) : length (new_set_aux seen xs) ≤ length xs.
Proof. revert seen; induction xs; intros; cbn; [done|]. case_bool_decide; cbn; auto with arith. Qed.

(** [new Set(xs).size === xs.length] tests the absence of duplicates. *)
Lemma new_set_length_NoDup (xs : list A) : length (new_set xs) = length xs ↔ NoDup xs.
Proof.
  split; [|by intros ->%new_set_id].
  intros Hlen.
  assert (new_set xs ⊆+ xs) as Hsub.
  { apply NoDup_submseteq; [apply NoDup_new_set|]. intros x. by rewrite elem_of_new_set. }
  apply submseteq_length_Permutation in Hsub; [|lia].
  rewrite <- Hsub. apply NoDup_new_set.
Qed.
End new_set_lemmas.

Lemma includes_spec {A} `{EqDecision A} (xs : list A) x : includes xs x = true ↔ x ∈ xs.
Proof. unfold includes. by rewrite bool_decide_eq_true. Qed.

(** ** Lemmas on [sort_by] *)

Section sort_lemmas.
Context {A : Type} (leb : A → A → bool).
Let R (x y : A) : Prop := leb x y = true.

Lemma insert_sorted_perm x xs : insert_sorted leb x xs ≡ₚ x :: xs.
Proof.
  induction xs as [|y ys IH]; cbn; [done|]. destruct (leb x y); [done|].
  rewrite IH. apply Permutation_swap.
Qed.

Lemma sort_by_perm xs : sort_by leb xs ≡ₚ xs.
Proof. induction xs as [|x xs IH]; cbn; [done|]. by rewrite insert_sorted_perm, IH. Qed.

Lemma elem_of_sort_by xs x : x ∈ sort_by leb xs ↔ x ∈ xs.
Proof. by rewrite sort_by_perm. Qed.

Lemma length_sort_by xs : length (sort_by leb xs) = length xs.
Proof. by rewrite sort_by_perm. Qed.

Context (leb_total : ∀ x y, leb x y = true ∨ leb y x = true).
Context (leb_trans : ∀ x y z, leb x y = true → leb y z = true → leb x z = true).

Lemma insert_sorted_sorted x xs :
  StronglySorted R xs → StronglySorted R (insert_sorted leb x xs).
Proof using leb_total leb_trans.
  induction 1 as [|y ys Hys IH Hy]; cbn; [by repeat constructor|].
  destruct (leb x y) eqn:Hxy.
  - constructor; [by constructor|]. constructor; [done|].
    eapply Forall_impl; [exact Hy|]. intros z Hz. by eapply leb_trans.
  - constructor; [done|]. rewrite Forall_forall in Hy |- *.
    intros z. rewrite insert_sorted_perm, elem_of_cons.
    intros [->|?]; [destruct (leb_total x y); [congruence|done] | auto].
Qed.

Lemma sort_by_sorted xs : StronglySorted R (sort_by leb xs).
Proof using leb_total leb_trans.
  induction xs; cbn; [constructor|]. by apply insert_sorted_sorted.
Qed.

(** The first element of the sorted array is a minimum. *)
Lemma sort_by_head xs x ys :
  sort_by leb xs = x :: ys → ∀ y, y ∈ xs → leb x x = true → leb x y = true.
Proof using leb_total leb_trans.
  intros Hs y Hy Hx. pose proof (sort_by_sorted xs) as Hsorted.
  rewrite Hs in Hsorted. inversion Hsorted as [|?? _ HF]; subst.
  rewrite <- (elem_of_sort_by xs), Hs, elem_of_cons in Hy.
  destruct Hy as [->|Hy]; [done|]. rewrite Forall_forall in HF. by apply HF.
Qed.

(** Sorting forgets the order of the input when no two elements tie. *)
Lemma sort_by_unique xs ys :
  (∀ x y, x ∈ xs → y ∈ xs → leb x y = true → leb y x = true → x = y) →
  xs ≡ₚ ys → sort_by leb xs = sort_by leb ys.
Proof using leb_total leb_trans.
  intros Hanti Hperm.
  apply (StronglySorted_unique_strong R); [|apply sort_by_sorted..|].
  - intros x y. rewrite !elem_of_sort_by. intros ?? ??. apply Hanti; [done| |done..].
    by rewrite Hperm.
  - by rewrite !sort_by_perm.
Qed.
End sort_lemmas.

(** Sorting commutes with a filter. *)
Lemma sort_by_filter {A} (leb : A → A → bool) (p : A → bool) xs :
  (∀ x y, leb x y = true ∨ leb y x = true) →
  (∀ x y z, leb x y = true → leb y z = true → leb x z = true) →
  sort_by leb (List.filter p xs) = List.filter p (sort_by leb xs).
Proof.
  intros Htotal Htrans.
  assert (∀ x ys, StronglySorted (λ a b, leb a b = true) ys →
    List.filter p (insert_sorted leb x ys) =
      if p x then insert_sorted leb x (List.filter p ys) else List.filter p ys) as Hinsert.
  { intros x ys. induction 1 as [|y ys Hys IH Hy]; [done|]. cbn [insert_sorted List.filter].
    destruct (leb x y) eqn:Hxy; cbn [List.filter].
    - destruct (p x), (p y); cbn [insert_sorted]; rewrite ?Hxy; try done.
      assert (Forall (λ z, leb x z = true) (List.filter p ys)) as Hall.
      { rewrite Forall_forall in Hy |- *. intros z Hz.
        rewrite list_elem_of_In, filter_In, <- list_elem_of_In in Hz. destruct Hz as [Hz _]. eauto. }
      destruct (List.filter p ys) as [|z zs]; [done|]. cbn [insert_sorted]. apply Forall_cons in Hall as [Hz _].
      by rewrite Hz.
    - rewrite IH. destruct (p x), (p y); cbn [insert_sorted]; by rewrite ?Hxy. }
  induction xs as [|x xs IH]; [done|]. cbn [List.filter]. change (sort_by leb (x :: xs)) with (insert_sorted leb x (sort_by leb xs)).
  rewrite Hinsert by by apply sort_by_sorted. destruct (p x); [|done]. by rewrite <- IH.
Qed.

(** A sorted list is its own sorting. *)
Lemma sort_by_id {A} (leb : A → A → bool) xs :
  StronglySorted (λ x y, leb x y = true) xs → sort_by leb xs = xs.
Proof.
  induction 1 as [|x xs _ IH Hx]; [done|]. cbn [sort_by foldr]. unfold sort_by in IH. rewrite IH.
  destruct xs as [|y xs]; [done|]. cbn. apply Forall_cons in Hx as [Hx _]. by rewrite Hx.
Qed.

(** Sorting commutes with a map that preserves the comparison. *)
Lemma sort_by_map {A B} (f : A → B) (lebA : A → A → bool) (lebB : B → B → bool) xs :
  (∀ x y, lebB (f x) (f y) = lebA x y) →
  sort_by lebB (map f xs) = map f (sort_by lebA xs).
Proof.
  intros Hf. unfold sort_by. induction xs as [|x xs IH]; cbn; [done|]. rewrite IH. clear IH.
  generalize (foldr (insert_sorted lebA) [] xs) as ys. induction ys as [|y ys IH]; cbn; [done|].
  rewrite Hf. destruct (lebA x y); cbn; [done|]. by rewrite IH.
Qed.

Lemma filter_map {A B} (f : A → B) (p : B → bool) xs :
  List.filter p (map f xs) = map f (List.filter (λ x, p (f x)) xs).
Proof. induction xs as [|x xs IH]; cbn; [done|]. rewrite IH. by destruct (p (f x)). Qed.

Lemma sum_by_acc {A} (f : A → Z) xs acc :
  fold_left (λ total x, (total + f x)%Z) xs acc = (acc + sum_by f xs)%Z.
Proof.
  unfold sum_by. revert acc. induction xs as [|x xs IH]; intros acc; cbn; [lia|].
  rewrite IH, (IH (0 + f x)%Z). lia.
Qed.

Lemma sum_by_cons {A} (f : A → Z) x xs : sum_by f (x :: xs) = (f x + sum_by f xs)%Z.
Proof. unfold sum_by at 1. cbn. by rewrite sum_by_acc. Qed.

Lemma sum_by_app {A} (f : A → Z) xs ys : sum_by f (xs ++ ys) = (sum_by f xs + sum_by f ys)%Z.
Proof. induction xs as [|x xs IH]; cbn [app]; [done|]. rewrite !sum_by_cons, IH. lia. Qed.

#[export] Instance sum_by_perm {A} (f : A → Z) : Proper ((≡ₚ) ==> (=)) (sum_by f).
Proof. induction 1; rewrite ?sum_by_cons; lia. Qed.

(** ** Tables *)

(** The table after a list of updates of its own rows. *)
Lemma foldr_update_lookup {A} (f : A → A) (rows : list (string * A)) (t : gmap string A) id :
  (∀ i j, (i, j) ∈ rows → t !! i = Some j) →
  foldr (λ '(i, j) t, <[i := f j]> t) t rows !! id =
  (if bool_decide (id ∈ rows.*1) then f <$> t !! id else t !! id).
Proof.
  induction rows as [|[i j] rows IH]; intros Hrows; cbn; [done|].
  destruct (decide (i = id)) as [->|Hne].
  - rewrite lookup_insert_eq, bool_decide_eq_true_2 by set_solver.
    by rewrite (Hrows id j) by set_solver.
  - rewrite lookup_insert_ne, IH by (set_solver || done).
    repeat case_bool_decide; set_solver.
Qed.

(** ** The order of JavaScript strings *)

Section string_order.
Open Scope planipus_scope.

Lemma string_compare_trans s1 s2 s3 :
  String.compare s1 s2 = Lt → String.compare s2 s3 = Lt → String.compare s1 s3 = Lt.
Proof.
  revert s2 s3. induction s1 as [|a1 s1 IH]; intros [|a2 s2] [|a3 s3]; cbn; try done.
  unfold Ascii.compare.
  destruct (N.compare_spec (Ascii.N_of_ascii a1) (Ascii.N_of_ascii a2)) as [E1|E1|E1];
  destruct (N.compare_spec (Ascii.N_of_ascii a2) (Ascii.N_of_ascii a3)) as [E2|E2|E2];
    try done.
  - rewrite E1, E2, N.compare_refl. apply IH.
  - intros _ _. rewrite E1. by apply N.compare_lt_iff in E2 as ->.
  - intros _ _. rewrite <- E2. by apply N.compare_lt_iff in E1 as ->.
  - intros _ _. assert (H := N.lt_trans _ _ _ E1 E2). by apply N.compare_lt_iff in H as ->.
Qed.

Lemma ltb_compare s1 s2 : s1 <s? s2 = true ↔ String.compare s1 s2 = Lt.
Proof. unfold String.ltb. by destruct String.compare. Qed.

Lemma ltb_irrefl s : s <s? s = false.
Proof.
  unfold String.ltb. destruct (String.compare s s) eqn:E; try done.
  assert (E' := E). rewrite String.compare_antisym, E' in E. done.
Qed.

Lemma ltb_trans s1 s2 s3 : s1 <s? s2 = true → s2 <s? s3 = true → s1 <s? s3 = true.
Proof. rewrite !ltb_compare. apply string_compare_trans. Qed.

Lemma ltb_asym s1 s2 : s1 <s? s2 = true → s2 <s? s1 = false.
Proof.
  rewrite ltb_compare. intros H. unfold String.ltb.
  by rewrite String.compare_antisym, H.
Qed.

Lemma ltb_total s1 s2 : s1 <s? s2 = true ∨ s1 = s2 ∨ s2 <s? s1 = true.
Proof.
  rewrite !ltb_compare. destruct (String.compare s1 s2) eqn:E; [|by left|].
  - right; left. by apply String.compare_eq_iff in E.
  - right; right. rewrite String.compare_antisym, E. done.
Qed.

(** [compareText(left, right) <= 0], also the default order of [sort()]. *)
Definition text_leb (s1 s2 : string) : bool := negb (s2 <s? s1).

Lemma text_leb_total s1 s2 : text_leb s1 s2 = true ∨ text_leb s2 s1 = true.
Proof.
  unfold text_leb. destruct (ltb_total s1 s2) as [H|[->|H]].
  - left. by rewrite (ltb_asym _ _ H).
  - left. by rewrite ltb_irrefl.
  - right. by rewrite (ltb_asym _ _ H).
Qed.

Lemma text_leb_antisym s1 s2 : text_leb s1 s2 = true → text_leb s2 s1 = true → s1 = s2.
Proof.
  unfold text_leb. rewrite !negb_true_iff. intros H1 H2.
  destruct (ltb_total s1 s2) as [?|[?|?]]; congruence.
Qed.

Lemma text_leb_trans s1 s2 s3 :
  text_leb s1 s2 = true → text_leb s2 s3 = true → text_leb s1 s3 = true.
Proof.
  unfold text_leb. rewrite !negb_true_iff. intros H1 H2.
  destruct (s3 <s? s1) eqn:H3; [|done].
  destruct (ltb_total s1 s2) as [H|[->|H]]; [|congruence..].
  rewrite (ltb_trans _ _ _ H3 H) in H2. done.
Qed.
End string_order.

(** Filters that keep everything, nothing, and keep keys distinct. *)
Lemma filter_all_in {A} (p : A → bool) xs : (∀ x, x ∈ xs → p x = true) → List.filter p xs = xs.
Proof.
  induction xs as [|x xs IH]; [done|]. intros Hin. cbn. rewrite Hin by by left. f_equal. apply IH. intros y Hy. apply Hin. by right.
Qed.

Lemma filter_all_out {A} (p : A → bool) xs : (∀ x, x ∈ xs → p x = false) → List.filter p xs = [].
Proof.
  induction xs as [|x xs IH]; [done|]. intros Hout. cbn. rewrite Hout by by left. apply IH. intros y Hy. apply Hout. by right.
Qed.

Lemma NoDup_fst_filter {A B} (p : A * B → bool) (xs : list (A * B)) : NoDup xs.*1 → NoDup (List.filter p xs).*1.
Proof.
  induction xs as [|x xs IH]; [done|]. cbn [List.filter]. rewrite fmap_cons. intros [Hx Hxs]%NoDup_cons.
  destruct (p x); [|by apply IH]. rewrite fmap_cons. apply NoDup_cons. split; [|by apply IH].
  intros (y & Heq & Hy)%list_elem_of_fmap. apply Hx. rewrite list_elem_of_In, filter_In, <- list_elem_of_In in Hy.
  rewrite Heq. apply list_elem_of_fmap_2, Hy.
Qed.

(** What is left of a list in the order of its keys after a key of it. *)
Lemma filter_after {A} (left right : list (string * A)) key :
  StronglySorted (λ x y, (x.1 <? y.1)%string = true) (left ++ right) → (last left ≫= λ x, Some x.1) = Some key →
  List.filter (λ x, (key <? x.1)%string) (left ++ right) = right.
Proof.
  intros Hsorted Hlast. apply bind_Some in Hlast as ([k a] & Hlast & [= ->]). apply last_Some in Hlast as [front ->].
  rewrite List.filter_app.
  assert (∀ xs, Forall (λ x : string * A, (key <? x.1)%string = true) xs →
    List.filter (λ x, (key <? x.1)%string) xs = xs) as Hall.
  { induction 1 as [|x xs Hx _ IH]; cbn; [done|]. by rewrite Hx, IH. }
  assert (∀ xs, Forall (λ x : string * A, (key <? x.1)%string = false) xs →
    List.filter (λ x, (key <? x.1)%string) xs = []) as Hnone.
  { induction 1 as [|x xs Hx _ IH]; cbn; [done|]. by rewrite Hx. }
  rewrite <- app_assoc in Hsorted. apply StronglySorted_app in Hsorted as (Hfront & _ & Hrest).
  rewrite (Hnone (front ++ [(key, a)])), (Hall right); [done| |].
  - apply StronglySorted_inv in Hrest as [_ Hrest]. done.
  - apply Forall_app. split; [|by constructor; [apply ltb_irrefl|]].
    apply Forall_forall. intros x Hx. apply ltb_asym. apply (Hfront x (key, a)); [done|]. by left.
Qed.

#[export] Hint Resolve NoDup_new_set text_leb_total text_leb_trans text_leb_antisym : planipus.
#[export] Hint Rewrite @elem_of_new_set @elem_of_sort_by @length_sort_by ltb_irrefl : planipus.

(** ** Strings and decimal numerals *)

Fixpoint string_forall (P : ascii → bool) (s : string) : bool :=
  match s with "" => true | String c s => P c && string_forall P s end.

Definition is_digit (c : ascii) : bool :=
  (48 <=? Ascii.nat_of_ascii c)%nat && (Ascii.nat_of_ascii c <=? 57)%nat.

(** The characters of a printed integer. *)
Definition is_numeral (c : ascii) : bool := is_digit c || Ascii.eqb c "-".

(** [s] does not begin with a character of a numeral. *)
Definition stops (s : string) : Prop :=
  match s with "" => True | String c _ => is_numeral c = false end.

Lemma string_app_assoc s1 s2 s3 : (s1 +:+ s2) +:+ s3 = s1 +:+ (s2 +:+ s3).
Proof. induction s1 as [|c s1 IH]; cbn; [done|]. by rewrite IH. Qed.

Lemma string_app_nil_r s : s +:+ "" = s.
Proof. induction s as [|c s IH]; cbn; [done|]. by rewrite IH. Qed.

Lemma string_forall_app P s1 s2 :
  string_forall P (s1 +:+ s2) = string_forall P s1 && string_forall P s2.
Proof. induction s1 as [|c s1 IH]; cbn; [done|]. by rewrite IH, andb_assoc. Qed.

(** The text before the first separator is read back. *)
Lemma string_separator (sep : ascii) x y r1 r2 :
  string_forall (λ c, negb (Ascii.eqb c sep)) x = true →
  string_forall (λ c, negb (Ascii.eqb c sep)) y = true →
  x +:+ String sep r1 = y +:+ String sep r2 → x = y ∧ r1 = r2.
Proof.
  revert y. induction x as [|c x IH]; intros [|d y]; cbn.
  - by intros _ _ [= ->].
  - intros _ [Hd _]%andb_true_iff [= <- _]. by rewrite Ascii.eqb_refl in Hd.
  - intros [Hc _]%andb_true_iff _ [= -> _]. by rewrite Ascii.eqb_refl in Hc.
  - intros [_ Hx]%andb_true_iff [_ Hy]%andb_true_iff [= -> Happ].
    by destruct (IH y Hx Hy Happ) as [-> ->].
Qed.

Lemma string_forall_mono (P Q : ascii → bool) s :
  (∀ c, P c = true → Q c = true) → string_forall P s = true → string_forall Q s = true.
Proof.
  intros HPQ. induction s as [|c s IH]; cbn; [done|].
  intros [? ?]%andb_true_iff. by rewrite HPQ, IH.
Qed.

Lemma pretty_N_char_digit x : is_digit (pretty_N_char x) = true.
Proof. unfold pretty_N_char. by repeat case_match. Qed.

Lemma pretty_N_go_digits x s :
  string_forall is_digit s = true → string_forall is_digit (pretty_N_go x s) = true.
Proof.
  revert s. induction (N.lt_wf_0 x) as [x _ IH]; intros s Hs.
  destruct (decide (x = 0)%N) as [->|Hx]; [done|].
  rewrite pretty_N_go_step by lia.
  apply IH; [apply N.div_lt; lia|]. cbn. by rewrite pretty_N_char_digit.
Qed.

Lemma pretty_N_digits (x : N) : string_forall is_digit (pretty x) = true.
Proof.
  unfold pretty, pretty_N. case_match; [done|]. by apply pretty_N_go_digits.
Qed.

Lemma pretty_positive_digits (x : positive) : string_forall is_digit (pretty x) = true.
Proof. apply pretty_N_digits. Qed.

Lemma is_digit_numeral c : is_digit c = true → is_numeral c = true.
Proof. unfold is_numeral. by intros ->. Qed.

Lemma pretty_Z_numeral (z : Z) : string_forall is_numeral (pretty z) = true.
Proof.
  destruct z as [|p|p]; cbn; [done| |].
  all: try (apply (string_forall_mono is_digit); [apply is_digit_numeral|]).
  all: apply pretty_positive_digits.
Qed.

Lemma pretty_Z_nonempty (z : Z) : ∃ c s, pretty z = String c s ∧ is_numeral c = true.
Proof.
  pose proof (pretty_Z_numeral z) as Hn.
  destruct (pretty z) as [|c s] eqn:E.
  - exfalso. assert (pretty z ≠ "") as Hne; [|congruence].
    destruct z as [|p|p]; cbn; [done| |done].
    unfold pretty, pretty_positive, pretty, pretty_N. case_match; [done|].
    rewrite pretty_N_go_step by lia.
    assert (∀ x s, s ≠ "" → pretty_N_go x s ≠ "") as Hgo; [|by apply Hgo].
    clear. intros x. induction (N.lt_wf_0 x) as [x _ IH]; intros s Hs.
    destruct (decide (x = 0)%N) as [->|Hx]; [done|].
    rewrite pretty_N_go_step by lia. apply IH; [apply N.div_lt; lia|done].
  - exists c, s. split; [done|]. cbn in Hn. by apply andb_true_iff in Hn as [? _].
Qed.

(** A numeral followed by a stop is read back without its right context. *)
Lemma numeral_prefix x y r1 r2 :
  string_forall is_numeral x = true → string_forall is_numeral y = true →
  stops r1 → stops r2 → x +:+ r1 = y +:+ r2 → x = y ∧ r1 = r2.
Proof.
  revert y. induction x as [|c x IH]; intros [|d y]; cbn; try done.
  - intros _ [Hd _]%andb_true_iff Hr1 _ ->. cbn in Hr1. congruence.
  - intros [Hc _]%andb_true_iff _ _ Hr2 <-. cbn in Hr2. congruence.
  - intros [_ Hx]%andb_true_iff [_ Hy]%andb_true_iff ?? [= -> Happ].
    by destruct (IH y Hx Hy) as [-> ->].
Qed.

Lemma pretty_Z_prefix (z w : Z) r1 r2 :
  stops r1 → stops r2 → pretty z +:+ r1 = pretty w +:+ r2 → z = w ∧ r1 = r2.
Proof.
  intros Hr1 Hr2 Happ.
  apply numeral_prefix in Happ as [Hzw ->]; [|apply pretty_Z_numeral..|done|done].
  split; [by apply (inj pretty)|done].
Qed.
