(* ===== verification/Canonical.v ===== *)
(** * Canonical JSON and fingerprints

    [packages/calendar-sync/src/canonical.ts]: the JavaScript values that reach
    [canonicalizeJson], the canonical text, and its soundness: two values have
    the same text exactly when they are the same JSON document up to the order
    of object members, absent members and Unicode normalisation. *)

From S2P Require Import Prelude.
From stdpp Require Import options.

(** ** Values *)

(** An IEEE double: [Finite m e] is [m * 2^e] (the two zeros are one value,
    as [JSON.stringify] prints both as [0]). *)
Inductive number :=
| NaN
| Infinity (negative : bool)
| Finite (mantissa exponent : Z).

(** A JavaScript value as the code receives it ([unknown], [JsonValue]):
    [JUndefined] is an absent value; a plain object lists its own enumerable
    members, whose keys are distinct. *)
Inductive json :=
| JUndefined
| JNull
| JBool (b : bool)
| JNumber (n : number)
| JString (s : string)
| JArray (items : list json)
| JObject (members : list (string * json)).

(** The integer a double denotes, if it denotes one ([Number.isInteger]). *)
Definition integer_value (n : number) : option Z :=
  match n with
  | Finite m e =>
      if (0 <=? e)%Z then Some (m * 2 ^ e)%Z
      else if (m mod 2 ^ (- e) =? 0)%Z then Some (m / 2 ^ (- e))%Z else None
  | _ => None
  end.

Definition MAX_SAFE_INTEGER : Z := (2 ^ 53 - 1)%Z.

(** [Number.isSafeInteger(n)], returning the integer. *)
Definition safe_integer (n : number) : option Z :=
  z ← integer_value n;
  if (Z.abs z <=? MAX_SAFE_INTEGER)%Z then Some z else None.

Definition is_finite (n : number) : bool :=
  match n with Finite _ _ => true | _ => false end.

(** A safe integer as the double that holds it. *)
Definition int (z : Z) : json := JNumber (Finite z 0).

Definition is_defined (v : json) : bool :=
  match v with JUndefined => false | _ => true end.

(** [value[key]] on a plain object: [undefined] for an absent key. *)
Definition member (members : list (string * json)) (key : string) : json :=
  match find (λ '(k, _), (k =? key)%string) members with
  | Some (_, v) => v
  | None => JUndefined
  end.

(** ** [JSON.stringify] on strings *)

Definition dquote : ascii := Ascii.ascii_of_nat 34.
Definition backslash : ascii := Ascii.ascii_of_nat 92.

Definition hex_digit (n : nat) : ascii :=
  Ascii.ascii_of_nat (if (n <? 10)%nat then 48 + n else 87 + n).

(** The escape of one code unit below 256 (none of them is a surrogate). *)
Definition escape_unit (c : ascii) : list ascii :=
  let n := Ascii.nat_of_ascii c in
  if (n =? 34)%nat then [backslash; dquote]
  else if (n =? 92)%nat then [backslash; backslash]
  else if (n =? 8)%nat then [backslash; "b"%char]
  else if (n =? 9)%nat then [backslash; "t"%char]
  else if (n =? 10)%nat then [backslash; "n"%char]
  else if (n =? 12)%nat then [backslash; "f"%char]
  else if (n =? 13)%nat then [backslash; "r"%char]
  else if (n <? 32)%nat then
    [backslash; "u"%char; "0"%char; "0"%char; hex_digit (n / 16); hex_digit (n mod 16)]
  else [c].

Fixpoint string_of_chars (cs : list ascii) : string :=
  match cs with [] => "" | c :: cs => String c (string_of_chars cs) end.

Fixpoint escape (s : string) : string :=
  match s with
  | "" => ""
  | String c s => string_of_chars (escape_unit c) +:+ escape s
  end.

(** [JSON.stringify(s)] for a string [s]. *)
Definition stringify (s : string) : string :=
  String dquote (escape s +:+ String dquote "").

(** ** The platform *)

(** [String.prototype.normalize("NFC")], whose tables are Unicode data. *)
Class Unicode := { nfc : string → string }.

(** The hexadecimal SHA-256 digest of a text, from [node:crypto]. *)
Class Digest := { sha256_hex : string → string }.

(** ** [canonicalizeJson] *)

Inductive canonical_error :=
| NonFiniteNumber
| UnsafeInteger
| DuplicateKeys
| NotAnObject.

#[export] Instance canonical_error_eq_dec : EqDecision canonical_error.
Proof. solve_decision. Defined.

Definition canonicalNumber (value : number) : res canonical_error string :=
  if negb (is_finite value) then Throw NonFiniteNumber
  else match safe_integer value with
       | None => Throw UnsafeInteger
       | Some z => Ok (pretty z)
       end.

(** The comparator of the member sort: [left < right ? -1 : left > right ? 1 : 0]. *)
Definition key_leb {A} (left right : string * A) : bool := text_leb left.1 right.1.

Definition bracket (open close : string) (parts : list string) : string :=
  open +:+ String.concat "," parts +:+ close.

Section canonical.
Context `{Unicode}.

(** The members of an object with their canonical values: the normalised
    keys of the defined members, refused when two of them coincide, in the
    order of the keys. *)
Definition normalized_entries {A} (entries : list (string * (bool * A)))
    : res canonical_error (list (string * A)) :=
  let normalizedEntries :=
    map (λ '(key, (_, value)), (nfc key, value))
      (List.filter (λ '(_, (defined, _)), defined) entries) in
  if bool_decide (length (new_set (map fst normalizedEntries)) = length normalizedEntries)
  then Ok (sort_by key_leb normalizedEntries)
  else Throw DuplicateKeys.

(** The values of the members are computed where they stand and looked at in
    the order of the sorted keys: the function is pure, so this is the
    evaluation of the source, which computes them inside the last [map]. *)
Fixpoint canonicalizeJson (value : json) : res canonical_error string :=
  match value with
  | JNull => Ok "null"
  | JBool b => Ok (if b then "true" else "false")
  | JNumber n => canonicalNumber n
  | JString s => Ok (stringify (nfc s))
  | JArray items =>
      parts ← traverse (λ part, part) (map canonicalizeJson items);
      Ok (bracket "[" "]" parts)
  | JUndefined => Throw NotAnObject
  | JObject members =>
      entries ← normalized_entries
        (map (λ '(key, v), (key, (is_defined v, canonicalizeJson v))) members);
      parts ← traverse (λ '(key, text),
        text ← text; Ok (stringify key +:+ ":" +:+ text)) entries;
      Ok (bracket "{" "}" parts)
  end.

Definition sha256Canonical `{Digest} (value : json) : res canonical_error string :=
  text ← canonicalizeJson value;
  Ok ("sha256:" +:+ sha256_hex text).

(** [sameJson] of [evaluate.ts]. *)
Definition sameJson (left right : json) : res canonical_error bool :=
  l ← canonicalizeJson left;
  r ← canonicalizeJson right;
  Ok (l =? r)%string.
End canonical.

(** ** The specification: documents up to member order *)

Section equivalence.
Context `{Unicode}.

Definition defined_members (members : list (string * json)) : list (string * json) :=
  List.filter (λ '(_, v), is_defined v) members.

(** The values that have a canonical text. *)
Fixpoint representable (v : json) : bool :=
  match v with
  | JUndefined => false
  | JNull | JBool _ | JString _ => true
  | JNumber n => match safe_integer n with Some _ => true | None => false end
  | JArray vs => forallb representable vs
  | JObject ms =>
      bool_decide (NoDup (map (λ m, nfc m.1) (defined_members ms)))
      && forallb (λ '(_, v), negb (is_defined v) || representable v) ms
  end.

(** The same JSON document: equal integers, strings and keys equal after
    NFC, arrays position by position, objects up to the order of their
    members and up to members whose value is [undefined]. *)
Inductive json_equiv : json → json → Prop :=
| equiv_undefined : json_equiv JUndefined JUndefined
| equiv_null : json_equiv JNull JNull
| equiv_bool b : json_equiv (JBool b) (JBool b)
| equiv_number m n :
    is_finite m = is_finite n → integer_value m = integer_value n →
    json_equiv (JNumber m) (JNumber n)
| equiv_string s t : nfc s = nfc t → json_equiv (JString s) (JString t)
| equiv_array xs ys : Forall2 json_equiv xs ys → json_equiv (JArray xs) (JArray ys)
| equiv_object es fs gs :
    defined_members es ≡ₚ gs →
    Forall2 (λ p q, nfc p.1 = nfc q.1 ∧ json_equiv p.2 q.2) gs (defined_members fs) →
    json_equiv (JObject es) (JObject fs).
End equivalence.

(** ** Canonical documents *)

(** What a canonical text denotes: safe integers, and objects as sorted lists. *)
Inductive document :=
| DNull
| DBool (b : bool)
| DInt (z : Z)
| DString (s : string)
| DArray (items : list document)
| DObject (members : list (string * document)).

Fixpoint print (d : document) : string :=
  match d with
  | DNull => "null"
  | DBool b => if b then "true" else "false"
  | DInt z => pretty z
  | DString s => stringify s
  | DArray ds => bracket "[" "]" (map print ds)
  | DObject ms => bracket "{" "}" (map (λ '(k, d), stringify k +:+ ":" +:+ print d) ms)
  end.

Section documents.
Context `{Unicode}.

Fixpoint read (value : json) : res canonical_error document :=
  match value with
  | JNull => Ok DNull
  | JBool b => Ok (DBool b)
  | JNumber n =>
      if negb (is_finite n) then Throw NonFiniteNumber
      else DInt <$> otherwise (safe_integer n) UnsafeInteger
  | JString s => Ok (DString (nfc s))
  | JArray items => DArray <$> traverse (λ part, part) (map read items)
  | JUndefined => Throw NotAnObject
  | JObject members =>
      entries ← normalized_entries (map (λ '(key, v), (key, (is_defined v, read v))) members);
      DObject <$> traverse (λ '(key, d), d ← d; Ok (key, d)) entries
  end.
End documents.

(** ** Induction over nested values *)

Section nested_induction.
Context (P : json → Prop).
Context (Pundefined : P JUndefined) (Pnull : P JNull) (Pbool : ∀ b, P (JBool b)).
Context (Pnumber : ∀ n, P (JNumber n)) (Pstring : ∀ s, P (JString s)).
Context (Parray : ∀ vs, Forall P vs → P (JArray vs)).
Context (Pobject : ∀ ms, Forall (λ m, P m.2) ms → P (JObject ms)).

Fixpoint json_ind' (v : json) : P v :=
  match v with
  | JUndefined => Pundefined
  | JNull => Pnull
  | JBool b => Pbool b
  | JNumber n => Pnumber n
  | JString s => Pstring s
  | JArray vs => Parray vs
      ((fix go vs : Forall P vs :=
          match vs with
          | [] => Forall_nil_2 _
          | v :: vs => Forall_cons_2 _ _ _ (json_ind' v) (go vs)
          end) vs)
  | JObject ms => Pobject ms
      ((fix go ms : Forall (λ m, P m.2) ms :=
          match ms with
          | [] => Forall_nil_2 _
          | m :: ms => Forall_cons_2 (λ m, P m.2) m ms (json_ind' m.2) (go ms)
          end) ms)
  end.
End nested_induction.

Section nested_document_induction.
Context (P : document → Prop).
Context (Pnull : P DNull) (Pbool : ∀ b, P (DBool b)).
Context (Pint : ∀ z, P (DInt z)) (Pstring : ∀ s, P (DString s)).
Context (Parray : ∀ ds, Forall P ds → P (DArray ds)).
Context (Pobject : ∀ ms, Forall (λ m, P m.2) ms → P (DObject ms)).

Fixpoint document_ind' (d : document) : P d :=
  match d with
  | DNull => Pnull
  | DBool b => Pbool b
  | DInt z => Pint z
  | DString s => Pstring s
  | DArray ds => Parray ds
      ((fix go ds : Forall P ds :=
          match ds with
          | [] => Forall_nil_2 _
          | d :: ds => Forall_cons_2 _ _ _ (document_ind' d) (go ds)
          end) ds)
  | DObject ms => Pobject ms
      ((fix go ms : Forall (λ m, P m.2) ms :=
          match ms with
          | [] => Forall_nil_2 _
          | m :: ms => Forall_cons_2 (λ m, P m.2) m ms (document_ind' m.2) (go ms)
          end) ms)
  end.
End nested_document_induction.

(** ** The text of a string is read back *)

Definition hex_value (c : ascii) : nat :=
  let n := Ascii.nat_of_ascii c in if (n <? 58)%nat then n - 48 else n - 87.

(** One escaped code unit off the front of the body of a string literal;
    [None] at the closing quote. *)
Definition unescape_unit (s : string) : option (ascii * string) :=
  match s with
  | "" => None
  | String c rest =>
      if Ascii.eqb c dquote then None
      else if Ascii.eqb c backslash then
        match rest with
        | "" => None
        | String e rest' =>
            if Ascii.eqb e "u" then
              match rest' with
              | String _ (String _ (String h (String l rest''))) =>
                  Some (Ascii.ascii_of_nat (16 * hex_value h + hex_value l), rest'')
              | _ => None
              end
            else if Ascii.eqb e "b" then Some (Ascii.ascii_of_nat 8, rest')
            else if Ascii.eqb e "t" then Some (Ascii.ascii_of_nat 9, rest')
            else if Ascii.eqb e "n" then Some (Ascii.ascii_of_nat 10, rest')
            else if Ascii.eqb e "f" then Some (Ascii.ascii_of_nat 12, rest')
            else if Ascii.eqb e "r" then Some (Ascii.ascii_of_nat 13, rest')
            else Some (e, rest')
        end
      else Some (c, rest)
  end.

Lemma unescape_escape_unit c rest :
  unescape_unit (string_of_chars (escape_unit c) +:+ rest) = Some (c, rest).
Proof. by destruct c as [[] [] [] [] [] [] [] []]. Qed.

Lemma escape_prefix s t r1 r2 :
  escape s +:+ String dquote r1 = escape t +:+ String dquote r2 → s = t ∧ r1 = r2.
Proof.
  revert t. induction s as [|c s IH]; intros [|d t]; cbn [escape]; rewrite ?string_app_assoc.
  - by intros [= ->].
  - intros H%(f_equal unescape_unit). by rewrite unescape_escape_unit in H.
  - intros H%(f_equal unescape_unit). by rewrite unescape_escape_unit in H.
  - intros H%(f_equal unescape_unit). rewrite !unescape_escape_unit in H.
    injection H as -> H. by destruct (IH _ H) as [-> ->].
Qed.

(** The literal of a string determines the string, whatever follows it. *)
Lemma stringify_prefix s t r1 r2 :
  stringify s +:+ r1 = stringify t +:+ r2 → s = t ∧ r1 = r2.
Proof.
  unfold stringify. cbn. intros [= H]. rewrite !string_app_assoc in H. cbn in H.
  by apply escape_prefix.
Qed.

(** ** The text of a document determines it *)

(** [f] prints unambiguously when a character that cannot continue a numeral
    (or the end of the text) follows. *)
Definition unambiguous {A} (f : A → string) (a : A) : Prop :=
  ∀ b r1 r2, stops r1 → stops r2 → f a +:+ r1 = f b +:+ r2 → a = b ∧ r1 = r2.

(** A text that does not begin with [close]: the first item of a list. *)
Definition opens {A} (f : A → string) (close : ascii) : Prop :=
  ∀ a, ∃ c s, f a = String c s ∧ c ≠ close.

Lemma concat_prefix {A} (f : A → string) close xs ys r1 r2 :
  opens f close → is_numeral close = false → close ≠ ","%char → Forall (unambiguous f) xs →
  String.concat "," (map f xs) +:+ String close r1
    = String.concat "," (map f ys) +:+ String close r2 →
  xs = ys ∧ r1 = r2.
Proof.
  intros Hopens Hclose Hcomma Hxs. revert ys. induction Hxs as [|x xs Hx Hxs IH]; intros ys.
  - destruct ys as [|y ys]; cbn [map String.concat]; [by intros [= ->]|].
    intros H. exfalso. destruct (Hopens y) as (c & s & Hy & Hc).
    destruct ys; cbn in H; rewrite Hy in H; cbn in H; congruence.
  - destruct ys as [|y ys].
    { cbn [map String.concat]. intros H. exfalso. destruct (Hopens x) as (c & s & Hy & Hc).
      destruct xs; cbn in H; rewrite Hy in H; cbn in H; congruence. }
    assert (∀ (z : A) zs r, String.concat "," (map f (z :: zs)) +:+ String close r =
      f z +:+ match zs with [] => String close r
              | _ => String ","%char (String.concat "," (map f zs) +:+ String close r) end)
      as Hstep.
    { intros z [|z' zs] r; cbn [map String.concat]; [done|]. by rewrite !string_app_assoc. }
    rewrite !Hstep. intros H. apply Hx in H as [-> H]; [|destruct xs; done|destruct ys; done].
    destruct xs as [|x' xs], ys as [|y' ys]; injection H as H; try congruence; [by subst|].
    destruct (IH (y' :: ys)) as [[= -> ->] ->]; done.
Qed.

Lemma concat_prefix_bracket {A} (f : A → string) (open close : ascii) xs ys r1 r2 :
  opens f close → is_numeral close = false → close ≠ ","%char → Forall (unambiguous f) xs →
  bracket (String open "") (String close "") (map f xs) +:+ r1
    = bracket (String open "") (String close "") (map f ys) +:+ r2 →
  xs = ys ∧ r1 = r2.
Proof.
  unfold bracket. intros ????. cbn. rewrite !string_app_assoc. cbn. intros [= Hc].
  by eapply concat_prefix.
Qed.

Definition print_member (m : string * document) : string :=
  stringify m.1 +:+ ":" +:+ print m.2.

Lemma print_head d : ∃ c s, print d = String c s ∧
  match d with
  | DNull => c = "n"%char | DBool true => c = "t"%char | DBool false => c = "f"%char
  | DInt _ => is_numeral c = true | DString _ => c = dquote
  | DArray _ => c = "["%char | DObject _ => c = "{"%char
  end.
Proof.
  destruct d as [|[]|z|s|ds|ms]; try by (eexists _, _; split; [reflexivity|]).
  apply pretty_Z_nonempty.
Qed.

Lemma print_opens : opens print "]".
Proof.
  intros d. destruct (print_head d) as (c & s & Hd & Hc). exists c, s. split; [done|].
  destruct d as [|[]|z|?|?|?]; subst; try done. by intros ->.
Qed.

Lemma print_member_opens : opens print_member "}".
Proof. intros m. by eexists _, _. Qed.

(** Two documents of different kinds begin with different characters. *)
Ltac head_clash Hd :=
  exfalso; cbn in Hd; injection Hd; clear Hd; intros; subst; try (progress subst); discriminate.

Lemma print_unambiguous d : unambiguous print d.
Proof.
  induction d as [|b|z|s|ds IH|ms IH] using document_ind'; intros d' r1 r2 Hr1 Hr2 Hd;
    (assert (Hhead := print_head d'); destruct Hhead as (c & t & Hd' & Hc)).
  - destruct d' as [|[]|?|?|?|?]; try (rewrite Hd' in Hd; head_clash Hd). by injection Hd.
  - destruct b, d' as [|[]|?|?|?|?]; try (rewrite Hd' in Hd; head_clash Hd); by injection Hd.
  - destruct (pretty_Z_nonempty z) as (c' & t' & Hz & Hc').
    destruct d' as [|[]|z'|?|?|?]; cbn [print] in *;
      try (rewrite Hz, Hd' in Hd; head_clash Hd).
    apply pretty_Z_prefix in Hd as [-> ->]; done.
  - destruct d' as [|[]|z'|?|?|?]; cbn [print] in *; try (rewrite Hd' in Hd; head_clash Hd).
    by apply stringify_prefix in Hd as [-> ->].
  - destruct d' as [|[]|z'|?|ds'|?]; cbn [print] in *; try (rewrite Hd' in Hd; head_clash Hd).
    apply concat_prefix_bracket in Hd as [-> ->]; auto using print_opens.
  - destruct d' as [|[]|z'|?|?|ms']; cbn [print] in *; try (rewrite Hd' in Hd; head_clash Hd).
    change (λ '(k, d), stringify k +:+ ":" +:+ print d) with
      (λ '(k, d), print_member (k, d)) in Hd.
    rewrite !(map_ext (λ '(k, d), print_member (k, d)) print_member) in Hd by (by intros []).
    apply concat_prefix_bracket in Hd as [-> ->]; auto using print_member_opens.
    eapply Forall_impl; [exact IH|]. intros [k d] Hkd [k' d'] s1 s2 Hs1 Hs2 Hm.
    unfold print_member in Hm. cbn [fst snd] in *. rewrite !string_app_assoc in Hm.
    apply stringify_prefix in Hm as [-> Hm]. cbn in Hm. injection Hm as Hm.
    by apply Hkd in Hm as [-> ->].
Qed.

Lemma print_inj d d' : print d = print d' → d = d'.
Proof.
  intros H. apply (print_unambiguous d d' "" ""); [done..|]. by rewrite H.
Qed.

(** ** [canonicalizeJson] reads a document and prints it *)

Definition map_value {A B} (f : A → B) (entry : string * (bool * A)) : string * (bool * B) :=
  let '(key, (defined, value)) := entry in (key, (defined, f value)).

Definition map_snd {A B} (f : A → B) (entry : string * A) : string * B :=
  (entry.1, f entry.2).

Section factorisation.
Context `{Unicode}.

Definition strip {A} (entry : string * (bool * A)) : string * A :=
  let '(key, (_, value)) := entry in (nfc key, value).
Definition is_kept {A} (entry : string * (bool * A)) : bool :=
  let '(_, (defined, _)) := entry in defined.

Lemma normalized_entries_strip {A} (es : list (string * (bool * A))) :
  normalized_entries es =
  let ns := map strip (List.filter is_kept es) in
  if bool_decide (length (new_set (map fst ns)) = length ns)
  then Ok (sort_by key_leb ns) else Throw DuplicateKeys.
Proof. done. Qed.

Lemma strip_map_value {A B} (f : A → B) es :
  map strip (List.filter is_kept (map (map_value f) es))
    = map (map_snd f) (map strip (List.filter is_kept es)).
Proof. induction es as [|[k [[] a]] es IH]; cbn; [done|by rewrite IH|done]. Qed.

Lemma normalized_entries_map {A B} (f : A → B) es :
  normalized_entries (map (map_value f) es) = map (map_snd f) <$> normalized_entries es.
Proof.
  rewrite !normalized_entries_strip, strip_map_value. set (ns := map strip (List.filter is_kept es)). cbn zeta.
  rewrite map_map, (map_ext (λ x, (map_snd f x).1) fst), length_map by done.
  case_bool_decide; [|done]. cbn. by rewrite (sort_by_map (map_snd f) key_leb key_leb).
Qed.

Lemma traverse_print ds :
  traverse (λ part, part) (map (fmap print) ds)
    = map print <$> traverse (E := canonical_error) (λ part, part) ds.
Proof.
  induction ds as [|d ds IH]; cbn; [done|]. rewrite IH.
  destruct d; cbn; [|done]. by destruct (traverse _ ds).
Qed.

Lemma traverse_print_members ms :
  traverse (λ '(key, text), text ← text; Ok (stringify key +:+ ":" +:+ text))
    (map (map_snd (fmap print)) ms)
    = map print_member <$> traverse (E := canonical_error) (λ '(key, d), d ← d; Ok (key, d)) ms.
Proof.
  induction ms as [|[k d] ms IH]; cbn; [done|]. cbn in IH. rewrite IH.
  destruct d; cbn; [|done]. by destruct (traverse _ ms).
Qed.

Lemma canonicalizeJson_read v : canonicalizeJson v = print <$> read v.
Proof.
  induction v as [| |b|n|s|vs IH|ms IH] using json_ind'; cbn [canonicalizeJson read]; try done.
  - unfold canonicalNumber. case_match; [done|]. by destruct (safe_integer n).
  - rewrite (map_ext_Forall _ (λ v, print <$> read v)) by done.
    rewrite <- (map_map read (fmap print)), traverse_print.
    by destruct (traverse _ (map read vs)).
  - rewrite (map_ext_Forall _ (λ m, map_value (fmap print)
      ((λ '(key, v), (key, (is_defined v, read v))) m)))
      by (eapply Forall_impl; [exact IH|]; intros [k v] Hv; cbn in *; by rewrite Hv).
    rewrite <- (map_map (λ '(key, v), (key, (is_defined v, read v))) (map_value (fmap print))).
    rewrite normalized_entries_map.
    destruct (normalized_entries _) as [entries|]; cbn; [|done].
    rewrite traverse_print_members. destruct (traverse _ entries); cbn; [|done].
    f_equal. unfold bracket. do 3 f_equal. apply map_ext. by intros [].
Qed.

(** *** Reading a document from its members *)

Definition read_member (m : string * json) : string * (bool * res canonical_error document) :=
  (m.1, (is_defined m.2, read m.2)).

Lemma strip_read_member ms :
  map strip (List.filter is_kept (map read_member ms))
    = map (λ m, (nfc m.1, read m.2)) (defined_members ms).
Proof.
  induction ms as [|[k v] ms IH]; cbn; [done|]. by destruct (is_defined v); cbn; rewrite IH.
Qed.

Lemma normalized_entries_read ms :
  normalized_entries (map read_member ms) =
  let entries := map (λ m, (nfc m.1, read m.2)) (defined_members ms) in
  if bool_decide (NoDup entries.*1) then Ok (sort_by key_leb entries) else Throw DuplicateKeys.
Proof.
  rewrite normalized_entries_strip, strip_read_member. set (entries := map _ _). cbn zeta.
  rewrite (bool_decide_ext _ (NoDup entries.*1)); [done|].
  rewrite <- new_set_length_NoDup. rewrite length_fmap. done.
Qed.

Lemma key_leb_unique {A} (xs : list (string * A)) :
  NoDup xs.*1 →
  ∀ x y, x ∈ xs → y ∈ xs → key_leb x y = true → key_leb y x = true → x = y.
Proof.
  intros Hnd x y Hx Hy Hxy Hyx.
  assert (x.1 = y.1) as Hkey by (eapply text_leb_antisym; eauto).
  apply list_elem_of_lookup in Hx as [i Hi], Hy as [j Hj].
  assert (i = j) as <-; [|congruence].
  apply (NoDup_lookup xs.*1 i j x.1 Hnd); rewrite list_lookup_fmap, ?Hi, ?Hj; cbn; congruence.
Qed.

(** The text of an object does not depend on the order of its members. *)
Lemma normalized_entries_perm es fs :
  map (λ m, (nfc m.1, read m.2)) (defined_members es)
    ≡ₚ map (λ m, (nfc m.1, read m.2)) (defined_members fs) →
  normalized_entries (map read_member es) = normalized_entries (map read_member fs).
Proof.
  intros Hperm. rewrite !normalized_entries_read. cbn zeta.
  rewrite (bool_decide_ext _ (NoDup (map (λ m, (nfc m.1, read m.2)) (defined_members fs)).*1))
    by (by rewrite Hperm).
  case_bool_decide as Hnd; [|done]. f_equal. apply sort_by_unique; [..|done].
  - intros ??. apply text_leb_total.
  - intros ???. apply text_leb_trans.
  - apply key_leb_unique. by rewrite Hperm.
Qed.

Lemma read_object ms :
  read (JObject ms) =
    (entries ← normalized_entries (map read_member ms);
     DObject <$> traverse (λ '(key, d), d ← d; Ok (key, d)) entries).
Proof. cbn. do 2 f_equal. apply map_ext. by intros []. Qed.

Lemma elem_of_defined_members ms m : m ∈ defined_members ms → m ∈ ms.
Proof.
  unfold defined_members. intros Hm. apply list_elem_of_In, filter_In in Hm as [Hm _].
  by apply list_elem_of_In.
Qed.

Lemma elem_of_defined_members_2 ms k v :
  (k, v) ∈ ms → is_defined v = true → (k, v) ∈ defined_members ms.
Proof.
  intros Hm Hv. apply list_elem_of_In, filter_In. split; [by apply list_elem_of_In|done].
Qed.

Lemma defined_members_is_defined ms m : m ∈ defined_members ms → is_defined m.2 = true.
Proof. by intros Hm%list_elem_of_In%filter_In; destruct m, Hm. Qed.

(** *** Equivalent values are read as the same document *)

Lemma map_read_equiv xs ys :
  Forall (λ v, ∀ w, json_equiv v w → read v = read w) xs →
  Forall2 json_equiv xs ys → map read xs = map read ys.
Proof.
  intros Hxs. induction 1 as [|x y xs ys Hxy _ IH]; cbn; [done|].
  apply Forall_cons in Hxs as [Hx Hxs]. by rewrite (Hx y Hxy), IH.
Qed.

Lemma read_equiv v w : json_equiv v w → read v = read w.
Proof.
  revert w. induction v as [| |b|n|s|vs IH|ms IH] using json_ind'; intros w Hw;
    inversion Hw as [| | |? n' Hfin Hint|? t Hs|? ys Hys|? fs gs Hgs Hfs]; subst; try done.
  - cbn. unfold safe_integer. by rewrite Hfin, Hint.
  - cbn. by rewrite Hs.
  - cbn. by rewrite (map_read_equiv vs ys).
  - rewrite !read_object. rewrite (normalized_entries_perm ms fs); [done|].
    rewrite Hgs. assert (Forall (λ m, ∀ w, json_equiv m.2 w → read m.2 = read w) gs) as Hgs_IH.
    { rewrite Forall_forall in IH |- *. intros m Hm. apply IH. rewrite <- Hgs in Hm.
      by eapply elem_of_defined_members. }
    clear - Hfs Hgs_IH. induction Hfs as [|p q gs fs' [Hk Hv] _ IHfs]; cbn; [done|].
    apply Forall_cons in Hgs_IH as [Hp Hgs]. by rewrite Hk, (Hp _ Hv), IHfs.
Qed.

(** *** Values read as the same document are equivalent *)

Lemma traverse_values (rs : list (res canonical_error document)) ds :
  traverse (λ part, part) rs = Ok ds ↔ rs = map Ok ds.
Proof.
  rewrite traverse_Ok. split; [induction 1; naive_solver|intros ->].
  induction ds; cbn; by constructor.
Qed.

Lemma traverse_entries (es : list (string * res canonical_error document)) ms :
  traverse (λ '(key, d), d ← d; Ok (key, d)) es = Ok ms ↔ es = map (map_snd Ok) ms.
Proof.
  rewrite traverse_Ok. split.
  - induction 1 as [|[k r] [k' d] ?? Hd ? IH]; cbn; [done|].
    destruct r; cbn in Hd; [|done]. injection Hd as <- <-. by rewrite IH.
  - intros ->. induction ms as [|[k d] ms IH]; cbn; by constructor.
Qed.

(** The document of an object lists its members in some order. *)
Lemma read_object_members ms d :
  read (JObject ms) = Ok d →
  ∃ gs entries, d = DObject entries ∧ defined_members ms ≡ₚ gs ∧
    Forall2 (λ p m, nfc p.1 = m.1 ∧ read p.2 = Ok m.2) gs entries.
Proof.
  rewrite read_object, normalized_entries_read. cbn zeta. case_bool_decide; [|done]. cbn.
  destruct (traverse _ _) as [entries|] eqn:Htr; cbn; [|done]. intros [= <-].
  apply traverse_entries in Htr.
  pose proof (sort_by_perm key_leb
    (map (λ m, (nfc m.1, read m.2)) (defined_members ms))) as Hperm.
  rewrite Htr in Hperm. symmetry in Hperm.
  destruct (Permutation_map_inv _ _ (Permutation_sym Hperm)) as (gs & Heq & Hgs).
  exists gs, entries. split; [done|]. split; [done|].
  clear - Heq. revert entries Heq.
  induction gs as [|p gs IH]; intros [|m entries] Heq; try done.
  cbn in Heq. injection Heq as Hk Hv Heq. constructor; [by split|auto].
Qed.

(** The value a document was read from. *)
Definition reads (w : json) (d : document) : Prop :=
  match d with
  | DNull => w = JNull
  | DBool b => w = JBool b
  | DInt z => ∃ n, w = JNumber n ∧ is_finite n = true ∧ integer_value n = Some z
  | DString s => ∃ t, w = JString t ∧ nfc t = s
  | DArray ds => ∃ ws, w = JArray ws ∧ map read ws = map Ok ds
  | DObject entries => ∃ ms gs, w = JObject ms ∧ defined_members ms ≡ₚ gs ∧
      Forall2 (λ p m, nfc p.1 = m.1 ∧ read p.2 = Ok m.2) gs entries
  end.

Lemma read_inv w d : read w = Ok d → reads w d.
Proof.
  destruct w as [| |b|n|s|ws|ms]; intros Hw; try (injection Hw as <-; cbn; eauto; done).
  - done.
  - cbn in Hw. destruct (is_finite n) eqn:Hfin; [|done]. unfold safe_integer in Hw.
    destruct (integer_value n) as [z|] eqn:Hz; cbn in Hw; [|done].
    case_match; cbn in Hw; [|done]. injection Hw as <-. cbn. eauto.
  - cbn in Hw. destruct (traverse _ _) as [ds|] eqn:Hds; cbn in Hw; [|done].
    injection Hw as <-. apply traverse_values in Hds. cbn. eauto.
  - apply read_object_members in Hw as (gs & entries & -> & Hgs & Hentries). cbn. eauto.
Qed.

Lemma Forall2_same_entries gs hs entries :
  Forall (λ m, ∀ w d, read m.2 = Ok d → read w = Ok d → json_equiv m.2 w) gs →
  Forall2 (λ p m, nfc p.1 = m.1 ∧ read p.2 = Ok m.2) gs entries →
  Forall2 (λ p m, nfc p.1 = m.1 ∧ read p.2 = Ok m.2) hs entries →
  Forall2 (λ p q, nfc p.1 = nfc q.1 ∧ json_equiv p.2 q.2) gs hs.
Proof.
  intros Hgs Hge. revert hs. induction Hge as [|p m gs entries [Hk Hv] _ IH]; intros hs Hhe.
  - inversion Hhe. constructor.
  - inversion Hhe as [|q ? hs' ? [Hk' Hv'] Hhe']; subst.
    apply Forall_cons in Hgs as [Hp Hgs].
    constructor; [split; [congruence|by eapply Hp]|auto].
Qed.

Lemma Forall2_read_sound vs ws ds :
  Forall (λ v, ∀ w d, read v = Ok d → read w = Ok d → json_equiv v w) vs →
  map read vs = map Ok ds → map read ws = map Ok ds → Forall2 json_equiv vs ws.
Proof.
  intros Hvs. revert ws ds. induction Hvs as [|v vs Hv _ IH];
    intros [|w ws] [|d ds]; try done.
  cbn. intros [= Hvd Hvs] [= Hwd Hws]. constructor; eauto.
Qed.

Lemma read_sound v w d : read v = Ok d → read w = Ok d → json_equiv v w.
Proof.
  revert w d. induction v as [| |b|n|s|vs IH|ms IH] using json_ind'; intros w d Hv Hw;
    apply read_inv in Hv; apply read_inv in Hw; destruct d as [|b'|z|t|ds|entries];
    cbn in Hv, Hw; destruct_and?; try (naive_solver constructor; fail); simplify_eq;
    try (constructor; fail).
  - destruct Hv as (? & [= <-] & Hn & Hz), Hw as (n' & -> & Hn' & Hz').
    constructor; congruence.
  - destruct Hv as (? & [= <-] & Hs), Hw as (t' & -> & Ht). constructor. congruence.
  - destruct Hv as (? & [= <-] & Hvs), Hw as (ws & -> & Hws). constructor.
    by eapply Forall2_read_sound.
  - destruct Hv as (? & gs & [= <-] & Hgs & Hge), Hw as (fs & hs & -> & Hhs & Hhe).
    assert (Forall (λ m, ∀ w d, read m.2 = Ok d → read w = Ok d → json_equiv m.2 w) gs)
      as Hgs_IH.
    { rewrite Forall_forall in IH |- *. intros m Hm. apply IH. rewrite <- Hgs in Hm.
      by eapply elem_of_defined_members. }
    pose proof (Forall2_same_entries gs hs entries Hgs_IH Hge Hhe) as Hgh.
    apply Forall2_flip, (Permutation_Forall2 (Permutation_sym Hhs)) in Hgh as (gs' & Hgs' & Hgh).
    apply Forall2_flip in Hgh. apply (equiv_object _ _ gs'); [by rewrite Hgs, Hgs'|exact Hgh].
Qed.

(** *** The text is the document *)

Lemma read_number n : (∃ d, read (JNumber n) = Ok d) ↔ ∃ z, safe_integer n = Some z.
Proof.
  cbn [read]. destruct n as [|neg|m e]; cbn [is_finite negb].
  1, 2: split; intros [? ?]; done.
  destruct (safe_integer _); cbn; split; intros [? ?]; try done; eauto.
Qed.

Lemma fmap_Ok_total {A B} (f : A → B) (r : res canonical_error A) :
  (∃ b, f <$> r = Ok b) ↔ ∃ a, r = Ok a.
Proof. destruct r; cbn; split; intros [? ?]; try done; eauto. Qed.

Lemma representable_read v : representable v = true ↔ ∃ d, read v = Ok d.
Proof.
  induction v as [| |b|n|s|vs IH|ms IH] using json_ind'; cbn [representable];
    try (split; [cbn; eauto|done]; fail).
  - split; [done|]. by intros [? ?].
  - rewrite read_number. destruct (safe_integer n); split; try done; eauto. by intros [? ?].
  - cbn [read]. rewrite fmap_Ok_total, traverse_total, forallb_forall.
    setoid_rewrite <- list_elem_of_In. setoid_rewrite list_elem_of_fmap.
    rewrite Forall_forall in IH. split.
    + intros Hvs r (v & -> & Hv). apply IH; auto.
    + intros Hvs v Hv. apply IH; [done|]. eapply Hvs. eauto.
  - rewrite read_object, normalized_entries_read. cbn zeta.
    rewrite andb_true_iff, bool_decide_eq_true, <- list_fmap_compose.
    case_bool_decide as Hnd; cbn; [|split; [by intros [? _]|by intros [? ?]]].
    rewrite fmap_Ok_total, traverse_total, forallb_forall. rewrite Forall_forall in IH.
    setoid_rewrite <- list_elem_of_In. setoid_rewrite elem_of_sort_by.
    setoid_rewrite list_elem_of_fmap. split.
    + intros [_ Hms] [k r] ([k' v] & [= -> ->] & Hm).
      destruct (proj1 (IH _ (elem_of_defined_members _ _ Hm))) as [d Hd].
      * specialize (Hms _ (elem_of_defined_members _ _ Hm)). cbn in Hms.
        pose proof (defined_members_is_defined _ _ Hm) as Hdef. cbn in Hdef. by rewrite Hdef in Hms.
      * exists (nfc k', d). cbn in *. by rewrite Hd.
    + intros Hms. split; [done|]. intros [k v] Hm.
      destruct (is_defined v) eqn:Hdef; [|done]. cbn. apply (IH _ Hm).
      destruct (Hms (nfc k, read v)) as [[k' d] Hd].
      * exists (k, v). split; [done|]. by apply elem_of_defined_members_2.
      * cbn in Hd |- *. destruct (read v); [eauto|done].
Qed.

Lemma sameJson_equiv v w b : sameJson v w = Ok b → b = true ↔ json_equiv v w.
Proof.
  unfold sameJson. rewrite !canonicalizeJson_read. 
  destruct (read v) as [d|] eqn:Hv, (read w) as [d'|] eqn:Hw; try done.
  cbn. intros [= <-]. rewrite String.eqb_eq. split.
  - intros ->%print_inj. by eapply read_sound.
  - intros Heq%read_equiv. congruence.
Qed.

Lemma canonicalizeJson_Ok v : representable v = true → ∃ s, canonicalizeJson v = Ok s.
Proof. rewrite representable_read, canonicalizeJson_read. by rewrite fmap_Ok_total. Qed.

Lemma sha256Canonical_Ok `{Digest} v : representable v = true → ∃ s, sha256Canonical v = Ok s.
Proof. intros [s Hs]%canonicalizeJson_Ok. unfold sha256Canonical. rewrite Hs. cbn. eauto. Qed.

Lemma sameJson_Ok v w :
  representable v = true → representable w = true → ∃ b, sameJson v w = Ok b.
Proof.
  intros [s Hs]%canonicalizeJson_Ok [t Ht]%canonicalizeJson_Ok.
  unfold sameJson. rewrite Hs, Ht. cbn. eauto.
Qed.

Lemma sameJson_refl v : representable v = true → sameJson v v = Ok true.
Proof.
  intros [s Hs]%canonicalizeJson_Ok. unfold sameJson. rewrite Hs. cbn. by rewrite String.eqb_refl.
Qed.

Lemma sha256Canonical_representable `{Digest} v f : sha256Canonical v = Ok f → representable v = true.
Proof.
  unfold sha256Canonical. rewrite bind_Ok_inv, canonicalizeJson_read. intros (s & Hs & _).
  apply representable_read. destruct (read v); [eauto|done].
Qed.
End factorisation.

(** ** Properties *)

Section properties.
Context `{Unicode}.

(** C2. Canonical JSON identifies documents: two values have the same
    canonical text exactly when they are the same JSON document up to the
    order of object members, absent members and NFC. *)
Theorem canonicalizeJson_characterises v w s :
  canonicalizeJson v = Ok s → (canonicalizeJson w = Ok s ↔ json_equiv v w).
Proof.
  rewrite !canonicalizeJson_read. destruct (read v) as [d|] eqn:Hv; cbn; [|done].
  intros [= <-]. split.
  - destruct (read w) as [d'|] eqn:Hw; cbn; [|done].
    intros [= ->%print_inj]. by eapply read_sound.
  - intros Hvw%read_equiv. by rewrite <- Hvw, Hv.
Qed.

(** Canonicalisation succeeds exactly on values built from safe integers,
    strings, booleans, null, defined items and keys distinct after NFC. *)
Theorem canonicalizeJson_defined v :
  representable v = true ↔ ∃ s, canonicalizeJson v = Ok s.
Proof.
  rewrite representable_read, canonicalizeJson_read. by rewrite fmap_Ok_total.
Qed.

(** Equal fingerprints mean equal documents or a SHA-256 collision. *)
Theorem sha256Canonical_sound `{Digest} v w f :
  sha256Canonical v = Ok f → sha256Canonical w = Ok f →
  json_equiv v w ∨ ∃ s t, s ≠ t ∧ sha256_hex s = sha256_hex t.
Proof.
  unfold sha256Canonical. rewrite !bind_Ok_inv.
  intros (s & Hs & [= <-]) (t & Ht & Hf).
  injection Hf as Hf. destruct (decide (s = t)) as [->|Hne]; [|right; eauto].
  left. rewrite canonicalizeJson_read in Hs, Ht.
  destruct (read v) as [d|] eqn:Hv, (read w) as [d'|] eqn:Hw; try done.
  cbn in Hs, Ht. assert (d = d') as -> by (apply print_inj; congruence).
  by eapply read_sound.
Qed.
End properties.

(** ** Witnesses *)

(** On the code units below 256 every string is its own NFC form. *)
#[export] Instance latin1 : Unicode | 100 := {| nfc := λ s, s |}.

Definition sample_left : json := JObject [("b", int 1); ("a", JArray [JNull; JBool true])].
Definition sample_right : json :=
  JObject [("a", JArray [JNull; JBool true]); ("c", JUndefined); ("b", int 1)].

Lemma canonicalizeJson_characterises_witness :
  ∃ s, canonicalizeJson sample_left = Ok s ∧
    (canonicalizeJson sample_right = Ok s ↔ json_equiv sample_left sample_right).
Proof.
  eexists. split; [reflexivity|].
  apply (canonicalizeJson_characterises sample_left sample_right). reflexivity.
Defined.

Lemma sha256Canonical_sound_witness :
  let digest : Digest := {| sha256_hex := λ s, s |} in
  json_equiv sample_left sample_right ∨ ∃ s t, s ≠ t ∧ sha256_hex s = sha256_hex t.
Proof.
  intros digest. eapply (sha256Canonical_sound sample_left sample_right); reflexivity.
Defined.
