(* ===== verification/Locks.v ===== *)
(** * Locks of protected calendars

    [server/src/calendar-protection-lock.ts]: the advisory locks that a
    transaction takes before it decides whether a calendar may be copied or
    must stay private. The lock table is a finite map of the sessions under
    way; a session takes the keys of [lockProtectedSourceCalendars] one by one,
    waits while another session holds the number a key hashes to, and gives all
    of them back when its transaction ends. *)

From S2P Require Import Prelude Canonical.
From stdpp Require Import options.
Open Scope Z_scope.

(** ** Keys *)

(** [JSON.stringify([tag, organizationId, calendarId])]. *)
Definition protection_key (organizationId calendarId : string) : string :=
  "[" +:+ stringify "planipus:no-copy-source:v1" +:+ "," +:+ stringify organizationId +:+ "," +:+ stringify calendarId +:+ "]".

(** The keys of [lockProtectedSourceCalendars], in the order it takes them. *)
Definition lock_keys (organizationId : string) (calendarIds : list string) : list string :=
  sort_by text_leb (new_set (map (protection_key organizationId) calendarIds)).

(** [providerCalendarProtectionKey] of [providers/calendar-identity.ts]. *)
Definition providerCalendarProtectionKey (identity : string) : string := "provider-calendar:" +:+ identity.

Lemma protection_key_injective organization calendar organization' calendar' :
  protection_key organization calendar = protection_key organization' calendar' ↔
  organization = organization' ∧ calendar = calendar'.
Proof.
  assert (∀ c s s', String c "" +:+ s = String c "" +:+ s' → s = s') as Hcons by (intros ??? Heq; by injection Heq).
  split; [|by intros [-> ->]]. unfold protection_key. intros Heq%Hcons.
  apply stringify_prefix in Heq as [_ Heq%Hcons]. apply stringify_prefix in Heq as [-> Heq%Hcons].
  by apply stringify_prefix in Heq as [-> _].
Qed.

Lemma elem_of_lock_keys organization calendars k :
  k ∈ lock_keys organization calendars ↔ ∃ c, c ∈ calendars ∧ k = protection_key organization c.
Proof. unfold lock_keys. rewrite elem_of_sort_by, elem_of_new_set, list_elem_of_fmap. naive_solver. Qed.

Lemma lock_keys_sorted organization calendars :
  StronglySorted (λ x y, text_leb x y = true) (lock_keys organization calendars).
Proof. apply sort_by_sorted; [apply text_leb_total|apply text_leb_trans]. Qed.

Lemma lock_keys_NoDup organization calendars : NoDup (lock_keys organization calendars).
Proof. unfold lock_keys. rewrite sort_by_perm. apply NoDup_new_set. Qed.

(** ** The lock table *)

(** [hashtextextended(key, 0)]. *)
Class LockHash := { hashtextextended : string → Z }.

Record Session := {
  session_organization : string;
  session_calendars : list string;
  held : list string;
  wanted : list string;
}.

Definition start_session (organization : string) (calendars : list string) : Session :=
  {| session_organization := organization; session_calendars := calendars; held := [];
     wanted := lock_keys organization calendars |}.

Definition take_lock (k : string) (rest : list string) (x : Session) : Session :=
  {| session_organization := session_organization x; session_calendars := session_calendars x;
     held := k :: held x; wanted := rest |}.

Notation LockTable := (gmap nat Session).

Section locks.
Context `{LockHash}.

(** [pg_advisory_xact_lock] waits for no other session. *)
Definition free_for (t : nat) (k : string) (s : LockTable) : Prop :=
  ∀ t' x' k', s !! t' = Some x' → t' ≠ t → k' ∈ held x' → hashtextextended k' ≠ hashtextextended k.

(** A session goes on: it takes its next lock, or its transaction ends. *)
Inductive advance : LockTable → LockTable → Prop :=
| session_acquires s t x k rest :
    s !! t = Some x → wanted x = k :: rest → free_for t k s →
    advance s (<[t := take_lock k rest x]> s)
| session_ends s t x :
    s !! t = Some x → wanted x = [] → advance s (delete t s).

(** What can happen: sessions start, go on, or are rolled back at any time. *)
Inductive lock_step : LockTable → LockTable → Prop :=
| session_starts s t organization calendars :
    s !! t = None → lock_step s (<[t := start_session organization calendars]> s)
| session_advances s s' : advance s s' → lock_step s s'
| session_fails s t x : s !! t = Some x → lock_step s (delete t s).

(** ** Invariant *)

(** A session holds the first of its keys and wants the others. *)
Definition session_ok (x : Session) : Prop :=
  reverse (held x) ++ wanted x = lock_keys (session_organization x) (session_calendars x).

Record table_ok (s : LockTable) : Prop := {
  table_sessions : ∀ t x, s !! t = Some x → session_ok x;
  table_exclusive : ∀ t t' x x' k k', s !! t = Some x → s !! t' = Some x' → t ≠ t' →
    k ∈ held x → k' ∈ held x' → hashtextextended k ≠ hashtextextended k';
}.

Lemma table_ok_empty : table_ok ∅.
Proof. split; intros *; rewrite lookup_empty; done. Qed.

Lemma table_ok_delete s t : table_ok s → table_ok (delete t s).
Proof.
  intros [Hs He]. split.
  - intros t' x [_ Hx]%lookup_delete_Some. by apply (Hs t').
  - intros t1 t2 x1 x2 k1 k2 [_ H1]%lookup_delete_Some [_ H2]%lookup_delete_Some. by apply He.
Qed.

Lemma table_ok_take s t x k rest :
  table_ok s → s !! t = Some x → wanted x = k :: rest → free_for t k s → table_ok (<[t := take_lock k rest x]> s).
Proof.
  intros [Hs He] Hx Hw Hfree. split.
  - intros t' x' [[<- <-]|[_ Hx']]%lookup_insert_Some; [|by apply (Hs t')].
    pose proof (Hs t x Hx) as Hok. unfold session_ok in *.
    cbn [held wanted take_lock session_organization session_calendars].
    by rewrite reverse_cons, <-Hok, Hw, <-app_assoc.
  - intros t1 t2 x1 x2 k1 k2 [[<- <-]|[Hn1 H1]]%lookup_insert_Some [[<- <-]|[Hn2 H2]]%lookup_insert_Some Hne Hk1 Hk2; [done|..].
    + cbn in Hk1. apply elem_of_cons in Hk1 as [->|Hk1]; [|by eapply (He t t2)].
      apply not_eq_sym. by eapply Hfree.
    + cbn in Hk2. apply elem_of_cons in Hk2 as [->|Hk2]; [|by eapply (He t1 t)]. by eapply Hfree.
    + by eapply (He t1 t2).
Qed.

Lemma table_ok_start s t organization calendars :
  table_ok s → s !! t = None → table_ok (<[t := start_session organization calendars]> s).
Proof.
  intros [Hs He] Hnew. split.
  - intros t' x' [[<- <-]|[_ Hx']]%lookup_insert_Some; [done|by apply (Hs t')].
  - intros t1 t2 x1 x2 k1 k2 [[<- <-]|[_ H1]]%lookup_insert_Some [[<- <-]|[_ H2]]%lookup_insert_Some Hne Hk1 Hk2;
      [done|by apply elem_of_nil in Hk1|by apply elem_of_nil in Hk2|by eapply (He t1 t2)].
Qed.

Lemma lock_step_ok s s' : lock_step s s' → table_ok s → table_ok s'.
Proof.
  intros [] Hok; [by apply table_ok_start| |by apply table_ok_delete].
  match goal with Ha : advance _ _ |- _ => destruct Ha end; [by apply table_ok_take|by apply table_ok_delete].
Qed.

Lemma reachable_ok s : rtc lock_step ∅ s → table_ok s.
Proof.
  apply (rtc_ind_r table_ok); [apply table_ok_empty|]. intros s1 s2 _ Hstep. by apply lock_step_ok.
Qed.

(** Two sessions that have all their locks share no calendar. *)
Lemma locked_disjoint s t t' x x' c :
  table_ok s → s !! t = Some x → s !! t' = Some x' → t ≠ t' →
  wanted x = [] → wanted x' = [] → session_organization x = session_organization x' →
  c ∈ session_calendars x → c ∈ session_calendars x' → False.
Proof.
  intros [Hs He] Hx Hx' Hne Hw Hw' Horg Hc Hc'.
  pose proof (Hs t x Hx) as Hk. pose proof (Hs t' x' Hx') as Hk'. unfold session_ok in *.
  rewrite Hw, app_nil_r in Hk. rewrite Hw', app_nil_r in Hk'.
  eapply (He t t' x x'); [done..| | |reflexivity].
  - apply elem_of_reverse. rewrite Hk. apply elem_of_lock_keys. by exists c.
  - apply elem_of_reverse. rewrite Hk'. apply elem_of_lock_keys. exists c. by rewrite Horg.
Qed.

(** ** Progress *)

(** The locks that are still to be taken and the transactions to be ended. *)
Definition work_left (s : LockTable) : nat := map_fold (λ _ x n, S (length (wanted x)) + n)%nat 0%nat s.

Lemma work_left_insert (s : LockTable) t x : s !! t = None → work_left (<[t := x]> s) = (S (length (wanted x)) + work_left s)%nat.
Proof. intros Hnew. unfold work_left. rewrite map_fold_insert_L; [done|intros; lia|done]. Qed.

Lemma work_left_delete (s : LockTable) t x : s !! t = Some x → work_left s = (S (length (wanted x)) + work_left (delete t s))%nat.
Proof.
  intros Hx. rewrite <-(insert_delete_id s t x) at 1 by done. apply work_left_insert. apply lookup_delete_eq.
Qed.

Lemma advance_work s s' : advance s s' → (work_left s' < work_left s)%nat.
Proof.
  intros [? t x k rest Hx Hw _|? t x Hx Hw].
  - rewrite <-insert_delete_eq, work_left_insert by apply lookup_delete_eq.
    rewrite (work_left_delete _ t x Hx), Hw. cbn. lia.
  - rewrite (work_left_delete _ t x Hx), Hw. cbn. lia.
Qed.

(** The greatest of the keys that are wanted next. *)
Lemma greatest_wanted (s : LockTable) :
  s ≠ ∅ → (∀ t x, s !! t = Some x → wanted x ≠ []) →
  ∃ t x k rest, s !! t = Some x ∧ wanted x = k :: rest ∧
    ∀ t' x' k' rest', s !! t' = Some x' → wanted x' = k' :: rest' → text_leb k' k = true.
Proof.
  induction s as [|t x s Hnew IH] using map_ind; intros Hne Hwait; [done|].
  destruct (wanted x) as [|k rest] eqn:Hw; [by destruct (Hwait t x (lookup_insert_eq _ _ _))|].
  destruct (decide (s = ∅)) as [->|Hs].
  - exists t, x, k, rest. rewrite lookup_insert_eq. split_and!; [done..|].
    intros t' x' k' rest' [[_ <-]|[_ Hx']]%lookup_insert_Some Hw'; [|done]. rewrite Hw in Hw'. injection Hw' as <- _.
    by destruct (text_leb_total k k).
  - destruct (IH Hs) as (t1 & x1 & k1 & rest1 & Hx1 & Hw1 & Hmax).
    { intros t' x' Hx'. apply (Hwait t'). rewrite lookup_insert_ne; [done|]. intros <-. congruence. }
    assert (t ≠ t1) as Hdiff by (intros <-; congruence).
    destruct (text_leb_total k k1) as [Hle|Hle].
    + exists t1, x1, k1, rest1. rewrite lookup_insert_ne by done. split_and!; [done..|].
      intros t' x' k' rest' [[_ <-]|[_ Hx']]%lookup_insert_Some Hw'; [|by eapply Hmax].
      rewrite Hw in Hw'. by injection Hw' as <- _.
    + exists t, x, k, rest. rewrite lookup_insert_eq. split_and!; [done..|].
      intros t' x' k' rest' [[_ <-]|[_ Hx']]%lookup_insert_Some Hw'.
      * rewrite Hw in Hw'. injection Hw' as <- _. by destruct (text_leb_total k k).
      * eapply text_leb_trans; [by eapply Hmax|done].
Qed.

(** What a session holds comes before what it wants. *)
Lemma held_before_wanted (x : Session) k k' rest :
  session_ok x → k ∈ held x → wanted x = k' :: rest → text_leb k k' = true ∧ k ≠ k'.
Proof.
  unfold session_ok. intros Hok Hk Hw. rewrite Hw in Hok.
  pose proof (lock_keys_sorted (session_organization x) (session_calendars x)) as Hsorted.
  pose proof (lock_keys_NoDup (session_organization x) (session_calendars x)) as Hnodup.
  rewrite <-Hok in Hsorted, Hnodup. assert (k ∈ reverse (held x)) as Hk' by (by apply elem_of_reverse).
  split.
  - apply (StronglySorted_app_1_elem_of _ _ _ k k' Hsorted Hk'). by left.
  - intros ->. apply NoDup_app in Hnodup as (_ & Hdis & _). apply (Hdis k' Hk'). by left.
Qed.

Section progress.
Context (distinct : ∀ k k' : string, hashtextextended k = hashtextextended k' → k = k').

Lemma some_session_advances s : table_ok s → s ≠ ∅ → ∃ s', advance s s'.
Proof using distinct.
  intros [Hs He] Hne.
  destruct (decide (map_Forall (λ _ x, wanted x ≠ []) s)) as [Hwait|Hdone].
  - destruct (greatest_wanted s Hne Hwait) as (t & x & k & rest & Hx & Hw & Hmax).
    exists (<[t := take_lock k rest x]> s). apply session_acquires; [done..|].
    intros t' x' k' Hx' Hdiff Hk' Heq%distinct. subst k'.
    destruct (wanted x') as [|k2 rest2] eqn:Hw'; [by eapply (Hwait t')|].
    destruct (held_before_wanted x' k k2 rest2 (Hs t' x' Hx') Hk' Hw') as [Hle Hneq].
    apply Hneq. apply text_leb_antisym; [done|]. by eapply Hmax.
  - apply map_not_Forall in Hdone as (t & x & Hx & Hw); [|intros ??; apply _]. apply dec_stable in Hw.
    exists (delete t s). by eapply session_ends.
Qed.

End progress.

(** The locks exclude: two transactions of an organisation that have taken
    all their locks share no calendar, so what one of them checks about a calendar
    stays true until it commits. *)
Theorem locks_exclude s t t' x x' c :
  rtc lock_step ∅ s → s !! t = Some x → s !! t' = Some x' → t ≠ t' →
  wanted x = [] → wanted x' = [] → session_organization x = session_organization x' →
  c ∈ session_calendars x → c ∉ session_calendars x'.
Proof. intros Hreach%reachable_ok Hx Hx' Hne Hw Hw' Horg Hc Hc'. exact (locked_disjoint s t t' x x' c Hreach Hx Hx' Hne Hw Hw' Horg Hc Hc'). Qed.
End locks.

(** ** Examples *)

Module Samples.
(** Every text has its number. *)
#[local] Instance numbers : LockHash := { hashtextextended k := Zpos (encode k) }.

Lemma numbers_distinct (k k' : string) : hashtextextended k = hashtextextended k' → k = k'.
Proof. cbn. intros [= Heq]. by apply (inj encode) in Heq. Qed.

(** A bridge and a rule that lock the same calendars in different orders. *)
Definition bridge : Session := start_session "org" ["home"; "work"; "home"].
Definition rule : Session := start_session "org" ["work"; "kids"; "home"].

Definition both : LockTable := <[1%nat := rule]> (<[0%nat := bridge]> ∅).

Lemma both_reachable : rtc lock_step ∅ both.
Proof.
  eapply rtc_l; [by apply (session_starts ∅ 0%nat "org" ["home"; "work"; "home"])|].
  eapply rtc_l; [by apply (session_starts _ 1%nat "org" ["work"; "kids"; "home"])|]. apply rtc_refl.
Qed.


(** Two transactions that hold the lock of their calendar. *)
Definition home_key : string := protection_key "org" "home".
Definition kids_key : string := protection_key "org" "kids".
Definition at_home : LockTable := <[0%nat := start_session "org" ["home"]]> ∅.
Definition home_locked : LockTable := <[0%nat := take_lock home_key [] (start_session "org" ["home"])]> at_home.
Definition kids_wait : LockTable := <[1%nat := start_session "org" ["kids"]]> home_locked.
Definition locked : LockTable := <[1%nat := take_lock kids_key [] (start_session "org" ["kids"])]> kids_wait.

Lemma locked_reachable : rtc lock_step ∅ locked.
Proof.
  apply (rtc_l _ _ at_home); [by apply session_starts|]. apply (rtc_l _ _ home_locked).
  { apply session_advances, session_acquires; [done|vm_compute; done|].
    unfold at_home. intros t' x' k' [[<- _]|[_ Hx']]%lookup_insert_Some; [done|]. by rewrite lookup_empty in Hx'. }
  apply (rtc_l _ _ kids_wait); [by apply session_starts|]. apply (rtc_l _ _ locked); [|apply rtc_refl].
  apply session_advances, session_acquires; [done|vm_compute; done|].
  unfold kids_wait, home_locked, at_home. intros t' x' k' [[<- _]|[_ Hx']]%lookup_insert_Some; [done|].
  apply lookup_insert_Some in Hx' as [[<- <-]|[Hne Hx']].
  - intros _ ->%list_elem_of_singleton Heq%numbers_distinct. vm_compute in Heq. discriminate Heq.
  - rewrite lookup_insert_ne in Hx' by done. by rewrite lookup_empty in Hx'.
Qed.

Lemma locks_exclude_witness :
  (held <$> locked !! 0%nat) = Some [home_key] ∧ (held <$> locked !! 1%nat) = Some [kids_key] ∧ "home" ∉ ["kids"].
Proof.
  split; [vm_compute; reflexivity|]. split; [vm_compute; reflexivity|].
  apply (locks_exclude locked 0%nat 1%nat (take_lock home_key [] (start_session "org" ["home"]))
    (take_lock kids_key [] (start_session "org" ["kids"])) "home" locked_reachable); try reflexivity; [discriminate|by left].
Defined.
End Samples.
