(* ===== verification/DestinationEdits.v ===== *)
(** * Destination-edit policy

    [packages/calendar-sync/src/destination-edits.ts]: what is done when a
    person edits or deletes a managed copy on the destination calendar. *)

From S2P Require Import Prelude Canonical.
From stdpp Require Import options.

Inductive DestinationEditMode := restore | restore_and_notify | hold_for_review.

(** [version] is the literal [1] of the type. *)
Record DestinationEditPolicy := {
  on_edit : DestinationEditMode;
  on_delete : DestinationEditMode
}.

Definition DEFAULT_DESTINATION_EDIT_POLICY : DestinationEditPolicy :=
  {| on_edit := restore_and_notify; on_delete := restore_and_notify |}.

Inductive DestinationEditObservationKind := drifted | missing.

Inductive DestinationEditNoticeKind :=
| copy_edit_reverted | copy_delete_restored | copy_edit_held | copy_delete_held.

Inductive DestinationEditSafeErrorCode :=
| destination_drift | destination_missing | destination_edit_held | destination_delete_held.

(** The tagged union of the source: a repair may carry no notice, a hold
    always carries one. *)
Inductive DestinationEditResponse :=
| repair (notice : option DestinationEditNoticeKind) (safe_error_code : DestinationEditSafeErrorCode)
| hold (notice : DestinationEditNoticeKind) (safe_error_code : DestinationEditSafeErrorCode).

#[export] Instance DestinationEditMode_eq_dec : EqDecision DestinationEditMode.
Proof. solve_decision. Defined.
#[export] Instance DestinationEditPolicy_eq_dec : EqDecision DestinationEditPolicy.
Proof. solve_decision. Defined.
#[export] Instance DestinationEditNoticeKind_eq_dec : EqDecision DestinationEditNoticeKind.
Proof. solve_decision. Defined.
#[export] Instance DestinationEditSafeErrorCode_eq_dec : EqDecision DestinationEditSafeErrorCode.
Proof. solve_decision. Defined.

(** The text a mode has in a stored document. *)
Definition mode_text (mode : DestinationEditMode) : string :=
  match mode with
  | restore => "restore"
  | restore_and_notify => "restore_and_notify"
  | hold_for_review => "hold_for_review"
  end.

Definition MODES : list DestinationEditMode := [restore; restore_and_notify; hold_for_review].

(** The member of [MODES] a JavaScript value is, if it is one. *)
Definition mode_of (value : json) : option DestinationEditMode :=
  match value with
  | JString s => find (λ mode, (mode_text mode =? s)%string) MODES
  | _ => None
  end.

(** [value === z] for an integer literal [z]. *)
Definition is_integer (value : json) (z : Z) : bool :=
  match value with
  | JNumber n => bool_decide (integer_value n = Some z)
  | _ => false
  end.

(** The policy a value is, when the type guard accepts it: an object that is
    neither [null] nor an array, with version 1 and two known modes. *)
Definition isDestinationEditPolicy (value : json) : option DestinationEditPolicy :=
  match value with
  | JObject candidate =>
      if is_integer (member candidate "version") 1 then
        on_edit ← mode_of (member candidate "on_edit");
        on_delete ← mode_of (member candidate "on_delete");
        Some {| on_edit := on_edit; on_delete := on_delete |}
      else None
  | _ => None
  end.

Definition normalizeDestinationEditPolicy (value : json) : DestinationEditPolicy :=
  match isDestinationEditPolicy value with
  | Some policy => policy
  | None => DEFAULT_DESTINATION_EDIT_POLICY
  end.

Definition planDestinationEditResponse
    (policy : DestinationEditPolicy) (observed : DestinationEditObservationKind)
    : DestinationEditResponse :=
  let mode := match observed with drifted => on_edit policy | missing => on_delete policy end in
  if decide (mode = hold_for_review) then
    match observed with
    | drifted => hold copy_edit_held destination_edit_held
    | missing => hold copy_delete_held destination_delete_held
    end
  else
    let notice :=
      if decide (mode = restore) then None
      else Some (match observed with drifted => copy_edit_reverted | missing => copy_delete_restored end) in
    repair notice (match observed with drifted => destination_drift | missing => destination_missing end).

(** ** The stored form *)

Definition policy_document (policy : DestinationEditPolicy) : json :=
  JObject [("version", int 1); ("on_edit", JString (mode_text (on_edit policy)));
           ("on_delete", JString (mode_text (on_delete policy)))].

(** The mode a policy applies to an observation. *)
Definition mode_for (policy : DestinationEditPolicy) (observed : DestinationEditObservationKind)
    : DestinationEditMode :=
  match observed with drifted => on_edit policy | missing => on_delete policy end.

(** The stored member that configures an observation. *)
Definition mode_member (observed : DestinationEditObservationKind) : string :=
  match observed with drifted => "on_edit" | missing => "on_delete" end.

(** ** Lemmas *)

Lemma mode_of_text mode : mode_of (JString (mode_text mode)) = Some mode.
Proof. by destruct mode. Qed.

Lemma mode_of_inv value mode : mode_of value = Some mode → value = JString (mode_text mode).
Proof.
  destruct value; cbn [mode_of]; try done. unfold MODES. cbn [find].
  repeat case_match; intros [= <-]; bool_to_prop; by subst.
Qed.

Lemma isDestinationEditPolicy_inv value policy :
  isDestinationEditPolicy value = Some policy →
  ∃ candidate, value = JObject candidate ∧
    ∀ observed, member candidate (mode_member observed) = JString (mode_text (mode_for policy observed)).
Proof.
  destruct value as [| | | | | |candidate]; cbn; try done.
  case_match; [|done].
  destruct (mode_of (member candidate "on_edit")) as [e|] eqn:He; cbn; [|done].
  destruct (mode_of (member candidate "on_delete")) as [d|] eqn:Hd; cbn; [|done].
  intros [= <-]. exists candidate. split; [done|].
  by intros []; cbn; apply mode_of_inv.
Qed.

(** ** Properties *)

(** A stored policy is read back, and every other value means the
    notify-by-default policy. *)
Theorem normalizeDestinationEditPolicy_roundtrip policy :
  normalizeDestinationEditPolicy (policy_document policy) = policy.
Proof. by destruct policy as [[] []]. Qed.

(** A divergence is repaired without a notice only when the stored document
    itself says "restore" for it. *)
Theorem silent_repair_is_configured value observed code :
  planDestinationEditResponse (normalizeDestinationEditPolicy value) observed = repair None code →
  ∃ candidate, value = JObject candidate ∧
    member candidate (mode_member observed) = JString "restore".
Proof.
  intros Hplan. assert (mode_for (normalizeDestinationEditPolicy value) observed = restore) as Hmode.
  { revert Hplan. unfold planDestinationEditResponse.
    by destruct observed; cbn; repeat case_decide. }
  unfold normalizeDestinationEditPolicy in Hmode.
  destruct (isDestinationEditPolicy value) as [policy|] eqn:Hpolicy; [|by destruct observed].
  apply isDestinationEditPolicy_inv in Hpolicy as (candidate & -> & Hmember).
  exists candidate. split; [done|]. by rewrite Hmember, Hmode.
Qed.

(** The response is a hold exactly in the review mode, a hold always carries
    the notice of its observation, and no mode makes the edit authoritative. *)
Theorem planDestinationEditResponse_spec policy observed :
  planDestinationEditResponse policy observed =
  match mode_for policy observed, observed with
  | hold_for_review, drifted => hold copy_edit_held destination_edit_held
  | hold_for_review, missing => hold copy_delete_held destination_delete_held
  | restore, drifted => repair None destination_drift
  | restore, missing => repair None destination_missing
  | restore_and_notify, drifted => repair (Some copy_edit_reverted) destination_drift
  | restore_and_notify, missing => repair (Some copy_delete_restored) destination_missing
  end.
Proof. by destruct policy as [[] []], observed. Qed.

Lemma silent_repair_is_configured_witness :
  ∃ candidate, policy_document {| on_edit := restore; on_delete := hold_for_review |} = JObject candidate ∧
    member candidate (mode_member drifted) = JString "restore".
Proof.
  apply (silent_repair_is_configured _ drifted destination_drift). reflexivity.
Defined.
