(* ===== verification/Dates.v ===== *)
(** * Civil dates and JavaScript [Date]

    The proleptic Gregorian calendar on day numbers, and what the sources use
    of [Date] and of the ECMAScript date-time string format: [toISOString],
    [Date.parse], and the date arithmetic of [addLocalDays]
    ([server/src/planning/engine.ts]). *)

From S2P Require Import Prelude.
From stdpp Require Import options.
Open Scope Z_scope.

(** ** Day numbers: days since 1970-01-01 *)

Record civil := { year : Z; month : Z; day : Z }.

#[export] Instance civil_eq_dec : EqDecision civil.
Proof. solve_decision. Defined.

(** Days since 0000-03-01 of a date in a year that begins in March. *)
Definition days_from_civil (c : civil) : Z :=
  let y := if month c <=? 2 then year c - 1 else year c in
  let era := y / 400 in
  let yoe := y mod 400 in
  let mp := if 2 <? month c then month c - 3 else month c + 9 in
  let doy := (153 * mp + 2) / 5 + day c - 1 in
  let doe := yoe * 365 + yoe / 4 - yoe / 100 + doy in
  era * 146097 + doe - 719468.

Definition civil_from_days (days : Z) : civil :=
  let z := days + 719468 in
  let era := z / 146097 in
  let doe := z mod 146097 in
  let yoe := (doe - doe / 1460 + doe / 36524 - doe / 146096) / 365 in
  let y := yoe + era * 400 in
  let doy := doe - (365 * yoe + yoe / 4 - yoe / 100) in
  let mp := (5 * doy + 2) / 153 in
  let d := doy - (153 * mp + 2) / 5 + 1 in
  let m := if mp <? 10 then mp + 3 else mp - 9 in
  {| year := if m <=? 2 then y + 1 else y; month := m; day := d |}.

Definition is_leap (y : Z) : bool :=
  (y mod 4 =? 0) && (negb (y mod 100 =? 0) || (y mod 400 =? 0)).

Definition days_in_month (y m : Z) : Z :=
  if m =? 2 then (if is_leap y then 29 else 28)
  else if (m =? 4) || (m =? 6) || (m =? 9) || (m =? 11) then 30 else 31.

Definition valid_civil (c : civil) : bool :=
  (1 <=? month c) && (month c <=? 12) && (1 <=? day c)
  && (day c <=? days_in_month (year c) (month c)).

(** ISO weekday, 1 for Monday: 1970-01-01 was a Thursday. *)
Definition iso_weekday (days : Z) : Z := (days + 3) mod 7 + 1.

(** ** Fixed-width decimal fields *)

Definition digit_char (n : Z) : ascii := Ascii.ascii_of_nat (48 + Z.to_nat n).

(** [n] in [width] decimal digits. *)
Fixpoint pad (width : nat) (n : Z) : string :=
  match width with
  | O => ""
  | S width => pad width (n / 10) +:+ String (digit_char (n mod 10)) ""
  end.

Definition digit_value (c : ascii) : option Z :=
  if is_digit c then Some (Z.of_nat (Ascii.nat_of_ascii c) - 48) else None.

(** [width] digits off the front of a string. *)
Fixpoint take_digits (width : nat) (acc : Z) (s : string) : option (Z * string) :=
  match width, s with
  | O, _ => Some (acc, s)
  | S width, String c s => d ← digit_value c; take_digits width (acc * 10 + d) s
  | S _, "" => None
  end.

(** One given character off the front of a string. *)
Definition take_char (c : ascii) (s : string) : option string :=
  match s with
  | String c' s => if Ascii.eqb c' c then Some s else None
  | "" => None
  end.

(** ** [Date.prototype.toISOString] and [Date.parse] *)

Definition MILLISECONDS_PER_DAY : Z := 86400000.

(** A year as [toISOString] prints it: four digits, or a sign and six. *)
Definition iso_year (y : Z) : string :=
  if (0 <=? y) && (y <=? 9999) then pad 4 y
  else (if y <? 0 then "-" else "+") +:+ pad 6 (Z.abs y).

Definition iso_date (days : Z) : string :=
  let c := civil_from_days days in
  iso_year (year c) +:+ "-" +:+ pad 2 (month c) +:+ "-" +:+ pad 2 (day c).

Definition iso_time (ms : Z) : string :=
  pad 2 (ms / 3600000) +:+ ":" +:+ pad 2 (ms / 60000 mod 60) +:+ ":" +:+
  pad 2 (ms / 1000 mod 60) +:+ "." +:+ pad 3 (ms mod 1000) +:+ "Z".

(** [new Date(ms).toISOString()] for a time value inside the Date range. *)
Definition toISOString (ms : Z) : string :=
  iso_date (ms / MILLISECONDS_PER_DAY) +:+ "T" +:+ iso_time (ms mod MILLISECONDS_PER_DAY).

(** [YYYY-MM-DD] off the front of a string, as a day number. *)
Definition take_date (s : string) : option (Z * string) :=
  '(y, s) ← take_digits 4 0 s; s ← take_char "-" s;
  '(m, s) ← take_digits 2 0 s; s ← take_char "-" s;
  '(d, s) ← take_digits 2 0 s;
  let c := {| year := y; month := m; day := d |} in
  if valid_civil c then Some (days_from_civil c, s) else None.

(** An optional fraction [.sss]: its milliseconds. *)
Definition take_fraction (s : string) : option (Z * string) :=
  match take_char "." s with
  | Some s => take_digits 3 0 s
  | None => Some (0, s)
  end.

(** The offset that closes a date-time: [Z], or a signed [HH:mm], in milliseconds. *)
Definition take_offset (s : string) : option Z :=
  match s with
  | String c rest =>
      if Ascii.eqb c "Z" then (if (rest =? "")%string then Some 0 else None)
      else if Ascii.eqb c "+" || Ascii.eqb c "-" then
        '(h, s) ← take_digits 2 0 rest; s ← take_char ":" s;
        '(m, s) ← take_digits 2 0 s;
        if (s =? "")%string && (h <=? 23) && (m <=? 59)
        then Some ((if Ascii.eqb c "-" then -1 else 1) * (h * 60 + m) * 60000) else None
      else None
  | "" => None
  end.

(** [THH:mm:ss], an optional fraction and the offset. *)
Definition take_time (s : string) : option Z :=
  s ← take_char "T" s;
  '(h, s) ← take_digits 2 0 s; s ← take_char ":" s;
  '(mi, s) ← take_digits 2 0 s; s ← take_char ":" s;
  '(sec, s) ← take_digits 2 0 s;
  '(ms, s) ← take_fraction s;
  offset ← take_offset s;
  if (h <=? 23) && (mi <=? 59) && (sec <=? 59)
  then Some (h * 3600000 + mi * 60000 + sec * 1000 + ms - offset) else None.

(** [Date.parse(s)]: [None] is [NaN]. The forms read are the date form and the
    date-time form with seconds, at most three fraction digits and an explicit
    offset; the code gives no other form a meaning. *)
Definition Date_parse (s : string) : option Z :=
  '(days, rest) ← take_date s;
  if (rest =? "")%string then Some (days * MILLISECONDS_PER_DAY)
  else time ← take_time rest; Some (days * MILLISECONDS_PER_DAY + time).

(** [addLocalDays(date, days)]: [setUTCDate] on the midnight of [date], and the
    first ten characters of the result; [None] is the [RangeError] of
    [toISOString] on an invalid date. *)
Definition addLocalDays (date : string) (days : Z) : option string :=
  value ← Date_parse (date +:+ "T00:00:00Z");
  Some (String.substring 0 10 (toISOString (value + days * MILLISECONDS_PER_DAY))).

(** ** The calendar: lemmas *)

(** The year of the era a day of the era belongs to. *)
Lemma era_year doe :
  0 <= doe < 146097 →
  let yoe := (doe - doe / 1460 + doe / 36524 - doe / 146096) / 365 in
  0 <= yoe < 400 ∧
  365 * yoe + yoe / 4 - yoe / 100 <= doe < 365 * (yoe + 1) + (yoe + 1) / 4 - (yoe + 1) / 100
     + (if yoe =? 399 then 1 else 0).
Proof.
  intros Hdoe yoe. unfold yoe. clear yoe.
  destruct (Z.eqb_spec ((doe - doe / 1460 + doe / 36524 - doe / 146096) / 365) 399);
    Z.div_mod_to_equations; lia.
Qed.

(** Month [mp] (0 for March) and day of a day of the year. *)
Lemma year_month doy :
  0 <= doy <= 365 →
  let mp := (5 * doy + 2) / 153 in
  0 <= mp <= 11 ∧ (153 * mp + 2) / 5 <= doy ∧
  (doy < (153 * (mp + 1) + 2) / 5 ∨ mp = 11 ∧ doy <= 365).
Proof. intros Hdoy mp. unfold mp. Z.div_mod_to_equations; lia. Qed.

(** What [civil_from_days] computes: an era, a year of the era, a month counted
    from March and a day of the month, whose day number is the argument. *)
Lemma civil_from_days_spec days :
  ∃ era yoe mp d,
    0 <= yoe < 400 ∧ 0 <= mp <= 11 ∧ 1 <= d ∧
    (mp < 11 → d <= (153 * (mp + 1) + 2) / 5 - (153 * mp + 2) / 5) ∧
    (mp = 11 → (153 * mp + 2) / 5 + d - 1 <
       365 + (yoe + 1) / 4 - yoe / 4 - ((yoe + 1) / 100 - yoe / 100) + (if yoe =? 399 then 1 else 0)) ∧
    days + 719468 = era * 146097 + (yoe * 365 + yoe / 4 - yoe / 100 + ((153 * mp + 2) / 5 + d - 1)) ∧
    civil_from_days days =
      {| year := if mp <? 10 then yoe + era * 400 else yoe + era * 400 + 1;
         month := if mp <? 10 then mp + 3 else mp - 9; day := d |}.
Proof.
  unfold civil_from_days. set (z := days + 719468).
  assert (0 <= z mod 146097 < 146097) as Hdoe by (apply Z.mod_pos_bound; lia).
  destruct (era_year _ Hdoe) as [Hyoe Hrange]. cbn zeta in *.
  set (doe := z mod 146097) in *.
  set (yoe := (doe - doe / 1460 + doe / 36524 - doe / 146096) / 365) in *.
  set (doy := doe - (365 * yoe + yoe / 4 - yoe / 100)).
  assert (0 <= doy <= 365) as Hdoy.
  { unfold doy. clearbody yoe. destruct (Z.eqb_spec yoe 399); Z.div_mod_to_equations; lia. }
  destruct (year_month _ Hdoy) as (Hmp & Hlo & Hhi). cbn zeta in *.
  set (mp := (5 * doy + 2) / 153) in *.
  exists (z / 146097), yoe, mp, (doy - (153 * mp + 2) / 5 + 1).
  repeat split; try lia.
  - pose proof (Z.div_mod z 146097). unfold doy, doe in *. lia.
  - f_equal. destruct (Z.ltb_spec mp 10).
    + destruct (Z.leb_spec (mp + 3) 2); lia.
    + destruct (Z.leb_spec (mp - 9) 2); lia.
Qed.

(** The date of a day number has that day number. *)
Lemma days_from_civil_from_days days : days_from_civil (civil_from_days days) = days.
Proof.
  destruct (civil_from_days_spec days)
    as (era & yoe & mp & d & Hyoe & Hmp & Hd & _ & _ & Hdays & ->).
  unfold days_from_civil. cbn [year month day].
  assert (∀ e, (yoe + e * 400) / 400 = e ∧ (yoe + e * 400) mod 400 = yoe) as Hera.
  { intros e. split; [rewrite Z.div_add, Z.div_small by lia; lia|].
    rewrite Z.mod_add, Z.mod_small by lia. done. }
  destruct (Hera era) as [Hdiv Hmod].
  destruct (Z.ltb_spec mp 10).
  - destruct (Z.leb_spec (mp + 3) 2); [lia|]. destruct (Z.ltb_spec 2 (mp + 3)); [|lia].
    rewrite Hdiv, Hmod. replace (mp + 3 - 3) with mp by lia. lia.
  - destruct (Z.leb_spec (mp - 9) 2); [|lia]. destruct (Z.ltb_spec 2 (mp - 9)); [lia|].
    replace (yoe + era * 400 + 1 - 1) with (yoe + era * 400) by lia.
    rewrite Hdiv, Hmod. replace (mp - 9 + 9) with mp by lia. lia.
Qed.

Lemma is_leap_spec y : is_leap y = true ↔ y mod 4 = 0 ∧ (y mod 100 ≠ 0 ∨ y mod 400 = 0).
Proof.
  unfold is_leap. destruct (Z.eqb_spec (y mod 4) 0), (Z.eqb_spec (y mod 100) 0),
    (Z.eqb_spec (y mod 400) 0); cbn; naive_solver.
Qed.

(** February of the year that closes a year counted from March. *)
Lemma february_length yoe era :
  0 <= yoe < 400 →
  365 + (yoe + 1) / 4 - yoe / 4 - ((yoe + 1) / 100 - yoe / 100) + (if yoe =? 399 then 1 else 0)
    = 337 + (if is_leap (yoe + era * 400 + 1) then 29 else 28).
Proof.
  intros Hyoe.
  assert (∀ k m, 0 < k → 400 = m * k → (yoe + era * 400 + 1) mod k = (yoe + 1) mod k) as Hmod.
  { intros k m Hk ->. replace (yoe + era * (m * k) + 1) with (yoe + 1 + era * m * k) by lia.
    apply Z.mod_add. lia. }
  destruct (is_leap _) eqn:Hleap; [|apply not_true_iff_false in Hleap];
    rewrite is_leap_spec, (Hmod 4 100), (Hmod 100 4), (Hmod 400 1) in Hleap by lia; clear Hmod.
  - destruct (Z.eqb_spec yoe 399); Z.div_mod_to_equations; lia.
  - destruct (Z.eqb_spec yoe 399); [subst; exfalso; apply Hleap; by split; [|right]|].
    assert ((yoe + 1) mod 4 ≠ 0 ∨ (yoe + 1) mod 100 = 0 ∧ (yoe + 1) mod 400 ≠ 0) by lia.
    clear Hleap. Z.div_mod_to_equations; lia.
Qed.

Lemma civil_from_days_valid days : valid_civil (civil_from_days days) = true.
Proof.
  destruct (civil_from_days_spec days)
    as (era & yoe & mp & d & Hyoe & Hmp & Hd & Hlen & Hfeb & _ & ->).
  unfold valid_civil. cbn [year month day]. rewrite !andb_true_iff, !Z.leb_le.
  unfold days_in_month.
  destruct (decide (mp = 11)) as [->|Hne].
  - specialize (Hfeb eq_refl). clear Hlen. rewrite (february_length yoe era Hyoe) in Hfeb.
    change (11 <? 10) with false. cbn iota. change (11 - 9 =? 2) with true. cbn iota.
    change ((153 * 11 + 2) / 5) with 337 in Hfeb. destruct (is_leap _); lia.
  - assert (mp < 11) as Hlt by lia. specialize (Hlen Hlt). clear Hfeb.
    assert (mp = 0 ∨ mp = 1 ∨ mp = 2 ∨ mp = 3 ∨ mp = 4 ∨ mp = 5 ∨ mp = 6 ∨ mp = 7 ∨ mp = 8
      ∨ mp = 9 ∨ mp = 10) as Hcases by lia.
    destruct_or! Hcases; subst;
      repeat match goal with
      | |- context [if ?b then _ else _] => let v := eval vm_compute in b in change b with v; cbn iota
      end; Z.div_mod_to_equations; lia.
Qed.

(** The order of dates. *)
Definition civil_lt (c1 c2 : civil) : Prop :=
  year c1 < year c2 ∨ year c1 = year c2 ∧
    (month c1 < month c2 ∨ month c1 = month c2 ∧ day c1 < day c2).

(** The first day of a year counted from March lies after every day of the
    years before it. *)
Lemma march_years_ordered e1 y1 e2 y2 doy1 doy2 :
  0 <= y1 < 400 → 0 <= y2 < 400 → 0 <= doy2 →
  doy1 < 365 + (y1 + 1) / 4 - y1 / 4 - ((y1 + 1) / 100 - y1 / 100) + (if y1 =? 399 then 1 else 0) →
  y1 + e1 * 400 < y2 + e2 * 400 →
  e1 * 146097 + (y1 * 365 + y1 / 4 - y1 / 100 + doy1)
    < e2 * 146097 + (y2 * 365 + y2 / 4 - y2 / 100 + doy2).
Proof.
  intros Hy1 Hy2 Hdoy2 Hdoy1 Hlt.
  assert (e1 = e2 ∧ y1 < y2 ∨ e1 < e2) as [[-> Hy]|He] by lia.
  - destruct (Z.eqb_spec y1 399); [lia|]. Z.div_mod_to_equations; lia.
  - destruct (Z.eqb_spec y1 399); Z.div_mod_to_equations; lia.
Qed.

Lemma day_of_year_range mp d :
  0 <= mp <= 11 → 1 <= d →
  (mp < 11 → d <= (153 * (mp + 1) + 2) / 5 - (153 * mp + 2) / 5) →
  0 <= (153 * mp + 2) / 5 + d - 1 ∧ (mp < 11 → (153 * mp + 2) / 5 + d - 1 < 337).
Proof. intros ???. Z.div_mod_to_equations; lia. Qed.

Lemma civil_from_days_lt a b :
  a < b → civil_lt (civil_from_days a) (civil_from_days b).
Proof.
  intros Hab.
  destruct (civil_from_days_spec a)
    as (e1 & y1 & mp1 & d1 & Hy1 & Hmp1 & Hd1 & Hlen1 & Hfeb1 & Ha & ->).
  destruct (civil_from_days_spec b)
    as (e2 & y2 & mp2 & d2 & Hy2 & Hmp2 & Hd2 & Hlen2 & Hfeb2 & Hb & ->).
  destruct (day_of_year_range mp1 d1) as [Hr1 Hr1']; [done..|].
  destruct (day_of_year_range mp2 d2) as [Hr2 Hr2']; [done..|].
  assert (∀ y, 0 <= y < 400 → 337 <= 365 + (y + 1) / 4 - y / 4 - ((y + 1) / 100 - y / 100)
    + (if y =? 399 then 1 else 0)) as Hyear.
  { intros y Hy. destruct (Z.eqb_spec y 399); Z.div_mod_to_equations; lia. }
  pose proof (Hyear y1 Hy1) as Hyear1. pose proof (Hyear y2 Hy2) as Hyear2. clear Hyear.
  assert (y1 + e1 * 400 <= y2 + e2 * 400) as HY.
  { apply Z.nlt_ge. intros HY.
    apply (march_years_ordered _ _ _ _ ((153 * mp2 + 2) / 5 + d2 - 1)
      ((153 * mp1 + 2) / 5 + d1 - 1)) in HY; [lia|done|done|lia|].
    destruct (decide (mp2 = 11)); [by apply Hfeb2|]. lia. }
  clear Hfeb1 Hfeb2 Hyear1 Hyear2 Hr1 Hr1' Hr2 Hr2'.
  assert (y1 + e1 * 400 < y2 + e2 * 400 ∨ y1 = y2 ∧ e1 = e2) as [HYlt|[-> ->]] by lia.
  - unfold civil_lt. cbn [year month day].
    destruct (Z.ltb_spec mp1 10), (Z.ltb_spec mp2 10); lia.
  - assert (mp1 < mp2 ∨ mp1 = mp2 ∧ d1 < d2) as Hm by (Z.div_mod_to_equations; lia).
    unfold civil_lt. cbn [year month day].
    destruct (Z.ltb_spec mp1 10), (Z.ltb_spec mp2 10); lia.
Qed.

(** ** Decimal fields: lemmas *)

Lemma digit_cases n : 0 <= n < 10 →
  n = 0 ∨ n = 1 ∨ n = 2 ∨ n = 3 ∨ n = 4 ∨ n = 5 ∨ n = 6 ∨ n = 7 ∨ n = 8 ∨ n = 9.
Proof. lia. Qed.

Lemma digit_value_char n : 0 <= n < 10 → digit_value (digit_char n) = Some n.
Proof. intros Hn%digit_cases. by destruct_or! Hn; subst. Qed.

Lemma digit_char_compare m n :
  0 <= m < 10 → 0 <= n < 10 → Ascii.compare (digit_char m) (digit_char n) = (m ?= n).
Proof. intros Hm%digit_cases Hn%digit_cases. by destruct_or! Hm; destruct_or! Hn; subst. Qed.

Lemma pow10_S (w : nat) : 10 ^ Z.of_nat (S w) = 10 * 10 ^ Z.of_nat w.
Proof. rewrite Nat2Z.inj_succ, Z.pow_succ_r by lia. done. Qed.

Lemma pad_div w n : 0 <= n < 10 ^ Z.of_nat (S w) → 0 <= n / 10 < 10 ^ Z.of_nat w ∧ 0 <= n mod 10 < 10.
Proof. rewrite pow10_S. intros Hn. Z.div_mod_to_equations; lia. Qed.

Lemma take_digits_pad w k acc n s :
  0 <= n < 10 ^ Z.of_nat w →
  take_digits (w + k) acc (pad w n +:+ s) = take_digits k (acc * 10 ^ Z.of_nat w + n) s.
Proof.
  revert k n s. induction w as [|w IH]; intros k n s Hn.
  - cbn in *. f_equal; lia.
  - apply pad_div in Hn as [Hdiv Hmod]. cbn [pad]. rewrite string_app_assoc. cbn [String.append].
    replace (S w + k)%nat with (w + S k)%nat by lia. rewrite IH by done.
    cbn [take_digits]. rewrite digit_value_char by done. cbn. f_equal. rewrite pow10_S.
    pose proof (Z.div_mod n 10). lia.
Qed.

(** A padded field is read back. *)
Lemma take_digits_pad_0 w n s :
  0 <= n < 10 ^ Z.of_nat w → take_digits w 0 (pad w n +:+ s) = Some (n, s).
Proof.
  intros Hn. pose proof (take_digits_pad w 0 0 n s Hn) as H.
  rewrite Nat.add_0_r in H. rewrite H. destruct s; done.
Qed.

Lemma ltb_cons (c d : ascii) s t :
  (String c s <? String d t)%string =
  match Ascii.compare c d with Lt => true | Gt => false | Eq => (s <? t)%string end.
Proof. unfold String.ltb. cbn. by destruct (Ascii.compare c d). Qed.

(** Padded fields of one width are ordered like their values. *)
Lemma pad_ltb w a b s t :
  0 <= a < 10 ^ Z.of_nat w → 0 <= b < 10 ^ Z.of_nat w →
  (pad w a +:+ s <? pad w b +:+ t)%string = true ↔ a < b ∨ a = b ∧ (s <? t)%string = true.
Proof.
  revert a b s t. induction w as [|w IH]; intros a b s t Ha Hb.
  - cbn in *. naive_solver lia.
  - apply pad_div in Ha as [Ha Ham], Hb as [Hb Hbm]. cbn [pad]. rewrite !string_app_assoc.
    cbn [String.append]. rewrite IH by done. rewrite ltb_cons, digit_char_compare by done.
    pose proof (Z.div_mod a 10). pose proof (Z.div_mod b 10).
    destruct (Z.compare_spec (a mod 10) (b mod 10)); (split; [|intros [?|[-> ?]]]); try lia;
      intuition (try lia); left; lia.
Qed.

(** ** ISO strings: lemmas *)

#[local] Arguments pad : simpl never.
#[local] Arguments take_digits : simpl never.
#[local] Arguments civil_from_days : simpl never.
#[local] Arguments days_from_civil : simpl never.

(** The days of the years 0000 to 9999, and their milliseconds. *)
Definition MIN_DAY : Z := -719528.
Definition MAX_DAY : Z := 2932896.
Definition four_digit_day (days : Z) : Prop := MIN_DAY <= days <= MAX_DAY.
Definition four_digit_instant (ms : Z) : Prop := four_digit_day (ms / MILLISECONDS_PER_DAY).

Lemma four_digit_year days : four_digit_day days → 0 <= year (civil_from_days days) <= 9999.
Proof.
  unfold four_digit_day, MIN_DAY, MAX_DAY. intros Hd.
  assert (∀ a b, a <= b → year (civil_from_days a) <= year (civil_from_days b)) as Hmono.
  { intros a b Hab. destruct (decide (a = b)) as [->|]; [done|].
    destruct (civil_from_days_lt a b); lia. }
  pose proof (Hmono _ _ (proj1 Hd)) as H1. pose proof (Hmono _ _ (proj2 Hd)) as H2.
  change (year (civil_from_days (-719528))) with 0 in H1.
  change (year (civil_from_days 2932896)) with 9999 in H2. lia.
Qed.

Lemma valid_civil_bounds c : valid_civil c = true → 1 <= month c <= 12 ∧ 1 <= day c <= 31.
Proof.
  unfold valid_civil, days_in_month. rewrite !andb_true_iff, !Z.leb_le. intros Hv.
  repeat case_match; lia.
Qed.

(** The text of a date is its three padded fields. *)
Lemma iso_date_fields days :
  four_digit_day days →
  let c := civil_from_days days in
  0 <= year c < 10 ^ 4 ∧ 0 <= month c < 10 ^ 2 ∧ 0 <= day c < 10 ^ 2 ∧
  ∀ s, iso_date days +:+ s =
    pad 4 (year c) +:+ String "-" (pad 2 (month c) +:+ String "-" (pad 2 (day c) +:+ s)).
Proof.
  intros Hd c. pose proof (four_digit_year _ Hd) as Hy.
  pose proof (valid_civil_bounds _ (civil_from_days_valid days)) as [Hm Hday]. fold c in Hy, Hm, Hday.
  repeat split; try lia. intros s. unfold iso_date, iso_year. fold c.
  destruct (Z.leb_spec 0 (year c)), (Z.leb_spec (year c) 9999); try lia. cbn [andb].
  by rewrite !string_app_assoc.
Qed.

(** Dates are read back. *)
Lemma take_date_iso_date days s :
  four_digit_day days → take_date (iso_date days +:+ s) = Some (days, s).
Proof.
  intros Hd. destruct (iso_date_fields days Hd) as (Hy & Hm & Hday & ->).
  unfold take_date. rewrite take_digits_pad_0 by done. cbn [mbind option_bind take_char Ascii.eqb].
  cbn. rewrite take_digits_pad_0 by done. cbn. rewrite take_digits_pad_0 by done. cbn.
  replace {| year := _; month := _; day := _ |} with (civil_from_days days)
    by (by destruct (civil_from_days days)).
  by rewrite civil_from_days_valid, days_from_civil_from_days.
Qed.

Lemma time_fields ms :
  0 <= ms < MILLISECONDS_PER_DAY →
  0 <= ms / 3600000 <= 23 ∧ 0 <= ms / 60000 mod 60 <= 59 ∧ 0 <= ms / 1000 mod 60 <= 59 ∧
  0 <= ms mod 1000 <= 999 ∧
  ms = ms / 3600000 * 3600000 + ms / 60000 mod 60 * 60000 + ms / 1000 mod 60 * 1000 + ms mod 1000.
Proof. unfold MILLISECONDS_PER_DAY. intros Hms. Z.div_mod_to_equations; lia. Qed.

Lemma take_time_iso_time ms :
  0 <= ms < MILLISECONDS_PER_DAY → take_time (String "T" (iso_time ms)) = Some ms.
Proof.
  intros Hms. destruct (time_fields _ Hms) as (Hh & Hmi & Hs & Hf & Heq).
  unfold take_time, iso_time, take_fraction. cbn [take_char Ascii.eqb Bool.eqb mbind option_bind].
  repeat (rewrite take_digits_pad_0 by (cbn; lia); cbn [mbind option_bind]; cbn [String.append];
    cbn [take_char Ascii.eqb Bool.eqb mbind option_bind]).
  cbn [take_offset Ascii.eqb Bool.eqb String.eqb mbind option_bind].
  destruct (Z.leb_spec (ms / 3600000) 23), (Z.leb_spec (ms / 60000 mod 60) 59),
    (Z.leb_spec (ms / 1000 mod 60) 59); try lia. cbn. f_equal. lia.
Qed.

Lemma iso_time_nonempty ms : (String "T" (iso_time ms) =? "")%string = false.
Proof. done. Qed.

Lemma ms_of_day ms : 0 <= ms mod MILLISECONDS_PER_DAY < MILLISECONDS_PER_DAY.
Proof. apply Z.mod_pos_bound. done. Qed.

(** [Date.parse] reads back what [toISOString] prints. *)
Lemma Date_parse_toISOString ms :
  four_digit_instant ms → Date_parse (toISOString ms) = Some ms.
Proof.
  intros Hms. unfold Date_parse, toISOString. rewrite take_date_iso_date by done.
  cbn [mbind option_bind String.append]. rewrite iso_time_nonempty, take_time_iso_time by apply ms_of_day.
  cbn. f_equal. pose proof (Z.div_mod ms MILLISECONDS_PER_DAY). unfold MILLISECONDS_PER_DAY in *. lia.
Qed.

(** The date strings are ordered like the days. *)
Lemma iso_date_ltb a b s t :
  four_digit_day a → four_digit_day b →
  (iso_date a +:+ s <? iso_date b +:+ t)%string = true ↔ a < b ∨ a = b ∧ (s <? t)%string = true.
Proof.
  intros Ha Hb.
  destruct (iso_date_fields a Ha) as (Hy1 & Hm1 & Hd1 & ->).
  destruct (iso_date_fields b Hb) as (Hy2 & Hm2 & Hd2 & ->).
  rewrite pad_ltb by done. rewrite ltb_cons. change (Ascii.compare "-" "-") with Eq. cbn iota.
  rewrite pad_ltb by done. rewrite ltb_cons. change (Ascii.compare "-" "-") with Eq. cbn iota.
  rewrite pad_ltb by done.
  destruct (Z.lt_trichotomy a b) as [Hab|[->|Hab]].
  - pose proof (civil_from_days_lt _ _ Hab) as Hlt. unfold civil_lt in Hlt.
    split; [by left|]. intros _. naive_solver.
  - naive_solver lia.
  - pose proof (civil_from_days_lt _ _ Hab) as Hlt. unfold civil_lt in Hlt. split; [|lia].
    intuition lia.
Qed.

(** [toISOString] texts are ordered like the instants they denote. *)
Lemma toISOString_ltb a b :
  four_digit_instant a → four_digit_instant b →
  (toISOString a <? toISOString b)%string = true ↔ a < b.
Proof.
  intros Ha Hb. unfold toISOString. rewrite iso_date_ltb by done.
  cbn [String.append]. rewrite ltb_cons. change (Ascii.compare "T" "T") with Eq. cbn iota.
  pose proof (ms_of_day a) as Ha'. pose proof (ms_of_day b) as Hb'.
  destruct (time_fields _ Ha') as (Hh1 & Hmi1 & Hs1 & Hf1 & Heq1).
  destruct (time_fields _ Hb') as (Hh2 & Hmi2 & Hs2 & Hf2 & Heq2).
  unfold iso_time.
  repeat (rewrite pad_ltb by (cbn; lia); cbn [String.append]; rewrite ltb_cons;
    match goal with |- context [Ascii.compare ?c ?c] => change (Ascii.compare c c) with Eq end;
    cbn iota).
  pose proof (Z.div_mod a MILLISECONDS_PER_DAY). pose proof (Z.div_mod b MILLISECONDS_PER_DAY).
  unfold MILLISECONDS_PER_DAY in *.
  split; [intros Hlt; naive_solver lia|]. intros Hlt. rewrite ltb_irrefl. clear Ha Hb.
  repeat match goal with
  | |- _ ∨ ?x = ?y ∧ _ =>
      destruct (Z.lt_trichotomy x y) as [?|[?|?]];
      [left; assumption | right; split; [assumption|] | exfalso; lia]
  end. exfalso; lia.
Qed.

(** ** Dates without a time *)

Lemma substring_prefix s t : String.substring 0 (String.length s) (s +:+ t) = s.
Proof. induction s as [|c s IH]; cbn; [by destruct t|]. by rewrite IH. Qed.

Lemma string_length_app s t : String.length (s +:+ t) = (String.length s + String.length t)%nat.
Proof. induction s as [|c s IH]; cbn; [done|]. by rewrite IH. Qed.

Lemma pad_length w n : String.length (pad w n) = w.
Proof.
  revert n. induction w as [|w IH]; intros n; [done|]. unfold pad. fold pad.
  rewrite string_length_app, IH. cbn. lia.
Qed.

Lemma iso_date_length days : four_digit_day days → String.length (iso_date days) = 10%nat.
Proof.
  intros Hd. destruct (iso_date_fields days Hd) as (_ & _ & _ & Heq).
  specialize (Heq ""). rewrite string_app_nil_r in Heq. rewrite Heq.
  repeat (rewrite string_length_app, pad_length; cbn [String.length]). done.
Qed.

Lemma Date_parse_midnight days :
  four_digit_day days → Date_parse (iso_date days +:+ "T00:00:00Z") = Some (days * MILLISECONDS_PER_DAY).
Proof.
  intros Hd. unfold Date_parse. rewrite take_date_iso_date by done.
  cbn [mbind option_bind]. change ("T00:00:00Z" =? "")%string with false. cbn iota.
  assert (take_time "T00:00:00Z" = Some 0) as -> by (vm_compute; reflexivity).
  cbn [mbind option_bind]. by rewrite Z.add_0_r.
Qed.

(** The first ten characters of the text of an instant are its date. *)
Lemma date_of_toISOString ms :
  four_digit_instant ms → String.substring 0 10 (toISOString ms) = iso_date (ms / MILLISECONDS_PER_DAY).
Proof.
  intros Hms. unfold toISOString. rewrite <- (iso_date_length (ms / MILLISECONDS_PER_DAY)) by done.
  apply substring_prefix.
Qed.

(** [addLocalDays] adds days to a date. *)
Lemma addLocalDays_iso_date days n :
  four_digit_day days → four_digit_day (days + n) →
  addLocalDays (iso_date days) n = Some (iso_date (days + n)).
Proof.
  intros Hd Hn. unfold addLocalDays. rewrite Date_parse_midnight by done. cbn [mbind option_bind].
  assert (days * MILLISECONDS_PER_DAY + n * MILLISECONDS_PER_DAY = (days + n) * MILLISECONDS_PER_DAY)
    as -> by lia.
  assert ((days + n) * MILLISECONDS_PER_DAY / MILLISECONDS_PER_DAY = days + n) as Hdiv
    by (by apply Z.div_mul).
  rewrite date_of_toISOString by (unfold four_digit_instant; by rewrite Hdiv). by rewrite Hdiv.
Qed.

(** A year of four digits belongs to a day of [four_digit_day]. *)
Lemma four_digit_day_of_year days :
  0 <= year (civil_from_days days) <= 9999 → four_digit_day days.
Proof.
  intros Hy. unfold four_digit_day.
  destruct (Z.lt_ge_cases days MIN_DAY) as [Hlt|Hge].
  - apply civil_from_days_lt in Hlt. unfold civil_lt in Hlt.
    change (civil_from_days MIN_DAY) with {| year := 0; month := 1; day := 1 |} in Hlt.
    cbn [year month day] in Hlt.
    pose proof (valid_civil_bounds _ (civil_from_days_valid days)). lia.
  - split; [done|]. destruct (Z.le_gt_cases days MAX_DAY) as [|Hgt]; [done|].
    apply civil_from_days_lt in Hgt. unfold civil_lt in Hgt.
    change (civil_from_days MAX_DAY) with {| year := 9999; month := 12; day := 31 |} in Hgt.
    cbn [year month day] in Hgt.
    pose proof (valid_civil_bounds _ (civil_from_days_valid days)). lia.
Qed.

(** A text of an instant that begins with a digit has a year of four digits. *)
Lemma four_digit_of_text ms c s :
  toISOString ms = String c s → is_digit c = true → four_digit_instant ms.
Proof.
  unfold toISOString, iso_date, iso_year. intros Heq Hc. apply four_digit_day_of_year.
  destruct (Z.leb_spec 0 (year (civil_from_days (ms / MILLISECONDS_PER_DAY)))),
    (Z.leb_spec (year (civil_from_days (ms / MILLISECONDS_PER_DAY))) 9999); cbn [andb] in Heq; try done.
  all: destruct (_ <? 0) in Heq; cbn in Heq; injection Heq as <- _; done.
Qed.
