(* ===== verification/Temporal.v ===== *)
(** * The Temporal interface

    What [hours.ts] and [evaluate.ts] use of the [temporal-polyfill] package:
    the operations as a class, their documented behaviour as a class of laws,
    and one calendar that satisfies them. An instant is its number of
    nanoseconds since the epoch, a plain date its day number, a plain time the
    nanoseconds since midnight; [None] is a thrown [RangeError]. *)

From S2P Require Import Prelude Dates.
From stdpp Require Import options.
Open Scope Z_scope.

Definition NANOSECONDS_PER_SECOND : Z := 1000000000.
Definition NANOSECONDS_PER_DAY : Z := 86400000000000.

(** The [disambiguation] option of [ZonedDateTime.from]. *)
Inductive Disambiguation := Compatible | Earlier | Later | Reject.

Class Temporal := {
  (** [Temporal.Instant.from(text)]. *)
  Instant_from : string → option Z;
  (** [value.toString({ smallestUnit: "second" })]. *)
  Instant_toString : Z → string;
  (** [Temporal.PlainTime.from(text)]. *)
  PlainTime_from : string → option Z;
  (** [Temporal.PlainDate.from(text)], [date.toString()], [date.add({ days })]. *)
  PlainDate_from : string → option Z;
  PlainDate_toString : Z → string;
  PlainDate_add : Z → Z → option Z;
  (** [date.dayOfWeek]. *)
  dayOfWeek : Z → Z;
  (** [instant.toZonedDateTimeISO(timeZone)]: its plain date and plain time. *)
  toZonedDateTimeISO : string → Z → option (Z * Z);
  (** [ZonedDateTime.from({ timeZone, ...date, ...time }, { disambiguation }).toInstant()]. *)
  ZonedDateTime_from : string → Z → Z → Disambiguation → option Z;
}.

(** The local date-time on one axis. *)
Definition local_order (local : Z * Z) : Z := local.1 * NANOSECONDS_PER_DAY + local.2.

(** The documented behaviour the proofs use. *)
Class TemporalLaws `(Temporal) : Prop := {
  (** Printing to the second keeps exactly the second. *)
  Instant_toString_second i j :
    Instant_toString i = Instant_toString j ↔
    i / NANOSECONDS_PER_SECOND = j / NANOSECONDS_PER_SECOND;
  (** A printed instant holds no slash. *)
  Instant_toString_no_slash i : string_forall (λ c, negb (Ascii.eqb c "/")) (Instant_toString i) = true;
  (** The printed second can be read back. *)
  Instant_from_toString i j : 
    Instant_from (Instant_toString i) = Some j →
    j = i / NANOSECONDS_PER_SECOND * NANOSECONDS_PER_SECOND;
  PlainDate_add_days d n d' : PlainDate_add d n = Some d' → d' = d + n;
  (** [reject] answers the one instant with that local time. *)
  reject_unique tz d t i :
    ZonedDateTime_from tz d t Reject = Some i →
    toZonedDateTimeISO tz i = Some (d, t) ∧
    ∀ j, toZonedDateTimeISO tz j = Some (d, t) → j = i;
  (** [earlier] and [later] bound the instants with that local time, and
      differ when [reject] refuses a local time that exists. *)
  earlier_later tz d t e l :
    ZonedDateTime_from tz d t Earlier = Some e →
    ZonedDateTime_from tz d t Later = Some l →
    (∀ j, toZonedDateTimeISO tz j = Some (d, t) → e <= j <= l) ∧
    (ZonedDateTime_from tz d t Reject = None →
     toZonedDateTimeISO tz e = Some (d, t) → toZonedDateTimeISO tz l = Some (d, t) → e < l);
  (** A local time inside a gap: [later] moves it forward, and no instant has it. *)
  gap_forward tz d t e l :
    ZonedDateTime_from tz d t Reject = None →
    ZonedDateTime_from tz d t Earlier = Some e →
    ZonedDateTime_from tz d t Later = Some l →
    toZonedDateTimeISO tz e = Some (d, t) ∧ toZonedDateTimeISO tz l = Some (d, t) ∨
    (∀ j, toZonedDateTimeISO tz j ≠ Some (d, t)) ∧
    ∃ local, toZonedDateTimeISO tz l = Some local ∧ local_order (d, t) < local_order local;
}.

(** ** A calendar with one clock change per zone *)

(** The offset of a zone before its transition, the instant of the
    transition, and the offset from there on, in nanoseconds. *)
Record zone := { before : Z; transition : Z; after : Z }.

Definition zone_offset (z : zone) (i : Z) : Z :=
  if i <? transition z then before z else after z.

Definition zone_local (z : zone) (i : Z) : Z * Z :=
  let local := i + zone_offset z i in
  (local / NANOSECONDS_PER_DAY, local mod NANOSECONDS_PER_DAY).

(** The instants of a local time: the one before the transition first. *)
Definition zone_instants (z : zone) (local : Z) : list Z :=
  List.filter (λ i, i <? transition z) [local - before z] ++
  List.filter (λ i, negb (i <? transition z)) [local - after z].

Definition zone_from (z : zone) (local : Z) (how : Disambiguation) : option Z :=
  match zone_instants z local, how with
  | [i], _ => Some i
  | i :: _, (Compatible | Earlier) => Some i
  | _ :: j :: _, Later => Some j
  | [], Earlier => Some (local - after z)
  | [], (Compatible | Later) => Some (local - before z)
  | _, _ => None
  end.

Definition HOUR : Z := 3600000000000.

(** 2026-03-29T01:00Z and 2026-10-25T01:00Z, the changes of Central Europe in 2026. *)
Definition SPRING : Z := 1774746000 * NANOSECONDS_PER_SECOND.
Definition AUTUMN : Z := 1792890000 * NANOSECONDS_PER_SECOND.

Definition zone_named (name : string) : option zone :=
  if (name =? "UTC")%string then Some {| before := 0; transition := 0; after := 0 |}
  else if (name =? "Spring")%string then Some {| before := HOUR; transition := SPRING; after := 2 * HOUR |}
  else if (name =? "Autumn")%string then Some {| before := 2 * HOUR; transition := AUTUMN; after := HOUR |}
  else None.

(** [HH:mm] or [HH:mm:ss]. *)
Definition read_time (s : string) : option Z :=
  '(h, s) ← take_digits 2 0 s; s ← take_char ":" s;
  '(m, s) ← take_digits 2 0 s;
  '(sec, s) ← match take_char ":" s with Some s => take_digits 2 0 s | None => Some (0, s) end;
  if (s =? "")%string && (h <=? 23) && (m <=? 59) && (sec <=? 59)
  then Some (h * HOUR + m * 60 * NANOSECONDS_PER_SECOND + sec * NANOSECONDS_PER_SECOND) else None.

Definition read_date (s : string) : option Z :=
  '(d, s) ← take_date s; if (s =? "")%string then Some d else None.

(** The years 0000 to 9999. *)
Definition in_range (d : Z) : bool := (MIN_DAY <=? d) && (d <=? MAX_DAY).

(** [YYYY-MM-DDTHH:mm:ssZ] for an instant in range; a numeral otherwise. *)
Definition print_second (ns : Z) : string :=
  let s := ns / NANOSECONDS_PER_SECOND in
  if in_range (s / 86400) then
    iso_date (s / 86400) +:+ "T" +:+ pad 2 (s mod 86400 / 3600) +:+ ":" +:+
    pad 2 (s mod 86400 / 60 mod 60) +:+ ":" +:+ pad 2 (s mod 86400 mod 60) +:+ "Z"
  else "#" +:+ pretty s.

#[export] Instance two_zones : Temporal := {
  Instant_from s := ms ← Date_parse s; Some (ms * 1000000);
  Instant_toString := print_second;
  PlainTime_from := read_time;
  PlainDate_from := read_date;
  PlainDate_toString := iso_date;
  PlainDate_add d n := Some (d + n);
  dayOfWeek := iso_weekday;
  toZonedDateTimeISO tz i := z ← zone_named tz; Some (zone_local z i);
  ZonedDateTime_from tz d t how :=
    z ← zone_named tz;
    if (0 <=? t) && (t <? NANOSECONDS_PER_DAY) then zone_from z (d * NANOSECONDS_PER_DAY + t) how
    else None;
}.

(** ** The calendar satisfies the laws *)

Lemma Date_parse_print_second ns :
  Date_parse (print_second ns) =
    if in_range (ns / NANOSECONDS_PER_SECOND / 86400)
    then Some (ns / NANOSECONDS_PER_SECOND * 1000) else None.
Proof.
  unfold print_second. set (s := ns / NANOSECONDS_PER_SECOND). clearbody s.
  destruct (in_range (s / 86400)) eqn:Hr; [|done].
  unfold in_range in Hr. bool_to_prop.
  unfold Date_parse. rewrite take_date_iso_date by (by split).
  pose proof (Z.mod_pos_bound s 86400 ltac:(done)) as Hm.
  assert (0 <= s mod 86400 / 3600 <= 23 ∧ 0 <= s mod 86400 / 60 mod 60 <= 59 ∧
    0 <= s mod 86400 mod 60 <= 59 ∧
    s mod 86400 = s mod 86400 / 3600 * 3600 + s mod 86400 / 60 mod 60 * 60 + s mod 86400 mod 60)
    as (Hh & Hmi & Hs & Heq).
  { generalize dependent (s mod 86400). intros m Hm. repeat split; Z.div_mod_to_equations; lia. }
  cbn [mbind option_bind String.append]. cbn [String.eqb].
  unfold take_time. cbn [take_char Ascii.eqb Bool.eqb mbind option_bind].
  repeat (rewrite take_digits_pad_0 by (cbn; lia); cbn [mbind option_bind]; cbn [String.append];
    cbn [take_char Ascii.eqb Bool.eqb mbind option_bind]).
  cbn [take_fraction take_char take_offset Ascii.eqb Bool.eqb String.eqb mbind option_bind].
  destruct (Z.leb_spec (s mod 86400 / 3600) 23), (Z.leb_spec (s mod 86400 / 60 mod 60) 59),
    (Z.leb_spec (s mod 86400 mod 60) 59); try lia. cbn [andb].
  pose proof (Z.div_mod s 86400 ltac:(done)). unfold MILLISECONDS_PER_DAY. cbn. f_equal. lia.
Qed.

Definition not_slash (c : ascii) : bool := negb (Ascii.eqb c "/").

Lemma pad_no_slash w n : string_forall not_slash (pad w n) = true.
Proof.
  revert n. induction w as [|w IH]; intros n; [done|]. cbn [pad].
  rewrite string_forall_app, IH. cbn [string_forall andb]. rewrite andb_true_r.
  assert (0 <= n mod 10 < 10) as Hd by (by apply Z.mod_pos_bound).
  apply digit_cases in Hd. by destruct_or! Hd; rewrite Hd.
Qed.

Lemma pretty_no_slash (z : Z) : string_forall not_slash (pretty z) = true.
Proof.
  apply (string_forall_mono is_numeral); [|apply pretty_Z_numeral].
  by intros [[] [] [] [] [] [] [] []].
Qed.

Lemma print_second_no_slash ns : string_forall not_slash (print_second ns) = true.
Proof.
  unfold print_second, iso_date, iso_year.
  destruct (in_range _); rewrite !string_forall_app, ?pad_no_slash, ?pretty_no_slash; [|done].
  repeat case_match; rewrite ?string_forall_app, ?pad_no_slash; done.
Qed.

Lemma in_range_print_second ns :
  in_range (ns / NANOSECONDS_PER_SECOND / 86400) = false →
  print_second ns = "#" +:+ pretty (ns / NANOSECONDS_PER_SECOND).
Proof. unfold print_second. by intros ->. Qed.

Lemma print_second_spec i j :
  print_second i = print_second j ↔ i / NANOSECONDS_PER_SECOND = j / NANOSECONDS_PER_SECOND.
Proof.
  split; [|unfold print_second; by intros ->]. intros Heq.
  pose proof (f_equal Date_parse Heq) as Hp. rewrite !Date_parse_print_second in Hp.
  destruct (in_range (i / _ / _)) eqn:Hi, (in_range (j / _ / _)) eqn:Hj; try done.
  - injection Hp. lia.
  - rewrite !in_range_print_second in Heq by done. cbn in Heq. injection Heq. apply (inj pretty).
Qed.

(** *** Zones *)

Definition local_time (z : zone) (i : Z) : Z := i + zone_offset z i.

Lemma elem_of_zone_instants z local i : i ∈ zone_instants z local ↔ local_time z i = local.
Proof.
  unfold zone_instants, local_time, zone_offset. cbn [List.filter].
  destruct (Z.ltb_spec (local - before z) (transition z)),
    (Z.ltb_spec (local - after z) (transition z)), (Z.ltb_spec i (transition z));
    cbn [negb app]; rewrite ?elem_of_cons, ?elem_of_nil; split; intros;
    try (destruct_or?; try done; lia); try lia; try (left; lia); try (right; left; lia).
Qed.

Lemma zone_local_iff z i d t :
  zone_local z i = (d, t) ↔
  0 <= t < NANOSECONDS_PER_DAY ∧ local_time z i = d * NANOSECONDS_PER_DAY + t.
Proof.
  unfold zone_local, local_time. set (l := i + zone_offset z i). clearbody l.
  unfold NANOSECONDS_PER_DAY. split.
  - intros [= <- <-]. Z.div_mod_to_equations; lia.
  - intros [Ht ->]. f_equal; Z.div_mod_to_equations; lia.
Qed.

(** The four shapes of the instants of a local time. *)
Lemma zone_instants_shape z local :
  zone_instants z local =
  match local - before z <? transition z, local - after z <? transition z with
  | true, true => [local - before z]
  | true, false => [local - before z; local - after z]
  | false, true => []
  | false, false => [local - after z]
  end.
Proof.
  unfold zone_instants. cbn [List.filter].
  by destruct (local - before z <? transition z), (local - after z <? transition z).
Qed.

#[local] Hint Resolve list_elem_of_here list_elem_of_further : core.

Lemma zone_instants_le z local e l :
  zone_instants z local = [e; l] → e < l.
Proof.
  rewrite zone_instants_shape.
  destruct (Z.ltb_spec (local - before z) (transition z)),
    (Z.ltb_spec (local - after z) (transition z)); try done. intros [= <- <-]. lia.
Qed.

Lemma zone_local_some z j d t :
  0 <= t < NANOSECONDS_PER_DAY →
  Some (zone_local z j) = Some (d, t) ↔ j ∈ zone_instants z (d * NANOSECONDS_PER_DAY + t).
Proof.
  intros Ht. rewrite elem_of_zone_instants. split.
  - intros Hj%(inj Some). by apply zone_local_iff in Hj as [_ ?].
  - intros Hj. f_equal. by apply zone_local_iff.
Qed.

#[export] Instance two_zones_laws : TemporalLaws two_zones.
Proof.
  split.
  - apply print_second_spec.
  - apply print_second_no_slash.
  - intros i j. cbn [Instant_from Instant_toString two_zones]. rewrite Date_parse_print_second.
    destruct (in_range _); [|done]. cbn. intros [= <-]. unfold NANOSECONDS_PER_SECOND. lia.
  - cbn. by intros ??? [= <-].
  - cbn. intros tz d t i. destruct (zone_named tz) as [z|]; [|done]. cbn.
    destruct (Z.leb_spec 0 t), (Z.ltb_spec t NANOSECONDS_PER_DAY); try done. cbn. intros Hf.
    unfold zone_from in Hf. destruct (zone_instants z _) as [|i' [|]] eqn:Hz; try done.
    injection Hf as ->. split.
    + apply zone_local_some; [done|]. rewrite Hz. by left.
    + intros j Hj. apply zone_local_some in Hj; [|done]. rewrite Hz in Hj. by apply list_elem_of_singleton in Hj.
  - cbn. intros tz d t e l. destruct (zone_named tz) as [z|]; [|done]. cbn.
    destruct (Z.leb_spec 0 t), (Z.ltb_spec t NANOSECONDS_PER_DAY); try done. cbn. intros He Hl.
    unfold zone_from in *. set (local := d * NANOSECONDS_PER_DAY + t) in *.
    assert (∀ j, Some (zone_local z j) = Some (d, t) ↔ j ∈ zone_instants z local) as Hin
      by (intros; by apply zone_local_some). setoid_rewrite Hin.
    pose proof (zone_instants_le z local) as Hle.
    destruct (zone_instants z local) as [|i1 [|i2 [|]]] eqn:Hz; simplify_eq/=.
    + split; [intros j ?%elem_of_nil; done|]. intros _ ?%elem_of_nil. done.
    + split; [|done]. intros j ->%list_elem_of_singleton. lia.
    + specialize (Hle _ _ eq_refl). split; [|done].
      intros j. rewrite !elem_of_cons, elem_of_nil. intros [-> | [-> | []]]; lia.
    + rewrite zone_instants_shape in Hz.
      by destruct (_ <? _), (_ <? _) in Hz.
  - cbn. intros tz d t e l. destruct (zone_named tz) as [z|]; [|done]. cbn.
    destruct (Z.leb_spec 0 t), (Z.ltb_spec t NANOSECONDS_PER_DAY); try done. cbn. intros Hr He Hl.
    unfold zone_from in *. set (local := d * NANOSECONDS_PER_DAY + t) in *.
    assert (∀ j, Some (zone_local z j) = Some (d, t) ↔ j ∈ zone_instants z local) as Hin
      by (intros; by apply zone_local_some).
    pose proof (zone_instants_shape z local) as Hshape.
    destruct (zone_instants z local) as [|i1 [|i2 [|]]] eqn:Hz; simplify_eq/=.
    + right. split; [intros j; rewrite Hin; set_solver|]. eexists; split; [done|].
      unfold local_order, zone_local. cbn [fst snd].
      rewrite (Z.mul_comm (_ / _)), <- Z.div_mod by done. unfold zone_offset. fold local.
      destruct (Z.ltb_spec (local - before z) (transition z)),
        (Z.ltb_spec (local - after z) (transition z)); try done. lia.
    + left. rewrite !Hin. set_solver.
    + by destruct (_ <? _), (_ <? _) in Hshape.
Qed.
