(* ===== verification/Types.v ===== *)
(** * The data of the policy engine

    [packages/calendar-sync/src/types.ts]: hours profiles, source observations,
    policies, copies, projections and evaluation results, field for field. An
    optional field is an [option], a union of string literals an enumeration,
    a union of object types an inductive type with a constructor per member.
    Numbers of this file are integers. *)

From S2P Require Import Prelude Canonical DestinationEdits.
From stdpp Require Import options.

(** ** Reason codes *)

Module Reason.
Inductive ReasonCode :=
| policy_disabled
| policy_paused
| policy_review_required
| invalid_same_calendar
| invalid_unwritable_destination
| invalid_hours_profile
| invalid_source_event
| invalid_privacy_transform
| unsupported_destination_capability
| outside_horizon
| source_deleted
| source_cancelled
| managed_copy
| manual_exclusion
| nosync
| already_invited
| timed_event_disabled
| timed_event_included
| all_day
| all_day_free
| all_day_busy_included
| all_day_included
| free
| free_preserved
| free_forced_busy
| rsvp_declined
| rsvp_accepted
| rsvp_tentative_busy
| rsvp_tentative_free
| rsvp_unanswered_busy
| rsvp_unanswered_free
| organizer_assumed_accepted
| rsvp_unanswered_omitted
| rsvp_tentative_omitted
| all_times
| overlaps_hours
| contained_in_hours
| outside_hours
| not_contained_in_hours
| dst_ambiguous_earlier
| dst_ambiguous_later
| dst_nonexistent_shifted
| dst_resolution_rejected
| privacy_busy_only
| privacy_commitment
| privacy_private_details
| privacy_shared_details
| create_missing_copy
| update_source_change
| restore_destination_missing
| restore_destination_drift
| delete_source_removed
| delete_policy_exclusion
| no_change
| detached_no_action
| ambiguous_ownership.
End Reason.
Notation ReasonCode := Reason.ReasonCode.

(** The text of a reason code. *)
Definition reason_text (code : ReasonCode) : string :=
  match code with
  | Reason.policy_disabled => "policy_disabled"
  | Reason.policy_paused => "policy_paused"
  | Reason.policy_review_required => "policy_review_required"
  | Reason.invalid_same_calendar => "invalid_same_calendar"
  | Reason.invalid_unwritable_destination => "invalid_unwritable_destination"
  | Reason.invalid_hours_profile => "invalid_hours_profile"
  | Reason.invalid_source_event => "invalid_source_event"
  | Reason.invalid_privacy_transform => "invalid_privacy_transform"
  | Reason.unsupported_destination_capability => "unsupported_destination_capability"
  | Reason.outside_horizon => "outside_horizon"
  | Reason.source_deleted => "source_deleted"
  | Reason.source_cancelled => "source_cancelled"
  | Reason.managed_copy => "managed_copy"
  | Reason.manual_exclusion => "manual_exclusion"
  | Reason.nosync => "nosync"
  | Reason.already_invited => "already_invited"
  | Reason.timed_event_disabled => "timed_event_disabled"
  | Reason.timed_event_included => "timed_event_included"
  | Reason.all_day => "all_day"
  | Reason.all_day_free => "all_day_free"
  | Reason.all_day_busy_included => "all_day_busy_included"
  | Reason.all_day_included => "all_day_included"
  | Reason.free => "free"
  | Reason.free_preserved => "free_preserved"
  | Reason.free_forced_busy => "free_forced_busy"
  | Reason.rsvp_declined => "rsvp_declined"
  | Reason.rsvp_accepted => "rsvp_accepted"
  | Reason.rsvp_tentative_busy => "rsvp_tentative_busy"
  | Reason.rsvp_tentative_free => "rsvp_tentative_free"
  | Reason.rsvp_unanswered_busy => "rsvp_unanswered_busy"
  | Reason.rsvp_unanswered_free => "rsvp_unanswered_free"
  | Reason.organizer_assumed_accepted => "organizer_assumed_accepted"
  | Reason.rsvp_unanswered_omitted => "rsvp_unanswered_omitted"
  | Reason.rsvp_tentative_omitted => "rsvp_tentative_omitted"
  | Reason.all_times => "all_times"
  | Reason.overlaps_hours => "overlaps_hours"
  | Reason.contained_in_hours => "contained_in_hours"
  | Reason.outside_hours => "outside_hours"
  | Reason.not_contained_in_hours => "not_contained_in_hours"
  | Reason.dst_ambiguous_earlier => "dst_ambiguous_earlier"
  | Reason.dst_ambiguous_later => "dst_ambiguous_later"
  | Reason.dst_nonexistent_shifted => "dst_nonexistent_shifted"
  | Reason.dst_resolution_rejected => "dst_resolution_rejected"
  | Reason.privacy_busy_only => "privacy_busy_only"
  | Reason.privacy_commitment => "privacy_commitment"
  | Reason.privacy_private_details => "privacy_private_details"
  | Reason.privacy_shared_details => "privacy_shared_details"
  | Reason.create_missing_copy => "create_missing_copy"
  | Reason.update_source_change => "update_source_change"
  | Reason.restore_destination_missing => "restore_destination_missing"
  | Reason.restore_destination_drift => "restore_destination_drift"
  | Reason.delete_source_removed => "delete_source_removed"
  | Reason.delete_policy_exclusion => "delete_policy_exclusion"
  | Reason.no_change => "no_change"
  | Reason.detached_no_action => "detached_no_action"
  | Reason.ambiguous_ownership => "ambiguous_ownership"
  end.

(** The codes in the order of the source, for decidable equality. *)
Definition all_reasons : list ReasonCode :=
  [Reason.policy_disabled; Reason.policy_paused; Reason.policy_review_required; Reason.invalid_same_calendar;
   Reason.invalid_unwritable_destination; Reason.invalid_hours_profile; Reason.invalid_source_event; Reason.invalid_privacy_transform;
   Reason.unsupported_destination_capability; Reason.outside_horizon; Reason.source_deleted; Reason.source_cancelled;
   Reason.managed_copy; Reason.manual_exclusion; Reason.nosync; Reason.already_invited;
   Reason.timed_event_disabled; Reason.timed_event_included; Reason.all_day; Reason.all_day_free;
   Reason.all_day_busy_included; Reason.all_day_included; Reason.free; Reason.free_preserved;
   Reason.free_forced_busy; Reason.rsvp_declined; Reason.rsvp_accepted; Reason.rsvp_tentative_busy;
   Reason.rsvp_tentative_free; Reason.rsvp_unanswered_busy; Reason.rsvp_unanswered_free; Reason.organizer_assumed_accepted;
   Reason.rsvp_unanswered_omitted; Reason.rsvp_tentative_omitted; Reason.all_times; Reason.overlaps_hours;
   Reason.contained_in_hours; Reason.outside_hours; Reason.not_contained_in_hours; Reason.dst_ambiguous_earlier;
   Reason.dst_ambiguous_later; Reason.dst_nonexistent_shifted; Reason.dst_resolution_rejected; Reason.privacy_busy_only;
   Reason.privacy_commitment; Reason.privacy_private_details; Reason.privacy_shared_details; Reason.create_missing_copy;
   Reason.update_source_change; Reason.restore_destination_missing; Reason.restore_destination_drift; Reason.delete_source_removed;
   Reason.delete_policy_exclusion; Reason.no_change; Reason.detached_no_action; Reason.ambiguous_ownership].

Definition reason_of_text (text : string) : option ReasonCode :=
  find (λ code, (reason_text code =? text)%string) all_reasons.

Lemma reason_of_reason_text code : reason_of_text (reason_text code) = Some code.
Proof. by destruct code. Qed.

#[export] Instance reason_text_inj : Inj (=) (=) reason_text.
Proof.
  intros c1 c2 Heq. pose proof (reason_of_reason_text c1) as H1.
  rewrite Heq, reason_of_reason_text in H1. congruence.
Qed.

#[export] Instance ReasonCode_eq_dec : EqDecision ReasonCode.
Proof.
  intros c1 c2. destruct (decide (reason_text c1 = reason_text c2)) as [Heq|Hne];
    [left; by apply (inj reason_text) | right; by intros ->].
Defined.

(** ** Hours *)

Record InstantInterval := { start : string; end_ : string }.

#[export] Instance InstantInterval_eq_dec : EqDecision InstantInterval.
Proof. solve_decision. Defined.

Record LocalInterval := { local_start : string; local_end : string; end_day_offset : Z }.

(** [WeeklyInterval extends LocalInterval]. *)
Record WeeklyInterval := { weekday : Z; weekly_interval : LocalInterval }.

(** The exceptional dates of a profile; the member [kind]. *)
Inductive HoursExceptionKind :=
| closed
| replace (intervals : list LocalInterval)
| add (intervals : list LocalInterval)
| remove (intervals : list LocalInterval).

Record HoursException := { exception_date : string; kind : HoursExceptionKind }.

Inductive AmbiguousResolution := earlier_offset | later_offset.
Inductive NonexistentResolution := reject | shift_forward_by_gap.

Record HoursProfile := {
  profile_ref : string;
  profile_revision : Z;
  profile_timezone : string;
  ambiguous_resolution : AmbiguousResolution;
  nonexistent_resolution : NonexistentResolution;
  weekly : list WeeklyInterval;
  exceptions : list HoursException;
}.

Inductive HoursMode := all_times | overlaps_profile | contained_in_profile.

#[export] Instance HoursMode_eq_dec : EqDecision HoursMode.
Proof. solve_decision. Defined.

Record HoursEvaluationInput := {
  mode : HoursMode;
  event : InstantInterval;
  profile : option HoursProfile;
}.

Record HoursEvaluationResult := {
  included : bool;
  reason_code : ReasonCode;
  concrete_intervals : list InstantInterval;
  matched_intervals : list InstantInterval;
  diagnostics : list ReasonCode;
}.

Record HoursMaterializationInput := {
  materialized_profile : HoursProfile;
  start_date : string;
  end_date_exclusive : string;
}.

Record HoursMaterializationResult := {
  materialized_intervals : list InstantInterval;
  materialization_diagnostics : list ReasonCode;
}.

(** ** Events and observations *)

Inductive EventTiming :=
| timed (start_instant end_instant start_tzid end_tzid : string)
| all_day (start_date end_date timezone : string).

#[export] Instance EventTiming_eq_dec : EqDecision EventTiming.
Proof. solve_decision. Defined.

Record EventContent := {
  summary : option string;
  description : option string;
  location : option string;
  conference : option string;
}.

Inductive Lifecycle := confirmed | cancelled | deleted.
Inductive Origin := provider_original | planipus_managed.
Inductive Availability := busy | free.
Inductive Role := organizer_role | attendee_role | no_role.
Inductive Response := accepted | tentative | declined | needs_action | not_applicable.

#[export] Instance Lifecycle_eq_dec : EqDecision Lifecycle.
Proof. solve_decision. Defined.
#[export] Instance Origin_eq_dec : EqDecision Origin.
Proof. solve_decision. Defined.
#[export] Instance Availability_eq_dec : EqDecision Availability.
Proof. solve_decision. Defined.

Record Relationship := {
  role : Role;
  response : Response;
  response_note : option string;
}.

(** The recurrence of a materialised occurrence. *)
Record Recurrence := { series_ref : string; original_start : string }.

Record SourceObservation := {
  source_event_ref : string;
  source_occurrence_ref : string;
  remote_revision : string;
  lifecycle : Lifecycle;
  origin : Origin;
  timing : option EventTiming;
  recurrence : option Recurrence;
  availability : option Availability;
  relationship : Relationship;
  destination_identity_invited : bool;
  content : EventContent;
  attendees : option (list string);
  organizer : option string;
  attachments : option (list string);
  source_url : option string;
  provider_metadata : option (list (string * json));
}.

(** ** Policies *)

Inductive PrivacyPreset := busy_only | commitment | private_details | shared_details.

#[export] Instance PrivacyPreset_eq_dec : EqDecision PrivacyPreset.
Proof. solve_decision. Defined.

Record PrivacyPolicy := {
  preset : PrivacyPreset;
  generic_summary : string;
  copy_summary : bool;
  copy_description : bool;
  copy_location : bool;
  copy_conference : bool;
  copy_attendees : bool;
  copy_organizer : bool;
}.

Inductive TimedSelection := timed_include | timed_skip.
Inductive AllDaySelection := all_day_skip | all_day_busy_only | all_day_all.
Inductive FreeSelection := skip_when_redacted | preserve_free | force_busy.
Inductive RsvpSelection := rsvp_busy | rsvp_free | rsvp_omit.

Record SelectionPolicy := {
  timed_selection : TimedSelection;
  all_day_selection : AllDaySelection;
  free_events : FreeSelection;
  tentative_selection : RsvpSelection;
  unanswered_selection : RsvpSelection;
  skip_when_destination_identity_invited : bool;
  source_exclusion_marker : string;
  manual_exclusions : list string;
}.

Inductive PolicyState := active | paused | disabled | review_required.

#[export] Instance PolicyState_eq_dec : EqDecision PolicyState.
Proof. solve_decision. Defined.

Record SyncPolicy := {
  policy_ref : string;
  revision : Z;
  state : PolicyState;
  source_calendar_ref : string;
  destination_calendar_ref : string;
  hours_mode : HoursMode;
  hours_profile_ref : option string;
  privacy : PrivacyPolicy;
  selection : SelectionPolicy;
  destination_color : option string;
  destination_edits : option DestinationEditPolicy;
}.

Record DestinationCapabilities := {
  writable : bool;
  private_visibility : bool;
  conference_copy : bool;
  color_capability : bool;
}.

(** ** Copies and results *)

Inductive Transparency := opaque | transparent.
Inductive Visibility := private | default.

#[export] Instance Transparency_eq_dec : EqDecision Transparency.
Proof. solve_decision. Defined.
#[export] Instance Visibility_eq_dec : EqDecision Visibility.
Proof. solve_decision. Defined.

(** [reminders] is the empty tuple and [write_controls.send_notifications] is
    [false] in the type, so neither is a field here; [desired_json] prints
    both. [provenance] is its policy, projection and generation. *)
Record DesiredCopy := {
  desired_timing : EventTiming;
  desired_summary : string;
  desired_description : option string;
  desired_location : option string;
  desired_conference : option string;
  transparency : Transparency;
  visibility : Visibility;
  desired_color : option string;
  provenance_policy : string;
  provenance_projection : string;
  provenance_generation : Z;
}.

#[export] Instance DesiredCopy_eq_dec : EqDecision DesiredCopy.
Proof. solve_decision. Defined.

Record DisclosureManifest := {
  manifest_preset : PrivacyPreset;
  source_fields_read : list string;
  source_fields_disclosed : list string;
  destination_fields_written : list string;
  source_fields_omitted : list string;
}.

Inductive Ownership := none | attached | detached | ambiguous.

#[export] Instance Ownership_eq_dec : EqDecision Ownership.
Proof. solve_decision. Defined.

Record ProjectionInput := {
  ownership : Ownership;
  projection_ref : option string;
  generation : option Z;
  destination_event_ref : option string;
  destination_exists : option bool;
  desired_fingerprint : option string;
  observed_copy : option DesiredCopy;
}.

Record PolicyEvaluationInput := {
  now : string;
  horizon : InstantInterval;
  candidate_projection_ref : string;
  policy : SyncPolicy;
  hours_profile : option HoursProfile;
  source : SourceObservation;
  projection : ProjectionInput;
  destination_capabilities : DestinationCapabilities;
}.

Module Selection.
Inductive EvaluationSelection := included | excluded | held | invalid.
End Selection.
Module Operation.
Inductive EvaluationOperation := create | update | delete | none.
End Operation.

#[export] Instance EvaluationSelection_eq_dec : EqDecision Selection.EvaluationSelection.
Proof. solve_decision. Defined.
#[export] Instance EvaluationOperation_eq_dec : EqDecision Operation.EvaluationOperation.
Proof. solve_decision. Defined.

Record PolicyEvaluationResult := {
  result_selection : Selection.EvaluationSelection;
  operation : Operation.EvaluationOperation;
  primary_reason_code : ReasonCode;
  reason_codes : list ReasonCode;
  desired_copy : option DesiredCopy;
  result_fingerprint : option string;
  disclosure_manifest : option DisclosureManifest;
  warnings : list ReasonCode;
}.
