(* ===== verification/Hours.v ===== *)
(** * Hours profiles

    [packages/calendar-sync/src/hours.ts]: local times resolved across clock
    changes, the intervals of a calendar date with its exceptions, and the two
    exported functions, [evaluateHours] and [materializeHours]. *)

From S2P Require Import Prelude Types Dates Temporal.
From stdpp Require Import options.
Open Scope Z_scope.

(** [ConcreteInterval]: two instants, in nanoseconds. *)
Record ConcreteInterval := { cstart : Z; cend : Z }.

#[export] Instance ConcreteInterval_eq_dec : EqDecision ConcreteInterval.
Proof. solve_decision. Defined.

Record ResolvedInstant := { instant : Z; diagnostic : option ReasonCode }.

(** What the functions of the file throw: [DstResolutionError], a [RangeError]
    of the Temporal library, or (never, by [days_of_no_fuel_error]) the end of the fuel. *)
Inductive hours_error := DstResolutionError | RangeError | OutOfFuel.

#[export] Instance hours_error_eq_dec : EqDecision hours_error.
Proof. solve_decision. Defined.

(** A computation that may throw and pushes on the array [diagnostics]. *)
Definition Diag (A : Type) : Type :=
  list ReasonCode → res hours_error (A * list ReasonCode).

#[export] Instance Diag_ret : MRet Diag := λ A a diagnostics, Ok (a, diagnostics).
#[export] Instance Diag_bind : MBind Diag := λ A B f m diagnostics,
  match m diagnostics with
  | Ok (a, diagnostics) => f a diagnostics
  | Throw e => Throw e
  end.

(** A computation that does not touch the array. *)
Definition lift {A} (m : res hours_error A) : Diag A := λ diagnostics,
  match m with Ok a => Ok (a, diagnostics) | Throw e => Throw e end.

Definition push (code : option ReasonCode) : Diag () := λ diagnostics,
  Ok ((), match code with Some code => diagnostics ++ [code] | None => diagnostics end).

Fixpoint map_diag {A B} (f : A → Diag B) (xs : list A) : Diag (list B) :=
  match xs with
  | [] => mret []
  | x :: xs => y ← f x; ys ← map_diag f xs; mret (y :: ys)
  end.

Section hours.
Context `{Temporal}.

(** [resolveLocal(date, timeText, profile)]. *)
Definition resolveLocal (date : Z) (timeText : string) (profile : HoursProfile)
    : res hours_error ResolvedInstant :=
  time ← otherwise (PlainTime_from timeText) RangeError;
  let from := ZonedDateTime_from (profile_timezone profile) date time in
  match from Reject with
  | Some i => Ok {| instant := i; diagnostic := None |}
  | None =>
      earlier ← otherwise (from Earlier) DstResolutionError;
      later ← otherwise (from Later) DstResolutionError;
      let at_requested i :=
        bool_decide (toZonedDateTimeISO (profile_timezone profile) i = Some (date, time)) in
      if at_requested earlier && at_requested later then
        match ambiguous_resolution profile with
        | earlier_offset => Ok {| instant := earlier; diagnostic := Some Reason.dst_ambiguous_earlier |}
        | later_offset => Ok {| instant := later; diagnostic := Some Reason.dst_ambiguous_later |}
        end
      else
        match nonexistent_resolution profile with
        | reject => Throw DstResolutionError
        | shift_forward_by_gap =>
            Ok {| instant := later; diagnostic := Some Reason.dst_nonexistent_shifted |}
        end
  end.

(** [materialize(date, local, profile, diagnostics)]. *)
Definition materialize (date : Z) (local : LocalInterval) (profile : HoursProfile)
    : Diag (option ConcreteInterval) :=
  start ← lift (resolveLocal date (local_start local) profile);
  endDate ← lift (otherwise (PlainDate_add date (end_day_offset local)) RangeError);
  stop ← lift (resolveLocal endDate (local_end local) profile);
  push (diagnostic start);;
  push (diagnostic stop);;
  mret (if instant stop <=? instant start then None
        else Some {| cstart := instant start; cend := instant stop |}).

(** [subtractInterval(base, removal)]. *)
Definition subtractInterval (base removal : ConcreteInterval) : list ConcreteInterval :=
  if (cend removal <=? cstart base) || (cend base <=? cstart removal) then [base]
  else
    (if cstart base <? cstart removal
     then [{| cstart := cstart base; cend := cstart removal |}] else []) ++
    (if cend removal <? cend base
     then [{| cstart := cend removal; cend := cend base |}] else []).

(** The loop over the removals of a [remove] exception. *)
Definition subtract_all (concrete removals : list ConcreteInterval) : list ConcreteInterval :=
  fold_left (λ concrete removal, concrete ≫= λ base, subtractInterval base removal)
    removals concrete.

Definition exception_of (date : Z) (profile : HoursProfile) : option HoursExceptionKind :=
  item ← find (λ item, (exception_date item =? PlainDate_toString date)%string) (exceptions profile);
  Some (kind item).

Definition weekly_of (date : Z) (profile : HoursProfile) : list LocalInterval :=
  map weekly_interval (List.filter (λ item, weekday item =? dayOfWeek date) (weekly profile)).

(** The intervals of the list that were not empty. *)
Definition materialize_all (date : Z) (locals : list LocalInterval) (profile : HoursProfile)
    : Diag (list ConcreteInterval) :=
  intervals ← map_diag (λ interval, materialize date interval profile) locals;
  mret (omap id intervals).

(** [intervalsForDate(date, profile, diagnostics)]. *)
Definition intervalsForDate (date : Z) (profile : HoursProfile) : Diag (list ConcreteInterval) :=
  let weekly := weekly_of date profile in
  match exception_of date profile with
  | Some closed => mret []
  | Some (replace intervals) => materialize_all date intervals profile
  | Some (add intervals) => materialize_all date (weekly ++ intervals) profile
  | Some (remove intervals) =>
      concrete ← materialize_all date weekly profile;
      removals ← materialize_all date intervals profile;
      mret (subtract_all concrete removals)
  | None => materialize_all date weekly profile
  end.

Definition instantString (value : Z) : string := Instant_toString value.

(** The key of an interval in the map of [deduplicateAndSort]. *)
Definition interval_key (interval : ConcreteInterval) : string :=
  instantString (cstart interval) +:+ "/" +:+ instantString (cend interval).

(** [byKey.set(key, interval)]: a present key keeps its place and takes the
    new interval, an absent key goes last. *)
Fixpoint map_set (byKey : list ConcreteInterval) (interval : ConcreteInterval)
    : list ConcreteInterval :=
  match byKey with
  | [] => [interval]
  | old :: byKey =>
      if bool_decide (interval_key old = interval_key interval) then interval :: byKey
      else old :: map_set byKey interval
  end.

(** The comparator of [deduplicateAndSort]. *)
Definition interval_leb (left right : ConcreteInterval) : bool :=
  (cstart left <? cstart right) || ((cstart left =? cstart right) && (cend left <=? cend right)).

Definition deduplicateAndSort (intervals : list ConcreteInterval) : list ConcreteInterval :=
  sort_by interval_leb (fold_left map_set intervals []).

Definition publicIntervals (intervals : list ConcreteInterval) : list InstantInterval :=
  map (λ i, {| start := instantString (cstart i); end_ := instantString (cend i) |}) intervals.

(** The day loops: [while (compare(date, bound) <= 0)] of [evaluateHours]
    ([inclusive]) and [while (compare(date, end) < 0)] of [materializeHours].
    [FUEL] iterations are more than the 371 the counter admits. *)
Definition MAX_DAYS : Z := 370.
Definition FUEL : nat := 373.

Fixpoint days_of (fuel : nat) (inclusive : bool) (date bound days : Z) (profile : HoursProfile)
    (concrete : list ConcreteInterval) : Diag (list ConcreteInterval) :=
  match fuel with
  | O => lift (Throw OutOfFuel)
  | S fuel =>
      if (if inclusive then date <=? bound else date <? bound) then
        if MAX_DAYS <? days then lift (Throw DstResolutionError)
        else
          today ← intervalsForDate date profile;
          date ← lift (otherwise (PlainDate_add date 1) RangeError);
          days_of fuel inclusive date bound (days + 1) profile (concrete ++ today)
      else mret concrete
  end.

Definition hours_result (included : bool) (reason_code : ReasonCode) : HoursEvaluationResult :=
  {| included := included; reason_code := reason_code; concrete_intervals := [];
     matched_intervals := []; diagnostics := [] |}.

Definition overlaps_event (eventStart eventEnd : Z) (i : ConcreteInterval) : bool :=
  (eventStart <? cend i) && (cstart i <? eventEnd).
Definition contains_event (eventStart eventEnd : Z) (i : ConcreteInterval) : bool :=
  (cstart i <=? eventStart) && (eventEnd <=? cend i).

(** What the [try] block of [evaluateHours] returns for the intervals of the days. *)
Definition profile_result (mode : HoursMode) (eventStart eventEnd : Z)
    (concrete : list ConcreteInterval) (diagnostics : list ReasonCode) : HoursEvaluationResult :=
  let sorted := deduplicateAndSort concrete in
  let overlapping := bool_decide (mode = overlaps_profile) in
  let matched := List.filter (if overlapping then overlaps_event eventStart eventEnd
                              else contains_event eventStart eventEnd) sorted in
  let included := (0 <? length matched)%nat in
  {| included := included;
     reason_code :=
       if included then (if overlapping then Reason.overlaps_hours else Reason.contained_in_hours)
       else (if overlapping then Reason.outside_hours else Reason.not_contained_in_hours);
     concrete_intervals := publicIntervals sorted;
     matched_intervals := publicIntervals matched;
     diagnostics := new_set diagnostics |}.

(** The body of the [try] block of [evaluateHours]. *)
Definition evaluate_profile (mode : HoursMode) (eventStart eventEnd : Z) (profile : HoursProfile)
    : res hours_error HoursEvaluationResult :=
  '(startDate, _) ← otherwise (toZonedDateTimeISO (profile_timezone profile) eventStart) RangeError;
  localStart ← otherwise (PlainDate_add startDate (-1)) RangeError;
  '(localEnd, _) ← otherwise (toZonedDateTimeISO (profile_timezone profile) eventEnd) RangeError;
  '(concrete, diagnostics) ← days_of FUEL true localStart localEnd 0 profile [] [];
  Ok (profile_result mode eventStart eventEnd concrete diagnostics).

(** [evaluateHours(input)]; the two [Instant.from] calls are outside the [try]. *)
Definition evaluateHours (input : HoursEvaluationInput) : res hours_error HoursEvaluationResult :=
  eventStart ← otherwise (Instant_from (start (event input))) RangeError;
  eventEnd ← otherwise (Instant_from (end_ (event input))) RangeError;
  if eventEnd <=? eventStart then Ok (hours_result false Reason.invalid_hours_profile)
  else match mode input, profile input with
  | all_times, _ => Ok (hours_result true Reason.all_times)
  | _, None => Ok (hours_result false Reason.invalid_hours_profile)
  | mode, Some profile =>
      match evaluate_profile mode eventStart eventEnd profile with
      | Ok result => Ok result
      | Throw DstResolutionError =>
          Ok {| included := false; reason_code := Reason.dst_resolution_rejected;
                concrete_intervals := []; matched_intervals := [];
                diagnostics := [Reason.dst_resolution_rejected] |}
      | Throw RangeError => Ok (hours_result false Reason.invalid_hours_profile)
      | Throw OutOfFuel => Throw OutOfFuel
      end
  end.

(** The body of the [try] block of [materializeHours]. *)
Definition materialize_range (input : HoursMaterializationInput)
    : res hours_error HoursMaterializationResult :=
  date ← otherwise (PlainDate_from (start_date input)) RangeError;
  stop ← otherwise (PlainDate_from (end_date_exclusive input)) RangeError;
  if stop <=? date
  then Ok {| materialized_intervals := []; materialization_diagnostics := [] |}
  else
    '(concrete, diagnostics) ← days_of FUEL false date stop 0 (materialized_profile input) [] [];
    Ok {| materialized_intervals := publicIntervals (deduplicateAndSort concrete);
          materialization_diagnostics := new_set diagnostics |}.

(** [materializeHours(input)]. *)
Definition materializeHours (input : HoursMaterializationInput)
    : res hours_error HoursMaterializationResult :=
  match materialize_range input with
  | Ok result => Ok result
  | Throw OutOfFuel => Throw OutOfFuel
  | Throw _ => Ok {| materialized_intervals := [];
                     materialization_diagnostics := [Reason.dst_resolution_rejected] |}
  end.
End hours.

(** ** The array of diagnostics only grows *)

(** [m] returns or throws whatever the array holds, and pushes the same codes. *)
Class Pushes {A} (m : Diag A) : Prop := pushes ds :
  m ds = match m [] with Ok (a, more) => Ok (a, ds ++ more) | Throw e => Throw e end.

#[export] Instance pushes_ret {A} (a : A) : Pushes (mret a).
Proof. intros ds. cbn. by rewrite app_nil_r. Qed.

#[export] Instance pushes_lift {A} (m : res hours_error A) : Pushes (lift m).
Proof. intros ds. unfold lift. destruct m; [|done]. by rewrite app_nil_r. Qed.

#[export] Instance pushes_push code : Pushes (push code).
Proof. intros ds. unfold push. destruct code; [done|]. by rewrite app_nil_r. Qed.

#[export] Instance pushes_bind {A B} (m : Diag A) (f : A → Diag B) :
  Pushes m → (∀ a, Pushes (f a)) → Pushes (mbind f m).
Proof.
  intros Hm Hf ds. unfold mbind, Diag_bind. rewrite (Hm ds).
  destruct (m []) as [[a more]|]; [|done].
  rewrite (Hf a (ds ++ more)), (Hf a more). destruct (f a []) as [[b more']|]; [|done].
  by rewrite app_assoc.
Qed.

#[export] Instance pushes_map_diag {A B} (f : A → Diag B) xs :
  (∀ x, Pushes (f x)) → Pushes (map_diag f xs).
Proof. intros Hf. induction xs; cbn; apply _. Qed.

Lemma bind_diag_Ok {A B} (m : Diag A) (f : A → Diag B) ds b ds' :
  mbind f m ds = Ok (b, ds') ↔ ∃ a more, m ds = Ok (a, more) ∧ f a more = Ok (b, ds').
Proof. unfold mbind, Diag_bind. destruct (m ds) as [[??]|]; naive_solver. Qed.

Lemma lift_Ok {A} (m : res hours_error A) ds a ds' :
  lift m ds = Ok (a, ds') ↔ m = Ok a ∧ ds' = ds.
Proof. unfold lift. destruct m; naive_solver. Qed.

Lemma otherwise_Ok {E A} (m : option A) (e : E) a : otherwise m e = Ok a ↔ m = Some a.
Proof. destruct m; cbn; naive_solver. Qed.

Lemma map_diag_Ok {A B} (f : A → Diag B) xs ds ys ds' :
  (∀ x, Pushes (f x)) →
  map_diag f xs ds = Ok (ys, ds') → Forall2 (λ x y, ∃ more, f x [] = Ok (y, more)) xs ys.
Proof.
  intros Hf. revert ds ys ds'. induction xs as [|x xs IH]; intros ds ys ds'; cbn [map_diag].
  - intros [= <- <-]. constructor.
  - rewrite bind_diag_Ok. setoid_rewrite bind_diag_Ok.
    intros (y & more & Hy & ys' & more' & Hys & [= <- <-]). constructor; [|by eapply IH].
    rewrite (pushes (m := f x)) in Hy. destruct (f x []) as [[??]|]; naive_solver.
Qed.

(** ** Intervals *)

Definition covers (i : Z) (interval : ConcreteInterval) : Prop :=
  cstart interval <= i < cend interval.
Definition covered (i : Z) (intervals : list ConcreteInterval) : Prop :=
  ∃ interval, interval ∈ intervals ∧ covers i interval.
Definition nonempty (interval : ConcreteInterval) : Prop := cstart interval < cend interval.

Lemma covered_app i xs ys : covered i (xs ++ ys) ↔ covered i xs ∨ covered i ys.
Proof. unfold covered. setoid_rewrite elem_of_app. naive_solver. Qed.

Lemma covered_nil i : ¬ covered i [].
Proof. intros (? & ?%elem_of_nil & _). done. Qed.

Lemma covered_cons i x xs : covered i (x :: xs) ↔ covers i x ∨ covered i xs.
Proof. unfold covered. setoid_rewrite elem_of_cons. naive_solver. Qed.

(** Subtraction removes exactly the instants of the removal. *)
Lemma covered_subtractInterval i base removal :
  nonempty removal →
  covered i (subtractInterval base removal) ↔ covers i base ∧ ¬ covers i removal.
Proof.
  unfold subtractInterval, nonempty. intros Hne.
  destruct (Z.leb_spec (cend removal) (cstart base)), (Z.leb_spec (cend base) (cstart removal));
    cbn [orb];
    [rewrite covered_cons; pose proof (covered_nil i); unfold covers; intuition lia..|].
  rewrite covered_app.
  destruct (Z.ltb_spec (cstart base) (cstart removal)), (Z.ltb_spec (cend removal) (cend base));
    rewrite ?covered_cons; pose proof (covered_nil i); unfold covers; cbn [cstart cend];
    intuition lia.
Qed.

Lemma nonempty_subtractInterval base removal :
  nonempty base → Forall nonempty (subtractInterval base removal).
Proof.
  unfold subtractInterval, nonempty. intros Hb.
  destruct (Z.leb_spec (cend removal) (cstart base)), (Z.leb_spec (cend base) (cstart removal));
    cbn [orb]; [by repeat constructor..|].
  apply Forall_app_2;
    destruct (Z.ltb_spec (cstart base) (cstart removal)), (Z.ltb_spec (cend removal) (cend base));
    repeat constructor; cbn; lia.
Qed.

Lemma covered_flat_map i f (concrete : list ConcreteInterval) :
  covered i (concrete ≫= f) ↔ ∃ base, base ∈ concrete ∧ covered i (f base).
Proof. unfold covered. setoid_rewrite list_elem_of_bind. naive_solver. Qed.

Lemma covered_subtract_all i concrete removals :
  Forall nonempty removals →
  covered i (subtract_all concrete removals) ↔ covered i concrete ∧ ¬ covered i removals.
Proof.
  unfold subtract_all. intros Hne. revert concrete.
  induction Hne as [|r removals Hr Hne IH]; intros concrete; cbn [fold_left].
  - pose proof (covered_nil i). tauto.
  - rewrite IH, covered_flat_map, covered_cons.
    setoid_rewrite covered_subtractInterval; [|done]. unfold covered at 2. naive_solver.
Qed.

Lemma nonempty_subtract_all concrete removals :
  Forall nonempty concrete → Forall nonempty (subtract_all concrete removals).
Proof.
  unfold subtract_all. revert concrete. induction removals as [|r removals IH]; intros concrete Hc; cbn; [done|].
  apply IH. apply Forall_forall. intros i (base & Hi & Hb)%list_elem_of_bind.
  rewrite Forall_forall in Hc. specialize (Hc base Hb).
  eapply Forall_forall; [by apply nonempty_subtractInterval|done].
Qed.

(** ** Deduplication *)

Section dedupe.
Context `{Temporal}.

Lemma elem_of_map_set byKey x i : i ∈ map_set byKey x → i = x ∨ i ∈ byKey.
Proof.
  induction byKey as [|old byKey IH]; cbn; [set_solver|].
  case_bool_decide; rewrite !elem_of_cons; naive_solver.
Qed.

Lemma map_set_keys byKey x :
  map interval_key (map_set byKey x) =
    if bool_decide (interval_key x ∈ map interval_key byKey) then map interval_key byKey
    else map interval_key byKey ++ [interval_key x].
Proof.
  induction byKey as [|old byKey IH]; cbn [map_set map]; [done|].
  destruct (decide (interval_key old = interval_key x)) as [Hk|Hk].
  - rewrite (bool_decide_eq_true_2 (_ = _)) by done. cbn [map].
    rewrite Hk, bool_decide_eq_true_2 by (by left). done.
  - rewrite (bool_decide_eq_false_2 (_ = _)) by done. cbn [map]. rewrite IH.
    repeat case_bool_decide; try done; set_solver.
Qed.

Lemma NoDup_map_set byKey x :
  NoDup (map interval_key byKey) → NoDup (map interval_key (map_set byKey x)).
Proof.
  intros Hnd. rewrite map_set_keys. case_bool_decide; [done|].
  apply NoDup_app. split; [done|]. split; [set_solver|apply NoDup_singleton].
Qed.

Lemma elem_of_map_set_new byKey x : x ∈ map_set byKey x.
Proof.
  induction byKey as [|old byKey IH]; cbn; [by left|]. case_bool_decide; [by left|by right].
Qed.

Lemma map_set_keys_mono byKey x k :
  k ∈ map interval_key byKey ∨ k = interval_key x → k ∈ map interval_key (map_set byKey x).
Proof. rewrite map_set_keys. case_bool_decide; set_solver. Qed.

Lemma fold_map_set xs byKey :
  let out := fold_left map_set xs byKey in
  (∀ i, i ∈ out → i ∈ byKey ∨ i ∈ xs) ∧
  (∀ k, k ∈ map interval_key byKey ∨ k ∈ map interval_key xs → k ∈ map interval_key out) ∧
  (NoDup (map interval_key byKey) → NoDup (map interval_key out)).
Proof.
  cbn zeta. revert byKey. induction xs as [|x xs IH]; intros byKey; cbn [fold_left map].
  - split; [by left|]. split; [set_solver|done].
  - destruct (IH (map_set byKey x)) as (H1 & H2 & H3). split; [|split].
    + intros i [[->|?]%elem_of_map_set|?]%H1; set_solver.
    + intros k Hk. apply H2. rewrite elem_of_cons in Hk.
      destruct Hk as [?|[?|?]]; [left; apply map_set_keys_mono; auto..|by right].
    + intros ?. by apply H3, NoDup_map_set.
Qed.

Lemma interval_leb_total x y : interval_leb x y = true ∨ interval_leb y x = true.
Proof.
  unfold interval_leb. rewrite !orb_true_iff, !andb_true_iff, !Z.ltb_lt, !Z.eqb_eq, !Z.leb_le. lia.
Qed.

Lemma interval_leb_trans x y z :
  interval_leb x y = true → interval_leb y z = true → interval_leb x z = true.
Proof.
  unfold interval_leb. rewrite !orb_true_iff, !andb_true_iff, !Z.ltb_lt, !Z.eqb_eq, !Z.leb_le. lia.
Qed.

End dedupe.

Section dedupe_laws.
Context `{TemporalLaws}.

(** Equal keys are equal seconds. *)
Lemma interval_key_seconds x y :
  interval_key x = interval_key y ↔
  cstart x / NANOSECONDS_PER_SECOND = cstart y / NANOSECONDS_PER_SECOND ∧
  cend x / NANOSECONDS_PER_SECOND = cend y / NANOSECONDS_PER_SECOND.
Proof using All.
  unfold interval_key, instantString. rewrite <- !Instant_toString_second. split.
  - cbn. intros [Hs He]%string_separator; [done|apply Instant_toString_no_slash..].
  - by intros [-> ->].
Qed.

Definition whole_second (interval : ConcreteInterval) : Prop :=
  cstart interval mod NANOSECONDS_PER_SECOND = 0 ∧ cend interval mod NANOSECONDS_PER_SECOND = 0.

Lemma interval_key_inj x y :
  whole_second x → whole_second y → interval_key x = interval_key y → x = y.
Proof using All.
  unfold whole_second, NANOSECONDS_PER_SECOND. destruct x as [sx ex], y as [sy ey].
  cbn [cstart cend]. intros [] [] [Hs He]%interval_key_seconds. cbn [cstart cend] in *.
  unfold NANOSECONDS_PER_SECOND in *. f_equal; Z.div_mod_to_equations; lia.
Qed.

(** Whole-second intervals are neither lost nor invented. *)
Lemma elem_of_deduplicateAndSort xs i :
  Forall whole_second xs → i ∈ deduplicateAndSort xs ↔ i ∈ xs.
Proof using All.
  intros Hws. unfold deduplicateAndSort. rewrite elem_of_sort_by.
  destruct (fold_map_set xs []) as (H1 & H2 & _). split.
  - intros [Hi|?]%H1; [by apply elem_of_nil in Hi|done].
  - intros Hi. destruct (list_elem_of_fmap_1 interval_key (fold_left map_set xs []) (interval_key i))
      as (j & Hkey & Hj).
    { apply H2. right. by apply list_elem_of_fmap_2. }
    rewrite Forall_forall in Hws.
    assert (j ∈ xs) as Hjx by (apply H1 in Hj as [Hj|?]; [by apply elem_of_nil in Hj|done]).
    by rewrite (interval_key_inj i j) by auto.
Qed.
End dedupe_laws.

(** ** The intervals of a date *)

Section date.
Context `{Temporal}.

(** The specification of a local interval: the instants from its start to its
    end, each resolved in the zone of the profile. *)
Definition local_interval (date : Z) (local : LocalInterval) (profile : HoursProfile)
    (interval : ConcreteInterval) : Prop :=
  ∃ s endDate e,
    resolveLocal date (local_start local) profile = Ok s ∧
    PlainDate_add date (end_day_offset local) = Some endDate ∧
    resolveLocal endDate (local_end local) profile = Ok e ∧
    interval = {| cstart := instant s; cend := instant e |}.

#[export] Instance pushes_materialize date local profile : Pushes (materialize date local profile).
Proof. unfold materialize. apply _. Qed.

#[export] Instance pushes_materialize_all date locals profile :
  Pushes (materialize_all date locals profile).
Proof. unfold materialize_all. apply _. Qed.

#[export] Instance pushes_intervalsForDate date profile : Pushes (intervalsForDate date profile).
Proof. unfold intervalsForDate. repeat case_match; apply _. Qed.

Lemma materialize_Ok date local profile ds result ds' :
  materialize date local profile ds = Ok (result, ds') →
  ∃ interval, local_interval date local profile interval ∧
    result = (if cend interval <=? cstart interval then None else Some interval).
Proof.
  unfold materialize. repeat setoid_rewrite bind_diag_Ok. setoid_rewrite lift_Ok.
  intros (s & ? & [Hs ->] & endDate & ? & [Hd%otherwise_Ok ->] & e & ? & [He ->] & ? & ? & _ & ? & ? & _ & Hr).
  injection Hr as <- <-.
  exists {| cstart := instant s; cend := instant e |}. split; [|done]. by exists s, endDate, e.
Qed.

Lemma local_interval_unique date local profile i j :
  local_interval date local profile i → local_interval date local profile j → i = j.
Proof.
  intros (s & d & e & Hs & Hd & He & ->) (s' & d' & e' & Hs' & Hd' & He' & ->).
  assert (s' = s) as -> by congruence. assert (d' = d) as -> by congruence.
  by assert (e' = e) as -> by congruence.
Qed.

Lemma materialize_all_Ok date locals profile ds intervals ds' :
  materialize_all date locals profile ds = Ok (intervals, ds') →
  ∀ interval, interval ∈ intervals ↔
    nonempty interval ∧ ∃ local, local ∈ locals ∧ local_interval date local profile interval.
Proof.
  unfold materialize_all. rewrite bind_diag_Ok. intros (results & more & Hmap & [= <- <-]) interval.
  apply map_diag_Ok in Hmap; [|apply _].
  rewrite list_elem_of_omap. unfold nonempty. cbn [id]. split.
  - intros (result & [k Hk]%list_elem_of_lookup & ->).
    destruct (Forall2_lookup_r _ _ _ _ _ Hmap Hk) as (local & Hl & more' & Hm).
    apply materialize_Ok in Hm as (i & Hi & Heq).
    destruct (Z.leb_spec (cend i) (cstart i)); [done|]. injection Heq as ->.
    split; [done|]. exists local. split; [by eapply list_elem_of_lookup_2|done].
  - intros (Hne & local & [k Hk]%list_elem_of_lookup & Hi).
    destruct (Forall2_lookup_l _ _ _ _ _ Hmap Hk) as (result & Hr & more' & Hm).
    exists result. split; [by eapply list_elem_of_lookup_2|].
    apply materialize_Ok in Hm as (j & Hj & ->).
    rewrite (local_interval_unique _ _ _ _ _ Hi Hj) in *.
    destruct (Z.leb_spec (cend j) (cstart j)); [lia|done].
Qed.

(** The instants of a list of local intervals. *)
Definition locally_covered (date i : Z) (locals : list LocalInterval) (profile : HoursProfile) : Prop :=
  ∃ local interval, local ∈ locals ∧ local_interval date local profile interval ∧ covers i interval.

Lemma covered_materialize_all date locals profile ds intervals ds' i :
  materialize_all date locals profile ds = Ok (intervals, ds') →
  covered i intervals ↔ locally_covered date i locals profile.
Proof.
  intros Hm. pose proof (materialize_all_Ok _ _ _ _ _ _ Hm) as Hin.
  unfold covered, locally_covered. setoid_rewrite Hin. unfold nonempty, covers. split.
  - naive_solver.
  - intros (local & interval & Hl & Hi & Hc). exists interval. split; [|done]. split; [lia|eauto].
Qed.

Lemma materialize_all_nonempty date locals profile ds intervals ds' :
  materialize_all date locals profile ds = Ok (intervals, ds') → Forall nonempty intervals.
Proof.
  rewrite Forall_forall. intros Hm interval Hi.
  by apply (materialize_all_Ok _ _ _ _ _ _ Hm) in Hi as [? _].
Qed.

(** The specification of the hours of a date. *)
Definition open_at (date i : Z) (profile : HoursProfile) : Prop :=
  let weekly := locally_covered date i (weekly_of date profile) profile in
  match exception_of date profile with
  | None => weekly
  | Some closed => False
  | Some (replace intervals) => locally_covered date i intervals profile
  | Some (add intervals) => weekly ∨ locally_covered date i intervals profile
  | Some (remove intervals) => weekly ∧ ¬ locally_covered date i intervals profile
  end.

Lemma locally_covered_app date i xs ys profile :
  locally_covered date i (xs ++ ys) profile ↔
  locally_covered date i xs profile ∨ locally_covered date i ys profile.
Proof. unfold locally_covered. setoid_rewrite elem_of_app. naive_solver. Qed.

Lemma intervalsForDate_nonempty date profile ds intervals ds' :
  intervalsForDate date profile ds = Ok (intervals, ds') → Forall nonempty intervals.
Proof.
  unfold intervalsForDate. destruct (exception_of date profile) as [[]|].
  - by intros [= <- <-].
  - apply materialize_all_nonempty.
  - apply materialize_all_nonempty.
  - intros (concrete & ? & Hc & (removals & ? & Hr & [= <- <-])%bind_diag_Ok)%bind_diag_Ok.
    apply nonempty_subtract_all. by eapply materialize_all_nonempty.
  - apply materialize_all_nonempty.
Qed.

(** The hours of a date cover exactly the instants at which its weekly
    intervals, as changed by the exception of the date, are open: [closed]
    opens nothing, [replace] only its own intervals, [add] both, [remove] the
    weekly instants outside its intervals. *)
Theorem intervalsForDate_open_at date profile ds intervals ds' i :
  intervalsForDate date profile ds = Ok (intervals, ds') →
  covered i intervals ↔ open_at date i profile.
Proof.
  unfold intervalsForDate, open_at. destruct (exception_of date profile) as [[]|]; intros Hd.
  - injection Hd as <- <-. pose proof (covered_nil i). tauto.
  - by eapply covered_materialize_all.
  - rewrite <- locally_covered_app. by eapply covered_materialize_all.
  - apply bind_diag_Ok in Hd as (concrete & ? & Hc & (removals & ? & Hr & [= <- <-])%bind_diag_Ok).
    rewrite covered_subtract_all by (by eapply materialize_all_nonempty).
    by rewrite (covered_materialize_all _ _ _ _ _ _ _ Hc), (covered_materialize_all _ _ _ _ _ _ _ Hr).
  - by eapply covered_materialize_all.
Qed.

(** The intervals of one date, [] when they cannot be computed. *)
Definition day_intervals (profile : HoursProfile) (date : Z) : list ConcreteInterval :=
  match intervalsForDate date profile [] with Ok (intervals, _) => intervals | Throw _ => [] end.

Lemma day_intervals_Ok date profile ds intervals ds' :
  intervalsForDate date profile ds = Ok (intervals, ds') → day_intervals profile date = intervals.
Proof.
  unfold day_intervals. rewrite (pushes (m := intervalsForDate date profile)).
  destruct (intervalsForDate date profile []) as [[??]|]; naive_solver.
Qed.

Lemma day_intervals_nonempty date profile : Forall nonempty (day_intervals profile date).
Proof.
  unfold day_intervals. destruct (intervalsForDate date profile []) as [[??]|] eqn:Hd; [|done].
  by eapply intervalsForDate_nonempty.
Qed.

(** The computation does not throw the error, whatever the array holds. *)
Definition never {A} (e : hours_error) (m : Diag A) : Prop := ∀ ds, m ds ≠ Throw e.

Lemma never_bind {A B} e (m : Diag A) (f : A → Diag B) : never e m → (∀ a, never e (f a)) → never e (mbind f m).
Proof.
  intros Hm Hf ds. unfold mbind, Diag_bind. specialize (Hm ds). destruct (m ds) as [[a ds']|]; [|congruence].
  apply Hf.
Qed.

Lemma never_ret {A} e (a : A) : never e (mret a).
Proof. done. Qed.

Lemma never_lift {A} e (m : res hours_error A) : m ≠ Throw e → never e (lift m).
Proof. intros Hm ds. unfold lift. destruct m; congruence. Qed.

Lemma never_otherwise {A} (m : option A) (e e' : hours_error) : e' ≠ e → otherwise m e' ≠ Throw e.
Proof. destruct m; cbn; congruence. Qed.

Lemma never_push e code : never e (push code).
Proof. done. Qed.

Lemma never_map_diag {A B} e (f : A → Diag B) xs : (∀ x, x ∈ xs → never e (f x)) → never e (map_diag f xs).
Proof.
  induction xs as [|x xs IH]; intros Hf; cbn [map_diag]; [apply never_ret|].
  apply never_bind; [apply Hf; by left|]. intros. apply never_bind; [|intros; apply never_ret].
  apply IH. intros y Hy. apply Hf. by right.
Qed.

Lemma no_fuel_resolveLocal date text profile : resolveLocal date text profile ≠ Throw OutOfFuel.
Proof.
  unfold resolveLocal. destruct (PlainTime_from text); cbn; [|done].
  destruct (ZonedDateTime_from _ _ _ Reject); [done|].
  destruct (ZonedDateTime_from _ _ _ Earlier); cbn; [|done].
  destruct (ZonedDateTime_from _ _ _ Later); cbn; [|done].
  by repeat case_match.
Qed.

Lemma no_fuel_materialize_all date locals profile :
  never OutOfFuel (materialize_all date locals profile).
Proof.
  unfold materialize_all, materialize.
  repeat first [apply never_bind; [|intros ?] | apply never_map_diag; intros ? _
    | apply never_ret | apply never_push
    | apply never_lift; first [apply no_fuel_resolveLocal | by apply never_otherwise]].
Qed.

Lemma no_fuel_intervalsForDate date profile : never OutOfFuel (intervalsForDate date profile).
Proof.
  unfold intervalsForDate. repeat case_match;
    repeat first [apply never_ret | apply no_fuel_materialize_all | apply never_bind; [|intros ?]].
Qed.
End date.

(** ** The day loops *)

Section days.
Context `{Temporal}.

Lemma days_of_no_fuel_error fuel inclusive date bound days profile concrete :
  (0 < fuel)%nat → MAX_DAYS + 2 - days <= Z.of_nat fuel →
  never OutOfFuel (days_of fuel inclusive date bound days profile concrete).
Proof.
  revert date days concrete. induction fuel as [|fuel IH]; intros date days concrete H0 Hf; [lia|].
  cbn [days_of]. destruct (if inclusive then _ else _); [|apply never_ret].
  destruct (Z.ltb_spec MAX_DAYS days); [by apply never_lift|].
  apply never_bind; [apply no_fuel_intervalsForDate|intros today].
  apply never_bind; [by apply never_lift, never_otherwise|intros next].
  apply IH; lia.
Qed.

(** The number of days of a range. *)
Definition day_count (inclusive : bool) (date bound : Z) : Z :=
  bound - date + (if inclusive then 1 else 0).

Lemma day_count_pos (inclusive : bool) date bound :
  (if inclusive then date <=? bound else date <? bound) = (0 <? day_count inclusive date bound).
Proof.
  unfold day_count. destruct inclusive;
    [destruct (Z.leb_spec date bound) | destruct (Z.ltb_spec date bound)];
    symmetry; rewrite ?Z.ltb_lt, ?Z.ltb_ge; lia.
Qed.

Definition day_computed (profile : HoursProfile) (date : Z) : Prop :=
  ∃ intervals more, intervalsForDate date profile [] = Ok (intervals, more).

Context `{!TemporalLaws H}.

(** A loop that ends has visited every day of the range, and at most 371. *)
Lemma days_of_Ok fuel inclusive date bound days profile concrete ds out ds' :
  days_of fuel inclusive date bound days profile concrete ds = Ok (out, ds') →
  let range := seqZ date (day_count inclusive date bound) in
  out = concrete ++ concat (map (day_intervals profile) range) ∧
  Forall (day_computed profile) range ∧
  (0 < day_count inclusive date bound → days + day_count inclusive date bound <= MAX_DAYS + 1).
Proof using All.
  revert date days concrete ds. induction fuel as [|fuel IH]; intros date days concrete ds; [done|].
  cbn [days_of]. rewrite day_count_pos.
  destruct (Z.ltb_spec 0 (day_count inclusive date bound)) as [Hpos|Hpos].
  - destruct (Z.ltb_spec MAX_DAYS days); [done|].
    intros (today & more & Hd & (next & ? & Hn & Hrest)%bind_diag_Ok)%bind_diag_Ok.
    apply lift_Ok in Hn as [Hn%otherwise_Ok%PlainDate_add_days ->]. subst next.
    apply IH in Hrest as (-> & Hall & Hmax).
    assert (day_count inclusive (date + 1) bound = day_count inclusive date bound - 1) as Hc
      by (unfold day_count; lia).
    rewrite Hc in *. rewrite (seqZ_cons date) by lia. cbn [map concat].
    rewrite Z.add_1_r in *. unfold Z.pred in *. rewrite <- app_assoc.
    rewrite (day_intervals_Ok _ _ _ _ _ Hd). split; [done|]. split; [|lia].
    constructor; [|done]. unfold day_computed.
    rewrite (pushes (m := intervalsForDate date profile)) in Hd.
    destruct (intervalsForDate date profile []) as [[??]|]; [eauto|done].
  - intros [= <- <-]. rewrite seqZ_nil by lia. cbn. rewrite app_nil_r. split; [done|].
    split; [constructor|lia].
Qed.

Lemma elem_of_days profile range interval :
  interval ∈ concat (map (day_intervals profile) range) ↔
  ∃ d, d ∈ range ∧ interval ∈ day_intervals profile d.
Proof.
  induction range as [|d range IH]; cbn [map concat].
  - setoid_rewrite elem_of_nil. naive_solver.
  - rewrite elem_of_app, IH. setoid_rewrite elem_of_cons. naive_solver.
Qed.

Lemma elem_of_day_range inclusive date bound d :
  d ∈ seqZ date (day_count inclusive date bound) ↔
  date <= d ∧ (if inclusive then d <= bound else d < bound).
Proof. rewrite elem_of_seqZ. unfold day_count. destruct inclusive; lia. Qed.
End days.

(** ** The exported functions *)

#[local] Arguments days_of : simpl never.

Section exported.
Context `{Temporal}.

Lemma evaluate_profile_no_fuel_error mode s e profile :
  evaluate_profile mode s e profile ≠ Throw OutOfFuel.
Proof.
  unfold evaluate_profile.
  destruct (toZonedDateTimeISO _ s) as [[startDate ?]|]; [|done]. cbn.
  destruct (PlainDate_add startDate (-1)) as [localStart|]; [|done]. cbn.
  destruct (toZonedDateTimeISO _ e) as [[localEnd ?]|]; [|done]. cbn.
  pose proof (days_of_no_fuel_error FUEL true localStart localEnd 0 profile []
    ltac:(unfold FUEL; lia) ltac:(unfold FUEL, MAX_DAYS; lia) []) as Hfuel.
  destruct (days_of _ _ _ _ _ _ _ _) as [[??]|]; cbn in *; congruence.
Qed.

Lemma materialize_range_no_fuel_error input : materialize_range input ≠ Throw OutOfFuel.
Proof.
  unfold materialize_range.
  destruct (PlainDate_from (start_date input)) as [date|]; [|done]. cbn.
  destruct (PlainDate_from (end_date_exclusive input)) as [stop|]; [|done]. cbn.
  destruct (stop <=? date); [done|].
  pose proof (days_of_no_fuel_error FUEL false date stop 0 (materialized_profile input) []
    ltac:(unfold FUEL; lia) ltac:(unfold FUEL, MAX_DAYS; lia) []) as Hfuel.
  destruct (days_of _ _ _ _ _ _ _ _) as [[??]|]; cbn in *; congruence.
Qed.

Lemma evaluate_profile_Ok mode s e profile r :
  evaluate_profile mode s e profile = Ok r →
  ∃ d1 t1 localStart d2 t2 concrete diagnostics,
    toZonedDateTimeISO (profile_timezone profile) s = Some (d1, t1) ∧
    PlainDate_add d1 (-1) = Some localStart ∧
    toZonedDateTimeISO (profile_timezone profile) e = Some (d2, t2) ∧
    days_of FUEL true localStart d2 0 profile [] [] = Ok (concrete, diagnostics) ∧
    r = profile_result mode s e concrete diagnostics.
Proof.
  unfold evaluate_profile.
  intros ([d1 t1] & H1%otherwise_Ok & (localStart & H2%otherwise_Ok & ([d2 t2] & H3%otherwise_Ok &
    ([concrete diagnostics] & H4 & [= <-])%bind_Ok_inv)%bind_Ok_inv)%bind_Ok_inv)%bind_Ok_inv.
  by repeat eexists.
Qed.

(** The reasons under which an event is inside the hours. *)
Definition inclusive_reasons : list ReasonCode :=
  [Reason.all_times; Reason.overlaps_hours; Reason.contained_in_hours].

Definition consistent (r : HoursEvaluationResult) : Prop :=
  included r = true ↔ reason_code r ∈ inclusive_reasons.

Lemma consistent_hours_result i c :
  i = bool_decide (c ∈ inclusive_reasons) → consistent (hours_result i c).
Proof. intros ->. unfold consistent. cbn. by rewrite bool_decide_eq_true. Qed.

Lemma consistent_profile_result mode s e concrete ds :
  consistent (profile_result mode s e concrete ds).
Proof.
  unfold consistent, profile_result. cbn [included reason_code].
  rewrite <- (bool_decide_eq_true (_ ∈ _)).
  by destruct (0 <? _)%nat, (bool_decide (mode = _)).
Qed.

(** [evaluateHours] throws exactly when a bound of the event is not an instant,
    and then a [RangeError]; otherwise it returns, and the event is included
    exactly under one of the three inclusive reasons. *)
Theorem evaluateHours_total input :
  match Instant_from (start (event input)), Instant_from (end_ (event input)) with
  | Some _, Some _ => ∃ r, evaluateHours input = Ok r ∧ consistent r
  | _, _ => evaluateHours input = Throw RangeError
  end.
Proof.
  unfold evaluateHours.
  destruct (Instant_from (start _)) as [s|], (Instant_from (end_ _)) as [e|]; try done.
  cbn [otherwise mbind res_bind].
  assert (∀ i c, i = bool_decide (c ∈ inclusive_reasons) →
    ∃ r, Ok (hours_result i c) = @Ok hours_error _ r ∧ consistent r) as Hplain.
  { intros i c Hi. eexists; split; [done|]. by apply consistent_hours_result. }
  destruct (e <=? s); [by apply Hplain|].
  destruct (mode input), (profile input) as [p|]; try (by apply Hplain).
  all: match goal with |- context [evaluate_profile ?m ?s ?e ?p] =>
    pose proof (evaluate_profile_no_fuel_error m s e p) as Hf;
    destruct (evaluate_profile m s e p) as [r|[]] eqn:Hr end; [| |by apply Hplain|done].
  1, 3: apply evaluate_profile_Ok in Hr as (? & ? & ? & ? & ? & ? & ? & _ & _ & _ & _ & ->);
    eexists; split; [done|]; apply consistent_profile_result.
  all: eexists; split; [done|]; unfold consistent; cbn; rewrite <- (bool_decide_eq_true (_ ∈ _)); done.
Qed.

(** Every local time of the profile is a whole second. *)
Definition whole_second_profile (profile : HoursProfile) : Prop :=
  ∀ date text r, resolveLocal date text profile = Ok r → instant r mod NANOSECONDS_PER_SECOND = 0.

Lemma day_intervals_whole_second profile date :
  whole_second_profile profile → Forall whole_second (day_intervals profile date).
Proof.
  intros Hws. unfold day_intervals.
  assert (∀ locals ds ivs ds', materialize_all date locals profile ds = Ok (ivs, ds') →
    Forall whole_second ivs) as Hall.
  { intros locals ds ivs ds' Hm. apply Forall_forall. intros i Hi.
    apply (materialize_all_Ok _ _ _ _ _ _ Hm) in Hi as (_ & local & _ & s & ed & e & Hs & _ & He & ->).
    split; [by eapply Hws in Hs|by eapply Hws in He]. }
  destruct (intervalsForDate date profile []) as [[ivs ds']|] eqn:Hd; [|constructor].
  unfold intervalsForDate in Hd. destruct (exception_of date profile) as [[]|].
  - injection Hd as <- <-. constructor.
  - by eapply Hall.
  - by eapply Hall.
  - apply bind_diag_Ok in Hd as (concrete & ? & Hc & (removals & ? & Hr & [= <- <-])%bind_diag_Ok).
    apply Hall in Hc, Hr. clear Hall. unfold subtract_all. revert concrete Hc.
    induction Hr as [|r removals Hr _ IH]; intros concrete Hc; cbn [fold_left]; [done|].
    apply IH. apply Forall_forall. intros i (base & Hi & Hb)%list_elem_of_bind.
    rewrite Forall_forall in Hc. specialize (Hc base Hb). unfold whole_second in *.
    unfold subtractInterval in Hi.
    destruct (_ || _); [apply list_elem_of_singleton in Hi as ->; done|].
    apply elem_of_app in Hi. destruct (_ <? _), (_ <? _); set_solver.
  - by eapply Hall.
Qed.

Context `{!TemporalLaws H}.

(** What makes an event match an interval, by mode. *)
Definition event_matches (mode : HoursMode) (s e : Z) (i : ConcreteInterval) : Prop :=
  match mode with
  | overlaps_profile => s < cend i ∧ cstart i < e
  | _ => cstart i <= s ∧ e <= cend i
  end.

Lemma length_filter_pos {A} (P : A → bool) xs :
  (0 <? length (List.filter P xs))%nat = true ↔ ∃ x, x ∈ xs ∧ P x = true.
Proof using Type.
  rewrite Nat.ltb_lt. induction xs as [|x xs IH]; cbn [List.filter].
  - setoid_rewrite elem_of_nil. cbn. split; [lia|naive_solver].
  - setoid_rewrite elem_of_cons. destruct (P x) eqn:HP; cbn [length].
    + split; [|lia]. intros _. exists x. auto.
    + rewrite IH. split; [naive_solver|]. intros (y & [->|Hy] & HPy); [congruence|eauto].
Qed.

Lemma included_profile_result mode s e concrete ds :
  Forall whole_second concrete →
  included (profile_result mode s e concrete ds) = true ↔
  ∃ i, i ∈ concrete ∧ event_matches mode s e i.
Proof using All.
  intros Hws. unfold profile_result. cbn [included]. rewrite length_filter_pos.
  setoid_rewrite elem_of_deduplicateAndSort; [|done].
  assert (∀ i, (if bool_decide (mode = overlaps_profile) then overlaps_event s e
    else contains_event s e) i = true ↔ event_matches mode s e i) as Hm.
  { intros i. unfold overlaps_event, contains_event, event_matches.
    destruct mode; [rewrite bool_decide_eq_false_2 by done | rewrite bool_decide_eq_true_2 by done
      | rewrite bool_decide_eq_false_2 by done]; by rewrite andb_true_iff, ?Z.ltb_lt, ?Z.leb_le. }
  by setoid_rewrite Hm.
Qed.

(** C3. An event is included exactly when some interval of a day between the day
    before its local start and the day of its local end overlaps it (mode
    [overlaps_profile]) or contains it (mode [contained_in_profile]), for a
    profile of whole seconds whose evaluation is not rejected. *)
Theorem evaluateHours_decides input s e p r :
  Instant_from (start (event input)) = Some s →
  Instant_from (end_ (event input)) = Some e →
  s < e →
  mode input ≠ all_times →
  profile input = Some p →
  whole_second_profile p →
  evaluateHours input = Ok r →
  reason_code r ≠ Reason.invalid_hours_profile →
  reason_code r ≠ Reason.dst_resolution_rejected →
  included r = true ↔
  ∃ d1 t1 d2 t2 d i,
    toZonedDateTimeISO (profile_timezone p) s = Some (d1, t1) ∧
    toZonedDateTimeISO (profile_timezone p) e = Some (d2, t2) ∧
    d1 - 1 <= d <= d2 ∧ i ∈ day_intervals p d ∧ event_matches (mode input) s e i.
Proof using All.
  intros Hs He Hse Hmode Hp Hws Hr Hr1 Hr2. unfold evaluateHours in Hr.
  rewrite Hs, He, Hp in Hr. cbn [otherwise mbind res_bind] in Hr.
  destruct (Z.leb_spec e s); [lia|].
  assert (evaluate_profile (mode input) s e p = Ok r) as Hep.
  { destruct (mode input); [done|..];
      destruct (evaluate_profile _ s e p) as [|[]] eqn:Heq; simplify_eq/=; done. }
  clear Hr. apply evaluate_profile_Ok in Hep
    as (d1 & t1 & localStart & d2 & t2 & concrete & ds & H1 & Hl%PlainDate_add_days & H2 & Hdays & ->).
  apply days_of_Ok in Hdays as (-> & _ & _). rewrite app_nil_l in *.
  rewrite included_profile_result.
  - setoid_rewrite elem_of_days. setoid_rewrite elem_of_day_range. cbn iota. subst localStart. split.
    + intros (i & (d & Hd & Hi) & Hm). exists d1, t1, d2, t2, d, i. by repeat split; try lia.
    + intros (d1' & t1' & d2' & t2' & d & i & H1' & H2' & Hd & Hi & Hm).
      simplify_eq. exists i. split; [|done]. exists d. split; [lia|done].
  - apply Forall_forall. intros i (d & _ & Hi)%elem_of_days.
    eapply Forall_forall; [by eapply day_intervals_whole_second|done].
Qed.

(** The result of [materializeHours]: rejected, or the intervals of the days. *)
Lemma materializeHours_cases input :
  let p := materialized_profile input in
  ∃ r, materializeHours input = Ok r ∧
  (r = {| materialized_intervals := [];
          materialization_diagnostics := [Reason.dst_resolution_rejected] |} ∨
   ∃ date stop intervals,
     PlainDate_from (start_date input) = Some date ∧
     PlainDate_from (end_date_exclusive input) = Some stop ∧
     stop - date <= 371 ∧
     materialized_intervals r = publicIntervals intervals ∧
     Forall nonempty intervals ∧
     StronglySorted (λ i j, interval_leb i j = true) intervals ∧
     NoDup (map interval_key intervals) ∧
     (whole_second_profile p →
      ∀ i, covered i intervals ↔ ∃ d, date <= d < stop ∧ open_at d i p)).
Proof using All.
  intros p. unfold materializeHours. pose proof (materialize_range_no_fuel_error input) as Hf.
  destruct (materialize_range input) as [r|[]] eqn:Hr; [|eauto..|done]. clear Hf.
  exists r. split; [done|]. right. unfold materialize_range in Hr.
  apply bind_Ok_inv in Hr as (date & Hdate%otherwise_Ok & Hr).
  apply bind_Ok_inv in Hr as (stop & Hstop%otherwise_Ok & Hr).
  destruct (Z.leb_spec stop date).
  - injection Hr as <-. exists date, stop, []. split; [done|]. split; [done|]. split; [lia|].
    split; [done|]. repeat (split; [constructor|]). intros _ i. pose proof (covered_nil i).
    split; [done|]. intros (d & Hd & _). lia.
  - apply bind_Ok_inv in Hr as ([concrete ds] & Hdays & [= <-]).
    apply days_of_Ok in Hdays as (-> & Hcomputed & Hmax). unfold day_count, MAX_DAYS in Hmax.
    fold p in Hcomputed |- *. rewrite app_nil_l in *.
    set (range := seqZ date (day_count false date stop)) in *.
    set (concrete := concat (map (day_intervals p) range)).
    destruct (fold_map_set concrete []) as (Hin & _ & Hnd).
    exists date, stop, (deduplicateAndSort concrete).
    split; [done|]. split; [done|]. split; [lia|]. split; [done|]. split; [|split; [|split]].
    + apply Forall_forall. unfold deduplicateAndSort. intros i Hi%elem_of_sort_by.
      apply Hin in Hi as [Hi|(d & _ & Hi)%elem_of_days]; [by apply elem_of_nil in Hi|].
      eapply Forall_forall; [apply day_intervals_nonempty|done].
    + apply sort_by_sorted; [apply interval_leb_total|apply interval_leb_trans].
    + unfold deduplicateAndSort. rewrite (sort_by_perm interval_leb). apply Hnd. constructor.
    + intros Hws i. unfold covered. setoid_rewrite elem_of_deduplicateAndSort.
      2: { apply Forall_forall. intros j (d & _ & Hj)%elem_of_days.
           eapply Forall_forall; [by eapply day_intervals_whole_second|done]. }
      assert (∀ d, d ∈ range → covered i (day_intervals p d) ↔ open_at d i p) as Hopen.
      { intros d Hd. rewrite Forall_forall in Hcomputed. destruct (Hcomputed d Hd) as (is' & more & Hok).
        rewrite (day_intervals_Ok _ _ _ _ _ Hok). by eapply intervalsForDate_open_at. }
      unfold concrete. setoid_rewrite elem_of_days. unfold covered in Hopen. split.
      * intros (interval & (d & Hd & Hi) & Hc). exists d.
        split; [by apply elem_of_day_range in Hd|]. apply Hopen; eauto.
      * intros (d & Hd & Ho). assert (d ∈ range) as Hdr by (by apply elem_of_day_range).
        apply Hopen in Ho as (interval & Hi & Hc); [|done]. eauto.
Qed.

(** C4. [materializeHours] on a range of days: more than 371 days, an invalid date
    or an unresolvable local time give the rejected result; otherwise the
    intervals are non-empty, sorted, without a repeated key, and for a profile
    of whole seconds they cover exactly the instants open on some day of the
    half-open range. *)
Theorem materializeHours_spec input :
  let p := materialized_profile input in
  ∃ r, materializeHours input = Ok r ∧
  (r = {| materialized_intervals := [];
          materialization_diagnostics := [Reason.dst_resolution_rejected] |} ∨
   ∃ date stop intervals,
     PlainDate_from (start_date input) = Some date ∧
     PlainDate_from (end_date_exclusive input) = Some stop ∧
     stop - date <= 371 ∧
     materialized_intervals r = publicIntervals intervals ∧
     Forall nonempty intervals ∧
     StronglySorted (λ i j, interval_leb i j = true) intervals ∧
     NoDup (map interval_key intervals) ∧
     (whole_second_profile p →
      ∀ i, covered i intervals ↔ ∃ d, date <= d < stop ∧ open_at d i p)).
Proof using All. apply materializeHours_cases. Qed.
End exported.

(** ** Local times *)

Section resolution.
Context `{TemporalLaws}.

(** A resolved local time is the only instant with that local time, or, when
    several instants have it, the first or the last of them as the profile
    says, or, when none has it and the profile shifts, an instant whose local
    time is later; each outcome carries its own diagnostic. A refusal is a
    [DstResolutionError] for a local time that the zone does not offer, or a
    [RangeError] for a text that is not a time. *)
Theorem resolveLocal_correct date text profile time :
  PlainTime_from text = Some time →
  let at_local i := toZonedDateTimeISO (profile_timezone profile) i = Some (date, time) in
  match resolveLocal date text profile with
  | Ok {| instant := i; diagnostic := None |} => at_local i ∧ ∀ j, at_local j → j = i
  | Ok {| instant := i; diagnostic := Some Reason.dst_ambiguous_earlier |} =>
      ambiguous_resolution profile = earlier_offset ∧ at_local i ∧
      (∀ j, at_local j → i <= j) ∧ ∃ j, at_local j ∧ i < j
  | Ok {| instant := i; diagnostic := Some Reason.dst_ambiguous_later |} =>
      ambiguous_resolution profile = later_offset ∧ at_local i ∧
      (∀ j, at_local j → j <= i) ∧ ∃ j, at_local j ∧ j < i
  | Ok {| instant := i; diagnostic := Some Reason.dst_nonexistent_shifted |} =>
      nonexistent_resolution profile = shift_forward_by_gap ∧ (∀ j, ¬ at_local j) ∧
      ∃ local, toZonedDateTimeISO (profile_timezone profile) i = Some local ∧
        local_order (date, time) < local_order local
  | Throw DstResolutionError =>
      nonexistent_resolution profile = reject ∧ (∀ j, ¬ at_local j) ∨
      ZonedDateTime_from (profile_timezone profile) date time Earlier = None ∨
      ZonedDateTime_from (profile_timezone profile) date time Later = None
  | _ => False
  end.
Proof using All.
  intros Ht at_local. unfold resolveLocal. rewrite Ht. cbn [otherwise mbind res_bind].
  set (from := ZonedDateTime_from _ _ _). destruct (from Reject) as [i|] eqn:Hr.
  { by apply reject_unique. }
  destruct (from Earlier) as [e|] eqn:He; [|right; by left]. cbn.
  destruct (from Later) as [l|] eqn:Hl; [|right; by right]. cbn.
  destruct (earlier_later _ _ _ _ _ He Hl) as [Hbounds Hlt].
  destruct (gap_forward _ _ _ _ _ Hr He Hl) as [[Hel Hll]|[Hnone Hshift]].
  - rewrite !bool_decide_eq_true_2 by done. cbn. specialize (Hlt Hr Hel Hll).
    destruct (ambiguous_resolution profile); cbn;
      repeat (split; [done|]); (split; [intros j Hj%Hbounds; lia|eauto]).
  - rewrite bool_decide_eq_false_2 by apply Hnone. cbn.
    destruct (nonexistent_resolution profile); [by left|]. done.
Qed.
End resolution.

(** ** Concrete profiles *)

(** The calendar of the witnesses resolves every time to a whole second. *)
Lemma two_zones_whole_second profile : whole_second_profile (H := two_zones) profile.
Proof.
  assert (∀ text time, read_time text = Some time → time mod NANOSECONDS_PER_SECOND = 0) as Hread.
  { intros text time. unfold read_time, HOUR, NANOSECONDS_PER_SECOND.
    destruct (take_digits 2 0 text) as [[h s]|]; [|done]. cbn [mbind option_bind].
    destruct (take_char ":" s) as [s'|]; [|done]. cbn [mbind option_bind].
    destruct (take_digits 2 0 s') as [[m s'']|]; [|done]. cbn [mbind option_bind].
    destruct (match take_char ":" s'' with Some s => take_digits 2 0 s | None => Some (0, s'') end)
      as [[sec rest]|]; [|done]. cbn [mbind option_bind].
    destruct (_ && _); [|done]. intros [= <-]. Z.div_mod_to_equations; lia. }
  assert (∀ name z, zone_named name = Some z →
    before z mod NANOSECONDS_PER_SECOND = 0 ∧ after z mod NANOSECONDS_PER_SECOND = 0) as Hzone.
  { intros name z. unfold zone_named. repeat case_match; by intros [= <-]. }
  assert (∀ d time name how i, ZonedDateTime_from name d time how = Some i →
    time mod NANOSECONDS_PER_SECOND = 0 → i mod NANOSECONDS_PER_SECOND = 0) as Hfrom.
  { intros d time name how i. cbn [ZonedDateTime_from two_zones].
    destruct (zone_named name) as [z|] eqn:Hz; [|done]. apply Hzone in Hz as [Hb Ha].
    cbn [mbind option_bind]. destruct (_ && _); [|done]. unfold zone_from.
    rewrite zone_instants_shape. intros Hi Ht.
    assert (i = d * NANOSECONDS_PER_DAY + time - before z ∨ i = d * NANOSECONDS_PER_DAY + time - after z)
      as [-> | ->] by (destruct (_ <? _), (_ <? _), how; naive_solver);
      unfold NANOSECONDS_PER_DAY, NANOSECONDS_PER_SECOND in *; Z.div_mod_to_equations; lia. }
  intros date text r. unfold resolveLocal.
  intros Hr. apply bind_Ok_inv in Hr as (time & Ht%otherwise_Ok%Hread & Hr).
  destruct (ZonedDateTime_from _ _ _ Reject) eqn:Hreject.
  { injection Hr as <-. by eapply Hfrom. }
  apply bind_Ok_inv in Hr as (e & He%otherwise_Ok & Hr).
  apply bind_Ok_inv in Hr as (l & Hl%otherwise_Ok & Hr).
  apply Hfrom in He, Hl; [|done..].
  repeat case_match; by simplify_eq.
Qed.

Definition interval_of (from to : string) : LocalInterval :=
  {| local_start := from; local_end := to; end_day_offset := 0 |}.

(** Sundays 01:30 to 10:00, in a zone whose clocks go back on Sunday
    2026-10-25 at 03:00, except the first of November. *)
Definition sunday_profile : HoursProfile := {|
  profile_ref := "hours"; profile_revision := 1; profile_timezone := "Autumn";
  ambiguous_resolution := earlier_offset; nonexistent_resolution := reject;
  weekly := [{| weekday := 7; weekly_interval := interval_of "02:30" "10:00" |}];
  exceptions := [{| exception_date := "2026-11-01"; kind := remove [interval_of "03:00" "04:00"] |}] |}.

Definition sunday_event : HoursEvaluationInput := {|
  mode := contained_in_profile;
  event := {| start := "2026-10-25T00:45:00Z"; end_ := "2026-10-25T08:00:00Z" |};
  profile := Some sunday_profile |}.

Definition november : HoursMaterializationInput := {|
  materialized_profile := sunday_profile;
  start_date := "2026-10-25"; end_date_exclusive := "2026-11-08" |}.

Example november_intervals :
  materializeHours november = Ok {|
    materialized_intervals := [
      {| start := "2026-10-25T00:30:00Z"; end_ := "2026-10-25T09:00:00Z" |};
      {| start := "2026-11-01T01:30:00Z"; end_ := "2026-11-01T02:00:00Z" |};
      {| start := "2026-11-01T03:00:00Z"; end_ := "2026-11-01T09:00:00Z" |}];
    materialization_diagnostics := [Reason.dst_ambiguous_earlier] |}.
Proof. vm_compute. reflexivity. Qed.

Lemma evaluateHours_decides_witness :
  ∃ d1 t1 d2 t2 d i,
    toZonedDateTimeISO "Autumn" 1792889100000000000 = Some (d1, t1) ∧
    toZonedDateTimeISO "Autumn" 1792915200000000000 = Some (d2, t2) ∧
    d1 - 1 <= d <= d2 ∧ i ∈ day_intervals sunday_profile d ∧
    event_matches contained_in_profile 1792889100000000000 1792915200000000000 i.
Proof.
  set (r := profile_result contained_in_profile 1792889100000000000 1792915200000000000
    (day_intervals sunday_profile 20751) [Reason.dst_ambiguous_earlier]).
  assert (included r = true) as Hr by (vm_compute; reflexivity). revert Hr.
  apply (evaluateHours_decides sunday_event 1792889100000000000 1792915200000000000 sunday_profile r);
    [vm_compute; reflexivity | vm_compute; reflexivity | reflexivity | discriminate | reflexivity
    | apply two_zones_whole_second | vm_compute; reflexivity
    | intros Heq; vm_compute in Heq; discriminate Heq | intros Heq; vm_compute in Heq; discriminate Heq].
Defined.

Lemma materializeHours_spec_witness :
  ∃ r, materializeHours november = Ok r ∧
  (r = {| materialized_intervals := [];
          materialization_diagnostics := [Reason.dst_resolution_rejected] |} ∨
   ∃ date stop intervals,
     PlainDate_from (start_date november) = Some date ∧
     PlainDate_from (end_date_exclusive november) = Some stop ∧
     stop - date <= 371 ∧
     materialized_intervals r = publicIntervals intervals ∧
     Forall nonempty intervals ∧
     StronglySorted (λ i j, interval_leb i j = true) intervals ∧
     NoDup (map interval_key intervals) ∧
     (whole_second_profile sunday_profile →
      ∀ i, covered i intervals ↔ ∃ d, date <= d < stop ∧ open_at d i sunday_profile)).
Proof. exact (materializeHours_spec november). Defined.

Lemma intervalsForDate_open_at_witness :
  covered 1793502000000000000 (day_intervals sunday_profile 20758) ↔
  open_at 20758 1793502000000000000 sunday_profile.
Proof.
  apply (intervalsForDate_open_at 20758 sunday_profile [] (day_intervals sunday_profile 20758) []
    1793502000000000000).
  vm_compute. reflexivity.
Defined.

(** 02:30 happens twice on 2026-10-25. *)
Lemma resolveLocal_correct_witness :
  toZonedDateTimeISO "Autumn" 1792888200000000000 = Some (20751, 9000000000000) ∧
  (∀ j, toZonedDateTimeISO "Autumn" j = Some (20751, 9000000000000) → 1792888200000000000 <= j) ∧
  ∃ j, toZonedDateTimeISO "Autumn" j = Some (20751, 9000000000000) ∧ 1792888200000000000 < j.
Proof.
  exact (proj2 (resolveLocal_correct 20751 "02:30" sunday_profile 9000000000000 eq_refl)).
Defined.
