(* ===== verification/Text.v ===== *)
(** * Text

    What the sources use of JavaScript strings and of Unicode character
    classes, on the code units below 256: case, white space, word characters,
    control characters, and searching. *)

From S2P Require Import Prelude Canonical.
From stdpp Require Import options.

(** ** Character classes *)

Definition in_class (lo hi : nat) (c : ascii) : bool :=
  (lo <=? Ascii.nat_of_ascii c)%nat && (Ascii.nat_of_ascii c <=? hi)%nat.

(** Upper-case letters with a lower-case letter 32 code units further. *)
Definition is_upper (c : ascii) : bool :=
  in_class 65 90 c || (in_class 192 222 c && negb (in_class 215 215 c)).

Definition lower_char (c : ascii) : ascii :=
  if is_upper c then Ascii.ascii_of_nat (Ascii.nat_of_ascii c + 32) else c.

(** [\p{L}], [\p{N}] and [_]. *)
Definition is_letter (c : ascii) : bool :=
  in_class 65 90 c || in_class 97 122 c || in_class 170 170 c || in_class 181 181 c
  || in_class 186 186 c || in_class 192 214 c || in_class 216 246 c || in_class 248 255 c.
Definition is_number (c : ascii) : bool :=
  in_class 48 57 c || in_class 178 179 c || in_class 185 185 c || in_class 188 190 c.
Definition is_word (c : ascii) : bool := is_letter c || is_number c || Ascii.eqb c "_".

(** White space and line terminators, as [trim] removes them. *)
Definition is_space (c : ascii) : bool :=
  in_class 9 13 c || in_class 32 32 c || in_class 160 160 c.

Definition is_ascii (c : ascii) : bool := in_class 0 127 c.

(** ** Strings *)

Fixpoint string_map (f : ascii → ascii) (s : string) : string :=
  match s with "" => "" | String c s => String (f c) (string_map f s) end.

(** [s.toLowerCase()]. *)
Definition toLowerCase (s : string) : string := string_map lower_char s.

Fixpoint trimStart (s : string) : string :=
  match s with
  | "" => ""
  | String c rest => if is_space c then trimStart rest else s
  end.

Fixpoint trimEnd (s : string) : string :=
  match s with
  | "" => ""
  | String c rest =>
      match trimEnd rest with
      | "" => if is_space c then "" else String c ""
      | rest => String c rest
      end
  end.

(** [s.trim()]. *)
Definition trim (s : string) : string := trimEnd (trimStart s).

(** [s] without the prefix [p]. *)
Fixpoint strip_prefix (p s : string) : option string :=
  match p, s with
  | "", _ => Some s
  | String c p, String d s => if Ascii.eqb c d then strip_prefix p s else None
  | String _ _, "" => None
  end.

(** ** The laws of normalisation *)

(** ASCII text is its own normal form, normalisation is idempotent, and the
    normal forms are closed under trimming and lower case (on code units below
    256, where every text is its own normal form). *)
Class UnicodeLaws `(Unicode) : Prop := {
  nfc_ascii s : string_forall is_ascii s = true → nfc s = s;
  nfc_idempotent s : nfc (nfc s) = nfc s;
  nfc_trim s : nfc (trim (nfc s)) = trim (nfc s);
  nfc_lower s : nfc (toLowerCase (nfc s)) = toLowerCase (nfc s);
}.

#[export] Instance latin1_laws : UnicodeLaws latin1.
Proof. by split. Qed.

(** ** Lemmas *)

Lemma strip_prefix_spec p s rest : strip_prefix p s = Some rest ↔ s = p +:+ rest.
Proof.
  revert s. induction p as [|c p IH]; intros s; cbn; [naive_solver|].
  destruct s as [|d s]; [done|]. destruct (Ascii.eqb_spec c d) as [->|Hne].
  - rewrite IH. naive_solver.
  - naive_solver.
Qed.

Lemma trimEnd_nil s : trimEnd s = "" ↔ string_forall is_space s = true.
Proof.
  induction s as [|c s IH]; cbn; [done|]. rewrite andb_true_iff, <- IH.
  destruct (trimEnd s); [|naive_solver]. destruct (is_space c); naive_solver.
Qed.

(** [s.trim().length === 0]: nothing but white space. *)
Lemma trim_nil s : trim s = "" ↔ string_forall is_space s = true.
Proof.
  unfold trim. rewrite trimEnd_nil. induction s as [|c s IH]; cbn; [done|].
  destruct (is_space c) eqn:Hc; [|cbn; by rewrite Hc]. by rewrite IH.
Qed.

(** ** Control characters and patterns *)

(** [\p{Cc}] and [\p{Cf}]. *)
Definition is_control (c : ascii) : bool :=
  in_class 0 31 c || in_class 127 159 c || in_class 173 173 c.

Fixpoint string_exists (P : ascii → bool) (s : string) : bool :=
  match s with "" => false | String c s => P c || string_exists P s end.

(** [s.includes(c)] for one character. *)
Definition has_char (c : ascii) (s : string) : bool := string_exists (Ascii.eqb c) s.

(** [s.split(c)]. *)
Fixpoint split_on (c : ascii) (s : string) : list string :=
  match s with
  | "" => [""]
  | String d s =>
      if Ascii.eqb c d then "" :: split_on c s
      else match split_on c s with
           | part :: parts => String d part :: parts
           | [] => [String d ""]
           end
  end.

(** [s.slice(0, n)]. *)
Definition slice_to (n : nat) (s : string) : string := String.substring 0 n s.

(** A pattern of one character class per position, as [/^...$/u]. *)
Fixpoint matches (classes : list (ascii → bool)) (s : string) : bool :=
  match classes, s with
  | [], "" => true
  | P :: classes, String c s => P c && matches classes s
  | _, _ => false
  end.

Definition one (c : ascii) : ascii → bool := Ascii.eqb c.

Lemma string_exists_forall P s : string_exists P s = negb (string_forall (λ c, negb (P c)) s).
Proof. induction s as [|c s IH]; cbn; [done|]. rewrite IH. by destruct (P c). Qed.

(** *** Trimming *)

Lemma trimStart_no_space s c rest : trimStart s = String c rest → is_space c = false.
Proof.
  induction s as [|d s IH]; cbn; [done|]. destruct (is_space d) eqn:Hd; [done|]. by intros [= <- _].
Qed.

Lemma trimStart_id s : (∀ c rest, s = String c rest → is_space c = false) → trimStart s = s.
Proof. destruct s as [|c s]; [done|]. cbn. intros Hs. by rewrite (Hs c s). Qed.

Lemma trimEnd_idempotent s : trimEnd (trimEnd s) = trimEnd s.
Proof.
  induction s as [|c s IH]; [done|]. cbn [trimEnd]. destruct (trimEnd s) as [|d t] eqn:Ht.
  - destruct (is_space c) eqn:Hc; [done|]. cbn. by rewrite Hc.
  - change (trimEnd (String c (String d t))) with
      (match trimEnd (String d t) with
       | "" => if is_space c then "" else String c ""
       | rest => String c rest end).
    by rewrite IH.
Qed.

Lemma trimEnd_head c s : is_space c = false → ∃ rest, trimEnd (String c s) = String c rest.
Proof. intros Hc. cbn. rewrite Hc. destruct (trimEnd s); eauto. Qed.

Lemma trim_idempotent s : trim (trim s) = trim s.
Proof.
  unfold trim. destruct (trimStart s) as [|c t] eqn:Ht; [done|].
  pose proof (trimStart_no_space _ _ _ Ht) as Hc. destruct (trimEnd_head c t Hc) as [rest Hr].
  rewrite Hr. rewrite (trimStart_id (String c rest)) by (by intros ?? [= <- _]).
  rewrite <- Hr. apply trimEnd_idempotent.
Qed.

Lemma trim_without_space s : string_exists is_space s = false → trim s = s.
Proof.
  intros Hs. unfold trim. assert (trimStart s = s) as ->.
  { apply trimStart_id. intros c rest ->. cbn in Hs. by destruct (is_space c). }
  induction s as [|c s IH]; [done|]. cbn in *. apply orb_false_iff in Hs as [Hc Hs].
  rewrite IH by done. destruct s; [by rewrite Hc|done].
Qed.

(** *** Lower case *)

Lemma string_map_length f s : String.length (string_map f s) = String.length s.
Proof. induction s as [|c s IH]; cbn; [done|]. by rewrite IH. Qed.

Lemma string_exists_map P f s : string_exists P (string_map f s) = string_exists (λ c, P (f c)) s.
Proof. induction s as [|c s IH]; cbn; [done|]. by rewrite IH. Qed.

Lemma string_exists_ext P Q s : (∀ c, P c = Q c) → string_exists P s = string_exists Q s.
Proof. intros HPQ. induction s as [|c s IH]; cbn; [done|]. by rewrite HPQ, IH. Qed.

(** A fact of all 256 code units, by computation. *)
Lemma all_ascii (P : ascii → bool) :
  forallb (λ n, P (Ascii.ascii_of_nat n)) (seq 0 256) = true → ∀ c, P c = true.
Proof.
  intros H c. rewrite <- (Ascii.ascii_nat_embedding c). rewrite forallb_forall in H. apply H.
  apply in_seq. pose proof (Ascii.nat_ascii_bounded c). lia.
Qed.

Lemma lower_char_idempotent c : lower_char (lower_char c) = lower_char c.
Proof.
  apply Ascii.eqb_eq. revert c. apply all_ascii. vm_compute. reflexivity.
Qed.

Lemma toLowerCase_idempotent s : toLowerCase (toLowerCase s) = toLowerCase s.
Proof.
  unfold toLowerCase. induction s as [|c s IH]; cbn; [done|]. by rewrite lower_char_idempotent, IH.
Qed.

Lemma is_control_lower c : is_control (lower_char c) = is_control c.
Proof.
  apply eqb_prop. revert c. apply (all_ascii (λ c, eqb (is_control (lower_char c)) (is_control c))).
  vm_compute. reflexivity.
Qed.

(** *** Patterns *)

Lemma matches_app xs ys s t : matches xs s = true → matches ys t = true → matches (xs ++ ys) (s +:+ t) = true.
Proof.
  revert s. induction xs as [|P xs IH]; intros [|c s]; cbn; try done.
  intros [-> Hs]%andb_true_iff Ht. by rewrite IH.
Qed.

Lemma matches_length xs s : matches xs s = true → String.length s = length xs.
Proof.
  revert s. induction xs as [|P xs IH]; intros [|c s]; cbn; try done.
  intros [_ Hs]%andb_true_iff. by rewrite (IH s).
Qed.
