(* ===== verification/Evaluate.v ===== *)
(** * The policy evaluator

    [packages/calendar-sync/src/evaluate.ts]: what a policy makes of one
    observed source event — the selection, the destination operation, the copy
    it wants and the manifest of what it discloses. *)

From S2P Require Import Prelude Canonical DestinationEdits Types Dates Temporal Hours Text.
From stdpp Require Import options.
Open Scope Z_scope.
Open Scope planipus_scope.

(** What [evaluatePolicy] throws: an error of the canonical serialisation, a
    [RangeError] of the Temporal library or of [evaluateHours], or the
    [TypeError] of a confirmed source without timing. *)
Inductive evaluation_error :=
| CanonicalError (e : canonical_error)
| HoursError (e : hours_error)
| ConfirmedSourceRequiresTiming.

#[export] Instance evaluation_error_eq_dec : EqDecision evaluation_error.
Proof. solve_decision. Defined.

Definition rethrow {E F A} (f : E → F) (m : res E A) : res F A :=
  match m with Ok a => Ok a | Throw e => Throw (f e) end.

Lemma rethrow_Ok {E F A} (f : E → F) (m : res E A) a : rethrow f m = Ok a ↔ m = Ok a.
Proof. destruct m; cbn; naive_solver. Qed.

(** ** Copies as JSON *)

Definition timing_json (timing : EventTiming) : json :=
  match timing with
  | timed start_instant end_instant start_tzid end_tzid =>
      JObject [("kind", JString "timed"); ("start_instant", JString start_instant);
               ("end_instant", JString end_instant); ("start_tzid", JString start_tzid);
               ("end_tzid", JString end_tzid)]
  | all_day start_date end_date timezone =>
      JObject [("kind", JString "all_day"); ("start_date", JString start_date);
               ("end_date", JString end_date); ("timezone", JString timezone)]
  end.

Definition optional_member (key : string) (value : option string) : list (string * json) :=
  match value with Some v => [(key, JString v)] | None => [] end.

(** The members of a [DesiredCopy], in the order [transform] adds them. *)
Definition desired_members (d : DesiredCopy) : list (string * json) :=
  [("timing", timing_json (desired_timing d));
   ("summary", JString (desired_summary d));
   ("transparency", JString (match transparency d with opaque => "opaque" | transparent => "transparent" end));
   ("visibility", JString (match visibility d with private => "private" | default => "default" end));
   ("reminders", JArray []);
   ("write_controls", JObject [("send_notifications", JBool false)]);
   ("provenance", JObject [("version", int 1); ("policy_ref", JString (provenance_policy d));
      ("projection_ref", JString (provenance_projection d)); ("generation", int (provenance_generation d))])]
  ++ optional_member "description" (desired_description d)
  ++ optional_member "location" (desired_location d)
  ++ optional_member "conference" (desired_conference d)
  ++ optional_member "color" (desired_color d).

Definition desired_json (d : DesiredCopy) : json := JObject (desired_members d).

(** ** The steps of the evaluation *)

Definition OMITTED_SOURCE_FIELDS : list string :=
  ["/attachments"; "/attendees"; "/content/description"; "/content/summary"; "/content/location";
   "/content/conference"; "/organizer"; "/provider_metadata"; "/source_url"].

Definition sortedUnique (values : list string) : list string := sort_by text_leb (new_set values).

Definition privacyReason (preset : PrivacyPreset) : ReasonCode :=
  match preset with
  | busy_only => Reason.privacy_busy_only
  | commitment => Reason.privacy_commitment
  | private_details => Reason.privacy_private_details
  | shared_details => Reason.privacy_shared_details
  end.

Definition result (selection : Selection.EvaluationSelection) (op : Operation.EvaluationOperation)
    (primary : ReasonCode) (reasons warnings : list ReasonCode) : PolicyEvaluationResult :=
  {| result_selection := selection; operation := op; primary_reason_code := primary;
     reason_codes := new_set reasons; desired_copy := None; result_fingerprint := None;
     disclosure_manifest := None; warnings := new_set warnings |}.

Definition excluded (input : PolicyEvaluationInput) (code : ReasonCode) (sourceRemoved : bool)
    : PolicyEvaluationResult :=
  match ownership (projection input) with
  | detached => result Selection.excluded Operation.none Reason.detached_no_action
                  [code; Reason.detached_no_action] []
  | ambiguous => result Selection.held Operation.none Reason.ambiguous_ownership
                  [code; Reason.ambiguous_ownership] []
  | attached =>
      let effectReason :=
        if sourceRemoved then Reason.delete_source_removed else Reason.delete_policy_exclusion in
      result Selection.excluded Operation.delete effectReason [code; effectReason] []
  | none => result Selection.excluded Operation.none code [code] []
  end.

(** The pattern [(^|[^\p{L}\p{N}_])marker(?=$|[^\p{L}\p{N}_])] tested on a text:
    [boundary] tells that the position is the start or follows a non-word
    character. *)
Definition at_boundary (s : string) : bool :=
  match s with "" => true | String c _ => negb (is_word c) end.

Fixpoint search_marker (marker : string) (boundary : bool) (s : string) : bool :=
  (boundary && match strip_prefix marker s with Some rest => at_boundary rest | None => false end)
  || match s with
     | "" => false
     | String c s => search_marker marker (negb (is_word c)) s
     end.

Definition redacted_preset (preset : PrivacyPreset) : bool :=
  match preset with busy_only | commitment => true | _ => false end.

Definition is_some {A} (x : option A) : bool := match x with Some _ => true | None => false end.

Section evaluate.
Context `{Unicode} `{Digest} `{Temporal}.

Definition fold_text (s : string) : string := toLowerCase (nfc s).

Definition containsNoSync (input : PolicyEvaluationInput) : bool :=
  let marker := fold_text (source_exclusion_marker (selection (policy input))) in
  if (String.length marker =? 0)%nat then false
  else
    let fields := [summary (content (source input)); description (content (source input));
                   response_note (relationship (source input))] in
    existsb (λ field,
      match field with
      | Some field => search_marker marker true (fold_text field)
      | None => false
      end) fields.

Definition range_error {A} (m : option A) : res evaluation_error A :=
  otherwise m (HoursError RangeError).

Definition timingInterval (timing : EventTiming) : res evaluation_error InstantInterval :=
  match timing with
  | timed start_instant end_instant _ _ => Ok {| start := start_instant; end_ := end_instant |}
  | all_day start_date end_date timezone =>
      startDate ← range_error (PlainDate_from start_date);
      endDate ← range_error (PlainDate_from end_date);
      start ← range_error (ZonedDateTime_from timezone startDate 0 Compatible);
      stop ← range_error (ZonedDateTime_from timezone endDate 0 Compatible);
      Ok {| start := Instant_toString start; end_ := Instant_toString stop |}
  end.

Definition overlaps (left right : InstantInterval) : res evaluation_error bool :=
  leftStart ← range_error (Instant_from (start left));
  leftEnd ← range_error (Instant_from (end_ left));
  rightStart ← range_error (Instant_from (start right));
  rightEnd ← range_error (Instant_from (end_ right));
  Ok ((leftStart <? leftEnd) && (rightStart <? rightEnd)
      && (leftStart <? rightEnd) && (rightStart <? leftEnd)).

Definition validate (input : PolicyEvaluationInput) : option ReasonCode :=
  let p := policy input in
  let capabilities := destination_capabilities input in
  let privacy := privacy p in
  if (source_calendar_ref p =? destination_calendar_ref p)%string then Some Reason.invalid_same_calendar
  else if negb (writable capabilities) then Some Reason.invalid_unwritable_destination
  else if copy_attendees privacy || copy_organizer privacy then Some Reason.invalid_privacy_transform
  else if redacted_preset (preset privacy)
      && (copy_summary privacy || copy_description privacy || copy_location privacy || copy_conference privacy)
    then Some Reason.invalid_privacy_transform
  else if (String.length (trim (nfc (generic_summary privacy))) =? 0)%nat
    then Some Reason.invalid_privacy_transform
  else if negb (bool_decide (preset privacy = shared_details)) && negb (private_visibility capabilities)
    then Some Reason.unsupported_destination_capability
  else if copy_conference privacy && negb (conference_copy capabilities)
    then Some Reason.unsupported_destination_capability
  else if is_some (destination_color p) && negb (color_capability capabilities)
    then Some Reason.unsupported_destination_capability
  else if bool_decide (lifecycle (source input) = confirmed) && negb (is_some (timing (source input)))
    then Some Reason.invalid_source_event
  else if negb (bool_decide (hours_mode p = all_times)) then
    match hours_profile input with
    | Some profile =>
        if bool_decide (hours_profile_ref p = Some (profile_ref profile)) then None
        else Some Reason.invalid_hours_profile
    | None => Some Reason.invalid_hours_profile
    end
  else None.

(** The object [{ availability?, reason?, omitted? }]. *)
Record EffectiveAvailability := {
  effective : option Availability;
  effective_reason : option ReasonCode;
  omitted : option ReasonCode;
}.

Definition rsvp (choice : RsvpSelection) (busy_code free_code omit_code : ReasonCode) : EffectiveAvailability :=
  match choice with
  | rsvp_omit => {| effective := None; effective_reason := None; omitted := Some omit_code |}
  | rsvp_busy => {| effective := Some busy; effective_reason := Some busy_code; omitted := None |}
  | rsvp_free => {| effective := Some free; effective_reason := Some free_code; omitted := None |}
  end.

Definition effectiveAvailability (input : PolicyEvaluationInput) : EffectiveAvailability :=
  let observed :=
    {| effective := Some (nullish (availability (source input)) busy);
       effective_reason := None; omitted := None |} in
  match role (relationship (source input)) with
  | organizer_role =>
      {| effective := Some busy; effective_reason := Some Reason.organizer_assumed_accepted; omitted := None |}
  | attendee_role =>
      match response (relationship (source input)) with
      | declined => {| effective := None; effective_reason := None; omitted := Some Reason.rsvp_declined |}
      | accepted => {| effective := Some busy; effective_reason := Some Reason.rsvp_accepted; omitted := None |}
      | tentative => rsvp (tentative_selection (selection (policy input)))
          Reason.rsvp_tentative_busy Reason.rsvp_tentative_free Reason.rsvp_tentative_omitted
      | needs_action => rsvp (unanswered_selection (selection (policy input)))
          Reason.rsvp_unanswered_busy Reason.rsvp_unanswered_free Reason.rsvp_unanswered_omitted
      | not_applicable => observed
      end
  | no_role => observed
  end.

(** [details && copy]: the content field the policy copies. *)
Definition copied (details copy : bool) (field : option string) : option string :=
  if details && copy then field else None.

(** [details] of [transform]. *)
Definition copies_details (privacy : PrivacyPolicy) : bool :=
  bool_decide (preset privacy = private_details) || bool_decide (preset privacy = shared_details).

(** The object [desired] of [transform]. *)
Definition desired_of (input : PolicyEvaluationInput) (timing : EventTiming) (availability : Availability)
    : DesiredCopy :=
  let privacy := privacy (policy input) in
  let content := content (source input) in
  let details := copies_details privacy in
  {| desired_timing := timing;
     desired_summary :=
       if details && copy_summary privacy then nullish (summary content) "" else generic_summary privacy;
     transparency := match availability with free => transparent | busy => opaque end;
     visibility := if bool_decide (preset privacy = shared_details) then default else private;
     provenance_policy := policy_ref (policy input);
     provenance_projection := nullish (projection_ref (projection input)) (candidate_projection_ref input);
     provenance_generation := nullish (generation (projection input)) 1;
     desired_description := copied details (copy_description privacy) (description content);
     desired_location := copied details (copy_location privacy) (location content);
     desired_conference := copied details (copy_conference privacy) (conference content);
     desired_color := destination_color (policy input) |}.

Definition listed (condition : bool) (field : string) : list string :=
  if condition then [field] else [].

(** The arrays [disclosed] and [sourceFieldsRead] of [transform]. *)
Definition disclosed_fields (privacy : PrivacyPolicy) : list string :=
  let details := copies_details privacy in
  ["/timing"] ++ listed (details && copy_summary privacy) "/content/summary"
  ++ listed (details && copy_description privacy) "/content/description"
  ++ listed (details && copy_location privacy) "/content/location"
  ++ listed (details && copy_conference privacy) "/content/conference".

Definition fields_read (privacy : PrivacyPolicy) (s : SourceObservation) : list string :=
  let details := copies_details privacy in
  ["/availability"; "/content/description"; "/content/summary"; "/destination_identity_invited"; "/origin"]
  ++ listed (is_some (recurrence s)) "/recurrence"
  ++ ["/relationship"; "/timing"]
  ++ listed (details && copy_location privacy) "/content/location"
  ++ listed (details && copy_conference privacy) "/content/conference".

Definition disclosure_of (input : PolicyEvaluationInput) (desired : DesiredCopy) : DisclosureManifest :=
  let privacy := privacy (policy input) in
  let disclosed := disclosed_fields privacy in
  {| manifest_preset := preset privacy;
     source_fields_read := sortedUnique (fields_read privacy (source input));
     source_fields_disclosed := sortedUnique disclosed;
     destination_fields_written := sortedUnique (map (λ '(field, _), "/" +:+ field) (desired_members desired));
     source_fields_omitted :=
       sort_by text_leb (List.filter (λ field, negb (includes disclosed field)) OMITTED_SOURCE_FIELDS) |}.

Definition transform (input : PolicyEvaluationInput) (availability : Availability)
    : res evaluation_error (DesiredCopy * DisclosureManifest) :=
  timing ← otherwise (timing (source input)) ConfirmedSourceRequiresTiming;
  let desired := desired_of input timing availability in
  Ok (desired, disclosure_of input desired).

(** The branch of [evaluatePolicy] on the operation: ownership [none] or
    [attached]. *)
Definition choose_operation (input : PolicyEvaluationInput) (desired : DesiredCopy) (desiredFingerprint : string)
    : res evaluation_error (Operation.EvaluationOperation * ReasonCode) :=
  if bool_decide (ownership (projection input) = none)
  then Ok (Operation.create, Reason.create_missing_copy)
  else if bool_decide (destination_exists (projection input) = Some false)
  then Ok (Operation.create, Reason.restore_destination_missing)
  else
    drifted ← match observed_copy (projection input) with
              | Some observed =>
                  same ← rethrow CanonicalError (sameJson (desired_json observed) (desired_json desired));
                  Ok (negb same)
              | None => Ok false
              end;
    if drifted : bool then Ok (Operation.update, Reason.restore_destination_drift)
    else match desired_fingerprint (projection input) with
         | Some fingerprint =>
             if (fingerprint =? desiredFingerprint)%string then Ok (Operation.none, Reason.no_change)
             else Ok (Operation.update, Reason.update_source_change)
         | None => Ok (Operation.none, Reason.no_change)
         end.

(** The selection of an event whose availability is known: the early returns,
    or the final availability with the reasons and the warnings. *)
Definition select_timing (input : PolicyEvaluationInput) (timing : EventTiming)
    (availability : Availability) : ReasonCode + ReasonCode :=
  match timing with
  | timed _ _ _ _ =>
      match timed_selection (selection (policy input)) with
      | timed_skip => inl Reason.timed_event_disabled
      | timed_include => inr Reason.timed_event_included
      end
  | all_day _ _ _ =>
      match all_day_selection (selection (policy input)), availability with
      | all_day_skip, _ => inl Reason.all_day
      | all_day_busy_only, free => inl Reason.all_day_free
      | all_day_busy_only, busy => inr Reason.all_day_busy_included
      | all_day_all, _ => inr Reason.all_day_included
      end
  end.

Definition select_free (input : PolicyEvaluationInput) (availability : Availability)
    : ReasonCode + (Availability * list ReasonCode * list ReasonCode) :=
  match availability with
  | busy => inr (busy, [], [])
  | free =>
      match free_events (selection (policy input)) with
      | skip_when_redacted =>
          if redacted_preset (preset (privacy (policy input))) then inl Reason.free
          else inr (free, [Reason.free_preserved], [])
      | preserve_free => inr (free, [Reason.free_preserved], [])
      | force_busy => inr (busy, [Reason.free_forced_busy], [Reason.free_forced_busy])
      end
  end.

(** The hours of a timed event; an all-day event has no hours. *)
Definition select_hours (input : PolicyEvaluationInput) (timing : EventTiming)
    : res evaluation_error (ReasonCode + list ReasonCode) :=
  match timing with
  | timed start_instant end_instant _ _ =>
      hours ← rethrow HoursError (evaluateHours {|
        mode := hours_mode (policy input);
        event := {| start := start_instant; end_ := end_instant |};
        profile := hours_profile input |});
      Ok (if included hours then inr (diagnostics hours ++ [reason_code hours]) else inl (reason_code hours))
  | all_day _ _ _ => Ok (inr [])
  end.

(** The end of [evaluatePolicy], for a selected event. *)
Definition project (input : PolicyEvaluationInput) (availability : Availability)
    (selectionReasons warnings : list ReasonCode) : res evaluation_error PolicyEvaluationResult :=
  if bool_decide (ownership (projection input) = detached) then
    Ok (result Selection.included Operation.none Reason.detached_no_action
          (selectionReasons ++ [Reason.detached_no_action]) warnings)
  else if bool_decide (ownership (projection input) = ambiguous) then
    Ok (result Selection.held Operation.none Reason.ambiguous_ownership
          (selectionReasons ++ [Reason.ambiguous_ownership]) warnings)
  else
    '(desired, disclosure) ← transform input availability;
    desiredFingerprint ← rethrow CanonicalError (sha256Canonical (desired_json desired));
    '(op, operationReason) ← choose_operation input desired desiredFingerprint;
    Ok {| result_selection := Selection.included;
          operation := op;
          primary_reason_code := operationReason;
          reason_codes := new_set (selectionReasons ++
            [privacyReason (preset (privacy (policy input))); operationReason]);
          desired_copy := Some desired;
          result_fingerprint := Some desiredFingerprint;
          disclosure_manifest := Some disclosure;
          warnings := new_set warnings |}.

Definition evaluatePolicy (input : PolicyEvaluationInput) : res evaluation_error PolicyEvaluationResult :=
  match validate input with
  | Some invalid => Ok (result Selection.invalid Operation.none invalid [invalid] [])
  | None =>
  match state (policy input) with
  | paused => Ok (result Selection.held Operation.none Reason.policy_paused [Reason.policy_paused] [])
  | disabled => Ok (result Selection.excluded Operation.none Reason.policy_disabled [Reason.policy_disabled] [])
  | review_required =>
      Ok (result Selection.held Operation.none Reason.policy_review_required [Reason.policy_review_required] [])
  | active =>
  match lifecycle (source input) with
  | deleted => Ok (excluded input Reason.source_deleted true)
  | cancelled => Ok (excluded input Reason.source_cancelled true)
  | confirmed =>
  if bool_decide (origin (source input) = planipus_managed) then Ok (excluded input Reason.managed_copy false)
  else if includes (manual_exclusions (selection (policy input))) (source_event_ref (source input))
  then Ok (excluded input Reason.manual_exclusion false)
  else if containsNoSync input then Ok (excluded input Reason.nosync false)
  else if skip_when_destination_identity_invited (selection (policy input))
      && destination_identity_invited (source input)
  then Ok (excluded input Reason.already_invited false)
  else
    let response := effectiveAvailability input in
    match omitted response with
    | Some code => Ok (excluded input code false)
    | None =>
    let availability := nullish (effective response) busy in
    match timing (source input) with
    | None => Ok (result Selection.invalid Operation.none Reason.invalid_source_event
                    [Reason.invalid_source_event] [])
    | Some timing =>
    interval ← timingInterval timing;
    inside ← overlaps interval (horizon input);
    if negb inside then Ok (excluded input Reason.outside_horizon false)
    else match select_timing input timing availability with
    | inl code => Ok (excluded input code false)
    | inr timing_code =>
    match select_free input availability with
    | inl code => Ok (excluded input code false)
    | inr (availability, free_codes, warnings) =>
    hours ← select_hours input timing;
    match hours with
    | inl code => Ok (excluded input code false)
    | inr hours_codes =>
        project input availability
          (option_list (effective_reason response) ++ [timing_code] ++ free_codes ++ hours_codes) warnings
    end end end end end end end end.
End evaluate.

(** ** The evaluation as a verdict and its projection *)

(** What the policy makes of the source, before any look at the projection. *)
Inductive verdict :=
| Refused (selection : Selection.EvaluationSelection) (code : ReasonCode)
| Excluded (code : ReasonCode) (sourceRemoved : bool)
| Selected (availability : Availability) (reasons warnings : list ReasonCode).

Section verdicts.
Context `{Unicode} `{Digest} `{Temporal}.

(** The verdict on a selectable event: availability, horizon, timing, hours. *)
Definition timing_verdict (input : PolicyEvaluationInput) (timing : EventTiming)
    : res evaluation_error verdict :=
  let response := effectiveAvailability input in
  interval ← timingInterval timing;
  inside ← overlaps interval (horizon input);
  if negb inside then Ok (Excluded Reason.outside_horizon false)
  else match select_timing input timing (nullish (effective response) busy) with
  | inl code => Ok (Excluded code false)
  | inr timing_code =>
  match select_free input (nullish (effective response) busy) with
  | inl code => Ok (Excluded code false)
  | inr (availability, free_codes, warnings) =>
  hours ← select_hours input timing;
  match hours with
  | inl code => Ok (Excluded code false)
  | inr hours_codes =>
      Ok (Selected availability
        (option_list (effective_reason response) ++ [timing_code] ++ free_codes ++ hours_codes) warnings)
  end end end.

Definition source_exclusion (input : PolicyEvaluationInput) : option (ReasonCode * bool) :=
  match lifecycle (source input) with
  | deleted => Some (Reason.source_deleted, true)
  | cancelled => Some (Reason.source_cancelled, true)
  | confirmed =>
      if bool_decide (origin (source input) = planipus_managed) then Some (Reason.managed_copy, false)
      else if includes (manual_exclusions (selection (policy input))) (source_event_ref (source input))
      then Some (Reason.manual_exclusion, false)
      else if containsNoSync input then Some (Reason.nosync, false)
      else if skip_when_destination_identity_invited (selection (policy input))
          && destination_identity_invited (source input)
      then Some (Reason.already_invited, false)
      else match omitted (effectiveAvailability input) with
           | Some code => Some (code, false)
           | None => None
           end
  end.

Definition policy_refusal (input : PolicyEvaluationInput) : option (Selection.EvaluationSelection * ReasonCode) :=
  match validate input with
  | Some code => Some (Selection.invalid, code)
  | None =>
      match state (policy input) with
      | paused => Some (Selection.held, Reason.policy_paused)
      | disabled => Some (Selection.excluded, Reason.policy_disabled)
      | review_required => Some (Selection.held, Reason.policy_review_required)
      | active => None
      end
  end.

Definition verdict_of (input : PolicyEvaluationInput) : res evaluation_error verdict :=
  match policy_refusal input with
  | Some (selection, code) => Ok (Refused selection code)
  | None =>
  match source_exclusion input with
  | Some (code, sourceRemoved) => Ok (Excluded code sourceRemoved)
  | None =>
  match timing (source input) with
  | None => Ok (Refused Selection.invalid Reason.invalid_source_event)
  | Some timing => timing_verdict input timing
  end end end.

Definition apply_verdict (input : PolicyEvaluationInput) (v : verdict)
    : res evaluation_error PolicyEvaluationResult :=
  match v with
  | Refused selection code => Ok (result selection Operation.none code [code] [])
  | Excluded code sourceRemoved => Ok (excluded input code sourceRemoved)
  | Selected availability reasons warnings => project input availability reasons warnings
  end.

(** The evaluation is its verdict, applied to the projection. *)
Lemma evaluatePolicy_verdict input :
  evaluatePolicy input = (v ← verdict_of input; apply_verdict input v).
Proof.
  unfold evaluatePolicy, verdict_of, policy_refusal, source_exclusion, timing_verdict.
  destruct (validate input); [done|]. destruct (state (policy input)); try done.
  destruct (lifecycle (source input)); try done.
  destruct (bool_decide (origin _ = _)); [done|]. destruct (includes _ _); [done|].
  destruct (containsNoSync input); [done|]. destruct (_ && _); [done|].
  destruct (omitted (effectiveAvailability input)); [done|].
  destruct (timing (source input)) as [timing|]; [|done].
  destruct (timingInterval timing); cbn [mbind res_bind]; [|done].
  destruct (overlaps _ _) as [[]|]; cbn [mbind res_bind negb]; try done.
  destruct (select_timing _ _ _); [done|].
  destruct (select_free _ _) as [|[[availability free_codes] ws]]; [done|].
  destruct (select_hours _ _) as [[]|]; done.
Qed.

Lemma evaluatePolicy_Ok input r :
  evaluatePolicy input = Ok r ↔ ∃ v, verdict_of input = Ok v ∧ apply_verdict input v = Ok r.
Proof. rewrite evaluatePolicy_verdict. apply bind_Ok_inv. Qed.

(** A selected event passed every test of the policy. *)
Lemma verdict_Selected input a reasons ws :
  verdict_of input = Ok (Selected a reasons ws) →
  validate input = None ∧ state (policy input) = active ∧ source_exclusion input = None ∧
  ∃ t, timing (source input) = Some t ∧ timing_verdict input t = Ok (Selected a reasons ws).
Proof.
  unfold verdict_of, policy_refusal. destruct (validate input); [done|].
  destruct (state (policy input)); try done.
  destruct (source_exclusion input) as [[]|]; [done|].
  destruct (timing (source input)); [intros Ht; eauto 6|done].
Qed.

Lemma verdict_Excluded input code removed :
  verdict_of input = Ok (Excluded code removed) →
  validate input = None ∧ state (policy input) = active.
Proof.
  unfold verdict_of, policy_refusal. destruct (validate input); [done|].
  by destruct (state (policy input)).
Qed.

Lemma source_exclusion_None input :
  source_exclusion input = None →
  lifecycle (source input) = confirmed ∧ origin (source input) = provider_original ∧
  source_event_ref (source input) ∉ manual_exclusions (selection (policy input)) ∧
  containsNoSync input = false ∧ omitted (effectiveAvailability input) = None.
Proof.
  unfold source_exclusion, includes. destruct (lifecycle (source input)); try done.
  case_bool_decide as Ho; [done|]. case_bool_decide as Hm; [done|].
  destruct (containsNoSync input); [done|]. destruct (_ && _); [done|].
  destruct (omitted _); [done|]. intros _. destruct (origin (source input)); [|done]. done.
Qed.

(** What a projected event's result is made of. *)
Lemma project_Ok input a reasons ws r :
  project input a reasons ws = Ok r →
  ownership (projection input) = detached ∧
    r = result Selection.included Operation.none Reason.detached_no_action
          (reasons ++ [Reason.detached_no_action]) ws ∨
  ownership (projection input) = ambiguous ∧
    r = result Selection.held Operation.none Reason.ambiguous_ownership
          (reasons ++ [Reason.ambiguous_ownership]) ws ∨
  (ownership (projection input) = none ∨ ownership (projection input) = attached) ∧
  ∃ d m f op code,
    transform input a = Ok (d, m) ∧ sha256Canonical (desired_json d) = Ok f ∧
    choose_operation input d f = Ok (op, code) ∧
    r = {| result_selection := Selection.included; operation := op; primary_reason_code := code;
           reason_codes := new_set (reasons ++ [privacyReason (preset (privacy (policy input))); code]);
           desired_copy := Some d; result_fingerprint := Some f; disclosure_manifest := Some m;
           warnings := new_set ws |}.
Proof.
  unfold project.
  destruct (ownership (projection input)) eqn:Ho;
    repeat first [rewrite bool_decide_eq_true_2 by done | rewrite bool_decide_eq_false_2 by done].
  3: { intros [= <-]. by left. }
  3: { intros [= <-]. right; by left. }
  all: intros ([d m] & Ht & Hr)%bind_Ok_inv; apply bind_Ok_inv in Hr as (f & Hf%rethrow_Ok & Hr);
    apply bind_Ok_inv in Hr as ([op code] & Hc & [= <-]); right; right;
    (split; [auto|]); by exists d, m, f, op, code.
Qed.

(** The operation of an excluded event. *)
Lemma operation_excluded input code removed :
  operation (excluded input code removed) =
    if bool_decide (ownership (projection input) = attached) then Operation.delete else Operation.none.
Proof. unfold excluded. by destruct (ownership (projection input)). Qed.
End verdicts.

(** ** Properties *)

Definition with_source (input : PolicyEvaluationInput) (s : SourceObservation) : PolicyEvaluationInput :=
  {| now := now input; horizon := horizon input;
     candidate_projection_ref := candidate_projection_ref input; policy := policy input;
     hours_profile := hours_profile input; source := s; projection := projection input;
     destination_capabilities := destination_capabilities input |}.

Definition with_projection (input : PolicyEvaluationInput) (p : ProjectionInput) : PolicyEvaluationInput :=
  {| now := now input; horizon := horizon input;
     candidate_projection_ref := candidate_projection_ref input; policy := policy input;
     hours_profile := hours_profile input; source := source input; projection := p;
     destination_capabilities := destination_capabilities input |}.

(** What a privacy policy lets through of a source: the scheduling facts, and
    the content fields it copies. Attendees, organiser, attachments, the source
    URL, the provider metadata and the revision are in no policy's view. *)
Definition visible (privacy : PrivacyPolicy) (s : SourceObservation) :=
  let details := copies_details privacy in
  ((source_event_ref s, lifecycle s, origin s, timing s, is_some (recurrence s), availability s),
   (role (relationship s), response (relationship s), destination_identity_invited s),
   (if details && copy_summary privacy then nullish (summary (content s)) "" else "",
    copied details (copy_description privacy) (description (content s)),
    copied details (copy_location privacy) (location (content s)),
    copied details (copy_conference privacy) (conference (content s)))).

Section properties.
Context `{Unicode} `{Digest} `{Temporal}.

Lemma discloses_only input s :
  visible (privacy (policy input)) s = visible (privacy (policy input)) (source input) →
  containsNoSync (with_source input s) = containsNoSync input →
  evaluatePolicy (with_source input s) = evaluatePolicy input.
Proof.
  intros Hv Hn. rewrite !evaluatePolicy_verdict. unfold visible in Hv.
  injection Hv as He Hl Ho Ht Hrec Hav Hrole Hresp Hinv Hsum Hdesc Hloc Hconf.
  assert (effectiveAvailability (with_source input s) = effectiveAvailability input) as Heff.
  { unfold effectiveAvailability. cbn [source with_source policy]. by rewrite Hrole, Hresp, Hav. }
  assert (validate (with_source input s) = validate input) as Hval.
  { unfold validate. cbn [source with_source policy hours_profile destination_capabilities].
    by rewrite Hl, Ht. }
  assert (∀ a, transform (with_source input s) a = transform input a) as Htr.
  { intros a. unfold transform, disclosure_of, fields_read, desired_of.
    cbn [source with_source policy projection candidate_projection_ref].
    rewrite Ht, Hdesc, Hloc, Hconf, Hrec. destruct (timing (source input)); [|done].
    cbn [otherwise mbind res_bind].
    destruct (copies_details _), (copy_summary _); cbn [andb] in *; by rewrite ?Hsum. }
  assert (verdict_of (with_source input s) = verdict_of input) as ->.
  { unfold verdict_of, policy_refusal, source_exclusion, timing_verdict.
    rewrite Hval, Heff, Hn. cbn [source with_source policy]. by rewrite Hl, Ho, He, Hinv, Ht. }
  destruct (verdict_of input) as [[]|]; try done.
  cbn [mbind res_bind apply_verdict]. unfold project. cbn [projection with_source policy].
  by rewrite Htr.
Qed.

(** A policy discloses nothing outside its view: two sources that look alike
    through the privacy policy, and that both carry or both lack the exclusion
    marker, have the same evaluation, whatever else they hold. *)
Theorem evaluatePolicy_discloses_only input s :
  visible (privacy (policy input)) s = visible (privacy (policy input)) (source input) →
  containsNoSync (with_source input s) = containsNoSync input →
  evaluatePolicy (with_source input s) = evaluatePolicy input.
Proof. apply discloses_only. Qed.

(** A redacted preset shows no content at all. *)
Theorem redacted_copy_is_generic input r d :
  evaluatePolicy input = Ok r →
  desired_copy r = Some d →
  redacted_preset (preset (privacy (policy input))) = true →
  desired_summary d = generic_summary (privacy (policy input)) ∧
  desired_description d = None ∧ desired_location d = None ∧ desired_conference d = None ∧
  visibility d = private ∧
  ∃ m, disclosure_manifest r = Some m ∧ source_fields_disclosed m = ["/timing"].
Proof.
  intros ([] & _ & Hr)%evaluatePolicy_Ok Hd Hp; cbn [apply_verdict] in Hr.
  - by injection Hr as <-.
  - injection Hr as <-. exfalso. revert Hd. unfold excluded. by case_match.
  - apply project_Ok in Hr as [[_ ->]|[[_ ->]|(_ & d' & m & f & op & code & Ht & _ & _ & ->)]]; try done.
    cbn in Hd. injection Hd as ->. unfold transform in Ht.
    apply bind_Ok_inv in Ht as (t & _ & [= <- <-]).
    assert (copies_details (privacy (policy input)) = false ∧
      preset (privacy (policy input)) ≠ shared_details) as [Hdetails Hshared].
    { unfold copies_details. by destruct (preset (privacy (policy input))). }
    cbn [desired_summary desired_description desired_location desired_conference visibility desired_of].
    rewrite Hdetails. rewrite bool_decide_eq_false_2 by done. cbn [andb copied].
    do 5 (split; [done|]). eexists. split; [done|].
    cbn [source_fields_disclosed disclosure_of]. unfold disclosed_fields. by rewrite Hdetails.
Qed.

Lemma guarded_write input r :
  evaluatePolicy input = Ok r →
  operation r ≠ Operation.none →
  validate input = None ∧ state (policy input) = active ∧
  writable (destination_capabilities input) = true ∧
  source_calendar_ref (policy input) ≠ destination_calendar_ref (policy input) ∧
  match operation r with
  | Operation.delete =>
      ownership (projection input) = attached ∧ result_selection r = Selection.excluded ∧ desired_copy r = None
  | _ =>
      (ownership (projection input) = none ∨ ownership (projection input) = attached) ∧
      result_selection r = Selection.included ∧
      lifecycle (source input) = confirmed ∧ origin (source input) = provider_original ∧
      source_event_ref (source input) ∉ manual_exclusions (selection (policy input)) ∧
      containsNoSync input = false
  end.
Proof.
  assert (validate input = None → writable (destination_capabilities input) = true ∧
    source_calendar_ref (policy input) ≠ destination_calendar_ref (policy input)) as Hval.
  { unfold validate. destruct (String.eqb_spec (source_calendar_ref (policy input))
      (destination_calendar_ref (policy input))); [done|].
    by destruct (writable (destination_capabilities input)). }
  intros (v & Hv & Hr)%evaluatePolicy_Ok Hop. destruct v as [sel code|code removed|a reasons ws];
    cbn [apply_verdict] in Hr.
  - by injection Hr as <-.
  - apply verdict_Excluded in Hv as [Hnone Hactive]. destruct (Hval Hnone) as [Hw Hc].
    injection Hr as <-. revert Hop. rewrite operation_excluded. unfold excluded.
    by destruct (ownership (projection input)).
  - apply verdict_Selected in Hv as (Hnone & Hactive & Hsrc%source_exclusion_None & _).
    destruct (Hval Hnone) as [Hw Hc].
    apply project_Ok in Hr as [[_ ->]|[[_ ->]|(Hown & d & m & f & op & code & _ & _ & Hch & ->)]]; try done.
    cbn in *. assert (op ≠ Operation.delete) as Hnd.
    { unfold choose_operation in Hch. repeat case_match; res_inv Hch; try done.
      all: repeat case_match; congruence. }
    destruct Hsrc as (? & ? & ? & ? & _). by destruct op.
Qed.

(** C1. Nothing is written unless the policy is active and valid, nothing is
    created or updated unless the source is a confirmed provider original that
    is not excluded, and only an attached copy of an excluded source is
    deleted; a detached or ambiguous projection is never written. *)
Theorem writes_are_guarded input r :
  evaluatePolicy input = Ok r →
  operation r ≠ Operation.none →
  validate input = None ∧ state (policy input) = active ∧
  writable (destination_capabilities input) = true ∧
  source_calendar_ref (policy input) ≠ destination_calendar_ref (policy input) ∧
  match operation r with
  | Operation.delete =>
      ownership (projection input) = attached ∧ result_selection r = Selection.excluded ∧ desired_copy r = None
  | _ =>
      (ownership (projection input) = none ∨ ownership (projection input) = attached) ∧
      result_selection r = Selection.included ∧
      lifecycle (source input) = confirmed ∧ origin (source input) = provider_original ∧
      source_event_ref (source input) ∉ manual_exclusions (selection (policy input)) ∧
      containsNoSync input = false
  end.
Proof. apply guarded_write. Qed.

(** An evaluated event's copy comes from [transform]. *)
Lemma desired_copy_transform input r d :
  evaluatePolicy input = Ok r → desired_copy r = Some d →
  ∃ a reasons ws m f op code,
    verdict_of input = Ok (Selected a reasons ws) ∧
    (ownership (projection input) = none ∨ ownership (projection input) = attached) ∧
    transform input a = Ok (d, m) ∧ sha256Canonical (desired_json d) = Ok f ∧
    choose_operation input d f = Ok (op, code) ∧
    operation r = op ∧ primary_reason_code r = code ∧
    result_fingerprint r = Some f ∧ disclosure_manifest r = Some m.
Proof.
  intros (v & Hv & Hr)%evaluatePolicy_Ok Hd. destruct v as [sel code|code removed|a reasons ws];
    cbn [apply_verdict] in Hr.
  - by injection Hr as <-.
  - injection Hr as <-. exfalso. revert Hd. unfold excluded. by case_match.
  - apply project_Ok in Hr as [[_ ->]|[[_ ->]|(Ho & d' & m & f & op & code & Ht & Hf & Hc & ->)]]; try done.
    cbn in Hd. injection Hd as ->. by exists a, reasons, ws, m, f, op, code.
Qed.

Lemma elem_of_sortedUnique xs x : x ∈ sortedUnique xs ↔ x ∈ xs.
Proof. unfold sortedUnique. by rewrite elem_of_sort_by, elem_of_new_set. Qed.

Lemma written_fields d key :
  "/" +:+ key ∈ map (λ '(field, _), "/" +:+ field) (desired_members d) ↔
  key ∈ map fst (desired_members d).
Proof.
  rewrite !list_elem_of_fmap. split.
  - intros ([k v] & [= ->] & Hin). by exists (k, v).
  - intros ([k v] & -> & Hin). by exists (k, v).
Qed.

(** The manifest tells the truth about the copy: it lists exactly the members
    written, a content field in the copy is the source's own and listed as
    disclosed, everything disclosed was read, and the omitted fields are the
    sensitive ones that are not disclosed. *)
Theorem manifest_is_truthful input r d m :
  evaluatePolicy input = Ok r →
  desired_copy r = Some d →
  disclosure_manifest r = Some m →
  (∀ key, "/" +:+ key ∈ destination_fields_written m ↔ key ∈ map fst (desired_members d)) ∧
  (desired_summary d = generic_summary (privacy (policy input)) ∨
   desired_summary d = nullish (summary (content (source input))) "" ∧
     "/content/summary" ∈ source_fields_disclosed m) ∧
  (∀ v, desired_description d = Some v →
     description (content (source input)) = Some v ∧ "/content/description" ∈ source_fields_disclosed m) ∧
  (∀ v, desired_location d = Some v →
     location (content (source input)) = Some v ∧ "/content/location" ∈ source_fields_disclosed m) ∧
  (∀ v, desired_conference d = Some v →
     conference (content (source input)) = Some v ∧ "/content/conference" ∈ source_fields_disclosed m) ∧
  (∀ field, field ∈ source_fields_disclosed m → field ∈ source_fields_read m) ∧
  (∀ field, field ∈ source_fields_omitted m ↔
     field ∈ OMITTED_SOURCE_FIELDS ∧ field ∉ source_fields_disclosed m).
Proof.
  intros Hr Hd Hm. destruct (desired_copy_transform _ _ _ Hr Hd)
    as (a & reasons & ws & m' & f & op & code & _ & _ & Ht & _ & _ & _ & _ & _ & Hm').
  assert (m' = m) as -> by congruence. clear Hr Hd Hm Hm'. unfold transform in Ht.
  apply bind_Ok_inv in Ht as (t & _ & [= <- <-]). unfold disclosure_of.
  cbn [destination_fields_written source_fields_disclosed source_fields_read source_fields_omitted].
  set (p := privacy (policy input)).
  split; [|split; [|split; [|split; [|split; [|split]]]]].
  - intros key. rewrite elem_of_sortedUnique. apply written_fields.
  - rewrite elem_of_sortedUnique. unfold disclosed_fields. cbn [desired_summary desired_of]. fold p.
    destruct (copies_details p), (copy_summary p); cbn [andb listed]; [right; split; [done|in_list]|by left..].
  - intros v. rewrite elem_of_sortedUnique. cbn [desired_description desired_of]. fold p.
    unfold copied, disclosed_fields. destruct (copies_details p && copy_description p); [|done].
    intros Hv. cbn [listed]. split; [done|in_list].
  - intros v. rewrite elem_of_sortedUnique. cbn [desired_location desired_of]. fold p.
    unfold copied, disclosed_fields. destruct (copies_details p && copy_location p); [|done].
    intros Hv. cbn [listed]. split; [done|in_list].
  - intros v. rewrite elem_of_sortedUnique. cbn [desired_conference desired_of]. fold p.
    unfold copied, disclosed_fields. destruct (copies_details p && copy_conference p); [|done].
    intros Hv. cbn [listed]. split; [done|in_list].
  - intros field. rewrite !elem_of_sortedUnique. intros Hfield.
    unfold disclosed_fields in Hfield. unfold fields_read.
    rewrite !elem_of_app in Hfield. destruct Hfield as [Hfield|[Hfield|[Hfield|[Hfield|Hfield]]]];
      [| | |in_list|in_list].
    + apply list_elem_of_singleton in Hfield as ->. in_list.
    + unfold listed in Hfield. destruct (_ && _); [|by apply elem_of_nil in Hfield].
      apply list_elem_of_singleton in Hfield as ->. in_list.
    + unfold listed in Hfield. destruct (_ && _); [|by apply elem_of_nil in Hfield].
      apply list_elem_of_singleton in Hfield as ->. in_list.
  - intros field. rewrite elem_of_sortedUnique, elem_of_sort_by, list_elem_of_In, filter_In, <- list_elem_of_In.
    rewrite negb_true_iff. unfold includes. by rewrite bool_decide_eq_false.
Qed.

(** The operation on a selected event: create without a copy or when the copy
    is gone, update when the observed copy is another document or when the
    fingerprint on record is another one, nothing otherwise. *)
Theorem operation_decided input r d f :
  evaluatePolicy input = Ok r →
  desired_copy r = Some d →
  result_fingerprint r = Some f →
  match ownership (projection input) with
  | attached =>
      (destination_exists (projection input) = Some false ∧
         (operation r, primary_reason_code r) = (Operation.create, Reason.restore_destination_missing)) ∨
      (destination_exists (projection input) ≠ Some false ∧
       match observed_copy (projection input) with
       | Some observed =>
           ¬ json_equiv (desired_json observed) (desired_json d) ∧
             (operation r, primary_reason_code r) = (Operation.update, Reason.restore_destination_drift) ∨
           json_equiv (desired_json observed) (desired_json d) ∧
             primary_reason_code r ≠ Reason.restore_destination_drift
       | None => primary_reason_code r ≠ Reason.restore_destination_drift
       end ∧
       (primary_reason_code r ≠ Reason.restore_destination_drift →
        (operation r, primary_reason_code r) =
          match desired_fingerprint (projection input) with
          | Some recorded => if (recorded =? f)%string then (Operation.none, Reason.no_change)
                             else (Operation.update, Reason.update_source_change)
          | None => (Operation.none, Reason.no_change)
          end))
  | none => (operation r, primary_reason_code r) = (Operation.create, Reason.create_missing_copy)
  | _ => False
  end.
Proof.
  intros Hr Hd Hf. destruct (desired_copy_transform _ _ _ Hr Hd)
    as (a & reasons & ws & m & f' & op & code & _ & Ho & _ & _ & Hc & -> & -> & Hf' & _).
  assert (f' = f) as -> by congruence. unfold choose_operation in Hc.
  destruct Ho as [Ho|Ho]; rewrite Ho in *.
  { rewrite bool_decide_eq_true_2 in Hc by done. congruence. }
  rewrite bool_decide_eq_false_2 in Hc by done.
  case_bool_decide as He; [left; split; [done|congruence]|]. right. split; [done|].
  apply bind_Ok_inv in Hc as (drifted & Hdrift & Hc). destruct (observed_copy (projection input)) as [o|].
  - apply bind_Ok_inv in Hdrift as (same & Hs%rethrow_Ok%sameJson_equiv & [= <-]).
    destruct same; cbn [negb] in Hc.
    + split; [right; split; [by apply Hs|]|]; repeat case_match; intros; congruence.
    + split; [left; split; [|congruence]|intros; exfalso; congruence]. intros Heq%Hs. done.
  - injection Hdrift as <-. split; repeat case_match; intros; congruence.
Qed.

(** The projection of a copy that the destination now holds. *)
Definition applied (d : DesiredCopy) (f : string) (event_ref : option string) : ProjectionInput :=
  {| ownership := attached; projection_ref := Some (provenance_projection d);
     generation := Some (provenance_generation d); destination_event_ref := event_ref;
     destination_exists := Some true; desired_fingerprint := Some f; observed_copy := Some d |}.

(** The evaluation converges: once the copy it wants is in the destination,
    evaluating again wants the same copy and no operation. *)
Theorem evaluation_converges input r d f event_ref :
  evaluatePolicy input = Ok r →
  desired_copy r = Some d →
  result_fingerprint r = Some f →
  ∃ r', evaluatePolicy (with_projection input (applied d f event_ref)) = Ok r' ∧
    operation r' = Operation.none ∧ primary_reason_code r' = Reason.no_change ∧
    desired_copy r' = Some d ∧ result_fingerprint r' = Some f.
Proof.
  intros Hr Hd Hf. destruct (desired_copy_transform _ _ _ Hr Hd)
    as (a & reasons & ws & m & f' & op & code & Hv & _ & Ht & Hsha & _ & _ & _ & Hf' & _).
  assert (f' = f) as -> by congruence.
  set (input' := with_projection input (applied d f event_ref)).
  assert (transform input' a = Ok (d, m)) as Ht'.
  { unfold transform in *. cbn [source policy projection candidate_projection_ref with_projection input'].
    apply bind_Ok_inv in Ht as (t & Ht & Hd'). injection Hd' as <- <-. by rewrite Ht. }
  assert (choose_operation input' d f = Ok (Operation.none, Reason.no_change)) as Hc.
  { unfold choose_operation. cbn [projection with_projection input' applied ownership destination_exists
      observed_copy desired_fingerprint].
    rewrite !bool_decide_eq_false_2 by done.
    rewrite sameJson_refl by (by eapply sha256Canonical_representable).
    cbn. by rewrite String.eqb_refl. }
  rewrite evaluatePolicy_verdict. replace (verdict_of input') with (verdict_of input) by done.
  rewrite Hv. cbn [mbind res_bind apply_verdict]. unfold project.
  cbn [projection with_projection input' applied ownership]. rewrite !bool_decide_eq_false_2 by done.
  fold input'. rewrite Ht'. cbn [mbind res_bind]. rewrite Hsha. cbn [mbind res_bind rethrow]. rewrite Hc. by eexists.
Qed.

(** A result is well formed: reasons and warnings are without duplicates, the
    primary reason is among the reasons, a copy comes with its own fingerprint
    and a manifest, and a write of content carries the copy to write. *)
Theorem evaluation_well_formed input r :
  evaluatePolicy input = Ok r →
  NoDup (reason_codes r) ∧ NoDup (warnings r) ∧ primary_reason_code r ∈ reason_codes r ∧
  match desired_copy r with
  | Some d => ∃ f m, result_fingerprint r = Some f ∧ disclosure_manifest r = Some m ∧
                sha256Canonical (desired_json d) = Ok f
  | None => result_fingerprint r = None ∧ disclosure_manifest r = None ∧
      operation r ≠ Operation.create ∧ operation r ≠ Operation.update
  end.
Proof.
  assert (∀ sel op code reasons ws, code ∈ reasons →
    op ≠ Operation.create → op ≠ Operation.update →
    let r := result sel op code reasons ws in
    NoDup (reason_codes r) ∧ NoDup (warnings r) ∧ primary_reason_code r ∈ reason_codes r ∧
    result_fingerprint r = None ∧ disclosure_manifest r = None ∧
    operation r ≠ Operation.create ∧ operation r ≠ Operation.update) as Hresult.
  { intros sel op code reasons ws Hcode ?? r'. unfold r'.
    cbn [reason_codes warnings primary_reason_code operation result].
    rewrite elem_of_new_set. eauto 10 with planipus. }
  intros (v & _ & Hr)%evaluatePolicy_Ok. destruct v as [sel code|code removed|a reasons ws];
    cbn [apply_verdict] in Hr.
  - injection Hr as <-. apply Hresult; [by left|done..].
  - injection Hr as <-. unfold excluded.
    destruct (ownership (projection input)), removed; apply Hresult; try done; in_list.
  - apply project_Ok in Hr as [[_ ->]|[[_ ->]|(_ & d & m & f & op & code & _ & Hf & _ & ->)]].
    + apply Hresult; [in_list|done..].
    + apply Hresult; [in_list|done..].
    + cbn [reason_codes warnings primary_reason_code desired_copy result_fingerprint disclosure_manifest].
      split; [apply NoDup_new_set|]. split; [apply NoDup_new_set|]. split; [|eauto].
      rewrite elem_of_new_set. in_list.
Qed.

(** *** The evaluator returns *)

Lemma ascii_keys `{!UnicodeLaws _} (ms : list (string * json)) :
  forallb (λ m, string_forall is_ascii m.1) ms = true → map (λ m, nfc m.1) ms = map fst ms.
Proof.
  induction ms as [|[k v] ms IH]; cbn; [done|]. intros [Hk Hms]%andb_true_iff.
  by rewrite nfc_ascii, IH.
Qed.

Lemma representable_object `{!UnicodeLaws _} (ms : list (string * json)) :
  forallb (λ m, string_forall is_ascii m.1) ms = true →
  NoDup (map fst ms) →
  forallb (λ m, is_defined m.2 && representable m.2) ms = true →
  representable (JObject ms) = true.
Proof.
  intros Hascii Hnd Hall. cbn [representable].
  assert (defined_members ms = ms) as ->.
  { clear -Hall. unfold defined_members. induction ms as [|[k v] ms IH]; cbn in *; [done|].
    apply andb_true_iff in Hall as [[-> _]%andb_true_iff Hall]. by rewrite IH. }
  rewrite ascii_keys, bool_decide_eq_true_2 by done. cbn [andb].
  clear -Hall. induction ms as [|[k v] ms IH]; cbn in *; [done|].
  apply andb_true_iff in Hall as [[_ ->]%andb_true_iff Hall]. rewrite orb_true_r. by apply IH.
Qed.

Definition safe_generation (g : Z) : Prop := Z.abs g <= MAX_SAFE_INTEGER.

Lemma representable_timing `{!UnicodeLaws _} t : representable (timing_json t) = true.
Proof.
  destruct t; apply representable_object; try done; apply (bool_decide_unpack _); vm_compute; done.
Qed.

Lemma representable_int z : safe_generation z → representable (int z) = true.
Proof.
  unfold safe_generation. intros Hz. cbn. unfold safe_integer. cbn. rewrite Z.mul_1_r.
  by rewrite (proj2 (Z.leb_le _ _)).
Qed.

Lemma representable_desired `{!UnicodeLaws _} d :
  safe_generation (provenance_generation d) → representable (desired_json d) = true.
Proof.
  intros Hg. apply representable_object.
  - unfold desired_members, optional_member.
    by destruct (desired_description d), (desired_location d), (desired_conference d), (desired_color d).
  - unfold desired_members, optional_member.
    destruct (desired_description d), (desired_location d), (desired_conference d), (desired_color d);
      apply (bool_decide_unpack _); vm_compute; done.
  - unfold desired_members. rewrite !forallb_app.
    assert (∀ k o, forallb (λ m : string * json, is_defined m.2 && representable m.2)
      (optional_member k o) = true) as Ho by (by intros k []).
    rewrite !Ho, !andb_true_r. cbn [forallb snd is_defined andb timing_json].
    rewrite representable_timing.
    rewrite (representable_object [("send_notifications", JBool false)])
      by first [done | apply (bool_decide_unpack _); vm_compute; done].
    rewrite (representable_object (("version", int 1) :: _)); [by destruct (desired_timing d)|done| |].
    + apply (bool_decide_unpack _); vm_compute; done.
    + cbn [forallb snd]. by rewrite !representable_int.
Qed.

Definition readable_interval (i : InstantInterval) : Prop :=
  is_Some (Instant_from (start i)) ∧ is_Some (Instant_from (end_ i)).
Definition readable_timing (t : EventTiming) : Prop :=
  ∃ i, timingInterval t = Ok i ∧ readable_interval i.

Lemma overlaps_Ok i j : readable_interval i → readable_interval j → ∃ b, overlaps i j = Ok b.
Proof.
  intros [[? Hi1] [? Hi2]] [[? Hj1] [? Hj2]]. unfold overlaps, range_error.
  rewrite Hi1, Hi2, Hj1, Hj2. cbn. eauto.
Qed.

Lemma select_hours_Ok input t : readable_timing t → ∃ v, select_hours input t = Ok v.
Proof.
  intros (i & Hi & Hs & He). unfold select_hours.
  destruct t as [start_instant end_instant ? ?|? ? ?]; [|eauto]. injection Hi as <-.
  match goal with |- context [evaluateHours ?x] => pose proof (evaluateHours_total x) as Hh end.
  cbn [start end_ event] in *. destruct Hs as [s Hs], He as [e He]. rewrite Hs, He in Hh.
  destruct Hh as (r & -> & _). cbn. eauto.
Qed.

Lemma timing_verdict_Ok input t :
  readable_timing t → readable_interval (horizon input) → ∃ v, timing_verdict input t = Ok v.
Proof.
  intros Ht Hh. unfold timing_verdict. destruct (select_hours_Ok input t Ht) as [v Hv].
  destruct Ht as (i & -> & Hi). cbn [mbind res_bind]. destruct (overlaps_Ok _ _ Hi Hh) as [b ->].
  cbn [mbind res_bind]. destruct b; cbn [negb]; [|eauto].
  destruct (select_timing _ _ _); [eauto|]. destruct (select_free _ _) as [|[[]]]; [eauto|].
  rewrite Hv. cbn [mbind res_bind]. destruct v; eauto.
Qed.

Lemma choose_operation_Ok `{!UnicodeLaws _} input d f :
  safe_generation (provenance_generation d) →
  (∀ o, observed_copy (projection input) = Some o → safe_generation (provenance_generation o)) →
  ∃ c, choose_operation input d f = Ok c.
Proof.
  intros Hd Ho. unfold choose_operation. do 2 (case_bool_decide; [eauto|]).
  assert (∃ b, match observed_copy (projection input) with
    | Some observed =>
        same ← rethrow CanonicalError (sameJson (desired_json observed) (desired_json d)); Ok (negb same)
    | None => Ok false end = Ok b) as [b ->].
  { destruct (observed_copy (projection input)) as [o|]; [|eauto].
    destruct (sameJson_Ok (desired_json o) (desired_json d)) as [b ->]; [apply representable_desired; auto..|].
    cbn. eauto. }
  cbn [mbind res_bind]. destruct b; [eauto|]. destruct (desired_fingerprint _); [|eauto].
  destruct (_ =? _)%string; eauto.
Qed.

(** The evaluator returns whenever the instants it is given can be read and
    the generations are safe integers: every other input error is a verdict,
    not an exception. *)
Theorem evaluatePolicy_total `{!UnicodeLaws _} input :
  (∀ t, timing (source input) = Some t → readable_timing t) →
  readable_interval (horizon input) →
  safe_generation (nullish (generation (projection input)) 1) →
  (∀ o, observed_copy (projection input) = Some o → safe_generation (provenance_generation o)) →
  ∃ r, evaluatePolicy input = Ok r.
Proof.
  intros Ht Hh Hg Ho. rewrite evaluatePolicy_verdict.
  assert (∃ v, verdict_of input = Ok v) as [v Hv].
  { unfold verdict_of. destruct (policy_refusal input) as [[]|]; [eauto|].
    destruct (source_exclusion input) as [[]|]; [eauto|].
    destruct (timing (source input)) as [t|]; [|eauto]. apply timing_verdict_Ok; auto. }
  rewrite Hv. cbn [mbind res_bind]. destruct v as [| |a reasons ws]; cbn [apply_verdict]; [eauto..|].
  apply verdict_Selected in Hv as (_ & _ & _ & t & Htime & _). unfold project.
  do 2 (destruct (bool_decide _); [eauto|]). unfold transform. rewrite Htime. cbn [otherwise mbind res_bind].
  set (d := desired_of input t a).
  assert (safe_generation (provenance_generation d)) as Hd by done.
  destruct (sha256Canonical_Ok (desired_json d)) as [f ->]; [by apply representable_desired|].
  cbn [mbind res_bind rethrow]. destruct (choose_operation_Ok input d f Hd Ho) as [[op code] ->].
  cbn. eauto.
Qed.
End properties.

(** ** A concrete evaluation *)

Definition sample_privacy (preset : PrivacyPreset) (copy : bool) : PrivacyPolicy := {|
  preset := preset; generic_summary := "Busy"; copy_summary := copy; copy_description := false;
  copy_location := copy; copy_conference := false; copy_attendees := false; copy_organizer := false |}.

Definition sample_policy (privacy : PrivacyPolicy) : SyncPolicy := {|
  policy_ref := "policy"; revision := 1; state := active;
  source_calendar_ref := "work"; destination_calendar_ref := "home";
  hours_mode := contained_in_profile; hours_profile_ref := Some "hours"; privacy := privacy;
  selection := {|
    timed_selection := timed_include; all_day_selection := all_day_all; free_events := force_busy;
    tentative_selection := rsvp_busy; unanswered_selection := rsvp_omit;
    skip_when_destination_identity_invited := true; source_exclusion_marker := "#nosync";
    manual_exclusions := [] |};
  destination_color := None; destination_edits := None |}.

Definition sample_source (content : EventContent) : SourceObservation := {|
  source_event_ref := "event"; source_occurrence_ref := "occurrence"; remote_revision := "r1";
  lifecycle := confirmed; origin := provider_original;
  timing := Some (timed "2026-10-25T00:45:00Z" "2026-10-25T08:00:00Z" "UTC" "UTC");
  recurrence := None; availability := Some free;
  relationship := {| role := no_role; response := not_applicable; response_note := None |};
  destination_identity_invited := false; content := content;
  attendees := None; organizer := None; attachments := None; source_url := None; provider_metadata := None |}.

Definition doctor : EventContent :=
  {| summary := Some "Doctor"; description := Some "Room 5"; location := Some "Clinic"; conference := None |}.
Definition nothing : EventContent :=
  {| summary := None; description := None; location := None; conference := None |}.

Definition no_projection : ProjectionInput := {|
  ownership := none; projection_ref := None; generation := None; destination_event_ref := None;
  destination_exists := None; desired_fingerprint := None; observed_copy := None |}.

Definition sample_input (privacy : PrivacyPolicy) (content : EventContent) (projection : ProjectionInput)
    : PolicyEvaluationInput := {|
  now := "2026-10-20T00:00:00Z";
  horizon := {| start := "2026-10-20T00:00:00Z"; end_ := "2026-11-20T00:00:00Z" |};
  candidate_projection_ref := "projection"; policy := sample_policy privacy;
  hours_profile := Some sunday_profile; source := sample_source content; projection := projection;
  destination_capabilities := {|
    writable := true; private_visibility := true; conference_copy := true; color_capability := true |} |}.

(** A digest for the witnesses. *)
#[export] Instance text_digest : Digest | 100 := {| sha256_hex := λ s, s |}.

Definition sample_copy (privacy : PrivacyPolicy) (content : EventContent) : DesiredCopy :=
  desired_of (sample_input privacy content no_projection)
    (timed "2026-10-25T00:45:00Z" "2026-10-25T08:00:00Z" "UTC" "UTC") busy.

Definition value_of {E A} (m : res E A) (x : A) : A := match m with Ok a => a | Throw _ => x end.

Definition sample_result (privacy : PrivacyPolicy) (content : EventContent) (projection : ProjectionInput) :=
  value_of (evaluatePolicy (sample_input privacy content projection))
    (result Selection.invalid Operation.none Reason.no_change [] []).

Definition sample_fingerprint (privacy : PrivacyPolicy) (content : EventContent) : string :=
  value_of (sha256Canonical (desired_json (sample_copy privacy content))) "".

Definition drifted_projection : ProjectionInput :=
  applied (sample_copy (sample_privacy busy_only false) doctor) "sha256:old" None.

(** The marker is found as a word of its own, in any case, and only there. *)
Example marker_search :
  map (λ text, search_marker (fold_text "NoSync") true (fold_text text))
    ["nosync"; "please NOSYNC."; "nosyncing"; "anosync"; "no sync"; "x nosync_"; "-nosync-"]
  = [true; true; false; false; false; false; true].
Proof. reflexivity. Qed.

Lemma evaluatePolicy_discloses_only_witness :
  evaluatePolicy (sample_input (sample_privacy busy_only false) doctor no_projection) =
  evaluatePolicy (sample_input (sample_privacy busy_only false) nothing no_projection).
Proof.
  exact (evaluatePolicy_discloses_only (sample_input (sample_privacy busy_only false) nothing no_projection)
    (sample_source doctor) eq_refl eq_refl).
Defined.

Lemma redacted_copy_is_generic_witness :
  desired_summary (sample_copy (sample_privacy busy_only false) doctor) = "Busy" ∧
  desired_location (sample_copy (sample_privacy busy_only false) doctor) = None.
Proof.
  destruct (redacted_copy_is_generic (sample_input (sample_privacy busy_only false) doctor no_projection)
    (sample_result (sample_privacy busy_only false) doctor no_projection)
    (sample_copy (sample_privacy busy_only false) doctor)) as (H1 & _ & H2 & _);
    [vm_compute; reflexivity | vm_compute; reflexivity | reflexivity | split; assumption].
Defined.

Lemma writes_are_guarded_witness :
  operation (sample_result (sample_privacy busy_only false) doctor no_projection) = Operation.create ∧
  containsNoSync (sample_input (sample_privacy busy_only false) doctor no_projection) = false.
Proof.
  assert (operation (sample_result (sample_privacy busy_only false) doctor no_projection) = Operation.create)
    as Hop by (vm_compute; reflexivity).
  destruct (writes_are_guarded (sample_input (sample_privacy busy_only false) doctor no_projection)
    (sample_result (sample_privacy busy_only false) doctor no_projection)) as (_ & _ & _ & _ & Hg);
    [vm_compute; reflexivity | rewrite Hop; discriminate |].
  rewrite Hop in Hg. split; [exact Hop | apply Hg].
Defined.

Lemma manifest_is_truthful_witness :
  ∃ m, disclosure_manifest (sample_result (sample_privacy private_details true) doctor no_projection) = Some m ∧
    "/content/location" ∈ source_fields_disclosed m.
Proof.
  eexists. split; [vm_compute; reflexivity|].
  apply (manifest_is_truthful (sample_input (sample_privacy private_details true) doctor no_projection)
    (sample_result (sample_privacy private_details true) doctor no_projection)
    (sample_copy (sample_privacy private_details true) doctor)) with (v := "Clinic");
    vm_compute; reflexivity.
Defined.

Lemma operation_decided_witness :
  destination_exists drifted_projection = Some false ∨ destination_exists drifted_projection ≠ Some false.
Proof.
  destruct (operation_decided (sample_input (sample_privacy private_details true) doctor drifted_projection)
    (sample_result (sample_privacy private_details true) doctor drifted_projection)
    (sample_copy (sample_privacy private_details true) doctor)
    (sample_fingerprint (sample_privacy private_details true) doctor)) as [[H _]|[H _]];
    [vm_compute; reflexivity | vm_compute; reflexivity | vm_compute; reflexivity | left; exact H | right; exact H].
Defined.

Lemma evaluation_converges_witness :
  ∃ r', evaluatePolicy (sample_input (sample_privacy private_details true) doctor
      (applied (sample_copy (sample_privacy private_details true) doctor)
        (sample_fingerprint (sample_privacy private_details true) doctor) None)) = Ok r' ∧
    operation r' = Operation.none ∧ primary_reason_code r' = Reason.no_change ∧
    desired_copy r' = Some (sample_copy (sample_privacy private_details true) doctor) ∧
    result_fingerprint r' = Some (sample_fingerprint (sample_privacy private_details true) doctor).
Proof.
  apply (evaluation_converges (sample_input (sample_privacy private_details true) doctor no_projection)
    (sample_result (sample_privacy private_details true) doctor no_projection)); vm_compute; reflexivity.
Defined.

Lemma evaluation_well_formed_witness :
  NoDup (reason_codes (sample_result (sample_privacy private_details true) doctor drifted_projection)).
Proof.
  refine (proj1 (evaluation_well_formed
    (sample_input (sample_privacy private_details true) doctor drifted_projection)
    (sample_result (sample_privacy private_details true) doctor drifted_projection) _)).
  vm_compute. reflexivity.
Defined.

Lemma evaluatePolicy_total_witness :
  ∃ r, evaluatePolicy (sample_input (sample_privacy private_details true) doctor drifted_projection) = Ok r.
Proof.
  apply (evaluatePolicy_total (sample_input (sample_privacy private_details true) doctor drifted_projection)).
  - intros t [= <-]. eexists. split; [reflexivity|]. split; eexists; vm_compute; reflexivity.
  - split; eexists; vm_compute; reflexivity.
  - unfold safe_generation. vm_compute. discriminate.
  - intros o [= <-]. unfold safe_generation. vm_compute. discriminate.
Defined.
