(* ===== verification/PlanningDrafts.v ===== *)
(** * Planning drafts

    [server/src/planning/types.ts] and [server/src/planning/validation.ts]: the
    two kinds of planning rule and the parser that admits one from untrusted
    JSON. *)

From S2P Require Import Prelude Canonical Types Dates Text.
From stdpp Require Import options.
Open Scope Z_scope.

(** ** Drafts *)

Record AvailabilityBoundaryDraft := {
  boundary_name : string;
  boundary_target : string;
  boundary_timezone : string;
  working_days : list Z;
  workday_start : string;
  workday_end : string;
  protect_before_work : bool;
  protect_after_work : bool;
  protect_closed_days : bool;
  boundary_title : string;
  boundary_visibility : Visibility;
  horizon_days : Z;
}.

Record SmartMeetingAttendee := {
  email : string;
  required : bool;
  attendee_calendar : option string;
}.

Inductive ConflictPolicy := suggest | auto_move | keep_with_warning.

Record SmartMeetingDraft := {
  meeting_name : string;
  meeting_target : string;
  meeting_timezone : string;
  meeting_start_date : string;
  weekdays : list Z;
  window_start : string;
  window_end : string;
  preferred_time : string;
  cadence_weeks : Z;
  occurrence_count : Z;
  minimum_duration_minutes : Z;
  maximum_duration_minutes : Z;
  start_step_minutes : Z;
  priority : Z;
  meeting_attendees : list SmartMeetingAttendee;
  availability_calendar_ids : list string;
  conflict_policy : ConflictPolicy;
  lock_before_minutes : Z;
  meeting_description : option string;
  meeting_location : option string;
  meeting_visibility : Visibility;
}.

Inductive PlanningDraft :=
| availability_boundary (draft : AvailabilityBoundaryDraft)
| smart_meeting (draft : SmartMeetingDraft).

#[export] Instance SmartMeetingAttendee_eq_dec : EqDecision SmartMeetingAttendee.
Proof. solve_decision. Defined.
#[export] Instance ConflictPolicy_eq_dec : EqDecision ConflictPolicy.
Proof. solve_decision. Defined.

(** ** Parsing *)

(** [PlanningInputError] with the code [invalid_planning_rule]: its message. *)
Inductive planning_input_error := PlanningInputError (message : string).

(** Whether [Intl.DateTimeFormat] knows a time zone: the data of the platform. *)
Class TimeZones := { known_timezone : string → bool }.

Section parse.
Context `{Unicode} `{TimeZones}.

Notation Parse := (res planning_input_error).

Definition invalid {A} (message : string) : Parse A := Throw (PlanningInputError message).

(** [value === text] for a string [text]. *)
Definition is_text (value : json) (text : string) : bool :=
  match value with JString s => (s =? text)%string | _ => false end.

(** [if (condition) throw invalid(message)]. *)
Definition refuse (condition : bool) (message : string) : Parse () :=
  if condition then invalid message else Ok ().

Definition id (value : json) (field : string) : Parse string :=
  match value with
  | JString s =>
      if (String.length s <? 1)%nat || (200 <? String.length s)%nat || string_exists is_control s
      then invalid (field +:+ " is invalid") else Ok s
  | _ => invalid (field +:+ " is invalid")
  end.

Definition text (value : json) (field : string) (max : nat) : Parse string :=
  match value with
  | JString s =>
      let result := trim (nfc s) in
      if (String.length result <? 1)%nat || (max <? String.length result)%nat
         || string_exists is_control result
      then invalid (field +:+ " is invalid") else Ok result
  | _ => invalid (field +:+ " is required")
  end.

Definition optionalText (value : json) (field : string) (max : nat) : Parse (option string) :=
  match value with
  | JUndefined | JNull | JString "" => Ok None
  | _ => result ← text value field max; Ok (Some result)
  end.

Definition integer (value : json) (field : string) (min max : Z) : Parse Z :=
  match value with
  | JNumber n =>
      match safe_integer n with
      | Some z => if (z <? min) || (max <? z) then invalid (field +:+ " is invalid") else Ok z
      | None => invalid (field +:+ " is invalid")
      end
  | _ => invalid (field +:+ " is invalid")
  end.

Definition parse_bool (value : json) (fallback : bool) : Parse bool :=
  match value with
  | JUndefined => Ok fallback
  | JBool b => Ok b
  | _ => invalid "boolean setting is invalid"
  end.

Definition parse_visibility (value : json) : Parse Visibility :=
  match value with
  | JUndefined | JString "private" => Ok private
  | JString "default" => Ok default
  | _ => invalid "visibility is invalid"
  end.

Definition conflictPolicy (value : json) : Parse ConflictPolicy :=
  match value with
  | JUndefined | JString "suggest" => Ok suggest
  | JString "auto_move" => Ok auto_move
  | JString "keep_with_warning" => Ok keep_with_warning
  | _ => invalid "conflict policy is invalid"
  end.

(** [/^(?:[01]\d|2[0-3]):[0-5]\d(?::[0-5]\d)?$/u]. *)
Definition hour_classes (s : string) : list (ascii → bool) :=
  match s with
  | String "2" _ => [one "2"; in_class 48 51]
  | _ => [in_class 48 49; is_digit]
  end.
Definition sixty : list (ascii → bool) := [one ":"; in_class 48 53; is_digit].
Definition is_clock (s : string) : bool :=
  matches (hour_classes s ++ sixty) s || matches (hour_classes s ++ sixty ++ sixty) s.

Definition clock (value : json) (field : string) : Parse string :=
  match value with
  | JString s =>
      if is_clock s then Ok (if (String.length s =? 5)%nat then s +:+ ":00" else s)
      else invalid (field +:+ " is invalid")
  | _ => invalid (field +:+ " is invalid")
  end.

(** [/^\d{4}-\d{2}-\d{2}$/u]. *)
Definition is_date_text (s : string) : bool :=
  matches ([is_digit; is_digit; is_digit; is_digit; one "-"; is_digit; is_digit; one "-";
            is_digit; is_digit]) s.

Definition localDate (value : json) : Parse string :=
  match value with
  | JString s =>
      if negb (is_date_text s) then invalid "start date is invalid"
      else match Date_parse (s +:+ "T00:00:00Z") with
           | Some time =>
               if (slice_to 10 (toISOString time) =? s)%string then Ok s
               else invalid "start date is invalid"
           | None => invalid "start date is invalid"
           end
  | _ => invalid "start date is invalid"
  end.

Definition timeZone (value : json) : Parse string :=
  match value with
  | JString s =>
      if (100 <? String.length s)%nat || negb (known_timezone s) then invalid "timezone is invalid"
      else Ok s
  | _ => invalid "timezone is invalid"
  end.

Definition parse_weekdays (value : json) (field : string) : Parse (list Z) :=
  match value with
  | JArray items =>
      if (length items <? 1)%nat || (7 <? length items)%nat then invalid (field +:+ " are invalid")
      else
        result ← traverse (λ item, integer item field 1 7) items;
        refuse (negb (bool_decide (length (new_set result) = length result))) (field +:+ " must be unique");;
        Ok (sort_by Z.leb result)
  | _ => invalid (field +:+ " are invalid")
  end.

Definition ids (value : json) (field : string) (limit : nat) : Parse (list string) :=
  match value with
  | JArray items =>
      if (limit <? length items)%nat then invalid (field +:+ " are invalid")
      else
        result ← traverse (λ item, id item field) items;
        refuse (negb (bool_decide (length (new_set result) = length result))) (field +:+ " must be unique");;
        Ok result
  | _ => invalid (field +:+ " are invalid")
  end.

(** [/^[^\s@]+@[^\s@]+\.[^\s@]+$/u]: one [@], no white space, and a dot of the
    domain with a character on each side. *)
Definition dot_inside (domain : string) : bool :=
  match domain with
  | "" => false
  | String _ rest =>
      (fix go (s : string) : bool :=
         match s with
         | "" => false
         | String c s => (Ascii.eqb c "." && negb (s =? "")%string) || go s
         end) rest
  end.

Definition is_email (s : string) : bool :=
  match split_on "@" s with
  | [local; domain] =>
      negb (local =? "")%string && negb (string_exists is_space s) && dot_inside domain
  | _ => false
  end.

Definition parseAttendee (value : json) : Parse SmartMeetingAttendee :=
  match value with
  | JObject members =>
      raw ← text (member members "email") "attendee email" 254;
      let raw := toLowerCase raw in
      refuse (negb (is_email raw)) "attendee email is invalid";;
      calendar ← match member members "availability_calendar_id" with
                 | JUndefined => Ok None
                 | v => calendar ← id v "attendee availability calendar"; Ok (Some calendar)
                 end;
      required ← parse_bool (member members "required") true;
      Ok {| email := raw; required := required; attendee_calendar := calendar |}
  | _ => invalid "attendee must be an object"
  end.

(** [value ?? fallback] on a member. *)
Definition or_default (value fallback : json) : json :=
  match value with JUndefined | JNull => fallback | v => v end.

Definition parseBoundary (value : list (string * json)) : Parse AvailabilityBoundaryDraft :=
  let field := member value in
  name ← text (field "name") "name" 160;
  target ← id (field "target_calendar_id") "target calendar";
  timezone ← timeZone (field "timezone");
  workingDays ← parse_weekdays (field "working_days") "working days";
  workdayStart ← clock (field "workday_start") "workday start";
  workdayEnd ← clock (field "workday_end") "workday end";
  refuse (negb (workdayStart <? workdayEnd)%string) "workday end must be after workday start";;
  horizon ← integer (field "horizon_days") "horizon days" 1 60;
  before ← parse_bool (field "protect_before_work") false;
  after ← parse_bool (field "protect_after_work") true;
  closed_days ← parse_bool (field "protect_closed_days") false;
  title ← text (or_default (field "title") (JString "Personal time")) "title" 160;
  visibility ← parse_visibility (field "visibility");
  Ok {| boundary_name := name; boundary_target := target; boundary_timezone := timezone;
        working_days := workingDays; workday_start := workdayStart; workday_end := workdayEnd;
        protect_before_work := before; protect_after_work := after; protect_closed_days := closed_days;
        boundary_title := title; boundary_visibility := visibility; horizon_days := horizon |}.

Definition parse_attendees (value : json) : Parse (list SmartMeetingAttendee) :=
  match or_default value (JArray []) with
  | JArray items =>
      if (25 <? length items)%nat then invalid "attendees are invalid"
      else
        attendees ← traverse parseAttendee items;
        let emails := map email attendees in
        refuse (negb (bool_decide (length (new_set emails) = length emails))) "attendees must be unique";;
        Ok attendees
  | _ => invalid "attendees are invalid"
  end.

(** A calendar of an attendee that is not selected for availability. *)
Definition unselected_calendar (selected : list string) (attendee : SmartMeetingAttendee) : bool :=
  match attendee_calendar attendee with
  | Some calendar => negb (includes selected calendar)
  | None => false
  end.

Definition parseSmartMeeting (value : list (string * json)) : Parse SmartMeetingDraft :=
  let field := member value in
  minimum ← integer (field "minimum_duration_minutes") "minimum duration" 15 480;
  maximum ← integer (field "maximum_duration_minutes") "maximum duration" minimum 480;
  step ← integer (field "start_step_minutes") "start step" 15 60;
  refuse (negb (includes [15; 30; 60] step)) "start step must be 15, 30, or 60 minutes";;
  windowStart ← clock (field "window_start") "meeting window start";
  windowEnd ← clock (field "window_end") "meeting window end";
  refuse (negb (windowStart <? windowEnd)%string) "meeting window end must be after its start";;
  preferred ← clock (field "preferred_time") "preferred time";
  refuse ((preferred <? windowStart)%string || negb (preferred <? windowEnd)%string)
    "preferred time must be inside the meeting window";;
  attendees ← parse_attendees (field "attendees");
  availabilityCalendars ← ids (field "availability_calendar_ids") "availability calendars" 32;
  refuse (length availabilityCalendars =? 0)%nat "at least one availability calendar is required";;
  refuse (existsb (unselected_calendar availabilityCalendars) attendees)
    "attendee availability calendars must also be selected for availability";;
  name ← text (field "name") "name" 160;
  target ← id (field "target_calendar_id") "target calendar";
  timezone ← timeZone (field "timezone");
  start_date ← localDate (field "start_date");
  days ← parse_weekdays (field "weekdays") "meeting days";
  cadence ← integer (field "cadence_weeks") "cadence" 1 12;
  count ← integer (field "occurrence_count") "occurrence count" 1 16;
  priority ← integer (field "priority") "priority" 1 4;
  policy ← conflictPolicy (field "conflict_policy");
  lock ← integer (field "lock_before_minutes") "lock window" 0 10080;
  description ← optionalText (field "description") "description" 4000;
  location ← optionalText (field "location") "location" 500;
  visibility ← parse_visibility (field "visibility");
  Ok {| meeting_name := name; meeting_target := target; meeting_timezone := timezone;
        meeting_start_date := start_date; weekdays := days; window_start := windowStart;
        window_end := windowEnd; preferred_time := preferred; cadence_weeks := cadence;
        occurrence_count := count; minimum_duration_minutes := minimum;
        maximum_duration_minutes := maximum; start_step_minutes := step; priority := priority;
        meeting_attendees := attendees; availability_calendar_ids := availabilityCalendars;
        conflict_policy := policy; lock_before_minutes := lock; meeting_description := description;
        meeting_location := location; meeting_visibility := visibility |}.

Definition parsePlanningDraft (value : json) : Parse PlanningDraft :=
  match value with
  | JObject members =>
      if is_text (member members "kind") "availability_boundary"
      then availability_boundary <$> parseBoundary members
      else if is_text (member members "kind") "smart_meeting"
      then smart_meeting <$> parseSmartMeeting members
      else invalid "planning rule kind is unsupported"
  | _ => invalid "planning rule must be an object"
  end.
End parse.

(** ** Valid drafts *)

(** JavaScript's safe integers hold every number of a draft. *)
Lemma safe_integer_small z : 0 <= z <= 1000000 → safe_integer (Finite z 0) = Some z.
Proof.
  intros Hz. unfold safe_integer. cbn. rewrite Z.mul_1_r.
  unfold MAX_SAFE_INTEGER. rewrite (proj2 (Z.leb_le _ _)); [done|]. lia.
Qed.

Section valid.
Context `{Unicode} `{TimeZones}.

Definition valid_id (s : string) : Prop :=
  (1 <= String.length s <= 200)%nat ∧ string_exists is_control s = false.

Definition valid_text (max : nat) (s : string) : Prop :=
  trim (nfc s) = s ∧ (1 <= String.length s <= max)%nat ∧ string_exists is_control s = false.

Definition valid_clock (s : string) : Prop := is_clock s = true ∧ String.length s = 8%nat.

Definition valid_date (s : string) : Prop := ∃ days, four_digit_day days ∧ s = iso_date days.

Definition valid_zone (s : string) : Prop := (String.length s <= 100)%nat ∧ known_timezone s = true.

Definition valid_weekdays (days : list Z) : Prop :=
  (1 <= length days <= 7)%nat ∧ Forall (λ d, 1 <= d <= 7) days ∧ NoDup days ∧
  StronglySorted (λ x y, Z.leb x y = true) days.

Definition valid_attendee (a : SmartMeetingAttendee) : Prop :=
  valid_text 254 (email a) ∧ toLowerCase (email a) = email a ∧ is_email (email a) = true ∧
  match attendee_calendar a with Some calendar => valid_id calendar | None => True end.

Definition valid_boundary (d : AvailabilityBoundaryDraft) : Prop :=
  valid_text 160 (boundary_name d) ∧ valid_id (boundary_target d) ∧ valid_zone (boundary_timezone d) ∧
  valid_weekdays (working_days d) ∧ valid_clock (workday_start d) ∧ valid_clock (workday_end d) ∧
  (workday_start d <? workday_end d)%string = true ∧ 1 <= horizon_days d <= 60 ∧
  valid_text 160 (boundary_title d).

Definition valid_meeting (d : SmartMeetingDraft) : Prop :=
  (15 <= minimum_duration_minutes d <= maximum_duration_minutes d ∧
   maximum_duration_minutes d <= 480 ∧ start_step_minutes d ∈ [15; 30; 60]) ∧
  (valid_clock (window_start d) ∧ valid_clock (window_end d) ∧ valid_clock (preferred_time d) ∧
   (window_start d <? window_end d)%string = true ∧
   (preferred_time d <? window_start d)%string = false ∧
   (preferred_time d <? window_end d)%string = true) ∧
  ((length (meeting_attendees d) <= 25)%nat ∧ Forall valid_attendee (meeting_attendees d) ∧
   NoDup (map email (meeting_attendees d))) ∧
  ((1 <= length (availability_calendar_ids d) <= 32)%nat ∧ Forall valid_id (availability_calendar_ids d) ∧
   NoDup (availability_calendar_ids d) ∧
   Forall (λ a, ∀ c, attendee_calendar a = Some c → c ∈ availability_calendar_ids d) (meeting_attendees d)) ∧
  valid_text 160 (meeting_name d) ∧ valid_id (meeting_target d) ∧ valid_zone (meeting_timezone d) ∧
  valid_date (meeting_start_date d) ∧ valid_weekdays (weekdays d) ∧
  1 <= cadence_weeks d <= 12 ∧ 1 <= occurrence_count d <= 16 ∧ 1 <= priority d <= 4 ∧
  0 <= lock_before_minutes d <= 10080 ∧
  (∀ s, meeting_description d = Some s → valid_text 4000 s) ∧
  (∀ s, meeting_location d = Some s → valid_text 500 s).

Definition valid_draft (d : PlanningDraft) : Prop :=
  match d with availability_boundary d => valid_boundary d | smart_meeting d => valid_meeting d end.

(** *** Fields *)

Lemma refuse_Ok c m u : refuse c m = Ok u ↔ c = false.
Proof. unfold refuse, invalid. destruct c, u; naive_solver. Qed.

Lemma id_Ok v f s : id v f = Ok s ↔ v = JString s ∧ valid_id s.
Proof.
  unfold id, invalid, valid_id. destruct v as [| | | |t| |]; try (split; [done|naive_solver]; fail). split.
  - destruct (Nat.ltb_spec (String.length t) 1), (Nat.ltb_spec 200 (String.length t)),
      (string_exists is_control t) eqn:Hc; cbn [orb]; try done. intros [= <-]. split; [done|].
    split; [lia|done].
  - intros [[= ->] [Hl ->]]. rewrite (proj2 (Nat.ltb_ge _ _)) by lia.
    by rewrite (proj2 (Nat.ltb_ge _ _)) by lia.
Qed.

Context `{!UnicodeLaws _}.

Lemma text_Ok v f max s :
  text v f max = Ok s → valid_text max s.
Proof using All.
  unfold text, invalid, valid_text. destruct v as [| | | |t| |]; try done.
  destruct (Nat.ltb_spec (String.length (trim (nfc t))) 1),
    (Nat.ltb_spec max (String.length (trim (nfc t)))),
    (string_exists is_control (trim (nfc t))) eqn:Hc; cbn [orb]; try done. intros [= <-].
  split; [|split; [lia|done]]. by rewrite nfc_trim, trim_idempotent.
Qed.

Lemma text_json f max s : valid_text max s → text (JString s) f max = Ok s.
Proof.
  intros (Ht & Hl & Hc). unfold text. rewrite Ht, Hc.
  rewrite (proj2 (Nat.ltb_ge _ _)) by lia. by rewrite (proj2 (Nat.ltb_ge _ _)) by lia.
Qed.

Lemma optionalText_Ok v f max s : optionalText v f max = Ok (Some s) → valid_text max s.
Proof using All.
  unfold optionalText. destruct v as [| | | |[|c t]| |]; try done;
    intros (r & Hr%text_Ok & [= <-])%bind_Ok_inv; done.
Qed.

Definition optional_json (s : option string) : json :=
  match s with Some s => JString s | None => JUndefined end.

Lemma optionalText_json f max s :
  (∀ t, s = Some t → valid_text max t) → optionalText (optional_json s) f max = Ok s.
Proof.
  intros Hs. destruct s as [t|]; [|done]. specialize (Hs t eq_refl). cbn [optional_json].
  pose proof Hs as (_ & Hl & _). destruct t as [|c t]; [cbn in Hl; lia|].
  cbn [optionalText]. by rewrite text_json.
Qed.

Lemma integer_Ok v f lo hi z : integer v f lo hi = Ok z → lo <= z <= hi.
Proof.
  unfold integer, invalid. destruct v as [| | |n| | |]; try done. destruct (safe_integer n) as [y|]; [|done].
  destruct (Z.ltb_spec y lo), (Z.ltb_spec hi y); cbn [orb]; try done. intros [= <-]. lia.
Qed.

Lemma integer_json f lo hi z : lo <= z <= hi → 0 <= z <= 1000000 → integer (int z) f lo hi = Ok z.
Proof.
  intros Hz Hs. unfold integer, int. rewrite safe_integer_small by done.
  rewrite (proj2 (Z.ltb_ge _ _)) by lia. by rewrite (proj2 (Z.ltb_ge _ _)) by lia.
Qed.

Lemma is_clock_length s : is_clock s = true → String.length s = 5%nat ∨ String.length s = 8%nat.
Proof.
  unfold is_clock. rewrite orb_true_iff.
  assert (length (hour_classes s) = 2%nat) as Hh.
  { unfold hour_classes. destruct s as [|[[] [] [] [] [] [] [] []] ?]; done. }
  intros [Hm%matches_length|Hm%matches_length]; rewrite Hm, !length_app, Hh; auto.
Qed.

Lemma clock_Ok v f s : clock v f = Ok s → valid_clock s.
Proof.
  unfold clock, invalid, valid_clock. destruct v as [| | | |t| |]; try done.
  destruct (is_clock t) eqn:Hc; [|done]. destruct (Nat.eqb_spec (String.length t) 5) as [Hl|Hl];
    intros [= <-].
  - split; [|by rewrite string_length_app, Hl]. unfold is_clock in *. rewrite orb_true_iff in Hc |- *.
    right. assert (hour_classes (t +:+ ":00") = hour_classes t) as -> by (by destruct t).
    rewrite app_assoc. apply matches_app; [|done]. destruct Hc as [|Hm]; [done|].
    apply matches_length in Hm. rewrite !length_app in Hm. rewrite Hl in Hm. cbn in Hm. lia.
  - split; [done|]. destruct (is_clock_length _ Hc); done.
Qed.

Lemma clock_json f s : valid_clock s → clock (JString s) f = Ok s.
Proof. intros [Hc Hl]. unfold clock. by rewrite Hc, Hl. Qed.

Lemma timeZone_Ok v s : timeZone v = Ok s ↔ v = JString s ∧ valid_zone s.
Proof.
  unfold timeZone, invalid, valid_zone. destruct v as [| | | |t| |]; try (split; [done|naive_solver]; fail). split.
  - destruct (Nat.ltb_spec 100 (String.length t)), (known_timezone t) eqn:Hk; cbn [orb negb]; try done.
    intros [= <-]. split; [done|]. split; [lia|done].
  - intros [[= ->] [Hl ->]]. by rewrite (proj2 (Nat.ltb_ge _ _)) by lia.
Qed.

Lemma is_date_text_head s : is_date_text s = true → ∃ c rest, s = String c rest ∧ is_digit c = true.
Proof. destruct s as [|c rest]; [done|]. cbn. intros [Hc _]%andb_true_iff. eauto. Qed.

Lemma pad_digits w n : 0 <= n → string_forall is_digit (pad w n) = true.
Proof.
  revert n. induction w as [|w IH]; intros n Hn; [done|]. cbn [pad].
  rewrite string_forall_app, IH by (by apply Z.div_pos). cbn [string_forall andb].
  rewrite andb_true_r. assert (0 <= n mod 10 < 10) as Hd by (by apply Z.mod_pos_bound).
  apply digit_cases in Hd. by destruct_or! Hd; rewrite Hd.
Qed.

Lemma matches_pad w n : 0 <= n → matches (replicate w is_digit) (pad w n) = true.
Proof.
  intros Hn. pose proof (pad_digits w n Hn) as Hd. pose proof (pad_length w n) as Hl.
  revert Hd Hl. generalize (pad w n) as s. induction w as [|w IH]; intros [|c s]; cbn; try done.
  intros [-> Hs]%andb_true_iff [= Hl]. by apply IH.
Qed.

Lemma is_date_text_iso_date days : four_digit_day days → is_date_text (iso_date days) = true.
Proof.
  intros Hd. destruct (iso_date_fields days Hd) as (Hy & Hm & Hday & Heq).
  specialize (Heq ""). rewrite string_app_nil_r in Heq. rewrite Heq. unfold is_date_text.
  apply (matches_app (replicate 4 is_digit)); [apply matches_pad; lia|].
  apply (matches_app [one "-"] _ "-"); [done|].
  apply (matches_app (replicate 2 is_digit)); [apply matches_pad; lia|].
  apply (matches_app [one "-"] _ "-"); [done|].
  apply (matches_app (replicate 2 is_digit) []); [apply matches_pad; lia|done].
Qed.

Lemma localDate_Ok v s : localDate v = Ok s → valid_date s.
Proof.
  unfold localDate, invalid, valid_date, slice_to. destruct v as [| | | |t| |]; try done.
  destruct (is_date_text t) eqn:Hm; cbn [negb]; [|done].
  destruct (Date_parse _) as [time|]; [|done].
  destruct (String.eqb_spec (String.substring 0 10 (toISOString time)) t) as [Heq|]; [|done].
  intros [= <-]. destruct (is_date_text_head _ Hm) as (c & rest & -> & Hc).
  assert (four_digit_instant time) as Hft.
  { destruct (toISOString time) as [|d u] eqn:Ht; [done|]. cbn in Heq. injection Heq as -> _.
    by eapply four_digit_of_text. }
  exists (time / MILLISECONDS_PER_DAY). split; [done|]. rewrite <- Heq. by apply date_of_toISOString.
Qed.

Lemma localDate_json s : valid_date s → localDate (JString s) = Ok s.
Proof.
  intros (days & Hd & ->). unfold localDate. rewrite is_date_text_iso_date by done. cbn [negb].
  rewrite Date_parse_midnight by done.
  assert (days * MILLISECONDS_PER_DAY / MILLISECONDS_PER_DAY = days) as Hdiv by (by apply Z.div_mul).
  unfold slice_to. rewrite date_of_toISOString by (unfold four_digit_instant; by rewrite Hdiv).
  by rewrite Hdiv, String.eqb_refl.
Qed.

(** *** Lists *)

Lemma distinct_test {A} `{EqDecision A} (xs : list A) m u :
  refuse (negb (bool_decide (length (new_set xs) = length xs))) m = Ok u ↔ NoDup xs.
Proof. rewrite refuse_Ok, negb_false_iff, bool_decide_eq_true. apply new_set_length_NoDup. Qed.

Lemma refuse_json c m : c = false → refuse c m = Ok ().
Proof. by intros ->. Qed.

Lemma distinct_json {A} `{EqDecision A} (xs : list A) m :
  NoDup xs → refuse (negb (bool_decide (length (new_set xs) = length xs))) m = Ok ().
Proof. by rewrite distinct_test. Qed.

Lemma parse_weekdays_Ok v f days : parse_weekdays v f = Ok days → valid_weekdays days.
Proof.
  unfold parse_weekdays, invalid. destruct v as [| | | | |items|]; try done.
  destruct (Nat.ltb_spec (length items) 1), (Nat.ltb_spec 7 (length items)); cbn [orb]; try done.
  intros (result & Hr & Hrest)%bind_Ok_inv.
  apply bind_Ok_inv in Hrest as (u & Hnd%distinct_test & [= <-]).
  pose proof (traverse_length _ _ _ Hr) as Hlen. apply traverse_Ok in Hr.
  split; [|split; [|split]].
  - rewrite length_sort_by. lia.
  - apply Forall_forall. intros d. rewrite elem_of_sort_by. intros [k Hk]%list_elem_of_lookup.
    destruct (Forall2_lookup_r _ _ _ _ _ Hr Hk) as (item & _ & Hi). by apply integer_Ok in Hi.
  - by rewrite (sort_by_perm Z.leb).
  - apply sort_by_sorted; [intros x y; destruct (Z.leb_spec x y); [by left|right; apply Z.leb_le; lia]|].
    intros x y z. rewrite !Z.leb_le. lia.
Qed.

Lemma traverse_json {A B E} (f : B → res E A) (g : A → B) xs :
  Forall (λ x, f (g x) = Ok x) xs → traverse f (map g xs) = Ok xs.
Proof. induction 1 as [|x xs Hx _ IH]; cbn; [done|]. by rewrite Hx, IH. Qed.

Lemma parse_weekdays_json f days :
  valid_weekdays days → parse_weekdays (JArray (map int days)) f = Ok days.
Proof.
  intros (Hl & Hd & Hnd & Hs). unfold parse_weekdays. rewrite length_map.
  rewrite (proj2 (Nat.ltb_ge _ _)) by lia. rewrite (proj2 (Nat.ltb_ge _ _)) by lia. cbn [orb].
  rewrite traverse_json.
  - cbn [mbind res_bind]. rewrite distinct_json by done. cbn [mbind res_bind]. by rewrite sort_by_id.
  - eapply Forall_impl; [exact Hd|]. intros d Hd'. cbn in Hd'. apply integer_json; lia.
Qed.

Lemma ids_Ok v f limit xs :
  ids v f limit = Ok xs → (length xs <= limit)%nat ∧ Forall valid_id xs ∧ NoDup xs.
Proof.
  unfold ids, invalid. destruct v as [| | | | |items|]; try done.
  destruct (Nat.ltb_spec limit (length items)); [done|].
  intros (result & Hr & Hrest)%bind_Ok_inv.
  apply bind_Ok_inv in Hrest as (u & Hnd%distinct_test & [= <-]).
  pose proof (traverse_length _ _ _ Hr) as Hlen. apply traverse_Ok in Hr.
  split; [lia|]. split; [|done]. apply Forall_forall. intros s [k Hk]%list_elem_of_lookup.
  destruct (Forall2_lookup_r _ _ _ _ _ Hr Hk) as (item & _ & Hi). by apply id_Ok in Hi as [_ ?].
Qed.

Lemma ids_json f limit xs :
  (length xs <= limit)%nat → Forall valid_id xs → NoDup xs → ids (JArray (map JString xs)) f limit = Ok xs.
Proof.
  intros Hl Hx Hnd. unfold ids. rewrite length_map. rewrite (proj2 (Nat.ltb_ge _ _)) by lia.
  rewrite traverse_json.
  - cbn [mbind res_bind]. by rewrite distinct_json.
  - eapply Forall_impl; [exact Hx|]. intros s Hs. by apply id_Ok.
Qed.

(** *** Attendees *)

(** An address has no white space. *)
Lemma is_email_no_space s : is_email s = true → string_exists is_space s = false.
Proof.
  unfold is_email. destruct (split_on "@" s) as [|local [|domain [|]]]; try done.
  rewrite !andb_true_iff, !negb_true_iff. tauto.
Qed.

Lemma parseAttendee_Ok v a : parseAttendee v = Ok a → valid_attendee a.
Proof using All.
  unfold parseAttendee, invalid. destruct v as [| | | | | |members]; try done.
  intros (raw & Hraw%text_Ok & Hr)%bind_Ok_inv. destruct Hraw as (Ht & Hl & Hc).
  apply bind_Ok_inv in Hr as (u & He%refuse_Ok & Hr). apply negb_false_iff in He.
  apply bind_Ok_inv in Hr as (calendar & Hcal & Hr).
  apply bind_Ok_inv in Hr as (required & _ & [= <-]). unfold valid_attendee. cbn [email attendee_calendar].
  split; [split; [|split]|split; [|split]].
  - assert (nfc raw = raw) as Hn.
    { rewrite <- Ht at 2. by rewrite <- (nfc_trim raw), Ht. }
    rewrite <- Hn at 1. rewrite nfc_lower, Hn. apply trim_without_space. by apply is_email_no_space.
  - unfold toLowerCase. by rewrite string_map_length.
  - unfold toLowerCase. rewrite string_exists_map. rewrite <- Hc. apply string_exists_ext, is_control_lower.
  - apply toLowerCase_idempotent.
  - done.
  - destruct (member members "availability_calendar_id"); try (by injection Hcal as <-);
      apply bind_Ok_inv in Hcal as (c & Hid%id_Ok & [= <-]); naive_solver.
Qed.

Definition attendee_json (a : SmartMeetingAttendee) : json :=
  JObject [("email", JString (email a)); ("required", JBool (required a));
           ("availability_calendar_id", optional_json (attendee_calendar a))].

Lemma parseAttendee_json a : valid_attendee a → parseAttendee (attendee_json a) = Ok a.
Proof.
  intros (Ht & Hlow & He & Hc). unfold parseAttendee, attendee_json.
  cbn [member find String.eqb Ascii.eqb Bool.eqb].
  rewrite text_json by done. cbn [mbind res_bind]. rewrite Hlow, He. cbn [negb refuse mbind res_bind].
  destruct a as [e r c]. cbn [attendee_calendar email required] in *.
  destruct c as [c|]; cbn [optional_json mbind res_bind parse_bool]; [|done].
  assert (id (JString c) "attendee availability calendar" = Ok c) as -> by (by apply id_Ok). done.
Qed.

Lemma parse_attendees_Ok v xs :
  parse_attendees v = Ok xs → (length xs <= 25)%nat ∧ Forall valid_attendee xs ∧ NoDup (map email xs).
Proof using All.
  unfold parse_attendees, invalid. destruct (or_default v (JArray [])) as [| | | | |items|]; try done.
  destruct (Nat.ltb_spec 25 (length items)); [done|].
  intros (result & Hr & Hrest)%bind_Ok_inv.
  apply bind_Ok_inv in Hrest as (u & Hnd%distinct_test & [= <-]).
  pose proof (traverse_length _ _ _ Hr) as Hlen. apply traverse_Ok in Hr.
  split; [lia|]. split; [|done]. apply Forall_forall. intros a [k Hk]%list_elem_of_lookup.
  destruct (Forall2_lookup_r _ _ _ _ _ Hr Hk) as (item & _ & Hi). by eapply parseAttendee_Ok.
Qed.

Lemma parse_attendees_json xs :
  (length xs <= 25)%nat → Forall valid_attendee xs → NoDup (map email xs) →
  parse_attendees (JArray (map attendee_json xs)) = Ok xs.
Proof.
  intros Hl Hx Hnd. unfold parse_attendees. cbn [or_default]. rewrite length_map.
  rewrite (proj2 (Nat.ltb_ge _ _)) by lia. rewrite traverse_json.
  - cbn [mbind res_bind]. by rewrite distinct_json.
  - eapply Forall_impl; [exact Hx|]. apply parseAttendee_json.
Qed.

(** *** Drafts *)

Definition visibility_json (v : Visibility) : json :=
  JString (match v with private => "private" | default => "default" end).
Definition policy_json (p : ConflictPolicy) : json :=
  JString (match p with suggest => "suggest" | auto_move => "auto_move"
           | keep_with_warning => "keep_with_warning" end).

(** The JSON document of a draft. *)
Definition draft_json (d : PlanningDraft) : json :=
  match d with
  | availability_boundary d => JObject [
      ("kind", JString "availability_boundary"); ("name", JString (boundary_name d));
      ("target_calendar_id", JString (boundary_target d)); ("timezone", JString (boundary_timezone d));
      ("working_days", JArray (map int (working_days d)));
      ("workday_start", JString (workday_start d)); ("workday_end", JString (workday_end d));
      ("protect_before_work", JBool (protect_before_work d));
      ("protect_after_work", JBool (protect_after_work d));
      ("protect_closed_days", JBool (protect_closed_days d)); ("title", JString (boundary_title d));
      ("visibility", visibility_json (boundary_visibility d)); ("horizon_days", int (horizon_days d))]
  | smart_meeting d => JObject [
      ("kind", JString "smart_meeting"); ("name", JString (meeting_name d));
      ("target_calendar_id", JString (meeting_target d)); ("timezone", JString (meeting_timezone d));
      ("start_date", JString (meeting_start_date d)); ("weekdays", JArray (map int (weekdays d)));
      ("window_start", JString (window_start d)); ("window_end", JString (window_end d));
      ("preferred_time", JString (preferred_time d)); ("cadence_weeks", int (cadence_weeks d));
      ("occurrence_count", int (occurrence_count d));
      ("minimum_duration_minutes", int (minimum_duration_minutes d));
      ("maximum_duration_minutes", int (maximum_duration_minutes d));
      ("start_step_minutes", int (start_step_minutes d)); ("priority", int (priority d));
      ("attendees", JArray (map attendee_json (meeting_attendees d)));
      ("availability_calendar_ids", JArray (map JString (availability_calendar_ids d)));
      ("conflict_policy", policy_json (conflict_policy d));
      ("lock_before_minutes", int (lock_before_minutes d));
      ("description", optional_json (meeting_description d));
      ("location", optional_json (meeting_location d));
      ("visibility", visibility_json (meeting_visibility d))]
  end.

Lemma parse_visibility_json v : parse_visibility (visibility_json v) = Ok v.
Proof. by destruct v. Qed.

Lemma conflictPolicy_json p : conflictPolicy (policy_json p) = Ok p.
Proof. by destruct p. Qed.

Lemma parseBoundary_Ok value d : parseBoundary value = Ok d → valid_boundary d.
Proof using All.
  unfold parseBoundary. cbn zeta.
  intros (name & Hname%text_Ok & H1)%bind_Ok_inv.
  apply bind_Ok_inv in H1 as (target & [_ Htarget]%id_Ok & H1).
  apply bind_Ok_inv in H1 as (timezone & [_ Hzone]%timeZone_Ok & H1).
  apply bind_Ok_inv in H1 as (days & Hdays%parse_weekdays_Ok & H1).
  apply bind_Ok_inv in H1 as (ws & Hws%clock_Ok & H1).
  apply bind_Ok_inv in H1 as (we & Hwe%clock_Ok & H1).
  apply bind_Ok_inv in H1 as (u & Hlt%refuse_Ok & H1). apply negb_false_iff in Hlt.
  apply bind_Ok_inv in H1 as (horizon & Hh%integer_Ok & H1).
  apply bind_Ok_inv in H1 as (b1 & _ & H1). apply bind_Ok_inv in H1 as (b2 & _ & H1).
  apply bind_Ok_inv in H1 as (b3 & _ & H1).
  apply bind_Ok_inv in H1 as (title & Htitle%text_Ok & H1).
  apply bind_Ok_inv in H1 as (v & _ & [= <-]). unfold valid_boundary.
  cbn [boundary_name boundary_target boundary_timezone working_days workday_start workday_end
    horizon_days boundary_title]. do 7 (split; [done|]). split; [lia|done].
Qed.

Lemma unselected_calendar_false selected xs :
  existsb (unselected_calendar selected) xs = false →
  Forall (λ a, ∀ c, attendee_calendar a = Some c → c ∈ selected) xs.
Proof.
  induction xs as [|a xs IH]; cbn; [constructor|]. intros [Ha Hxs]%orb_false_iff.
  constructor; [|by apply IH]. intros c Hc. unfold unselected_calendar in Ha. rewrite Hc in Ha.
  by apply negb_false_iff, includes_spec in Ha.
Qed.

Lemma parseSmartMeeting_Ok value d : parseSmartMeeting value = Ok d → valid_meeting d.
Proof using All.
  unfold parseSmartMeeting. cbn zeta.
  intros (minimum & Hmin%integer_Ok & H1)%bind_Ok_inv.
  apply bind_Ok_inv in H1 as (maximum & Hmax%integer_Ok & H1).
  apply bind_Ok_inv in H1 as (step & _ & H1).
  apply bind_Ok_inv in H1 as (u1 & Hstep%refuse_Ok & H1). apply negb_false_iff, includes_spec in Hstep.
  apply bind_Ok_inv in H1 as (ws & Hws%clock_Ok & H1).
  apply bind_Ok_inv in H1 as (we & Hwe%clock_Ok & H1).
  apply bind_Ok_inv in H1 as (u2 & Hlt%refuse_Ok & H1). apply negb_false_iff in Hlt.
  apply bind_Ok_inv in H1 as (preferred & Hp%clock_Ok & H1).
  apply bind_Ok_inv in H1 as (u3 & Hin%refuse_Ok & H1).
  apply orb_false_iff in Hin as [Hp1 Hp2%negb_false_iff].
  apply bind_Ok_inv in H1 as (attendees & (Ha1 & Ha2 & Ha3)%parse_attendees_Ok & H1).
  apply bind_Ok_inv in H1 as (calendars & (Hc1 & Hc2 & Hc3)%ids_Ok & H1).
  apply bind_Ok_inv in H1 as (u4 & Hc4%refuse_Ok & H1). apply Nat.eqb_neq in Hc4.
  apply bind_Ok_inv in H1 as (u5 & Hc5%refuse_Ok%unselected_calendar_false & H1).
  apply bind_Ok_inv in H1 as (name & Hname%text_Ok & H1).
  apply bind_Ok_inv in H1 as (target & [_ Htarget]%id_Ok & H1).
  apply bind_Ok_inv in H1 as (timezone & [_ Hzone]%timeZone_Ok & H1).
  apply bind_Ok_inv in H1 as (date & Hdate%localDate_Ok & H1).
  apply bind_Ok_inv in H1 as (days & Hdays%parse_weekdays_Ok & H1).
  apply bind_Ok_inv in H1 as (cadence & Hcadence%integer_Ok & H1).
  apply bind_Ok_inv in H1 as (count & Hcount%integer_Ok & H1).
  apply bind_Ok_inv in H1 as (prio & Hprio%integer_Ok & H1).
  apply bind_Ok_inv in H1 as (policy & _ & H1).
  apply bind_Ok_inv in H1 as (lock & Hlock%integer_Ok & H1).
  apply bind_Ok_inv in H1 as (description & Hdesc & H1).
  apply bind_Ok_inv in H1 as (location & Hloc & H1).
  apply bind_Ok_inv in H1 as (v & _ & [= <-]). unfold valid_meeting.
  cbn [minimum_duration_minutes maximum_duration_minutes start_step_minutes window_start window_end
    preferred_time meeting_attendees availability_calendar_ids meeting_name meeting_target meeting_timezone
    meeting_start_date weekdays cadence_weeks occurrence_count priority lock_before_minutes
    meeting_description meeting_location].
  split; [split; [lia|split; [lia|done]]|]. split; [done|]. split; [done|].
  split; [split; [lia|done]|]. do 5 (split; [done|]). do 4 (split; [lia|]).
  split; intros s ->; by eapply optionalText_Ok.
Qed.

(** Whatever document is submitted, a draft that is admitted is valid: texts
    trimmed, in normal form, bounded and free of control characters, clocks
    ordered, every number inside its range, lists without duplicates, and
    attendee calendars among the selected ones. *)
Theorem parsePlanningDraft_sound value d : parsePlanningDraft value = Ok d → valid_draft d.
Proof using All.
  unfold parsePlanningDraft, invalid. destruct value as [| | | | | |members]; try done.
  destruct (is_text _ _).
  - intros Hd. destruct (parseBoundary members) eqn:Hb; [|done]. injection Hd as <-.
    by eapply parseBoundary_Ok.
  - destruct (is_text _ _); [|done].
    intros Hd. destruct (parseSmartMeeting members) eqn:Hb; [|done]. injection Hd as <-.
    by eapply parseSmartMeeting_Ok.
Qed.

Lemma id_json f s : valid_id s → id (JString s) f = Ok s.
Proof. intros Hs. by apply id_Ok. Qed.

Lemma timeZone_json s : valid_zone s → timeZone (JString s) = Ok s.
Proof. intros Hs. by apply timeZone_Ok. Qed.

Lemma unselected_calendar_json selected xs :
  Forall (λ a, ∀ c, attendee_calendar a = Some c → c ∈ selected) xs →
  existsb (unselected_calendar selected) xs = false.
Proof.
  induction 1 as [|a xs Ha _ IH]; cbn; [done|]. rewrite IH, orb_false_r. unfold unselected_calendar.
  destruct (attendee_calendar a); [|done]. apply negb_false_iff, includes_spec. auto.
Qed.

(** C8. Every valid draft can be submitted: its document is parsed back to it. *)
Theorem parsePlanningDraft_roundtrip d : valid_draft d → parsePlanningDraft (draft_json d) = Ok d.
Proof.
  destruct d as [d|d]; cbn [valid_draft draft_json]; intros Hd; unfold parsePlanningDraft.
  - destruct Hd as (H1 & H2 & H3 & H4 & H5 & H6 & H7 & H8 & H9).
    cbn [member find String.eqb Ascii.eqb Bool.eqb is_text]. unfold parseBoundary.
    cbn [member find String.eqb Ascii.eqb Bool.eqb or_default].
    rewrite text_json, id_json, timeZone_json, parse_weekdays_json, !clock_json by done.
    cbn [mbind res_bind]. rewrite H7. cbn [negb refuse]. cbn [mbind res_bind].
    rewrite integer_json by lia. cbn [mbind res_bind parse_bool].
    rewrite text_json by done. cbn [mbind res_bind]. rewrite parse_visibility_json.
    cbn [mbind res_bind fmap res_fmap]. by destruct d.
  - destruct Hd as ((H1 & H2 & H3) & (H4 & H5 & H6 & H7 & H8 & H9) & (H10 & H11 & H12)
      & (H13 & H14 & H15 & H16) & H17 & H18 & H19 & H20 & H21 & H22 & H23 & H24 & H25 & H26 & H27).
    assert (15 <= start_step_minutes d <= 60) as Hstep by (clear -H3; set_solver by lia).
    cbn [member find String.eqb Ascii.eqb Bool.eqb is_text]. unfold parseSmartMeeting.
    cbn [member find String.eqb Ascii.eqb Bool.eqb].
    rewrite (integer_json "minimum duration") by lia. cbn [mbind res_bind].
    rewrite !integer_json by lia. cbn [mbind res_bind].
    rewrite refuse_json by (by apply negb_false_iff, includes_spec). cbn [mbind res_bind].
    rewrite !clock_json by done. cbn [mbind res_bind].
    rewrite H7. cbn [negb refuse]. cbn [mbind res_bind].
    rewrite H8, H9. cbn [negb orb refuse]. cbn [mbind res_bind].
    rewrite parse_attendees_json by done. cbn [mbind res_bind].
    rewrite ids_json by first [done | lia]. cbn [mbind res_bind].
    rewrite (refuse_json (_ =? 0)%nat) by (apply Nat.eqb_neq; lia). cbn [mbind res_bind].
    rewrite refuse_json by (by apply unselected_calendar_json). cbn [mbind res_bind].
    rewrite text_json, id_json, timeZone_json, localDate_json, parse_weekdays_json by done.
    cbn [mbind res_bind]. rewrite conflictPolicy_json. cbn [mbind res_bind].
    rewrite !optionalText_json by done. cbn [mbind res_bind]. rewrite parse_visibility_json.
    cbn [mbind res_bind fmap res_fmap]. by destruct d.
Qed.
End valid.

(** ** A concrete draft *)

(** The time zones of the calendar of [Temporal.v]. *)
#[export] Instance sample_timezones : TimeZones | 100 :=
  {| known_timezone := λ s, bool_decide (s ∈ ["UTC"; "Spring"; "Autumn"]) |}.

Definition weekly_meeting : SmartMeetingDraft := {|
  meeting_name := "Weekly"; meeting_target := "home"; meeting_timezone := "Autumn";
  meeting_start_date := "2026-10-26"; weekdays := [1; 3]; window_start := "09:00:00";
  window_end := "12:00:00"; preferred_time := "10:00:00"; cadence_weeks := 1; occurrence_count := 2;
  minimum_duration_minutes := 30; maximum_duration_minutes := 60; start_step_minutes := 30; priority := 2;
  meeting_attendees := [{| email := "a@b.org"; required := true; attendee_calendar := Some "work" |}];
  availability_calendar_ids := ["work"]; conflict_policy := suggest; lock_before_minutes := 60;
  meeting_description := None; meeting_location := Some "Room"; meeting_visibility := private |}.

Lemma weekly_meeting_valid : valid_meeting weekly_meeting.
Proof.
  apply (parseSmartMeeting_Ok (match draft_json (smart_meeting weekly_meeting) with
    | JObject members => members | _ => [] end)).
  vm_compute. reflexivity.
Qed.

Lemma parsePlanningDraft_sound_witness : valid_meeting weekly_meeting.
Proof.
  apply (parsePlanningDraft_sound (draft_json (smart_meeting weekly_meeting)) (smart_meeting weekly_meeting)).
  vm_compute. reflexivity.
Defined.

Lemma parsePlanningDraft_roundtrip_witness :
  parsePlanningDraft (draft_json (smart_meeting weekly_meeting)) = Ok (smart_meeting weekly_meeting).
Proof.
  apply (parsePlanningDraft_roundtrip (smart_meeting weekly_meeting)).
  exact weekly_meeting_valid.
Defined.
