(* ===== verification/Planning.v ===== *)
(** * The planning engine

    [server/src/planning/engine.ts]: the occurrences of an availability
    boundary, and the slots of a recurring meeting chosen among the candidates
    that no busy interval, earlier choice or lock window rules out. *)

From S2P Require Import Prelude Canonical Types Dates Temporal Hours Text PlanningDrafts.
From stdpp Require Import options.
Open Scope Z_scope.

(** What the engine uses of [Intl] and of [localeCompare]. *)
Class Intl := {
  (** [localDateAt]: the [en-CA] date of an instant in a zone. *)
  format_date : string → Z → option string;
  (** [localMinuteOfDay]: hour and minute of an instant in a zone. *)
  format_minutes : string → Z → option Z;
  (** [left.localeCompare(right)]. *)
  localeCompare : string → string → comparison;
}.

(** [localeCompare] orders the texts consistently. *)
Class IntlLaws `(Intl) : Prop := {
  localeCompare_antisym s t : localeCompare t s = CompOpp (localeCompare s t);
  localeCompare_trans s t u :
    localeCompare s t ≠ Gt → localeCompare t u ≠ Gt → localeCompare s u ≠ Gt;
}.

Inductive planning_error := PlanningRangeError | PlanningOutOfFuel.

#[export] Instance planning_error_eq_dec : EqDecision planning_error.
Proof. solve_decision. Defined.

(** ** Data *)

Record PlanningBusyInterval := { busy_calendar : string; busy_interval : InstantInterval }.

(** [ManagedPlanningEvent] without its provenance. *)
Record PlanningEvent := {
  event_interval : InstantInterval;
  event_timezone : string;
  event_summary : string;
  event_description : option string;
  event_location : option string;
  event_transparency : Transparency;
  event_visibility : Visibility;
  event_attendees : list (string * bool);
  event_send_updates : bool;
}.

Inductive Decision := schedule | unmet.

#[export] Instance Decision_eq_dec : EqDecision Decision.
Proof. solve_decision. Defined.

Record PlannedOccurrenceTemplate := {
  occurrence_key : string;
  decision : Decision;
  occurrence_reason : string;
  planned_event : option PlanningEvent;
  rejected_candidate_count : Z;
}.

(** [hours_summary] is kept as its three parts: the clocks and the zone. *)
Record PlanningResult := {
  occurrences : list PlannedOccurrenceTemplate;
  scheduled_count : nat;
  unmet_count : nat;
  planning_warnings : list string;
  hours_summary : string * string * string;
}.

Record PlanningInput := {
  draft : PlanningDraft;
  planning_now : string;
  planning_busy : list PlanningBusyInterval;
  known_availability_calendar_ids : list string;
}.

(** ** Time arithmetic *)

Definition MINUTE : Z := 60000.

(** [new Date(text).getTime()], where the code goes on to format the date. *)
Definition getTime (text : string) : res planning_error Z :=
  otherwise (Date_parse text) PlanningRangeError.

Definition overlaps (left right : InstantInterval) : bool :=
  (start left <? end_ right)%string && (start right <? end_ left)%string.

(** [Math.ceil(milliseconds / step) * step]. *)
Definition alignToStep (milliseconds stepMinutes : Z) : Z :=
  let step := stepMinutes * MINUTE in - (- milliseconds / step) * step.

(** [Number(text)] of a field of a clock, two digits. *)
Definition clock_number (s : string) : Z :=
  match take_digits (String.length s) 0 s with Some (n, _) => n | None => 0 end.

Definition clockMinutes (value : string) : Z :=
  match split_on ":" value with
  | hour :: minute :: _ => clock_number hour * 60 + clock_number minute
  | [hour] => clock_number hour * 60
  | [] => 0
  end.

(** The loop [for (x = from; x >= low; x -= step) push(x)]. *)
Fixpoint count_down (fuel : nat) (x low step : Z) : res planning_error (list Z) :=
  match fuel with
  | O => Throw PlanningOutOfFuel
  | S fuel =>
      if low <=? x then rest ← count_down fuel (x - step) low step; Ok (x :: rest) else Ok []
  end.

(** The loop [for (x = from; x <= high; x += step)]: the values of [x]. *)
Fixpoint count_up (fuel : nat) (x high step : Z) : res planning_error (list Z) :=
  match fuel with
  | O => Throw PlanningOutOfFuel
  | S fuel =>
      if x <=? high then rest ← count_up fuel (x + step) high step; Ok (x :: rest) else Ok []
  end.

(** Enough fuel for a loop over a distance in steps of at least one. *)
Definition fuel_for (distance : Z) : nat := S (S (Z.to_nat distance)).

Section engine.
Context `{Temporal} `{Intl}.

Definition localDateAt (instant timezone : string) : res planning_error string :=
  time ← getTime instant;
  otherwise (format_date timezone time) PlanningRangeError.

Definition localMinuteOfDay (instant timezone : string) : res planning_error Z :=
  time ← getTime instant;
  otherwise (format_minutes timezone time) PlanningRangeError.

Definition planningHorizonEnd (now : string) (days : Z) : res planning_error string :=
  time ← getTime now;
  Ok (toISOString (time + days * MILLISECONDS_PER_DAY)).

Definition eventTemplate (interval : InstantInterval) (timezone summary : string) (visibility : Visibility)
    (attendees : list (string * bool)) (sendUpdates : bool) (description location : option string)
    : PlanningEvent :=
  let truthy s := match s with Some "" => None | s => s end in
  {| event_interval := interval; event_timezone := timezone; event_summary := summary;
     event_description := truthy description; event_location := truthy location;
     event_transparency := opaque; event_visibility := visibility; event_attendees := attendees;
     event_send_updates := sendUpdates |}.

Definition hoursProfile (id timezone : string) (weekly : list WeeklyInterval) : HoursProfile :=
  {| profile_ref := id; profile_revision := 1; profile_timezone := timezone;
     ambiguous_resolution := earlier_offset; nonexistent_resolution := shift_forward_by_gap;
     weekly := weekly; exceptions := [] |}.

(** [materializeHours], whose fuel never ends ([materializeHours_spec]). *)
Definition materialized (profile : HoursProfile) (from until : string)
    : res planning_error HoursMaterializationResult :=
  match materializeHours {| materialized_profile := profile; start_date := from; end_date_exclusive := until |} with
  | Ok r => Ok r
  | Throw _ => Throw PlanningOutOfFuel
  end.

(** [value.slice(0, 5)] of a clock. *)
Definition clock_label (s : string) : string := slice_to 5 s.

(** ** Availability boundaries *)

(** The weekly intervals pushed for one weekday. *)
Definition boundary_day (draft : AvailabilityBoundaryDraft) (day : Z) : list WeeklyInterval :=
  if negb (includes (working_days draft) day) then
    if protect_closed_days draft
    then [{| weekday := day;
             weekly_interval := {| local_start := "00:00:00"; local_end := "00:00:00"; end_day_offset := 1 |} |}]
    else []
  else
    (if protect_before_work draft && negb (workday_start draft =? "00:00:00")%string
     then [{| weekday := day;
              weekly_interval := {| local_start := "00:00:00"; local_end := workday_start draft;
                                    end_day_offset := 0 |} |}] else []) ++
    (if protect_after_work draft && negb (workday_end draft =? "00:00:00")%string
     then [{| weekday := day;
              weekly_interval := {| local_start := workday_end draft; local_end := "00:00:00";
                                    end_day_offset := 1 |} |}] else []).

Definition boundary_weekly (draft : AvailabilityBoundaryDraft) : list WeeklyInterval :=
  flat_map (boundary_day draft) [1; 2; 3; 4; 5; 6; 7].

Definition boundary_occurrence (draft : AvailabilityBoundaryDraft) (interval : InstantInterval)
    : PlannedOccurrenceTemplate :=
  {| occurrence_key := "boundary:" +:+ start interval; decision := schedule;
     occurrence_reason := "outside_working_hours"; rejected_candidate_count := 0;
     planned_event := Some (eventTemplate interval (boundary_timezone draft) (boundary_title draft)
       (boundary_visibility draft) [] false None None) |}.

Definition planAvailabilityBoundary (draft : AvailabilityBoundaryDraft) (now : string)
    : res planning_error PlanningResult :=
  startDate ← localDateAt now (boundary_timezone draft);
  endDate ← otherwise (addLocalDays startDate (horizon_days draft)) PlanningRangeError;
  let profile := hoursProfile "availability-boundary-preview" (boundary_timezone draft) (boundary_weekly draft) in
  m ← materialized profile startDate endDate;
  let occurrences := map (boundary_occurrence draft) (materialized_intervals m) in
  Ok {| occurrences := occurrences;
        scheduled_count := length occurrences;
        unmet_count := 0;
        planning_warnings := map reason_text (materialization_diagnostics m);
        hours_summary := (clock_label (workday_start draft), clock_label (workday_end draft),
                          boundary_timezone draft) |}.

(** ** Meeting slots *)

(** A feasible slot: its interval, its score, and how many were rejected before it. *)
Record Candidate := { interval : InstantInterval; score : Z; rejectedBefore : Z }.

(** The durations to try: from the longest down by the step, then the shortest. *)
Definition durations_of (draft : SmartMeetingDraft) : res planning_error (list Z) :=
  durations ← count_down
    (fuel_for (maximum_duration_minutes draft - minimum_duration_minutes draft))
    (maximum_duration_minutes draft) (minimum_duration_minutes draft) (start_step_minutes draft);
  Ok (if includes durations (minimum_duration_minutes draft) then durations
      else durations ++ [minimum_duration_minutes draft]).

(** The starts to try in a window, [] when a bound of the window is no date. *)
Definition starts_of (draft : SmartMeetingDraft) (duration : Z) (window : InstantInterval)
    : res planning_error (list Z) :=
  match Date_parse (start window), Date_parse (end_ window) with
  | Some from, Some until =>
      let first := alignToStep from (start_step_minutes draft) in
      let last := until - duration * MINUTE in
      count_up (fuel_for (last - first)) first last (start_step_minutes draft * MINUTE)
  | _, _ => Ok []
  end.

Definition slot (cursor duration : Z) : InstantInterval :=
  {| start := toISOString cursor; end_ := toISOString (cursor + duration * MINUTE) |}.

Definition conflicts (earliestStart : string) (busy : list PlanningBusyInterval) (used : list InstantInterval)
    (candidate : InstantInterval) : bool :=
  (start candidate <? earliestStart)%string
  || existsb (λ b, overlaps candidate (busy_interval b)) busy
  || existsb (overlaps candidate) used.

Definition slot_score (draft : SmartMeetingDraft) (duration localMinutes : Z) : Z :=
  Z.abs (localMinutes - clockMinutes (preferred_time draft))
  + (maximum_duration_minutes draft - duration) * 5.

(** One turn of the innermost loop, on the candidates and the rejected count. *)
Definition try_slot (draft : SmartMeetingDraft) (earliestStart : string) (busy : list PlanningBusyInterval)
    (used : list InstantInterval) (duration : Z) (state : list Candidate * Z) (cursor : Z)
    : res planning_error (list Candidate * Z) :=
  let '(candidates, rejected) := state in
  let candidate := slot cursor duration in
  if conflicts earliestStart busy used candidate then Ok (candidates, rejected + 1)
  else
    localMinutes ← localMinuteOfDay (start candidate) (meeting_timezone draft);
    Ok (candidates ++ [{| interval := candidate;
                          score := slot_score draft duration localMinutes;
                          rejectedBefore := rejected |}], rejected).

(** A loop over a list that may throw. *)
Fixpoint foldM {A S} (f : S → A → res planning_error S) (xs : list A) (s : S) : res planning_error S :=
  match xs with [] => Ok s | x :: xs => s ← f s x; foldM f xs s end.

Definition try_window (draft : SmartMeetingDraft) (earliestStart : string) (busy : list PlanningBusyInterval)
    (used : list InstantInterval) (duration : Z) (state : list Candidate * Z) (window : InstantInterval)
    : res planning_error (list Candidate * Z) :=
  starts ← starts_of draft duration window;
  foldM (try_slot draft earliestStart busy used duration) starts state.

(** The loop over the durations, left as soon as one of them has a candidate. *)
Fixpoint try_durations (draft : SmartMeetingDraft) (earliestStart : string) (busy : list PlanningBusyInterval)
    (used : list InstantInterval) (windows : list InstantInterval) (durations : list Z)
    (state : list Candidate * Z) : res planning_error (list Candidate * Z) :=
  match durations with
  | [] => Ok state
  | duration :: durations =>
      state ← foldM (try_window draft earliestStart busy used duration) windows state;
      if (0 <? length state.1)%nat then Ok state
      else try_durations draft earliestStart busy used windows durations state
  end.

(** The comparator of the candidates. *)
Definition candidate_leb (left right : Candidate) : bool :=
  if negb (score left =? score right) then score left <? score right
  else match localeCompare (start (interval left)) (start (interval right)) with
       | Lt => true
       | Gt => false
       | Eq => match localeCompare (end_ (interval left)) (end_ (interval right)) with Gt => false | _ => true end
       end.

Definition earliest_start (draft : SmartMeetingDraft) (now : string) : res planning_error string :=
  time ← getTime now;
  Ok (toISOString (time + lock_before_minutes draft * MINUTE)).

Definition chooseMeetingSlot (draft : SmartMeetingDraft) (windows : list InstantInterval)
    (busy : list PlanningBusyInterval) (used : list InstantInterval) (now : string)
    : res planning_error (option (InstantInterval * Z)) :=
  earliestStart ← earliest_start draft now;
  durations ← durations_of draft;
  '(candidates, _) ← try_durations draft earliestStart busy used windows durations ([], 0);
  Ok (match sort_by candidate_leb candidates with
      | first :: _ => Some (interval first, rejectedBefore first)
      | [] => None
      end).

(** The candidates of one window; minutes may be fractional, and the floor of
    the quotient of milliseconds is the floor of the quotient of minutes. *)
Definition window_candidates (draft : SmartMeetingDraft) (window : InstantInterval) : Z :=
  match Date_parse (start window), Date_parse (end_ window) with
  | Some from, Some until =>
      Z.max 0 ((until - from - minimum_duration_minutes draft * MINUTE) / (start_step_minutes draft * MINUTE) + 1)
  | _, _ => 0
  end.
Definition candidateCount (draft : SmartMeetingDraft) (windows : list InstantInterval) : Z :=
  sum_by (window_candidates draft) windows.

(** ** Smart meetings *)

Definition meeting_weekly (draft : SmartMeetingDraft) : list WeeklyInterval :=
  map (λ day, {| weekday := day;
                 weekly_interval := {| local_start := window_start draft; local_end := window_end draft;
                   end_day_offset := if (window_start draft <? window_end draft)%string then 0 else 1 |} |})
    (weekdays draft).

Definition attendee_unknown (known : list string) (attendee : SmartMeetingAttendee) : bool :=
  required attendee &&
  match attendee_calendar attendee with
  | Some "" | None => true
  | Some calendar => negb (includes known calendar)
  end.

Definition initial_warnings (draft : SmartMeetingDraft) (known : list string) : list string :=
  let missing := List.filter (λ calendar, negb (includes known calendar))
                   (new_set (availability_calendar_ids draft)) in
  (if (0 <? length missing)%nat then ["availability_incomplete"] else []) ++
  (if existsb (attendee_unknown known) (meeting_attendees draft)
   then ["required_attendee_availability_unknown"] else []).

(** [if (!warnings.includes(d)) warnings.push(d)] for every diagnostic. *)
Definition add_warnings (warnings : list string) (diagnostics : list ReasonCode) : list string :=
  fold_left (λ warnings d, if includes warnings (reason_text d) then warnings
                           else warnings ++ [reason_text d]) diagnostics warnings.

(** The state of the loop over the occurrences. *)
Record MeetingState := {
  windowStart : string;
  used : list InstantInterval;
  planned : list PlannedOccurrenceTemplate;
  warnings_so_far : list string;
}.

Definition meeting_occurrence (draft : SmartMeetingDraft) (windowStart : string)
    (windows : list InstantInterval) (selected : option (InstantInterval * Z)) : PlannedOccurrenceTemplate :=
  match selected with
  | None =>
      {| occurrence_key := "week:" +:+ windowStart; decision := unmet;
         occurrence_reason := "no_mutual_time_inside_meeting_hours"; planned_event := None;
         rejected_candidate_count := candidateCount draft windows |}
  | Some (interval, rejected) =>
      {| occurrence_key := "week:" +:+ windowStart; decision := schedule;
         occurrence_reason := if 0 <? rejected then "closest_mutual_opening" else "preferred_time_available";
         rejected_candidate_count := rejected;
         planned_event := Some (eventTemplate interval (meeting_timezone draft) (meeting_name draft)
           (meeting_visibility draft) (map (λ a, (email a, negb (required a))) (meeting_attendees draft))
           (0 <? length (meeting_attendees draft))%nat (meeting_description draft) (meeting_location draft)) |}
  end.

Definition plan_occurrence (draft : SmartMeetingDraft) (input : PlanningInput) (s : MeetingState)
    : res planning_error MeetingState :=
  windowEnd ← otherwise (addLocalDays (windowStart s) (7 * cadence_weeks draft)) PlanningRangeError;
  windows ← materialized (hoursProfile "smart-meeting-preview" (meeting_timezone draft) (meeting_weekly draft))
              (windowStart s) windowEnd;
  selected ← chooseMeetingSlot draft (materialized_intervals windows) (planning_busy input) (used s)
               (planning_now input);
  Ok {| windowStart := windowEnd;
        used := used s ++ match selected with Some (interval, _) => [interval] | None => [] end;
        planned := planned s ++
          [meeting_occurrence draft (windowStart s) (materialized_intervals windows) selected];
        warnings_so_far := add_warnings (warnings_so_far s) (materialization_diagnostics windows) |}.

Fixpoint plan_occurrences (draft : SmartMeetingDraft) (input : PlanningInput) (count : nat) (s : MeetingState)
    : res planning_error MeetingState :=
  match count with
  | O => Ok s
  | S count => s ← plan_occurrence draft input s; plan_occurrences draft input count s
  end.

Definition count_decisions (d : Decision) (occurrences : list PlannedOccurrenceTemplate) : nat :=
  length (List.filter (λ o, bool_decide (decision o = d)) occurrences).

Definition initial_state (draft : SmartMeetingDraft) (input : PlanningInput) : MeetingState :=
  {| windowStart := meeting_start_date draft; used := []; planned := [];
     warnings_so_far := initial_warnings draft (known_availability_calendar_ids input) |}.

Definition planSmartMeeting (draft : SmartMeetingDraft) (input : PlanningInput)
    : res planning_error PlanningResult :=
  s ← plan_occurrences draft input (Z.to_nat (occurrence_count draft)) (initial_state draft input);
  Ok {| occurrences := planned s;
        scheduled_count := count_decisions schedule (planned s);
        unmet_count := count_decisions unmet (planned s);
        planning_warnings := warnings_so_far s;
        hours_summary := (clock_label (window_start draft), clock_label (window_end draft),
                          meeting_timezone draft) |}.

Definition planScheduling (input : PlanningInput) : res planning_error PlanningResult :=
  match draft input with
  | availability_boundary d => planAvailabilityBoundary d (planning_now input)
  | smart_meeting d => planSmartMeeting d input
  end.
End engine.

(** ** Loops *)

Lemma count_up_Ok fuel x high step xs :
  0 < step → count_up fuel x high step = Ok xs →
  ∀ c, c ∈ xs ↔ x <= c <= high ∧ (c - x) mod step = 0.
Proof.
  intros Hstep. revert x xs. induction fuel as [|fuel IH]; intros x xs; cbn [count_up]; [done|].
  destruct (Z.leb_spec x high) as [Hle|Hgt].
  - intros (rest & Hr & [= <-])%bind_Ok_inv c. rewrite elem_of_cons, (IH _ _ Hr).
    replace (c - (x + step)) with (c - x + (-1) * step) by lia. rewrite Z.mod_add by lia. split.
    + intros [->|[? ?]]; [|split; [lia|done]]. split; [lia|]. by rewrite Z.sub_diag.
    + intros [Hc Hm]. destruct (decide (c = x)) as [|Hne]; [by left|right]. split; [|done].
      split; [|lia]. assert (c - x = step * ((c - x) / step)) as Heq.
      { pose proof (Z.div_mod (c - x) step). lia. }
      assert (0 < (c - x) / step) by nia. nia.
  - intros [= <-] c. rewrite elem_of_nil. split; [done|lia].
Qed.

Lemma count_up_fuel fuel x high step :
  0 < step → (0 < fuel)%nat → high - x + 1 < Z.of_nat fuel → ∃ xs, count_up fuel x high step = Ok xs.
Proof.
  intros Hstep. revert x. induction fuel as [|fuel IH]; intros x H0 Hf; [lia|]. cbn [count_up].
  destruct (Z.leb_spec x high); [|eauto].
  destruct (IH (x + step)) as [xs ->]; [lia..|]. cbn. eauto.
Qed.

Lemma count_down_Ok fuel x low step xs :
  0 < step → count_down fuel x low step = Ok xs → Forall (λ c, low <= c <= x) xs.
Proof.
  intros Hstep. revert x xs. induction fuel as [|fuel IH]; intros x xs; cbn [count_down]; [done|].
  destruct (Z.leb_spec low x).
  - intros (rest & Hr%IH & [= <-])%bind_Ok_inv. constructor; [lia|].
    eapply Forall_impl; [exact Hr|]. cbn. lia.
  - intros [= <-]. constructor.
Qed.

Lemma count_down_fuel fuel x low step :
  0 < step → (0 < fuel)%nat → x - low + 1 < Z.of_nat fuel → ∃ xs, count_down fuel x low step = Ok xs.
Proof.
  intros Hstep. revert x. induction fuel as [|fuel IH]; intros x H0 Hf; [lia|]. cbn [count_down].
  destruct (Z.leb_spec low x); [|eauto].
  destruct (IH (x - step)) as [xs ->]; [lia..|]. cbn. eauto.
Qed.

Lemma fuel_for_enough d : (0 < fuel_for d)%nat ∧ d + 1 < Z.of_nat (fuel_for d).
Proof. unfold fuel_for. lia. Qed.

(** The aligned starts are the multiples of the step from the bound on. *)
Lemma alignToStep_spec ms step :
  0 < step →
  let s := step * MINUTE in
  ms <= alignToStep ms step ∧ alignToStep ms step mod s = 0 ∧
  (∀ c, ms <= c → c mod s = 0 → alignToStep ms step <= c).
Proof.
  intros Hstep s. unfold alignToStep. fold s. assert (0 < s) as Hs by (unfold s, MINUTE; lia).
  pose proof (Z.div_mod (- ms) s) as Hd. pose proof (Z.mod_pos_bound (- ms) s Hs) as Hm.
  split; [nia|]. split; [by rewrite Z.mod_mul by lia|].
  intros c Hc Hmod. assert (c = s * (c / s)) as Hcs by (pose proof (Z.div_mod c s); lia).
  assert (- (- ms / s) <= c / s); [|nia].
  assert (- (c / s) <= - ms / s); [|lia]. apply Z.div_le_lower_bound; nia.
Qed.

Section foldM_lemmas.
Context {A S : Type} (f : S → A → res planning_error S).

(** An invariant relating the state to the elements already visited. *)
Lemma foldM_invariant (I : list A → S → Prop) xs :
  (∀ pre x s s', I pre s → x ∈ xs → f s x = Ok s' → I (pre ++ [x]) s') →
  ∀ s s', I [] s → foldM f xs s = Ok s' → I xs s'.
Proof.
  intros Hf s s' H0 Hfold.
  enough (∀ pre ys s, xs = pre ++ ys → I pre s → foldM f ys s = Ok s' → I xs s') as Hgen
    by (by apply (Hgen [] xs s)).
  clear s H0 Hfold. intros pre ys. revert pre. induction ys as [|y ys IH]; intros pre s Hxs Hpre; cbn.
  - intros [= <-]. by rewrite Hxs, app_nil_r.
  - intros (s1 & H1 & H2)%bind_Ok_inv. apply (IH (pre ++ [y]) s1).
    + by rewrite Hxs, <- app_assoc.
    + eapply Hf; [done| |done]. rewrite Hxs. set_solver.
    + done.
Qed.

Lemma foldM_no_fuel xs s :
  (∀ s x, x ∈ xs → f s x ≠ Throw PlanningOutOfFuel) → foldM f xs s ≠ Throw PlanningOutOfFuel.
Proof.
  revert s. induction xs as [|x xs IH]; intros s Hf; cbn; [done|].
  pose proof (Hf s x ltac:(by left)) as Hx. destruct (f s x); cbn; [|congruence].
  apply IH. intros. apply Hf. by right.
Qed.
End foldM_lemmas.

(** ** Slots *)

Section slots.
Context `{Temporal} `{Intl}.

(** The specification of a slot: on the grid of the step, inside a window,
    with no conflict. *)
Definition feasible (draft : SmartMeetingDraft) (earliestStart : string) (busy : list PlanningBusyInterval)
    (used windows : list InstantInterval) (duration : Z) (iv : InstantInterval) : Prop :=
  ∃ w from until cursor,
    w ∈ windows ∧ Date_parse (start w) = Some from ∧ Date_parse (end_ w) = Some until ∧
    from <= cursor ∧ cursor + duration * MINUTE <= until ∧
    cursor mod (start_step_minutes draft * MINUTE) = 0 ∧
    iv = slot cursor duration ∧ conflicts earliestStart busy used iv = false.

Lemma starts_of_Ok draft duration window xs c :
  0 < start_step_minutes draft →
  starts_of draft duration window = Ok xs →
  c ∈ xs ↔ ∃ from until,
    Date_parse (start window) = Some from ∧ Date_parse (end_ window) = Some until ∧
    from <= c ∧ c + duration * MINUTE <= until ∧ c mod (start_step_minutes draft * MINUTE) = 0.
Proof.
  intros Hstep. unfold starts_of.
  destruct (Date_parse (start window)) as [from|], (Date_parse (end_ window)) as [until|].
  2-4: intros [= <-]; rewrite elem_of_nil; naive_solver.
  destruct (alignToStep_spec from _ Hstep) as (Hge & Hmod & Hleast).
  set (s := start_step_minutes draft * MINUTE) in *. assert (0 < s) as Hs by (unfold s, MINUTE; lia).
  intros Hx. rewrite (count_up_Ok _ _ _ _ _ Hs Hx).
  assert (∀ c, (c - alignToStep from (start_step_minutes draft)) mod s = 0 ↔ c mod s = 0) as Hsub.
  { intros k. rewrite !Z.mod_divide by lia. apply Z.mod_divide in Hmod; [|lia]. split.
    - intros Hd. rewrite <- (Z.sub_add (alignToStep from (start_step_minutes draft)) k).
      by apply Z.divide_add_r.
    - intros Hd. by apply Z.divide_sub_r. }
  rewrite Hsub. split.
  - intros [Hc Hm]. exists from, until. repeat split; try done; lia.
  - intros (from' & until' & [= <-] & [= <-] & Hc & Hu & Hm). split; [|done].
    split; [by apply Hleast|lia].
Qed.

Lemma starts_of_fuel draft duration window :
  0 < start_step_minutes draft → ∃ xs, starts_of draft duration window = Ok xs.
Proof.
  intros Hstep. unfold starts_of.
  destruct (Date_parse (start window)), (Date_parse (end_ window)); [|eauto..].
  pose proof (fuel_for_enough (z0 - duration * MINUTE - alignToStep z (start_step_minutes draft))).
  apply count_up_fuel; unfold MINUTE in *; lia.
Qed.

(** What the candidates of one duration are: the feasible slots with their scores. *)
Definition scored (draft : SmartMeetingDraft) (duration : Z) (c : Candidate) : Prop :=
  ∃ minutes, localMinuteOfDay (start (interval c)) (meeting_timezone draft) = Ok minutes ∧
    score c = slot_score draft duration minutes.

Lemma try_slots_Ok draft e busy used duration starts cands rejected cands' rejected' :
  foldM (try_slot draft e busy used duration) starts (cands, rejected) = Ok (cands', rejected') →
  ∃ new, cands' = cands ++ new ∧ Forall (scored draft duration) new ∧
    ∀ iv, (∃ c, c ∈ new ∧ interval c = iv) ↔
      ∃ cursor, cursor ∈ starts ∧ iv = slot cursor duration ∧ conflicts e busy used iv = false.
Proof.
  intros Hfold.
  apply (foldM_invariant (try_slot draft e busy used duration) (λ visited s,
    ∃ new, s.1 = cands ++ new ∧ Forall (scored draft duration) new ∧
    ∀ iv, (∃ c, c ∈ new ∧ interval c = iv) ↔
      ∃ cursor, cursor ∈ visited ∧ iv = slot cursor duration ∧ conflicts e busy used iv = false)
    starts) in Hfold.
  - destruct Hfold as (new & Hnew & Hrest). cbn in Hnew. eauto.
  - intros pre cursor [cs rej] s' (new & Hnew & Hsc & Hall) _. cbn in Hnew. subst cs. cbn [try_slot].
    destruct (conflicts e busy used (slot cursor duration)) eqn:Hc.
    + intros [= <-]. exists new. split; [done|]. split; [done|]. intros iv. rewrite Hall.
      setoid_rewrite elem_of_app. setoid_rewrite list_elem_of_singleton. split; [naive_solver|].
      intros (cursor' & [?| ->] & -> & ?); [eauto|congruence].
    + intros (m & Hm & [= <-])%bind_Ok_inv. cbn [fst].
      eexists (new ++ [_]). rewrite app_assoc. split; [done|]. split.
      * apply Forall_app_2; [done|]. constructor; [|done]. by exists m.
      * intros iv. setoid_rewrite elem_of_app. setoid_rewrite list_elem_of_singleton. split.
        -- intros (c & [Hin| ->] & Heq).
           ++ destruct (proj1 (Hall iv)) as (cursor' & ? & ?); eauto.
           ++ cbn in Heq. exists cursor. subst iv. auto.
        -- intros (cursor' & [Hin| ->] & Hiv & Hcf).
           ++ destruct (proj2 (Hall iv)) as (c & ? & ?); eauto.
           ++ eexists. split; [by right|]. done.
  - exists []. rewrite app_nil_r. split; [done|]. split; [constructor|].
    intros iv. split; [intros (c & Hc & _); by apply elem_of_nil in Hc|].
    intros (c & Hc & _). by apply elem_of_nil in Hc.
Qed.

Lemma try_windows_Ok draft e busy used duration windows cands rejected cands' rejected' :
  0 < start_step_minutes draft →
  foldM (try_window draft e busy used duration) windows (cands, rejected) = Ok (cands', rejected') →
  ∃ new, cands' = cands ++ new ∧ Forall (scored draft duration) new ∧
    ∀ iv, (∃ c, c ∈ new ∧ interval c = iv) ↔ feasible draft e busy used windows duration iv.
Proof.
  intros Hstep Hfold.
  apply (foldM_invariant (try_window draft e busy used duration) (λ visited s,
    ∃ new, s.1 = cands ++ new ∧ Forall (scored draft duration) new ∧
    ∀ iv, (∃ c, c ∈ new ∧ interval c = iv) ↔ feasible draft e busy used visited duration iv)
    windows) in Hfold.
  - destruct Hfold as (new & Hnew & Hrest). cbn in Hnew. eauto.
  - intros pre w [cs rej] [cs' rej'] (new & Hnew & Hsc & Hall) _. cbn in Hnew. subst cs.
    unfold try_window. intros (starts & Hstarts & Hslots)%bind_Ok_inv.
    apply try_slots_Ok in Hslots as (new' & -> & Hsc' & Hall').
    exists (new ++ new'). cbn [fst]. rewrite app_assoc. split; [done|].
    split; [by apply Forall_app_2|]. intros iv.
    setoid_rewrite elem_of_app. unfold feasible in *. setoid_rewrite elem_of_app.
    setoid_rewrite list_elem_of_singleton. split.
    + intros (c & [Hin|Hin] & Heq).
      * destruct (proj1 (Hall iv)) as (w' & from & until & cursor & ? & ?); [eauto|].
        exists w', from, until, cursor. auto.
      * destruct (proj1 (Hall' iv)) as (cursor & Hcur & Hiv & Hcf); [eauto|].
        apply (starts_of_Ok _ _ _ _ _ Hstep Hstarts) in Hcur as (from & until & ? & ? & ? & ? & ?).
        exists w, from, until, cursor. auto 10.
    + intros (w' & from & until & cursor & [Hin| ->] & Hf & Hu & Hge & Hle & Hm & Hiv & Hcf).
      * destruct (proj2 (Hall iv)) as (c & ? & ?); [|eauto]. exists w', from, until, cursor. auto 10.
      * destruct (proj2 (Hall' iv)) as (c & ? & ?); [|eauto]. exists cursor. split; [|done].
        apply (starts_of_Ok _ _ _ _ _ Hstep Hstarts). eauto 10.
  - exists []. rewrite app_nil_r. split; [done|]. split; [constructor|]. intros iv. split.
    + intros (c & Hc & _). by apply elem_of_nil in Hc.
    + intros (w & ? & ? & ? & Hw & _). by apply elem_of_nil in Hw.
Qed.

(** The candidates are those of the first duration that has any. *)
Lemma try_durations_Ok draft e busy used windows durations rejected cands rejected' :
  0 < start_step_minutes draft →
  try_durations draft e busy used windows durations ([], rejected) = Ok (cands, rejected') →
  (cands = [] ∧ ∀ d iv, d ∈ durations → ¬ feasible draft e busy used windows d iv) ∨
  ∃ pre d post, durations = pre ++ d :: post ∧
    (∀ d' iv, d' ∈ pre → ¬ feasible draft e busy used windows d' iv) ∧
    cands ≠ [] ∧ Forall (scored draft d) cands ∧
    ∀ iv, (∃ c, c ∈ cands ∧ interval c = iv) ↔ feasible draft e busy used windows d iv.
Proof.
  intros Hstep. revert rejected. induction durations as [|d durations IH]; intros rejected; cbn [try_durations].
  - intros [= <- <-]. left. split; [done|]. intros d iv Hd. by apply elem_of_nil in Hd.
  - intros ([cs rej] & Hw & Hrest)%bind_Ok_inv.
    apply try_windows_Ok in Hw as (new & Hcs & Hsc & Hall); [|done]. cbn in Hcs. subst cs. cbn [fst] in Hrest.
    destruct (Nat.ltb_spec 0 (length new)) as [Hne|Hnil].
    + injection Hrest as <- <-. right. exists [], d, durations. split; [done|].
      split; [intros d' iv Hd'; by apply elem_of_nil in Hd'|]. split; [|done]. by destruct new; [cbn in Hne; lia|].
    + destruct new; [|cbn in Hnil; lia].
      assert (∀ iv, ¬ feasible draft e busy used windows d iv) as Hno.
      { intros iv Hiv. apply Hall in Hiv as (c & Hc & _). by apply elem_of_nil in Hc. }
      apply IH in Hrest as [[-> Hrest]|(pre & d' & post & -> & Hpre & Hrest)].
      * left. split; [done|]. intros d' iv [->|Hd']%elem_of_cons; [apply Hno|by apply Hrest].
      * right. exists (d :: pre), d', post. split; [done|]. split; [|done].
        intros d'' iv [->|Hd'']%elem_of_cons; [apply Hno|by apply Hpre].
Qed.

Lemma durations_of_Ok draft ds :
  0 < start_step_minutes draft →
  minimum_duration_minutes draft <= maximum_duration_minutes draft →
  durations_of draft = Ok ds →
  Forall (λ d, minimum_duration_minutes draft <= d <= maximum_duration_minutes draft) ds.
Proof.
  intros Hstep Hmm (down & Hd%count_down_Ok & [= <-])%bind_Ok_inv; [|done].
  destruct (includes down _); [done|]. apply Forall_app_2; [done|]. repeat constructor; lia.
Qed.

Context `{!IntlLaws _}.

Lemma candidate_leb_total c c' : candidate_leb c c' = true ∨ candidate_leb c' c = true.
Proof using All.
  unfold candidate_leb.
  destruct (Z.eqb_spec (score c) (score c')) as [Heq|Hne], (Z.eqb_spec (score c') (score c)); try lia;
    cbn [negb].
  - rewrite (localeCompare_antisym (start (interval c))).
    rewrite (localeCompare_antisym (end_ (interval c))).
    destruct (localeCompare (start _) _); cbn; auto. destruct (localeCompare (end_ _) _); cbn; auto.
  - rewrite !Z.ltb_lt. lia.
Qed.

Lemma localeCompare_Eq_l s t u : localeCompare s t = Eq → localeCompare s u = localeCompare t u.
Proof using All.
  intros Hst. assert (localeCompare t s = Eq) as Hts by (by rewrite localeCompare_antisym, Hst).
  destruct (localeCompare t u) eqn:Htu.
  - assert (localeCompare s u ≠ Gt) as H1 by (eapply localeCompare_trans; [by rewrite Hst|by rewrite Htu]).
    assert (localeCompare u t = Eq) as Hut by (by rewrite localeCompare_antisym, Htu).
    assert (localeCompare u s ≠ Gt) as H2 by (eapply localeCompare_trans; [by rewrite Hut|by rewrite Hts]).
    rewrite (localeCompare_antisym s u) in H2. by destruct (localeCompare s u).
  - assert (localeCompare s u ≠ Gt) as H1 by (eapply localeCompare_trans; [by rewrite Hst|by rewrite Htu]).
    destruct (localeCompare s u) eqn:Hsu; try done.
    assert (localeCompare u s = Eq) as Hus by (by rewrite localeCompare_antisym, Hsu).
    assert (localeCompare u t ≠ Gt) as H2 by (eapply localeCompare_trans; [by rewrite Hus|by rewrite Hst]).
    rewrite (localeCompare_antisym t u), Htu in H2. done.
  - destruct (localeCompare s u) eqn:Hsu; try done;
      (assert (localeCompare t u ≠ Gt); [|congruence]);
      (eapply localeCompare_trans; [by rewrite Hts|by rewrite Hsu]).
Qed.

Lemma candidate_leb_trans a b c :
  candidate_leb a b = true → candidate_leb b c = true → candidate_leb a c = true.
Proof using All.
  unfold candidate_leb.
  destruct (Z.eqb_spec (score a) (score b)) as [Hab|Hab], (Z.eqb_spec (score b) (score c)) as [Hbc|Hbc];
    cbn [negb]; rewrite ?Z.ltb_lt.
  2-4: intros H1 H2; destruct (Z.eqb_spec (score a) (score c)) as [Hac|Hac]; cbn [negb];
    rewrite ?Z.ltb_lt; try lia; exfalso; lia.
  rewrite Hab, Hbc, Z.eqb_refl. cbn [negb].
  destruct (localeCompare (start (interval a)) (start (interval b))) eqn:Eab; [| |done].
  - rewrite (localeCompare_Eq_l _ _ _ Eab).
    destruct (localeCompare (start (interval b)) (start (interval c))); try done.
    intros H1 H2. assert (localeCompare (end_ (interval a)) (end_ (interval c)) ≠ Gt) as H3.
    { apply (localeCompare_trans _ (end_ (interval b)));
        [by destruct (localeCompare (end_ (interval a)) (end_ (interval b)))
        |by destruct (localeCompare (end_ (interval b)) (end_ (interval c)))]. }
    by destruct (localeCompare (end_ (interval a)) (end_ (interval c))).
  - intros _ H2. destruct (localeCompare (start (interval b)) (start (interval c))) eqn:Ebc; [| |done].
    + assert (localeCompare (start (interval c)) (start (interval b)) = Eq) as Ecb
        by (by rewrite localeCompare_antisym, Ebc).
      rewrite localeCompare_antisym, (localeCompare_Eq_l _ _ _ Ecb), localeCompare_antisym, Eab. done.
    + assert (localeCompare (start (interval a)) (start (interval c)) ≠ Gt) as H3
        by (eapply localeCompare_trans; [by rewrite Eab|by rewrite Ebc]).
      destruct (localeCompare (start (interval a)) (start (interval c))) eqn:Eac; try done.
      assert (localeCompare (start (interval c)) (start (interval a)) = Eq) as Eca
        by (by rewrite localeCompare_antisym, Eac).
      rewrite localeCompare_antisym in Ebc. rewrite (localeCompare_Eq_l _ _ _ Eca), Eab in Ebc. done.
Qed.

(** The chosen slot, for the laws of a sort: the least candidate. *)
Lemma chosen_least draft e busy used windows d cands first rest :
  Forall (scored draft d) cands →
  (∀ iv, (∃ c, c ∈ cands ∧ interval c = iv) ↔ feasible draft e busy used windows d iv) →
  sort_by candidate_leb cands = first :: rest →
  feasible draft e busy used windows d (interval first) ∧
  ∃ m, localMinuteOfDay (start (interval first)) (meeting_timezone draft) = Ok m ∧
    ∀ iv m', feasible draft e busy used windows d iv →
      localMinuteOfDay (start iv) (meeting_timezone draft) = Ok m' →
      slot_score draft d m <= slot_score draft d m'.
Proof using All.
  intros Hsc Hall Hsort.
  assert (first ∈ cands) as Hin.
  { rewrite <- (elem_of_sort_by candidate_leb), Hsort. by left. }
  rewrite Forall_forall in Hsc. destruct (Hsc _ Hin) as (m & Hm & Hscore).
  split; [apply Hall; eauto|]. exists m. split; [done|]. intros iv m' Hiv Hm'.
  apply Hall in Hiv as (c & Hc & <-). destruct (Hsc _ Hc) as (m'' & Hm'' & Hscore').
  assert (m'' = m') as -> by congruence.
  assert (candidate_leb first c = true) as Hleb.
  { eapply sort_by_head; [apply candidate_leb_total|apply candidate_leb_trans|exact Hsort|done|].
    by destruct (candidate_leb_total first first). }
  unfold candidate_leb in Hleb. rewrite <- Hscore, <- Hscore'.
  destruct (Z.eqb_spec (score first) (score c)); cbn [negb] in Hleb; [lia|].
  apply Z.ltb_lt in Hleb. lia.
Qed.

(** C6. The chosen slot is the best one: no duration tried before it has a
    feasible slot, and among the feasible slots of its duration none is closer
    to the preferred time. Without a choice no duration has a feasible slot. *)
Theorem chooseMeetingSlot_optimal draft windows busy used now e durations choice :
  0 < start_step_minutes draft →
  earliest_start draft now = Ok e →
  durations_of draft = Ok durations →
  chooseMeetingSlot draft windows busy used now = Ok choice →
  match choice with
  | None => ∀ d iv, d ∈ durations → ¬ feasible draft e busy used windows d iv
  | Some (iv, _) =>
      ∃ pre d post m, durations = pre ++ d :: post ∧
        (∀ d' iv', d' ∈ pre → ¬ feasible draft e busy used windows d' iv') ∧
        feasible draft e busy used windows d iv ∧
        localMinuteOfDay (start iv) (meeting_timezone draft) = Ok m ∧
        ∀ iv' m', feasible draft e busy used windows d iv' →
          localMinuteOfDay (start iv') (meeting_timezone draft) = Ok m' →
          slot_score draft d m <= slot_score draft d m'
  end.
Proof using All.
  intros Hstep He Hd Hc. unfold chooseMeetingSlot in Hc. rewrite He, Hd in Hc. cbn [mbind res_bind] in Hc.
  apply bind_Ok_inv in Hc as ([cands rejected] & Ht & [= <-]).
  apply try_durations_Ok in Ht as [[-> Hno]|(pre & d & post & -> & Hpre & Hne & Hsc & Hall)]; [done| |done].
  destruct (sort_by candidate_leb cands) as [|first rest] eqn:Hsort.
  - assert (length (sort_by candidate_leb cands) = 0%nat) as Hl by (by rewrite Hsort).
    rewrite length_sort_by in Hl. by destruct cands.
  - destruct (chosen_least _ _ _ _ _ _ _ _ _ Hsc Hall Hsort) as (Hf & m & Hm & Hleast).
    by exists pre, d, post, m.
Qed.
End slots.

(** ** Meetings *)

Section meetings.
Context `{Temporal} `{Intl}.

(** The order of slots is the order of the instants they print. *)
Lemma overlaps_toISOString a b c d :
  four_digit_instant a → four_digit_instant b → four_digit_instant c → four_digit_instant d →
  overlaps {| start := toISOString a; end_ := toISOString b |}
           {| start := toISOString c; end_ := toISOString d |} = true ↔ a < d ∧ c < b.
Proof.
  intros Ha Hb Hc Hd. unfold overlaps. cbn [start end_].
  by rewrite andb_true_iff, !toISOString_ltb.
Qed.

Definition slot_of (s : Z * Z) : InstantInterval := slot s.1 s.2.
Definition slot_end (s : Z * Z) : Z := s.1 + s.2 * MINUTE.
Definition four_digit_slot (s : Z * Z) : Prop := four_digit_instant s.1 ∧ four_digit_instant (slot_end s).

Lemma slots_apart s t :
  four_digit_slot s → four_digit_slot t → overlaps (slot_of t) (slot_of s) = false →
  slot_end s <= t.1 ∨ slot_end t <= s.1.
Proof.
  intros [Hs1 Hs2] [Ht1 Ht2] Ho. unfold slot_of, slot in Ho.
  pose proof (overlaps_toISOString _ _ _ _ Ht1 Ht2 Hs1 Hs2) as Hiff. unfold slot_end in *.
  rewrite Ho in Hiff. destruct (Z.lt_ge_cases t.1 (s.1 + s.2 * MINUTE)); [|lia].
  destruct (Z.lt_ge_cases s.1 (t.1 + t.2 * MINUTE)); [|lia]. destruct Hiff as [_ Hiff]. naive_solver.
Qed.

Definition scheduled_intervals (occurrences : list PlannedOccurrenceTemplate) : list InstantInterval :=
  omap (λ o, event_interval <$> planned_event o) occurrences.

(** What every scheduled slot satisfies. *)
Definition good_slot (draft : SmartMeetingDraft) (e : string) (busy : list PlanningBusyInterval) (s : Z * Z) : Prop :=
  minimum_duration_minutes draft <= s.2 <= maximum_duration_minutes draft ∧
  s.1 mod (start_step_minutes draft * MINUTE) = 0 ∧
  (start (slot_of s) <? e)%string = false ∧
  ∀ b, b ∈ busy → overlaps (slot_of s) (busy_interval b) = false.

Definition separate (slots : list (Z * Z)) : Prop :=
  ∀ i j s t, (i < j)%nat → slots !! i = Some s → slots !! j = Some t → overlaps (slot_of t) (slot_of s) = false.

Definition meeting_invariant (draft : SmartMeetingDraft) (e : string) (busy : list PlanningBusyInterval)
    (s : MeetingState) (slots : list (Z * Z)) : Prop :=
  used s = map slot_of slots ∧ scheduled_intervals (planned s) = map slot_of slots ∧
  Forall (good_slot draft e busy) slots ∧ separate slots.

Lemma conflicts_false e busy used iv :
  conflicts e busy used iv = false ↔
  (start iv <? e)%string = false ∧ (∀ b, b ∈ busy → overlaps iv (busy_interval b) = false) ∧
  (∀ u, u ∈ used → overlaps iv u = false).
Proof.
  unfold conflicts. rewrite !orb_false_iff, <- !not_true_iff_false, !existsb_exists.
  setoid_rewrite <- list_elem_of_In. split.
  - intros [[? Hb] Hu]. split; [done|]. split; intros x Hx; apply not_true_iff_false; naive_solver.
  - intros (? & Hb & Hu). split; [split; [done|]|]; intros (x & Hx & Ho);
      [by rewrite (Hb x Hx) in Ho | by rewrite (Hu x Hx) in Ho].
Qed.

Lemma separate_snoc slots t :
  separate slots → (∀ s, s ∈ slots → overlaps (slot_of t) (slot_of s) = false) → separate (slots ++ [t]).
Proof.
  intros Hsep Ht i j a b Hij Ha Hb. apply lookup_app_Some in Hb as [Hb|[Hlen Hb]].
  - apply lookup_lt_Some in Hb as Hj. rewrite lookup_app_l in Ha by lia. by apply (Hsep i j).
  - assert (j - length slots = 0)%nat as Hj by (apply lookup_lt_Some in Hb; cbn in Hb; lia).
    rewrite Hj in Hb. injection Hb as <-. rewrite lookup_app_l in Ha by lia.
    apply Ht. by eapply list_elem_of_lookup_2.
Qed.

(** A chosen slot is feasible for one of the durations. *)
Lemma chosen_feasible draft windows busy used now iv rejected :
  0 < start_step_minutes draft →
  minimum_duration_minutes draft <= maximum_duration_minutes draft →
  chooseMeetingSlot draft windows busy used now = Ok (Some (iv, rejected)) →
  ∃ e s, earliest_start draft now = Ok e ∧ iv = slot_of s ∧ good_slot draft e busy s ∧
    ∀ u, u ∈ used → overlaps (slot_of s) u = false.
Proof.
  intros Hstep Hmm (e & He & Hc)%bind_Ok_inv.
  apply bind_Ok_inv in Hc as (ds & Hds & Hc).
  apply bind_Ok_inv in Hc as ([cands rej] & Ht & Hc). injection Hc as Hc.
  destruct (sort_by candidate_leb cands) as [|first rest] eqn:Hsort; [done|].
  injection Hc as <- <-.
  apply try_durations_Ok in Ht as [[-> _]|(pre & d & post & Hd & _ & _ & _ & Hall)]; [done| |done].
  assert (first ∈ cands) as Hin by (rewrite <- (elem_of_sort_by candidate_leb), Hsort; by left).
  destruct (proj1 (Hall (interval first))) as (w & from & until & cursor & _ & _ & _ & _ & _ & Hm & Hiv & Hcf);
    [eauto|].
  apply durations_of_Ok in Hds; [|done..]. rewrite Forall_forall in Hds.
  assert (minimum_duration_minutes draft <= d <= maximum_duration_minutes draft) as Hdur
    by (apply Hds; rewrite Hd; set_solver).
  rewrite Hiv in Hcf. apply conflicts_false in Hcf as (H1 & H2 & H3).
  exists e, (cursor, d). split; [done|]. split; [done|]. split; [|done]. by split.
Qed.

Lemma plan_occurrence_invariant draft input e s s' slots :
  0 < start_step_minutes draft →
  minimum_duration_minutes draft <= maximum_duration_minutes draft →
  earliest_start draft (planning_now input) = Ok e →
  meeting_invariant draft e (planning_busy input) s slots →
  plan_occurrence draft input s = Ok s' →
  ∃ slots', meeting_invariant draft e (planning_busy input) s' slots'.
Proof.
  intros Hstep Hmm He (Hu & Hp & Hg & Hsep) (windowEnd & _ & Hr)%bind_Ok_inv.
  apply bind_Ok_inv in Hr as (windows & _ & Hr).
  apply bind_Ok_inv in Hr as (selected & Hsel & [= <-]).
  destruct selected as [[iv rejected]|].
  - apply chosen_feasible in Hsel as (e' & t & He' & -> & Hgood & Hdis); [|done..].
    assert (e' = e) as -> by congruence.
    exists (slots ++ [t]). unfold meeting_invariant. cbn [used planned].
    rewrite map_app. split; [by rewrite Hu|]. split; [|split].
    + unfold scheduled_intervals in *. rewrite omap_app, Hp. done.
    + apply Forall_app_2; [done|]. by constructor.
    + apply separate_snoc; [done|]. intros u Hin. apply Hdis. rewrite Hu. by apply list_elem_of_fmap_2.
  - exists slots. unfold meeting_invariant. cbn [used planned]. rewrite app_nil_r.
    split; [done|]. split; [|done]. unfold scheduled_intervals in *. rewrite omap_app, Hp. cbn.
    by rewrite app_nil_r.
Qed.

Lemma plan_occurrences_invariant draft input e count s s' slots :
  0 < start_step_minutes draft →
  minimum_duration_minutes draft <= maximum_duration_minutes draft →
  earliest_start draft (planning_now input) = Ok e →
  meeting_invariant draft e (planning_busy input) s slots →
  plan_occurrences draft input count s = Ok s' →
  ∃ slots', meeting_invariant draft e (planning_busy input) s' slots'.
Proof.
  intros Hstep Hmm He. revert s slots. induction count as [|count IH]; intros s slots Hinv; cbn.
  - intros [= <-]. eauto.
  - intros (s1 & H1 & H2)%bind_Ok_inv.
    destruct (plan_occurrence_invariant _ _ _ _ _ _ Hstep Hmm He Hinv H1) as [slots1 Hinv1]. eauto.
Qed.

(** C5. Scheduled meetings never collide: every scheduled slot starts on the grid
    of the step, lasts between the shortest and the longest duration, starts
    after the lock window, meets no other scheduled slot of the plan, and
    meets no busy interval of millisecond texts. *)
Theorem planSmartMeeting_disjoint draft input now r :
  0 < start_step_minutes draft →
  minimum_duration_minutes draft <= maximum_duration_minutes draft →
  Date_parse (planning_now input) = Some now →
  planSmartMeeting draft input = Ok r →
  ∃ slots, scheduled_intervals (occurrences r) = map slot_of slots ∧
    ∀ i s, slots !! i = Some s → four_digit_slot s →
      (minimum_duration_minutes draft <= s.2 <= maximum_duration_minutes draft ∧
       s.1 mod (start_step_minutes draft * MINUTE) = 0) ∧
      (four_digit_instant (now + lock_before_minutes draft * MINUTE) →
       now + lock_before_minutes draft * MINUTE <= s.1) ∧
      (∀ j t, slots !! j = Some t → i ≠ j → four_digit_slot t → slot_end s <= t.1 ∨ slot_end t <= s.1) ∧
      (∀ c a b, {| busy_calendar := c; busy_interval := {| start := toISOString a; end_ := toISOString b |} |}
          ∈ planning_busy input →
        four_digit_instant a → four_digit_instant b → slot_end s <= a ∨ b <= s.1).
Proof.
  intros Hstep Hmm Hnow (s & Hs & [= <-])%bind_Ok_inv. cbn [occurrences].
  assert (earliest_start draft (planning_now input) = Ok (toISOString (now + lock_before_minutes draft * MINUTE)))
    as He by (unfold earliest_start, getTime; by rewrite Hnow).
  eapply (plan_occurrences_invariant _ _ _ _ _ _ [] Hstep Hmm He) in Hs as (slots & _ & Hsched & Hgood & Hsep).
  2: { split; [done|]. split; [done|]. split; [constructor|]. intros ???? _ Hi. by rewrite lookup_nil in Hi. }
  exists slots. split; [done|]. intros i t Hi Ht.
  rewrite Forall_forall in Hgood. destruct (Hgood t) as (Hd & Hm & Hlock & Hbusy);
    [by eapply list_elem_of_lookup_2|].
  split; [done|]. split; [|split].
  - intros Hlk. apply Z.nlt_ge. intros Hlt. rewrite <- not_true_iff_false in Hlock. apply Hlock.
    unfold slot_of, slot. cbn [start]. apply toISOString_ltb; [by destruct Ht|done|done].
  - intros j u Hj Hij Hu.
    destruct (Nat.lt_total i j) as [Hlt|[?|Hlt]]; [|done|].
    + apply slots_apart; [done..|]. by apply (Hsep i j).
    + apply or_comm, slots_apart; [done..|]. by apply (Hsep j i).
  - intros c a b Hb Ha Hb'. specialize (Hbusy _ Hb). destruct Ht as [Ht1 Ht2].
    pose proof (overlaps_toISOString _ _ _ _ Ht1 Ht2 Ha Hb') as Hiff. unfold slot_of, slot, slot_end in *.
    cbn [busy_interval] in Hbusy. rewrite Hbusy in Hiff.
    destruct (Z.lt_ge_cases t.1 b); [|lia]. destruct (Z.lt_ge_cases a (t.1 + t.2 * MINUTE)); [|lia].
    naive_solver.
Qed.

(** A plan has one entry per occurrence, and the counts add up to it. *)
Lemma plan_occurrences_length draft input count s s' :
  plan_occurrences draft input count s = Ok s' → length (planned s') = (length (planned s) + count)%nat.
Proof.
  revert s. induction count as [|count IH]; intros s; cbn.
  - intros [= <-]. lia.
  - intros (s1 & H1 & H2%IH)%bind_Ok_inv.
    apply bind_Ok_inv in H1 as (? & _ & H1). apply bind_Ok_inv in H1 as (? & _ & H1).
    apply bind_Ok_inv in H1 as (? & _ & [= <-]). rewrite H2. cbn [planned]. rewrite length_app. cbn. lia.
Qed.

Lemma count_decisions_total os : (count_decisions schedule os + count_decisions unmet os)%nat = length os.
Proof.
  unfold count_decisions. induction os as [|o os IH]; [done|]. cbn [List.filter].
  destruct (decision o).
  - rewrite (bool_decide_eq_true_2 (schedule = schedule)), (bool_decide_eq_false_2 (schedule = unmet)) by done.
    cbn [length]. lia.
  - rewrite (bool_decide_eq_false_2 (unmet = schedule)), (bool_decide_eq_true_2 (unmet = unmet)) by done.
    cbn [length]. lia.
Qed.

Theorem planSmartMeeting_counts draft input r :
  planSmartMeeting draft input = Ok r →
  length (occurrences r) = Z.to_nat (occurrence_count draft) ∧
  (scheduled_count r + unmet_count r)%nat = length (occurrences r).
Proof.
  intros (s & Hs%plan_occurrences_length & [= <-])%bind_Ok_inv. cbn [occurrences scheduled_count unmet_count].
  rewrite count_decisions_total. by rewrite Hs.
Qed.

(** ** The engine ends *)

Lemma materialized_no_fuel_error `{!TemporalLaws _} profile from until :
  materialized profile from until ≠ Throw PlanningOutOfFuel.
Proof.
  unfold materialized.
  destruct (materializeHours_cases {| materialized_profile := profile; start_date := from;
    end_date_exclusive := until |}) as (r & -> & _). done.
Qed.

Lemma bind_no_fuel {A B} (m : res planning_error A) (f : A → res planning_error B) :
  m ≠ Throw PlanningOutOfFuel → (∀ a, m = Ok a → f a ≠ Throw PlanningOutOfFuel) →
  mbind f m ≠ Throw PlanningOutOfFuel.
Proof. intros Hm Hf. destruct m as [a|]; cbn; [by apply Hf|congruence]. Qed.

Lemma otherwise_no_fuel {A} (m : option A) : otherwise m PlanningRangeError ≠ Throw PlanningOutOfFuel.
Proof. by destruct m. Qed.

Lemma getTime_no_fuel s : getTime s ≠ Throw PlanningOutOfFuel.
Proof. apply otherwise_no_fuel. Qed.

Lemma localMinuteOfDay_no_fuel s tz : localMinuteOfDay s tz ≠ Throw PlanningOutOfFuel.
Proof. apply bind_no_fuel; [apply getTime_no_fuel|]. intros. apply otherwise_no_fuel. Qed.

Lemma try_durations_no_fuel draft e busy used windows durations state :
  0 < start_step_minutes draft →
  try_durations draft e busy used windows durations state ≠ Throw PlanningOutOfFuel.
Proof.
  intros Hstep. revert state. induction durations as [|d ds IH]; intros state; cbn [try_durations]; [done|].
  apply bind_no_fuel; [|intros s _; by case_match]. apply foldM_no_fuel. intros s w _. unfold try_window.
  destruct (starts_of_fuel draft d w Hstep) as [xs ->]. cbn [mbind res_bind].
  apply foldM_no_fuel. intros [cs rej] c _. cbn [try_slot]. destruct (conflicts _ _ _ _); [done|].
  apply bind_no_fuel; [apply localMinuteOfDay_no_fuel|done].
Qed.

Lemma chooseMeetingSlot_no_fuel draft windows busy used now :
  0 < start_step_minutes draft → chooseMeetingSlot draft windows busy used now ≠ Throw PlanningOutOfFuel.
Proof.
  intros Hstep. apply bind_no_fuel; [apply bind_no_fuel; [apply getTime_no_fuel|done]|]. intros e _.
  apply bind_no_fuel.
  - apply bind_no_fuel; [|done].
    pose proof (fuel_for_enough (maximum_duration_minutes draft - minimum_duration_minutes draft)).
    destruct (count_down_fuel (fuel_for (maximum_duration_minutes draft - minimum_duration_minutes draft))
      (maximum_duration_minutes draft) (minimum_duration_minutes draft) (start_step_minutes draft))
      as [xs ->]; [lia..|done].
  - intros ds _. apply bind_no_fuel; [by apply try_durations_no_fuel|]. by intros [? ?].
Qed.

Lemma plan_occurrences_no_fuel `{!TemporalLaws _} draft input count s :
  0 < start_step_minutes draft → plan_occurrences draft input count s ≠ Throw PlanningOutOfFuel.
Proof.
  intros Hstep. revert s. induction count as [|count IH]; intros s; cbn [plan_occurrences]; [done|].
  apply bind_no_fuel; [|by intros]. apply bind_no_fuel; [apply otherwise_no_fuel|]. intros windowEnd _.
  apply bind_no_fuel; [apply materialized_no_fuel_error|]. intros windows _.
  apply bind_no_fuel; [by apply chooseMeetingSlot_no_fuel|done].
Qed.

(** C7. Every loop of the engine ends on a valid draft: the plan is a result or a
    [RangeError] of a date, never the end of the fuel. *)
Theorem planScheduling_terminates `{Unicode} `{TimeZones} `{!TemporalLaws _} input :
  valid_draft (draft input) → planScheduling input ≠ Throw PlanningOutOfFuel.
Proof.
  unfold planScheduling. destruct (draft input) as [d|d]; intros Hv.
  - apply bind_no_fuel; [apply bind_no_fuel; [apply getTime_no_fuel|intros; apply otherwise_no_fuel]|].
    intros startDate _. apply bind_no_fuel; [apply otherwise_no_fuel|]. intros endDate _.
    apply bind_no_fuel; [apply materialized_no_fuel_error|done].
  - destruct Hv as ((_ & _ & Hstep) & _). apply bind_no_fuel; [|done]. apply plan_occurrences_no_fuel.
    set_solver by lia.
Qed.

(** ** Availability boundaries *)

(** The weekly intervals of a boundary: the whole of a closed day, the time
    before work and the time after work, as the draft protects them. *)
Lemma elem_of_boundary_weekly draft w :
  w ∈ boundary_weekly draft ↔
  1 <= weekday w <= 7 ∧
  ((weekday w ∉ working_days draft ∧ protect_closed_days draft = true ∧
      weekly_interval w = {| local_start := "00:00:00"; local_end := "00:00:00"; end_day_offset := 1 |}) ∨
   (weekday w ∈ working_days draft ∧
    ((protect_before_work draft = true ∧ workday_start draft ≠ "00:00:00" ∧
        weekly_interval w = {| local_start := "00:00:00"; local_end := workday_start draft; end_day_offset := 0 |}) ∨
     (protect_after_work draft = true ∧ workday_end draft ≠ "00:00:00" ∧
        weekly_interval w = {| local_start := workday_end draft; local_end := "00:00:00"; end_day_offset := 1 |})))).
Proof.
  assert (∀ day, w ∈ boundary_day draft day ↔ weekday w = day ∧
    ((day ∉ working_days draft ∧ protect_closed_days draft = true ∧
      weekly_interval w = {| local_start := "00:00:00"; local_end := "00:00:00"; end_day_offset := 1 |}) ∨
     (day ∈ working_days draft ∧
      ((protect_before_work draft = true ∧ workday_start draft ≠ "00:00:00" ∧
        weekly_interval w = {| local_start := "00:00:00"; local_end := workday_start draft; end_day_offset := 0 |}) ∨
       (protect_after_work draft = true ∧ workday_end draft ≠ "00:00:00" ∧
        weekly_interval w = {| local_start := workday_end draft; local_end := "00:00:00"; end_day_offset := 1 |})))))
    as Hday.
  { intros day. unfold boundary_day, includes. destruct w as [wd wi]. cbn [weekday weekly_interval].
    case_bool_decide as Hw; cbn [negb].
    - rewrite elem_of_app.
      destruct (protect_before_work draft), (String.eqb_spec (workday_start draft) "00:00:00"),
        (protect_after_work draft), (String.eqb_spec (workday_end draft) "00:00:00"); cbn [andb negb];
        rewrite ?list_elem_of_singleton, ?elem_of_nil; naive_solver.
    - destruct (protect_closed_days draft); rewrite ?list_elem_of_singleton, ?elem_of_nil; naive_solver. }
  unfold boundary_weekly. rewrite list_elem_of_In, in_flat_map. setoid_rewrite <- list_elem_of_In. split.
  - intros (day & Hd & [<- Hw]%Hday). split; [set_solver by lia|done].
  - intros [Hr Hw]. exists (weekday w). split; [|by apply Hday].
    assert (weekday w = 1 ∨ weekday w = 2 ∨ weekday w = 3 ∨ weekday w = 4 ∨ weekday w = 5 ∨ weekday w = 6
      ∨ weekday w = 7) as Hc by lia. destruct_or! Hc; rewrite Hc; in_list.
Qed.

(** The profile of a boundary. *)
Definition boundary_profile (draft : AvailabilityBoundaryDraft) : HoursProfile :=
  hoursProfile "availability-boundary-preview" (boundary_timezone draft) (boundary_weekly draft).

(** A boundary plan schedules every protected interval and nothing else: its
    events cover exactly the instants at which some weekly interval of the
    boundary is open on a day of the horizon, unless a local time of the zone
    cannot be resolved, which empties the plan and is its warning. *)
Theorem planAvailabilityBoundary_covers `{!TemporalLaws _} draft now r :
  planAvailabilityBoundary draft now = Ok r →
  scheduled_count r = length (occurrences r) ∧ unmet_count r = 0%nat ∧
  (scheduled_intervals (occurrences r) = [] ∧ planning_warnings r = ["dst_resolution_rejected"] ∨
   ∃ startDate endDate date stop intervals,
     localDateAt now (boundary_timezone draft) = Ok startDate ∧
     addLocalDays startDate (horizon_days draft) = Some endDate ∧
     PlainDate_from startDate = Some date ∧ PlainDate_from endDate = Some stop ∧
     scheduled_intervals (occurrences r) = publicIntervals intervals ∧
     (whole_second_profile (boundary_profile draft) →
      ∀ i, covered i intervals ↔ ∃ d, date <= d < stop ∧
        locally_covered d i (weekly_of d (boundary_profile draft)) (boundary_profile draft))).
Proof.
  intros (startDate & Hs & Hr)%bind_Ok_inv.
  apply bind_Ok_inv in Hr as (endDate & He%otherwise_Ok & Hr).
  apply bind_Ok_inv in Hr as (m & Hm & [= <-]). cbn [scheduled_count unmet_count occurrences planning_warnings].
  split; [done|]. split; [done|].
  assert (∀ ivs, scheduled_intervals (map (boundary_occurrence draft) ivs) = ivs) as Hsched.
  { intros ivs. unfold scheduled_intervals. induction ivs as [|iv ivs IH]; [done|].
    change (iv :: omap (λ o, event_interval <$> planned_event o) (map (boundary_occurrence draft) ivs) = iv :: ivs).
    by rewrite IH. }
  rewrite Hsched. unfold materialized in Hm.
  destruct (materializeHours_cases {| materialized_profile := boundary_profile draft;
    start_date := startDate; end_date_exclusive := endDate |}) as (r & Hmr & Hcases).
  unfold boundary_profile in Hmr. rewrite Hmr in Hm. injection Hm as <-.
  destruct Hcases as [->|(date & stop & intervals & Hd & Ht & _ & -> & _ & _ & _ & Hcov)]; [by left|right].
  exists startDate, endDate, date, stop, intervals. by repeat (split; [done|]).
Qed.

(** ** A conflict that is none *)

(** The engine compares texts. A busy interval printed to the second, as
    [materializeHours] prints the intervals of an all-day event, ends later in
    that order than the millisecond text of the same instant, so the slot that
    starts exactly when the busy interval ends is rejected. *)
Theorem all_day_end_rejects_adjacent_slot days duration busy_start :
  four_digit_day days →
  0 < duration →
  four_digit_instant (days * MILLISECONDS_PER_DAY + duration * MINUTE) →
  (busy_start <? toISOString (days * MILLISECONDS_PER_DAY + duration * MINUTE))%string = true →
  Date_parse (start (slot (days * MILLISECONDS_PER_DAY) duration)) = Date_parse (iso_date days +:+ "T00:00:00Z") ∧
  overlaps (slot (days * MILLISECONDS_PER_DAY) duration)
    {| start := busy_start; end_ := iso_date days +:+ "T00:00:00Z" |} = true.
Proof.
  intros Hd Hdur Hend Hbusy.
  assert (days * MILLISECONDS_PER_DAY / MILLISECONDS_PER_DAY = days) as Hdiv by (by apply Z.div_mul).
  assert (days * MILLISECONDS_PER_DAY mod MILLISECONDS_PER_DAY = 0) as Hmod by (by apply Z.mod_mul).
  split.
  - cbn [start slot]. rewrite Date_parse_toISOString by (unfold four_digit_instant; by rewrite Hdiv).
    by rewrite Date_parse_midnight.
  - unfold overlaps. cbn [start end_ slot]. rewrite Hbusy, andb_true_r.
    unfold toISOString. rewrite Hdiv, Hmod. apply iso_date_ltb; [done..|]. right. split; [done|].
    vm_compute. reflexivity.
Qed.
End meetings.

(** ** A concrete plan *)

(** Dates and clocks of the zones of [Temporal.v], texts in code-unit order. *)
#[export] Instance two_zones_intl : Intl := {
  format_date tz ms := z ← zone_named tz; Some (iso_date (zone_local z (ms * 1000000)).1);
  format_minutes tz ms := z ← zone_named tz; Some ((zone_local z (ms * 1000000)).2 / (60 * NANOSECONDS_PER_SECOND));
  localeCompare := String.compare;
}.

#[export] Instance two_zones_intl_laws : IntlLaws two_zones_intl.
Proof.
  split.
  - intros s t. cbn. apply String.compare_antisym.
  - intros s t u. cbn. intros H1 H2.
    destruct (String.compare s t) eqn:Est; [|..|done].
    + apply String.compare_eq_iff in Est as ->. done.
    + destruct (String.compare t u) eqn:Etu; [|..|done].
      * apply String.compare_eq_iff in Etu as <-. by rewrite Est.
      * by rewrite (string_compare_trans _ _ _ Est Etu).
Qed.

(** Monday 2026-10-26 is busy from 09:00 to 11:00 local time. *)
Definition meeting_input : PlanningInput := {|
  draft := smart_meeting weekly_meeting;
  planning_now := "2026-10-20T08:00:00.000Z";
  planning_busy := [{| busy_calendar := "work";
    busy_interval := {| start := "2026-10-26T08:00:00.000Z"; end_ := "2026-10-26T10:00:00.000Z" |} |}];
  known_availability_calendar_ids := ["work"] |}.

Definition plan_of (input : PlanningInput) : PlanningResult :=
  match planScheduling input with
  | Ok r => r
  | Throw _ => {| occurrences := []; scheduled_count := 0; unmet_count := 0; planning_warnings := [];
                  hours_summary := ("", "", "") |}
  end.

(** The first meeting goes to the Wednesday at ten, the second to the Monday. *)
Example weekly_plan :
  scheduled_intervals (occurrences (plan_of meeting_input)) =
    [{| start := "2026-10-28T09:00:00.000Z"; end_ := "2026-10-28T10:00:00.000Z" |};
     {| start := "2026-11-02T09:00:00.000Z"; end_ := "2026-11-02T10:00:00.000Z" |}].
Proof. vm_compute. reflexivity. Qed.

Lemma planSmartMeeting_disjoint_witness :
  ∃ slots, scheduled_intervals (occurrences (plan_of meeting_input)) = map slot_of slots.
Proof.
  destruct (planSmartMeeting_disjoint weekly_meeting meeting_input 1792483200000 (plan_of meeting_input))
    as (slots & Hslots & _);
    [reflexivity | discriminate | vm_compute; reflexivity | vm_compute; reflexivity |].
  exists slots. exact Hslots.
Defined.

Lemma planSmartMeeting_counts_witness : length (occurrences (plan_of meeting_input)) = 2%nat.
Proof.
  refine (proj1 (planSmartMeeting_counts weekly_meeting meeting_input (plan_of meeting_input) _)).
  vm_compute. reflexivity.
Defined.

Definition monday_window : list InstantInterval :=
  [{| start := "2026-10-26T08:00:00Z"; end_ := "2026-10-26T11:00:00Z" |}].

(** Only 11:00 to 12:00 is left, after four rejected starts. *)
Lemma chooseMeetingSlot_optimal_witness :
  ∃ pre d post m, [60; 30] = pre ++ d :: post ∧
    (∀ d' iv', d' ∈ pre → ¬ feasible weekly_meeting "2026-10-20T09:00:00.000Z" (planning_busy meeting_input)
       [] monday_window d' iv') ∧
    feasible weekly_meeting "2026-10-20T09:00:00.000Z" (planning_busy meeting_input) [] monday_window d
      {| start := "2026-10-26T10:00:00.000Z"; end_ := "2026-10-26T11:00:00.000Z" |} ∧
    localMinuteOfDay "2026-10-26T10:00:00.000Z" "Autumn" = Ok m ∧
    ∀ iv' m', feasible weekly_meeting "2026-10-20T09:00:00.000Z" (planning_busy meeting_input) [] monday_window d iv' →
      localMinuteOfDay (start iv') "Autumn" = Ok m' →
      slot_score weekly_meeting d m <= slot_score weekly_meeting d m'.
Proof.
  refine (chooseMeetingSlot_optimal weekly_meeting monday_window (planning_busy meeting_input) []
    "2026-10-20T08:00:00.000Z" "2026-10-20T09:00:00.000Z" [60; 30]
    (Some ({| start := "2026-10-26T10:00:00.000Z"; end_ := "2026-10-26T11:00:00.000Z" |}, 4))
    _ _ _ _); vm_compute; reflexivity.
Defined.

Lemma planScheduling_terminates_witness : planScheduling meeting_input ≠ Throw PlanningOutOfFuel.
Proof.
  apply (planScheduling_terminates meeting_input).
  exact weekly_meeting_valid.
Defined.

(** The slot from midnight to one o'clock after an all-day event of the day before. *)
Lemma all_day_end_rejects_adjacent_slot_witness :
  overlaps (slot 1793059200000 60) {| start := "2026-10-26T00:00:00Z"; end_ := "2026-10-27T00:00:00Z" |} = true.
Proof.
  apply (all_day_end_rejects_adjacent_slot 20753 60 "2026-10-26T00:00:00Z");
    [split; vm_compute; discriminate | reflexivity | split; vm_compute; discriminate | vm_compute; reflexivity].
Defined.

(** Mondays to Fridays from nine to five, protected after work and on closed days. *)
Definition evenings : AvailabilityBoundaryDraft := {|
  boundary_name := "Evenings"; boundary_target := "home"; boundary_timezone := "UTC";
  working_days := [1; 2; 3; 4; 5]; workday_start := "09:00:00"; workday_end := "17:00:00";
  protect_before_work := false; protect_after_work := true; protect_closed_days := true;
  boundary_title := "Personal time"; boundary_visibility := private; horizon_days := 3 |}.

Definition evenings_plan : PlanningResult :=
  plan_of {| draft := availability_boundary evenings; planning_now := "2026-10-23T08:00:00.000Z";
             planning_busy := []; known_availability_calendar_ids := [] |}.

Example evenings_intervals :
  scheduled_intervals (occurrences evenings_plan) =
    [{| start := "2026-10-23T17:00:00Z"; end_ := "2026-10-24T00:00:00Z" |};
     {| start := "2026-10-24T00:00:00Z"; end_ := "2026-10-25T00:00:00Z" |};
     {| start := "2026-10-25T00:00:00Z"; end_ := "2026-10-26T00:00:00Z" |}].
Proof. vm_compute. reflexivity. Qed.

Lemma planAvailabilityBoundary_covers_witness : scheduled_count evenings_plan = 3%nat.
Proof.
  transitivity (length (occurrences evenings_plan)); [|vm_compute; reflexivity].
  refine (proj1 (planAvailabilityBoundary_covers evenings "2026-10-23T08:00:00.000Z" evenings_plan _)).
  vm_compute. reflexivity.
Defined.
