(* ===== verification/Jobs.v ===== *)
(** * The job queue

    [server/src/jobs/queue.ts], [server/src/jobs/leased-job.ts] and
    [server/src/scheduler.ts]: the table [scheduled_jobs] as a finite map from
    row ids to rows, each method of [PostgresJobQueue] as the transaction it
    runs, the worker that keeps a lease alive while it dispatches, and the
    tick of the scheduler. Times are milliseconds; the current time, the new
    id and the random part of a delay are arguments. *)

From S2P Require Import Prelude Canonical.
From stdpp Require Import options.
Open Scope Z_scope.

(** ** The table *)

Inductive JobState := pending | leased | retry | succeeded | dead.

#[export] Instance JobState_eq_dec : EqDecision JobState.
Proof. solve_decision. Defined.

(** What the partial unique index [scheduled_jobs_active_dedupe_idx] indexes. *)
Record JobKey := { organization_id : string; job_kind : string; dedupe_key : string }.

#[export] Instance JobKey_eq_dec : EqDecision JobKey.
Proof. solve_decision. Defined.

Record Job := {
  key : JobKey;
  payload : json;
  state : JobState;
  attempt_count : Z;
  run_after : Z;
  lease_owner : option string;
  lease_expires_at : option Z;
  safe_error_code : option string;
  updated_at : Z;
}.

Notation Table := (gmap string Job).

Definition active (s : JobState) : bool :=
  match s with pending | leased | retry => true | succeeded | dead => false end.

Definition any_row (P : Job → bool) (t : Table) : bool :=
  existsb (λ '(_, j), P j) (map_to_list t).

(** An error of the queue: [TypeError] of the payload, or [JobLeaseLostError]. *)
Inductive queue_error := InvalidPayload | JobLeaseLost (jobId : string).

#[export] Instance queue_error_eq_dec : EqDecision queue_error.
Proof. solve_decision. Defined.

Record LeasedJob := {
  leased_id : string;
  leased_key : JobKey;
  leased_payload : json;
  attemptCount : Z;
}.

(** ** Methods *)

Definition assertJobPayload (payload : json) : res queue_error () :=
  match payload with JArray _ | JObject _ => Ok () | _ => Throw InvalidPayload end.

Definition new_job (k : JobKey) (payload : json) (runAfter now : Z) : Job :=
  {| key := k; payload := payload; state := pending; attempt_count := 0; run_after := runAfter;
     lease_owner := None; lease_expires_at := None; safe_error_code := None; updated_at := now |}.

(** [insert ... on conflict do nothing returning id]: a row with the id, or an
    active row with the key, makes the insert do nothing. *)
Definition enqueue (k : JobKey) (payload : json) (runAfter : Z) (id : string) (now : Z) (t : Table)
    : res queue_error (option string * Table) :=
  _ ← assertJobPayload payload;
  if bool_decide (is_Some (t !! id)) || any_row (λ j, active (state j) && bool_decide (key j = k)) t
  then Ok (None, t)
  else Ok (Some id, <[id := new_job k payload runAfter now]> t).

(** [enqueueOnce]: any row with the key, whatever its state, stops the insert. *)
Definition enqueueOnce (k : JobKey) (payload : json) (runAfter : Z) (id : string) (now : Z) (t : Table)
    : res queue_error (option string * Table) :=
  _ ← assertJobPayload payload;
  if any_row (λ j, bool_decide (key j = k)) t then Ok (None, t)
  else enqueue k payload runAfter id now t.

(** The first update of [lease]: an expired lease goes back to the queue. *)
Definition expire (now : Z) (j : Job) : Job :=
  match state j, lease_expires_at j with
  | leased, Some expires =>
      if expires <? now
      then {| key := key j; payload := payload j; state := retry; attempt_count := attempt_count j;
              run_after := run_after j; lease_owner := None; lease_expires_at := None;
              safe_error_code := safe_error_code j; updated_at := updated_at j |}
      else j
  | _, _ => j
  end.

Definition due (now : Z) (j : Job) : bool :=
  (bool_decide (state j = pending) || bool_decide (state j = retry)) && (run_after j <=? now).

(** [order by run_after asc, id asc]. *)
Definition job_leb (left right : string * Job) : bool :=
  (run_after left.2 <? run_after right.2)
  || ((run_after left.2 =? run_after right.2) && text_leb left.1 right.1).

Definition take_lease (owner : string) (expires now : Z) (j : Job) : Job :=
  {| key := key j; payload := payload j; state := leased; attempt_count := attempt_count j + 1;
     run_after := run_after j; lease_owner := Some owner; lease_expires_at := Some expires;
     safe_error_code := safe_error_code j; updated_at := now |}.

(** The rows [lease] selects: due, not locked by another transaction
    ([for update skip locked]), in order, at most [limit]. *)
Definition selected_rows (limit : nat) (now : Z) (locked : gset string) (t : Table) : list (string * Job) :=
  take limit (sort_by job_leb
    (List.filter (λ '(id, j), due now j && negb (bool_decide (id ∈ locked))) (map_to_list t))).

Definition lease (owner : string) (limit : nat) (leaseSeconds now : Z) (locked : gset string) (t : Table)
    : list LeasedJob * Table :=
  let t := expire now <$> t in
  let rows := selected_rows limit now locked t in
  (map (λ '(id, j), {| leased_id := id; leased_key := key j; leased_payload := payload j;
                       attemptCount := attempt_count j + 1 |}) rows,
   foldr (λ '(id, j) t, <[id := take_lease owner (now + leaseSeconds * 1000) now j]> t) t rows).

#[global] Arguments lease : simpl never.

(** The condition of every update by a worker: the row is leased by it. *)
Definition owns (owner : string) (j : Job) : bool :=
  bool_decide (state j = leased) && bool_decide (lease_owner j = Some owner).

(** [update ... where id, state = leased and lease_owner]: the new table, or
    [None] when no row was updated. *)
Definition update_owned (id owner : string) (f : Job → Job) (t : Table) : option Table :=
  j ← t !! id; if owns owner j then Some (<[id := f j]> t) else None.

Definition extend_lease (expires now : Z) (j : Job) : Job :=
  {| key := key j; payload := payload j; state := state j; attempt_count := attempt_count j;
     run_after := run_after j; lease_owner := lease_owner j; lease_expires_at := Some expires;
     safe_error_code := safe_error_code j; updated_at := now |}.

Definition renew (id owner : string) (leaseSeconds now : Z) (t : Table) : bool * Table :=
  match update_owned id owner (extend_lease (now + leaseSeconds * 1000) now) t with
  | Some t' => (true, t')
  | None => (false, t)
  end.

Definition transition (id owner : string) (f : Job → Job) (t : Table) : res queue_error Table :=
  otherwise (update_owned id owner f t) (JobLeaseLost id).

Definition mark_succeeded (now : Z) (j : Job) : Job :=
  {| key := key j; payload := payload j; state := succeeded; attempt_count := attempt_count j;
     run_after := run_after j; lease_owner := None; lease_expires_at := None;
     safe_error_code := None; updated_at := now |}.

Definition succeed (id owner : string) (now : Z) (t : Table) : res queue_error Table :=
  transition id owner (mark_succeeded now) t.

(** What [fail] reads of an error: [retryable === false], and [safeErrorCode]. *)
Record JobError := { explicitlyNonRetryable : bool; error_code : string }.

Definition MAX_ATTEMPTS : Z := 10.
Definition MAX_DELAY : Z := 3600000.

Definition is_dead (error : JobError) (attemptCount : Z) : bool :=
  explicitlyNonRetryable error || (MAX_ATTEMPTS <=? attemptCount).

(** [Math.min(3_600, 2 ** Math.min(attemptCount, 10) + Math.random())] seconds,
    with the random part in milliseconds. *)
Definition retry_delay (attemptCount random : Z) : Z :=
  Z.min MAX_DELAY (2 ^ Z.min attemptCount 10 * 1000 + random).

Definition mark_failed (error : JobError) (attemptCount random now : Z) (j : Job) : Job :=
  {| key := key j; payload := payload j;
     state := if is_dead error attemptCount then dead else retry;
     attempt_count := attempt_count j; run_after := now + retry_delay attemptCount random;
     lease_owner := None; lease_expires_at := None; safe_error_code := Some (error_code error);
     updated_at := now |}.

Definition fail (id owner : string) (error : JobError) (attemptCount random now : Z) (t : Table)
    : res queue_error Table :=
  transition id owner (mark_failed error attemptCount random now) t.

(** ** The worker *)

(** A heartbeat, after what the other transactions made of the table: a
    renewal at a time, or a database error, which proves nothing. *)
Inductive beat :=
| Beat (environment : Table → Table) (now : Z)
| BeatError (environment : Table → Table).

(** [JobLeaseHeartbeat]: the state of the table and [ownershipLost]. *)
Fixpoint heartbeats (id owner : string) (leaseSeconds : Z) (beats : list beat) (s : Table * bool)
    : Table * bool :=
  match beats with
  | [] => s
  | b :: beats =>
      let '(t, lost) := s in
      heartbeats id owner leaseSeconds beats
        (match b with
         | BeatError environment => (environment t, lost)
         | Beat environment now =>
             if lost then (environment t, lost)
             else let '(renewed, t) := renew id owner leaseSeconds now (environment t) in (t, negb renewed)
         end)
  end.

Inductive LeasedJobResult := job_succeeded | job_failed | lease_lost.

#[export] Instance LeasedJobResult_eq_dec : EqDecision LeasedJobResult.
Proof. solve_decision. Defined.

(** What the other transactions do, and when, around the last steps of a run. *)
Record Schedule := {
  beats : list beat;
  before_confirm : Table → Table;
  confirm_at : Z;
  before_transition : Table → Table;
  transition_at : Z;
  jitter : Z;
}.

(** [processLeasedJob]: dispatch returned ([None]) or threw an error; the result
    and the table. The errors of the queue are the lease loss only. *)
Definition processLeasedJob (job : LeasedJob) (owner : string) (leaseSeconds : Z) (dispatched : option JobError)
    (s : Schedule) (t : Table) : LeasedJobResult * Table :=
  let id := leased_id job in
  let '(t, lost) := heartbeats id owner leaseSeconds (beats s) (t, false) in
  let t := before_confirm s t in
  if lost : bool then (lease_lost, t)
  else
    let '(confirmed, t) := renew id owner leaseSeconds (confirm_at s) t in
    if negb confirmed then (lease_lost, t)
    else
      let t := before_transition s t in
      match dispatched with
      | Some error =>
          match fail id owner error (attemptCount job) (jitter s) (transition_at s) t with
          | Ok t => (job_failed, t)
          | Throw _ => (lease_lost, t)
          end
      | None =>
          match succeed id owner (transition_at s) t with
          | Ok t => (job_succeeded, t)
          | Throw _ => (lease_lost, t)
          end
      end.

(** ** The table as a state machine

    A step is one transaction of the queue, by a worker [actor] at a time
    [now]; the last one is the retention of [Scheduler.cleanup]. *)

Definition RETENTION : Z := 7 * 86400000.

Definition terminal (s : JobState) : bool := negb (active s).

(** [delete from scheduled_jobs where state in (succeeded, dead) and updated_at < cutoff]. *)
Definition cleanup_jobs (now : Z) (t : Table) : Table :=
  filter (λ '(_, j), ¬ (terminal (state j) = true ∧ updated_at j < now - RETENTION)) t.

Inductive queue_step (actor : string) (now : Z) (t : Table) : Table → Prop :=
| step_enqueue k payload runAfter id r t' :
    enqueue k payload runAfter id now t = Ok (r, t') → queue_step actor now t t'
| step_enqueueOnce k payload runAfter id r t' :
    enqueueOnce k payload runAfter id now t = Ok (r, t') → queue_step actor now t t'
| step_lease limit leaseSeconds locked :
    queue_step actor now t (lease actor limit leaseSeconds now locked t).2
| step_renew id leaseSeconds : queue_step actor now t (renew id actor leaseSeconds now t).2
| step_succeed id t' : succeed id actor now t = Ok t' → queue_step actor now t t'
| step_fail id error attemptCount random t' :
    fail id actor error attemptCount random now t = Ok t' → queue_step actor now t t'
| step_cleanup : queue_step actor now t (cleanup_jobs now t).

(** Some worker takes a step at some time. *)
Definition any_step (t t' : Table) : Prop := ∃ actor now, queue_step actor now t t'.

(** A row is leased exactly when it has an owner and an expiry. *)
Definition lease_consistent (j : Job) : Prop :=
  match state j with
  | leased => is_Some (lease_owner j) ∧ is_Some (lease_expires_at j)
  | _ => lease_owner j = None ∧ lease_expires_at j = None
  end.

Record well_formed (t : Table) : Prop := {
  wf_lease : ∀ id j, t !! id = Some j → lease_consistent j;
  wf_unique : ∀ id1 id2 j1 j2, t !! id1 = Some j1 → t !! id2 = Some j2 →
    active (state j1) = true → active (state j2) = true → key j1 = key j2 → id1 = id2;
}.

(** ** Lemmas on the table *)

Lemma any_row_spec P t : any_row P t = true ↔ ∃ id j, t !! id = Some j ∧ P j = true.
Proof.
  unfold any_row. rewrite existsb_exists. split.
  - intros ([id j] & Hin & HP). exists id, j. split; [|done].
    by apply elem_of_map_to_list, list_elem_of_In.
  - intros (id & j & Hid & HP). exists (id, j). split; [|done].
    by apply list_elem_of_In, elem_of_map_to_list.
Qed.

Lemma any_row_false P t : any_row P t = false ↔ ∀ id j, t !! id = Some j → P j = false.
Proof.
  rewrite <- not_true_iff_false, any_row_spec. split.
  - intros H id j Hid. apply not_true_iff_false. intros HP. apply H. eauto.
  - intros H (id & j & Hid & HP). by rewrite (H _ _ Hid) in HP.
Qed.

Lemma owns_spec owner j : owns owner j = true ↔ state j = leased ∧ lease_owner j = Some owner.
Proof. unfold owns. rewrite andb_true_iff, !bool_decide_eq_true. done. Qed.

Lemma update_owned_Some id owner f t t' :
  update_owned id owner f t = Some t' ↔
  ∃ j, t !! id = Some j ∧ owns owner j = true ∧ t' = <[id := f j]> t.
Proof.
  unfold update_owned. split.
  - intros (j & Hj & H)%bind_Some. case_match; naive_solver.
  - intros (j & -> & Ho & ->). cbn. by rewrite Ho.
Qed.

Lemma update_owned_None id owner f t :
  (∀ j, t !! id = Some j → owns owner j = false) → update_owned id owner f t = None.
Proof.
  intros H. unfold update_owned. destruct (t !! id) as [j|] eqn:Hj; cbn; [|done].
  by rewrite (H j).
Qed.

Lemma transition_Ok id owner f t t' :
  transition id owner f t = Ok t' ↔
  ∃ j, t !! id = Some j ∧ owns owner j = true ∧ t' = <[id := f j]> t.
Proof.
  unfold transition. rewrite <- update_owned_Some.
  destruct (update_owned id owner f t); cbn; split; congruence.
Qed.

Lemma renew_cases id owner leaseSeconds now t :
  (∃ j, t !! id = Some j ∧ owns owner j = true ∧
        renew id owner leaseSeconds now t =
          (true, <[id := extend_lease (now + leaseSeconds * 1000) now j]> t)) ∨
  (renew id owner leaseSeconds now t = (false, t) ∧ ∀ j, t !! id = Some j → owns owner j = false).
Proof.
  unfold renew. destruct (update_owned _ _ _ _) as [t'|] eqn:H.
  - apply update_owned_Some in H as (j & ? & ? & ->). left. eauto.
  - right. split; [done|]. intros j Hj. apply not_true_iff_false. intros Ho.
    unfold update_owned in H. rewrite Hj in H. cbn in H. by rewrite Ho in H.
Qed.

Lemma enqueue_Ok k payload runAfter id now t r t' :
  enqueue k payload runAfter id now t = Ok (r, t') →
  (r = None ∧ t' = t) ∨
  (r = Some id ∧ t !! id = None ∧ t' = <[id := new_job k payload runAfter now]> t ∧
   ∀ id' j, t !! id' = Some j → active (state j) = true → key j ≠ k).
Proof.
  unfold enqueue. intros ([] & _ & H)%bind_Ok_inv. case_match eqn:E; [left; naive_solver|right].
  injection H as <- <-. apply orb_false_iff in E as [Hid Hrow]. repeat split.
  - apply bool_decide_eq_false_1 in Hid. by apply eq_None_not_Some.
  - intros id' j Hj Ha Hk. rewrite any_row_false in Hrow. specialize (Hrow id' j Hj).
    rewrite Ha in Hrow. cbn in Hrow. by apply bool_decide_eq_false_1 in Hrow.
Qed.

Lemma enqueueOnce_Ok k payload runAfter id now t r t' :
  enqueueOnce k payload runAfter id now t = Ok (r, t') →
  (r = None ∧ t' = t ∧ any_row (λ j, bool_decide (key j = k)) t = true) ∨
  (any_row (λ j, bool_decide (key j = k)) t = false ∧ enqueue k payload runAfter id now t = Ok (r, t')).
Proof.
  unfold enqueueOnce. intros ([] & _ & H)%bind_Ok_inv. case_match eqn:E; [left|right]; naive_solver.
Qed.

Lemma elem_of_selected_rows limit now locked t id j :
  (id, j) ∈ selected_rows limit now locked t → t !! id = Some j ∧ due now j = true ∧ id ∉ locked.
Proof.
  unfold selected_rows. intros Hin. apply (subseteq_take limit) in Hin.
  rewrite elem_of_sort_by, list_elem_of_In, filter_In, <- list_elem_of_In, elem_of_map_to_list in Hin.
  destruct Hin as [? ?]; bool_to_prop. done.
Qed.

Lemma expire_fields now j :
  key (expire now j) = key j ∧ active (state (expire now j)) = active (state j) ∧
  (lease_consistent j → lease_consistent (expire now j)).
Proof.
  unfold expire, lease_consistent.
  destruct j as [? ? [] ? ? ? [] ? ?]; cbn; try done; case_match; cbn; auto.
Qed.

Lemma due_active now j : due now j = true → active (state j) = true.
Proof.
  unfold due. intros [[Hs|Hs]%orb_true_iff _]%andb_true_iff;
    apply bool_decide_eq_true_1 in Hs; by rewrite Hs.
Qed.

(** The rows of the table after a lease. *)
Lemma lease_lookup owner limit leaseSeconds now locked t id :
  (lease owner limit leaseSeconds now locked t).2 !! id =
  (if bool_decide (id ∈ (selected_rows limit now locked (expire now <$> t)).*1)
   then take_lease owner (now + leaseSeconds * 1000) now <$> (expire now <$> (t !! id))
   else expire now <$> (t !! id)).
Proof.
  unfold lease. cbn [snd]. rewrite (foldr_update_lookup (take_lease _ _ _)).
  - by rewrite lookup_fmap.
  - intros i j Hij. by apply elem_of_selected_rows in Hij as [? _].
Qed.

(** ** The invariant *)

(** Every row of [t'] is a row of [t] with the same key, not activated. *)
Lemma well_formed_update t t' :
  well_formed t →
  (∀ id j', t' !! id = Some j' →
     ∃ j, t !! id = Some j ∧ key j' = key j ∧
          (active (state j') = true → active (state j) = true) ∧
          (lease_consistent j → lease_consistent j')) →
  well_formed t'.
Proof.
  intros [Hl Hu] Hrows. split.
  - intros id j' Hj'. destruct (Hrows _ _ Hj') as (j & Hj & _ & _ & Hlj). eauto.
  - intros id1 id2 j1' j2' H1 H2 Ha1 Ha2 Hk.
    destruct (Hrows _ _ H1) as (j1 & Hj1 & Hk1 & Ha1' & _).
    destruct (Hrows _ _ H2) as (j2 & Hj2 & Hk2 & Ha2' & _).
    apply (Hu id1 id2 j1 j2); auto; congruence.
Qed.

(** An update of one row of the table that its worker owns. *)
Lemma well_formed_insert t id owner j j' :
  well_formed t → t !! id = Some j → owns owner j = true → key j' = key j → lease_consistent j' →
  well_formed (<[id := j']> t).
Proof.
  intros Hwf Hj [Hs _]%owns_spec Hk Hl. apply (well_formed_update t); [done|].
  intros i j0. destruct (decide (i = id)) as [->|Hne].
  - rewrite lookup_insert_eq. intros [= <-]. exists j. rewrite Hs. auto.
  - rewrite lookup_insert_ne by done. intros ?. exists j0. auto.
Qed.

Lemma well_formed_enqueue t k payload runAfter id now r t' :
  well_formed t → enqueue k payload runAfter id now t = Ok (r, t') → well_formed t'.
Proof.
  intros Hwf [[_ ->]|(_ & Hid & -> & Hfree)]%enqueue_Ok; [done|].
  destruct Hwf as [Hl Hu]. split.
  - intros i j. rewrite lookup_insert_Some. intros [[<- <-]|[_ ?]]; [done|eauto].
  - intros i1 i2 j1 j2. rewrite !lookup_insert_Some.
    intros [[<- <-]|[Hn1 H1]] [[<- <-]|[Hn2 H2]] Ha1 Ha2 Hk; [done|..|by eapply Hu].
    + by destruct (Hfree _ _ H2 Ha2).
    + by destruct (Hfree _ _ H1 Ha1).
Qed.

Lemma well_formed_lease owner limit leaseSeconds now locked t :
  well_formed t → well_formed (lease owner limit leaseSeconds now locked t).2.
Proof.
  intros Hwf. apply (well_formed_update t); [done|]. intros id j'. rewrite lease_lookup.
  destruct (t !! id) as [j|] eqn:Hj; cbn; [|by case_match].
  destruct (expire_fields now j) as (Hk & Ha & Hl).
  case_bool_decide as Hin; intros [= <-]; exists j; cbn; rewrite ?Hk; repeat split; auto; [|naive_solver..].
  intros _. rewrite <- Ha. apply list_elem_of_fmap in Hin as ([i j'] & -> & Hin).
  apply elem_of_selected_rows in Hin as (Hlook & Hdue & _). cbn [fst] in *.
  rewrite lookup_fmap, Hj in Hlook. injection Hlook as <-. by apply due_active in Hdue.
Qed.

Lemma queue_step_well_formed actor now t t' :
  well_formed t → queue_step actor now t t' → well_formed t'.
Proof.
  intros Hwf [k p ra id r t0 H|k p ra id r t0 H|limit secs locked|id secs|id t0 H|id e a rnd t0 H|].
  - by eapply well_formed_enqueue.
  - apply enqueueOnce_Ok in H as [(_ & -> & _)|[_ H]]; [done|]. by eapply well_formed_enqueue.
  - by apply well_formed_lease.
  - destruct (renew_cases id actor secs now t) as [(j & Hj & Ho & ->)|[-> _]]; [|done].
    eapply well_formed_insert; [done..|]. pose proof (wf_lease _ Hwf _ _ Hj) as Hl.
    apply owns_spec in Ho as [Hs Ho]. unfold lease_consistent in *. cbn. rewrite Hs in *. naive_solver.
  - apply transition_Ok in H as (j & Hj & Ho & ->). by eapply well_formed_insert.
  - apply transition_Ok in H as (j & Hj & Ho & ->). eapply well_formed_insert; [done..|].
    unfold lease_consistent. cbn. by destruct (is_dead e a).
  - apply (well_formed_update t); [done|]. intros id j [Hj _]%map_lookup_filter_Some. eauto.
Qed.

(** C9. From an empty table, whatever the workers do in whatever order: at most
    one active row has a given key, and a row is leased exactly when it has an
    owner and an expiry. *)
Theorem queue_invariant t : rtc any_step ∅ t → well_formed t.
Proof.
  revert t. apply (rtc_ind_r well_formed); [|intros t t' _ (actor & now & Hstep) IH].
  - split; intros *; rewrite lookup_empty; discriminate.
  - by eapply queue_step_well_formed.
Qed.

Lemma queue_invariant_witness :
  let k := {| organization_id := "o"; job_kind := "sync"; dedupe_key := "d" |} in
  let t := {[ "a" := take_lease "w" 31000 1000 (new_job k (JObject []) 0 0) ]} in
  rtc any_step ∅ t ∧ well_formed t.
Proof.
  intros k t.
  assert (rtc any_step ∅ t) as Hrun.
  { apply (rtc_l any_step _ {[ "a" := new_job k (JObject []) 0 0 ]}).
    - exists "s", 0. apply (step_enqueue _ _ _ k (JObject []) 0 "a" (Some "a")). vm_compute. reflexivity.
    - apply rtc_once. exists "w", 1000.
      refine (eq_rect _ (queue_step "w" 1000 _) (step_lease "w" 1000 _ 5 30 ∅) _ _).
      vm_compute. reflexivity. }
  split; [exact Hrun|]. apply (queue_invariant t Hrun).
Defined.

(** ** Leases exclude the other workers *)

(** A step of a worker other than [owner], not after [expires]. *)
Definition other_step (owner : string) (expires : Z) (t t' : Table) : Prop :=
  ∃ actor now, actor ≠ owner ∧ now ≤ expires ∧ queue_step actor now t t'.

Lemma expire_before now j expires :
  lease_expires_at j = Some expires → now ≤ expires → expire now j = j.
Proof.
  intros He Hn. unfold expire. destruct (state j); try done. rewrite He.
  by apply Z.ltb_ge in Hn as ->.
Qed.

Lemma update_other_lookup id id' actor owner f t t' j :
  update_owned id' actor f t = Some t' → t !! id = Some j → owns owner j = true → actor ≠ owner →
  t' !! id = Some j.
Proof.
  intros (j0 & Hj0 & Ho & ->)%update_owned_Some Hj Hown Hne.
  destruct (decide (id' = id)) as [->|]; [|by rewrite lookup_insert_ne].
  apply owns_spec in Ho as [_ Ho], Hown as [_ Hown]. congruence.
Qed.

(** Enqueueing adds at most one job, which is active. *)
Lemma enqueue_adds k payload runAfter id now t out t' :
  enqueue k payload runAfter id now t = Ok (out, t') →
  (∀ i j, t !! i = Some j → t' !! i = Some j) ∧ (∀ i, i ≠ id → t' !! i = t !! i) ∧
  (t !! id = None → ∃ i j, t' !! i = Some j ∧ active (state j) = true ∧ key j = k).
Proof.
  unfold enqueue. intros (u & _ & Hen)%bind_Ok_inv. destruct (bool_decide (is_Some (t !! id)) || _) eqn:E.
  - injection Hen as <- <-. split_and!; try done. intros Hnone.
    rewrite Hnone, bool_decide_eq_false_2 in E by (by intros [? ?]). cbn [orb] in E.
    unfold any_row in E. apply existsb_exists in E as ([i j] & Hin & Hj). cbn in Hj. bool_to_prop.
    exists i, j. split; [|done]. by apply elem_of_map_to_list, list_elem_of_In.
  - injection Hen as <- <-. apply orb_false_iff in E as [E _]. bool_to_prop.
    assert (t !! id = None) as Hnone by (by apply eq_None_not_Some). split_and!.
    + intros i j Hi. rewrite lookup_insert_ne; [done|]. intros ->. congruence.
    + intros i Hne. by rewrite lookup_insert_ne.
    + intros _. exists id, (new_job k payload runAfter now). by rewrite lookup_insert_eq.
Qed.

Lemma enqueue_lookup k payload runAfter id now t r t' i j :
  enqueue k payload runAfter id now t = Ok (r, t') → t !! i = Some j → t' !! i = Some j.
Proof.
  intros [[_ ->]|(_ & Hid & -> & _)]%enqueue_Ok Hj; [done|]. rewrite lookup_insert_ne; congruence.
Qed.

Lemma other_step_preserves owner expires t t' id j :
  other_step owner expires t t' → t !! id = Some j → owns owner j = true →
  lease_expires_at j = Some expires → t' !! id = Some j.
Proof.
  intros (actor & now & Hne & Hnow & Hstep) Hj Ho He.
  destruct Hstep as [k p ra i r t0 H|k p ra i r t0 H|limit secs locked|i secs|i t0 H|i e a rnd t0 H|].
  - by eapply enqueue_lookup.
  - apply enqueueOnce_Ok in H as [(_ & -> & _)|[_ H]]; [done|]. by eapply enqueue_lookup.
  - rewrite lease_lookup, Hj. cbn. rewrite (expire_before _ _ _ He Hnow).
    rewrite bool_decide_eq_false_2; [done|].
    intros ([i j'] & -> & (Hlook & Hdue & _)%elem_of_selected_rows)%list_elem_of_fmap.
    cbn in Hj. rewrite lookup_fmap, Hj in Hlook. cbn in Hlook.
    rewrite (expire_before _ _ _ He Hnow) in Hlook. injection Hlook as <-.
    apply owns_spec in Ho as [Hs _]. unfold due in Hdue. by rewrite Hs in Hdue.
  - unfold renew. destruct (update_owned _ _ _ _) eqn:E; [|done]. by eapply update_other_lookup.
  - unfold succeed, transition in H. destruct (update_owned _ _ _ _) eqn:E; [|done].
    injection H as <-. by eapply update_other_lookup.
  - unfold fail, transition in H. destruct (update_owned _ _ _ _) eqn:E; [|done].
    injection H as <-. by eapply update_other_lookup.
  - apply map_lookup_filter_Some. split; [done|]. apply owns_spec in Ho as [Hs _]. by rewrite Hs; intros [? _].
Qed.

Lemma other_steps_preserve owner expires t t' id j :
  rtc (other_step owner expires) t t' → t !! id = Some j → owns owner j = true →
  lease_expires_at j = Some expires → t' !! id = Some j.
Proof. induction 1; [done|]. eauto using other_step_preserves. Qed.

(** C10. Until a lease expires, no sequence of steps by other workers (leases,
    renewals, transitions, enqueues, the retention) changes the leased row. *)
Theorem lease_excludes_others owner expires id j t t' :
  t !! id = Some j → owns owner j = true → lease_expires_at j = Some expires →
  rtc (other_step owner expires) t t' →
  t' !! id = Some j.
Proof. intros. by eapply other_steps_preserve. Qed.

Lemma lease_excludes_others_witness :
  let k := {| organization_id := "o"; job_kind := "sync"; dedupe_key := "d" |} in
  let j := take_lease "w" 31000 1000 (new_job k (JObject []) 0 0) in
  let t := {[ "a" := j ]} in
  (lease "v" 5 30 31000 ∅ t).2 !! "a" = Some j.
Proof.
  intros k j t. refine (lease_excludes_others "w" 31000 "a" j t _ _ _ _ _);
    [vm_compute; reflexivity..|].
  apply rtc_once. exists "v", 31000. split; [discriminate|]. split; [lia|]. apply step_lease.
Defined.

(** ** Every due job is served *)

(** [n] polls by [owner] at the same time, without competition. *)
Fixpoint leases (n : nat) (owner : string) (limit : nat) (leaseSeconds now : Z) (t : Table) : Table :=
  match n with
  | O => t
  | S n => leases n owner limit leaseSeconds now (lease owner limit leaseSeconds now ∅ t).2
  end.

(** The rows a poll at [now] may lease, an expired lease among them. *)
Definition waiting (now : Z) (t : Table) : gset string :=
  dom (filter (λ '(_, j), due now j = true) (expire now <$> t)).

Lemma elem_of_waiting now t id :
  id ∈ waiting now t ↔ ∃ j, t !! id = Some j ∧ due now (expire now j) = true.
Proof.
  unfold waiting. rewrite elem_of_dom. unfold is_Some. setoid_rewrite map_lookup_filter_Some.
  setoid_rewrite lookup_fmap_Some. naive_solver.
Qed.

Lemma expire_idempotent now j : expire now (expire now j) = expire now j.
Proof.
  unfold expire at 2 3.
  destruct (state j) eqn:Hs; try (unfold expire; by rewrite Hs).
  destruct (lease_expires_at j) as [e|] eqn:He; [|unfold expire; by rewrite Hs, He].
  destruct (e <? now) eqn:E; [done|]. unfold expire. by rewrite Hs, He, E.
Qed.

(** A row just leased stays as it is in the following polls. *)
Lemma leases_keep n owner limit leaseSeconds now t id j :
  t !! id = Some j → owns owner j = true → due now j = false → expire now j = j →
  leases n owner limit leaseSeconds now t !! id = Some j.
Proof.
  revert t. induction n as [|n IH]; intros t Hj Ho Hd He; cbn; [done|].
  apply IH; [|done..]. rewrite lease_lookup, Hj. cbn. rewrite He.
  rewrite bool_decide_eq_false_2; [done|].
  intros ([i j'] & -> & (Hl & Hdue & _)%elem_of_selected_rows)%list_elem_of_fmap.
  cbn in Hj. rewrite lookup_fmap, Hj in Hl. cbn in Hl. rewrite He in Hl. congruence.
Qed.

(** The ids a poll selects: as many waiting ones as the limit allows. *)
Lemma selected_ids limit now t :
  let ids := list_to_set (selected_rows limit now ∅ (expire now <$> t)).*1 : gset string in
  ids ⊆ waiting now t ∧ size ids = Nat.min limit (size (waiting now t)).
Proof.
  set (rows := selected_rows limit now ∅ (expire now <$> t)).
  assert (List.filter (λ '(id, j), due now j && negb (bool_decide (id ∈ (∅ : gset string))))
            (map_to_list (expire now <$> t)) ≡ₚ
          map_to_list (filter (λ '(_, j), due now j = true) (expire now <$> t))) as Hperm.
  { apply NoDup_Permutation.
    - apply NoDup_ListNoDup, List.NoDup_filter, NoDup_ListNoDup, NoDup_map_to_list.
    - apply NoDup_map_to_list.
    - intros [id j]. rewrite list_elem_of_In, filter_In, <- list_elem_of_In, !elem_of_map_to_list,
        map_lookup_filter_Some, andb_true_iff, negb_true_iff, bool_decide_eq_false.
      set_solver. }
  assert (length rows = Nat.min limit (size (waiting now t))) as Hlen.
  { unfold rows, selected_rows. rewrite length_take, length_sort_by, Hperm. unfold waiting.
    by rewrite size_dom, length_map_to_list. }
  assert (NoDup rows.*1) as Hnd.
  { assert (NoDup (sort_by job_leb (List.filter (λ '(id, j), due now j && negb (bool_decide (id ∈ (∅ : gset string))))
      (map_to_list (expire now <$> t)))).*1) as Hall.
    { rewrite sort_by_perm, Hperm. apply NoDup_fst_map_to_list. }
    unfold rows, selected_rows. rewrite fmap_take. revert Hall.
    rewrite <- (take_drop limit (sort_by _ _).*1) at 1. by intros [? _]%NoDup_app. }
  cbn. split.
  - intros id. rewrite elem_of_list_to_set. intros ([i j] & -> & Hin)%list_elem_of_fmap.
    apply elem_of_selected_rows in Hin as (Hl & Hd & _). cbn.
    apply lookup_fmap_Some in Hl as (j0 & <- & Hj0). apply elem_of_waiting. eauto.
  - rewrite size_list_to_set by done. by rewrite length_fmap.
Qed.

Lemma waiting_after_lease owner limit leaseSeconds now t :
  0 ≤ leaseSeconds →
  waiting now (lease owner limit leaseSeconds now ∅ t).2 =
  waiting now t ∖ list_to_set (selected_rows limit now ∅ (expire now <$> t)).*1.
Proof.
  intros Hs. apply leibniz_equiv. intros id.
  rewrite elem_of_difference, elem_of_list_to_set, !elem_of_waiting.
  setoid_rewrite lease_lookup. case_bool_decide as Hin.
  - split; [|by intros [_ []]]. intros (j & Hj & Hdue).
    apply fmap_Some in Hj as (j1 & Hj1 & ->). unfold expire in Hdue. cbn in Hdue.
    case_match; [lia|]. discriminate.
  - split.
    + intros (j & Hj & Hdue). split; [|done]. apply fmap_Some in Hj as (j1 & Hj1 & ->).
      rewrite expire_idempotent in Hdue. eauto.
    + intros [(j & -> & Hdue) _]. exists (expire now j). cbn. by rewrite expire_idempotent.
Qed.

Lemma leases_serve n owner limit leaseSeconds now t id j :
  (0 < limit)%nat → 0 ≤ leaseSeconds → (size (waiting now t) ≤ n * limit)%nat →
  t !! id = Some j → due now (expire now j) = true →
  leases n owner limit leaseSeconds now t !! id =
    Some (take_lease owner (now + leaseSeconds * 1000) now (expire now j)).
Proof.
  intros Hlim Hs. revert t j. induction n as [|n IH]; intros t j Hsize Hj Hdue.
  - exfalso. assert (id ∈ waiting now t) as Hin by (apply elem_of_waiting; eauto).
    assert (waiting now t ≡ ∅) as Hempty by (apply size_empty_iff; lia). set_solver.
  - cbn. pose proof (lease_lookup owner limit leaseSeconds now ∅ t id) as Hl.
    rewrite Hj in Hl. cbn in Hl. case_bool_decide as Hin; cbn in Hl.
    + apply leases_keep; [done| |done|].
      * apply owns_spec. done.
      * eapply expire_before; [done|lia].
    + erewrite IH; [by rewrite expire_idempotent| |exact Hl|by rewrite expire_idempotent].
      rewrite waiting_after_lease by done.
      destruct (selected_ids limit now t) as [Hsub Hsel]. cbn in Hsub, Hsel.
      rewrite size_difference, Hsel by done. lia.
Qed.

(** A pool that polls often enough serves every job that is due: after [n]
    polls of [limit] rows each, with [n * limit] at least the number of waiting
    rows, every waiting row, those of crashed workers whose lease expired
    among them, is leased with one more attempt. *)
Theorem lease_serves_all n owner limit leaseSeconds now t id j :
  (0 < limit)%nat → 0 ≤ leaseSeconds → (size (waiting now t) ≤ n * limit)%nat →
  t !! id = Some j →
  due now j = true ∨
    (state j = leased ∧ run_after j ≤ now ∧ ∃ e, lease_expires_at j = Some e ∧ e < now) →
  ∃ j', leases n owner limit leaseSeconds now t !! id = Some j' ∧
    owns owner j' = true ∧ lease_expires_at j' = Some (now + leaseSeconds * 1000) ∧
    attempt_count j' = attempt_count j + 1 ∧ payload j' = payload j ∧ key j' = key j.
Proof.
  intros Hlim Hs Hsize Hj Hcase.
  assert (due now (expire now j) = true ∧ attempt_count (expire now j) = attempt_count j ∧
    payload (expire now j) = payload j ∧ key (expire now j) = key j) as (Hdue & Ha & Hp & Hk).
  { destruct Hcase as [Hdue|(Hst & Hrun & e & He & Hlt)]; unfold expire.
    - destruct (state j) eqn:Hst; try done. unfold due in Hdue. by rewrite Hst in Hdue.
    - rewrite Hst, He. apply Z.ltb_lt in Hlt as ->. repeat split. by apply Z.leb_le. }
  eexists. split; [by eapply leases_serve|]. cbn. rewrite Ha, Hp, Hk.
  repeat split. by apply owns_spec.
Qed.

Lemma lease_serves_all_witness :
  let k d := {| organization_id := "o"; job_kind := "sync"; dedupe_key := d |} in
  let t := {[ "a" := new_job (k "1") (JObject []) 0 0; "b" := new_job (k "2") (JObject []) 5 0;
              "c" := take_lease "crashed" 900 100 (new_job (k "3") (JObject []) 0 0) ]} in
  ∃ j', leases 2 "w" 2 30 1000 t !! "c" = Some j' ∧
    owns "w" j' = true ∧ lease_expires_at j' = Some 31000 ∧
    attempt_count j' = 2 ∧ payload j' = JObject [] ∧ key j' = k "3".
Proof.
  intros k t.
  refine (lease_serves_all 2 "w" 2 30 1000 t "c" (take_lease "crashed" 900 100 (new_job (k "3") (JObject []) 0 0)) _ _ _ _ _);
    [lia|lia|vm_compute; repeat constructor|vm_compute; reflexivity|].
  right. split; [reflexivity|]. split; [vm_compute; discriminate|]. exists 900. split; [reflexivity|lia].
Defined.

(** ** The worker *)

(** What changes the table while a job runs: the other transactions, and the
    renewals of the worker. *)
Inductive run_step (id owner : string) (leaseSeconds : Z) (s : Schedule) (t : Table) : Table → Prop :=
| run_beat environment now : Beat environment now ∈ beats s → run_step id owner leaseSeconds s t (environment t)
| run_beat_error environment : BeatError environment ∈ beats s → run_step id owner leaseSeconds s t (environment t)
| run_before_confirm : run_step id owner leaseSeconds s t (before_confirm s t)
| run_before_transition : run_step id owner leaseSeconds s t (before_transition s t)
| run_renewal now : run_step id owner leaseSeconds s t (renew id owner leaseSeconds now t).2.

Lemma heartbeats_run id owner leaseSeconds s bs t lost :
  bs ⊆ beats s →
  rtc (run_step id owner leaseSeconds s) t (heartbeats id owner leaseSeconds bs (t, lost)).1.
Proof.
  revert t lost. induction bs as [|b bs IH]; intros t lost Hbs; cbn; [constructor|].
  assert (bs ⊆ beats s) as Hbs' by set_solver. assert (b ∈ beats s) as Hb by set_solver.
  destruct b as [environment now|environment].
  - eapply rtc_l; [by eapply run_beat|]. destruct lost; [by apply IH|].
    eapply rtc_l; [apply (run_renewal _ _ _ _ _ now)|].
    destruct (renew _ _ _ _ _) as [renewed t']. by apply IH.
  - eapply rtc_l; [by eapply run_beat_error|]. by apply IH.
Qed.

(** C11. The worker records an outcome only while it owns the lease: its run is a
    sequence of renewals and of steps of the others, followed, unless the lease
    was lost, by exactly one terminal update of the row, which the worker owns
    at that moment; [succeeded] is recorded for a dispatch that returned and
    [failed] for one that threw. *)
Theorem processLeasedJob_records_while_owning job owner leaseSeconds dispatched s t result t' :
  processLeasedJob job owner leaseSeconds dispatched s t = (result, t') →
  ∃ t2, rtc (run_step (leased_id job) owner leaseSeconds s) t t2 ∧
    match result with
    | lease_lost => t' = t2
    | job_succeeded => dispatched = None ∧ ∃ j, t2 !! leased_id job = Some j ∧ owns owner j = true ∧
        t' = <[leased_id job := mark_succeeded (transition_at s) j]> t2
    | job_failed => ∃ error, dispatched = Some error ∧
        ∃ j, t2 !! leased_id job = Some j ∧ owns owner j = true ∧
        t' = <[leased_id job := mark_failed error (attemptCount job) (jitter s) (transition_at s) j]> t2
    end.
Proof.
  unfold processLeasedJob. set (id := leased_id job). intros H.
  pose proof (heartbeats_run id owner leaseSeconds s (beats s) t false (reflexivity _)) as Hrun.
  destruct (heartbeats _ _ _ _ _) as [t0 lost]. cbn [fst] in Hrun.
  pose proof (rtc_r _ _ _ Hrun (run_before_confirm _ _ _ _ _)) as Hrun1.
  destruct lost; [injection H as <- <-; eauto|].
  pose proof (rtc_r _ _ _ Hrun1 (run_renewal _ _ _ _ _ (confirm_at s))) as Hrun2.
  destruct (renew _ _ _ _ _) as [confirmed t1]. cbn [snd] in Hrun2.
  destruct confirmed; cbn [negb] in H; [|injection H as <- <-; eauto].
  pose proof (rtc_r _ _ _ Hrun2 (run_before_transition _ _ _ _ _)) as Hrun3.
  eexists. split; [exact Hrun3|].
  destruct dispatched as [error|].
  - destruct (fail _ _ _ _ _ _ _) eqn:E; injection H as <- <-;
      [apply transition_Ok in E; eauto|done].
  - destruct (succeed _ _ _ _) eqn:E; injection H as <- <-;
      [apply transition_Ok in E; eauto|done].
Qed.

Section worker_example.
Definition example_key : JobKey := {| organization_id := "o"; job_kind := "sync"; dedupe_key := "d" |}.
Definition example_row : Job := take_lease "w" 31000 1000 (new_job example_key (JObject []) 0 0).
Definition example_job : LeasedJob :=
  {| leased_id := "a"; leased_key := example_key; leased_payload := JObject []; attemptCount := 1 |}.
(** One heartbeat in time, then a rival polls before the outcome is recorded. *)
Definition example_schedule (rival_at : Z) : Schedule :=
  {| beats := [BeatError (λ t, t); Beat (λ t, t) 21000]; before_confirm := λ t, t; confirm_at := 40000;
     before_transition := λ t, (lease "v" 5 30 rival_at ∅ t).2; transition_at := 70500; jitter := 7 |}.
End worker_example.

Lemma processLeasedJob_records_while_owning_witness :
  let t := {[ "a" := example_row ]} in
  (processLeasedJob example_job "w" 30 None (example_schedule 60000) t).1 = job_succeeded ∧
  (processLeasedJob example_job "w" 30 None (example_schedule 70001) t).1 = lease_lost ∧
  ∃ t2, rtc (run_step "a" "w" 30 (example_schedule 60000)) t t2 ∧
    (None : option JobError) = None ∧ ∃ j, t2 !! "a" = Some j ∧ owns "w" j = true ∧
      (processLeasedJob example_job "w" 30 None (example_schedule 60000) t).2 =
        <["a" := mark_succeeded 70500 j]> t2.
Proof.
  intros t. split; [vm_compute; reflexivity|]. split; [vm_compute; reflexivity|].
  refine (processLeasedJob_records_while_owning example_job "w" 30 None (example_schedule 60000) t
    job_succeeded _ _). vm_compute. reflexivity.
Defined.

(** The other transactions keep within the lease: until each heartbeat, and
    between the last steps, they are runs of other workers not after the
    expiry the row has at that point. *)
Definition harmless (owner : string) (expires : Z) (environment : Table → Table) : Prop :=
  ∀ t, rtc (other_step owner expires) t (environment t).

Fixpoint heartbeats_in_time (owner : string) (leaseSeconds expires : Z) (bs : list beat) (rest : Z → Prop) : Prop :=
  match bs with
  | [] => rest expires
  | Beat environment now :: bs =>
      harmless owner expires environment ∧
      heartbeats_in_time owner leaseSeconds (now + leaseSeconds * 1000) bs rest
  | BeatError environment :: bs =>
      harmless owner expires environment ∧ heartbeats_in_time owner leaseSeconds expires bs rest
  end.

Definition run_in_time (owner : string) (leaseSeconds expires : Z) (s : Schedule) : Prop :=
  heartbeats_in_time owner leaseSeconds expires (beats s) (λ expires,
    harmless owner expires (before_confirm s) ∧
    harmless owner (confirm_at s + leaseSeconds * 1000) (before_transition s)).

(** The lease of [owner] on a row, until [expires]. *)
Definition leased_until (id owner : string) (expires : Z) (t : Table) : Prop :=
  ∃ j, t !! id = Some j ∧ owns owner j = true ∧ lease_expires_at j = Some expires.

Lemma harmless_keeps id owner expires environment t :
  harmless owner expires environment → leased_until id owner expires t →
  leased_until id owner expires (environment t).
Proof. intros Hh (j & Hj & Ho & He). exists j. split; [|done]. eapply other_steps_preserve; [apply Hh|done..]. Qed.

Lemma renew_keeps id owner expires leaseSeconds now t :
  leased_until id owner expires t →
  ∃ t', renew id owner leaseSeconds now t = (true, t') ∧
        leased_until id owner (now + leaseSeconds * 1000) t'.
Proof.
  intros (j & Hj & Ho & He).
  destruct (renew_cases id owner leaseSeconds now t) as [(j' & Hj' & Ho' & ->)|[_ Hno]].
  - eexists. split; [done|]. eexists. rewrite lookup_insert_eq. split; [done|]. split; [|done].
    apply owns_spec. apply owns_spec in Ho'. exact Ho'.
  - specialize (Hno j Hj). congruence.
Qed.

Lemma heartbeats_keep id owner leaseSeconds expires bs rest t :
  heartbeats_in_time owner leaseSeconds expires bs rest → leased_until id owner expires t →
  ∃ t' expires', heartbeats id owner leaseSeconds bs (t, false) = (t', false) ∧
    leased_until id owner expires' t' ∧ rest expires'.
Proof.
  revert expires t. induction bs as [|[environment now|environment] bs IH]; intros expires t; cbn.
  - eauto.
  - intros [Hh Hbs] Hl. apply (harmless_keeps _ _ _ environment) in Hl; [|done].
    destruct (renew_keeps _ _ _ leaseSeconds now _ Hl) as (t' & -> & Hl'). by eapply IH.
  - intros [Hh Hbs] Hl. apply (harmless_keeps _ _ _ environment) in Hl; [|done]. by eapply IH.
Qed.

(** A worker whose heartbeats are in time never loses its job: if the other
    workers act on the table before the lease they see expires, the run ends
    with the outcome of the dispatch recorded in the row. *)
Theorem processLeasedJob_completes job owner leaseSeconds dispatched s t expires :
  leased_until (leased_id job) owner expires t →
  run_in_time owner leaseSeconds expires s →
  ∃ t' j', processLeasedJob job owner leaseSeconds dispatched s t =
      (match dispatched with None => job_succeeded | Some _ => job_failed end, t') ∧
    t' !! leased_id job = Some j' ∧
    state j' = match dispatched with
               | None => succeeded
               | Some error => if is_dead error (attemptCount job) then dead else retry
               end.
Proof.
  intros Hl Hs. unfold processLeasedJob.
  destruct (heartbeats_keep _ _ _ _ _ _ _ Hs Hl) as (t0 & e0 & -> & Hl0 & Hc & Ht). cbn iota.
  apply (harmless_keeps _ _ _ (before_confirm s)) in Hl0; [|done].
  destruct (renew_keeps _ _ _ leaseSeconds (confirm_at s) _ Hl0) as (t1 & -> & Hl1). cbn [negb].
  apply (harmless_keeps _ _ _ (before_transition s)) in Hl1; [|done].
  destruct Hl1 as (j & Hj & Ho & _). unfold fail, succeed, transition, update_owned. rewrite Hj. cbn.
  rewrite Ho. destruct dispatched; cbn; do 2 eexists; (split; [done|]); by rewrite lookup_insert_eq.
Qed.

Lemma processLeasedJob_completes_witness :
  let t := {[ "a" := example_row ]} in
  let error := {| explicitlyNonRetryable := false; error_code := "timeout" |} in
  ∃ t' j', processLeasedJob example_job "w" 30 (Some error) (example_schedule 70000) t = (job_failed, t') ∧
    t' !! "a" = Some j' ∧ state j' = retry.
Proof.
  intros t error.
  refine (processLeasedJob_completes example_job "w" 30 (Some error) (example_schedule 70000) t 31000 _ _).
  - exists example_row. split; [vm_compute; reflexivity|]. split; vm_compute; reflexivity.
  - split; [intros ?; constructor|]. split; [intros ?; constructor|]. split; [intros ?; constructor|].
    intros t0. apply rtc_once. exists "v", 70000. split; [discriminate|]. split; [vm_compute; discriminate|].
    apply step_lease.
Defined.

(** The delay before a failed job is retried: between [2^n] and [2^n + 1]
    seconds after attempt [n], so at most 513 seconds, and the cap of one hour
    never binds; attempt 10 and an explicitly non-retryable error are the last,
    and only a worker that owns the row moves it. *)
Theorem fail_backs_off id owner error attemptCount random now t t' :
  1 ≤ attemptCount → 0 ≤ random < 1000 →
  fail id owner error attemptCount random now t = Ok t' →
  ∃ j j', t !! id = Some j ∧ owns owner j = true ∧ t' = <[id := j']> t ∧
    lease_owner j' = None ∧ key j' = key j ∧
    (state j' = dead ↔ explicitlyNonRetryable error = true ∨ 10 ≤ attemptCount) ∧
    (state j' = retry → attemptCount ≤ 9 ∧
       now + 2 ^ attemptCount * 1000 ≤ run_after j' < now + 2 ^ attemptCount * 1000 + 1000 ∧
       run_after j' < now + 513000).
Proof.
  intros Hn Hr (j & Hj & Ho & ->)%transition_Ok. exists j. eexists. do 3 (split; [done|]).
  cbn [lease_owner key state run_after mark_failed]. do 2 (split; [done|]).
  unfold is_dead, MAX_ATTEMPTS.
  destruct (explicitlyNonRetryable error); cbn [orb]; [split; [tauto|discriminate]|].
  destruct (10 <=? attemptCount) eqn:E; bool_to_prop.
  - split; [split; [right; lia|done]|discriminate].
  - split; [split; [discriminate|intros [?|?]; [discriminate|lia]]|]. intros _.
    assert (2 ^ attemptCount ≤ 2 ^ 9) as Hpow by (apply Z.pow_le_mono_r; lia).
    change (2 ^ 9) with 512 in Hpow. unfold retry_delay, MAX_DELAY.
    rewrite (Z.min_l attemptCount 10), Z.min_r by lia. lia.
Qed.

Lemma fail_backs_off_witness :
  let error := {| explicitlyNonRetryable := false; error_code := "timeout" |} in
  let t : Table := {[ "a" := example_row ]} in
  ∃ j j', t !! "a" = Some j ∧ owns "w" j = true ∧
    <["a" := mark_failed error 3 250 2000 example_row]> t = <["a" := j']> t ∧
    lease_owner j' = None ∧ key j' = key j ∧
    (state j' = dead ↔ false = true ∨ 10 ≤ 3) ∧
    (state j' = retry → 3 ≤ 9 ∧ 10000 ≤ run_after j' < 11000 ∧ run_after j' < 515000).
Proof.
  intros error t. refine (fail_backs_off "a" "w" error 3 250 2000 t _ _ _ _); [lia|lia|].
  vm_compute. reflexivity.
Defined.

(** ** A job is enqueued once *)

(** A step at a time between [from] and [until]. *)
Definition step_within (from until : Z) (t t' : Table) : Prop :=
  ∃ actor now, from ≤ now ≤ until ∧ queue_step actor now t t'.

(** A row the retention keeps until [from + RETENTION]. *)
Definition kept_row (k : JobKey) (from : Z) (id : string) (t : Table) : Prop :=
  ∃ j, t !! id = Some j ∧ key j = k ∧ (active (state j) = true ∨ from ≤ updated_at j).

Lemma kept_row_insert k from id id' t f :
  kept_row k from id t → (∀ j, t !! id' = Some j → key (f j) = key j ∧ from ≤ updated_at (f j)) →
  ∀ j', t !! id' = Some j' → kept_row k from id (<[id' := f j']> t).
Proof.
  intros (j & Hj & Hk & Hu) Hf j' Hj'. destruct (decide (id' = id)) as [->|Hne].
  - exists (f j'). rewrite lookup_insert_eq. simplify_eq. destruct (Hf j Hj) as [-> ?]. auto.
  - exists j. by rewrite lookup_insert_ne.
Qed.

Lemma kept_row_step k from until id t t' :
  until ≤ from + RETENTION → kept_row k from id t → step_within from until t t' → kept_row k from id t'.
Proof.
  intros Hret Hkept (actor & now & Hnow & Hstep).
  destruct Hstep as [k' p ra i r t0 H|k' p ra i r t0 H|limit secs locked|i secs|i t0 H|i e a rnd t0 H|].
  - destruct Hkept as (j & Hj & ?). exists j. split; [by eapply enqueue_lookup|done].
  - apply enqueueOnce_Ok in H as [(_ & -> & _)|[_ H]]; [done|].
    destruct Hkept as (j & Hj & ?). exists j. split; [by eapply enqueue_lookup|done].
  - destruct Hkept as (j & Hj & Hk & Hu). unfold kept_row. rewrite lease_lookup, Hj. cbn.
    assert (updated_at (expire now j) = updated_at j) as Hexp by (unfold expire; by repeat case_match).
    destruct (expire_fields now j) as (Hke & Ha & _).
    case_bool_decide; eexists; (split; [reflexivity|]); cbn; (split; [congruence|]);
      rewrite ?Hexp, ?Ha; [left; reflexivity|done].
  - destruct (renew_cases i actor secs now t) as [(j & Hj & _ & ->)|[-> _]]; [|done].
    eapply kept_row_insert; [done| |done]. cbn. intros. split; [done|lia].
  - apply transition_Ok in H as (j & Hj & _ & ->).
    eapply kept_row_insert; [done| |done]. cbn. intros. split; [done|lia].
  - apply transition_Ok in H as (j & Hj & _ & ->).
    eapply kept_row_insert; [done| |done]. cbn. intros. split; [done|lia].
  - destruct Hkept as (j & Hj & Hk & Hu). exists j. split; [|done].
    apply map_lookup_filter_Some. split; [done|]. unfold terminal.
    intros [Ht%negb_true_iff ?]. destruct Hu; [congruence|lia].
Qed.

Lemma kept_row_steps k from until id t t' :
  until ≤ from + RETENTION → kept_row k from id t → rtc (step_within from until) t t' → kept_row k from id t'.
Proof. intros Hu Hk Hrun. induction Hrun; eauto using kept_row_step. Qed.

(** A job that [enqueueOnce] has inserted is not inserted again for seven
    days, whatever the workers make of it: leased, retried, succeeded, dead or
    cleaned up. *)
Theorem enqueueOnce_is_once k payload runAfter id now t t1 t2 payload' runAfter' id' now' r t3 :
  enqueueOnce k payload runAfter id now t = Ok (Some id, t1) →
  rtc (step_within now (now + RETENTION)) t1 t2 →
  enqueueOnce k payload' runAfter' id' now' t2 = Ok (r, t3) →
  r = None ∧ t3 = t2.
Proof.
  intros Hfirst Hrun Hsecond.
  assert (kept_row k now id t1) as Hkept.
  { apply enqueueOnce_Ok in Hfirst as [(? & _)|[_ Hfirst]]; [done|].
    apply enqueue_Ok in Hfirst as [[? _]|(_ & _ & -> & _)]; [done|].
    eexists. rewrite lookup_insert_eq. split; [done|]. cbn. auto. }
  assert (kept_row k now id t2) as (j & Hj & Hk & _).
  { by eapply kept_row_steps. }
  apply enqueueOnce_Ok in Hsecond as [(? & ? & _)|[Hnone _]]; [done|].
  rewrite any_row_false in Hnone. specialize (Hnone id j Hj).
  apply bool_decide_eq_false_1 in Hnone. congruence.
Qed.

Lemma enqueueOnce_is_once_witness :
  let t1 : Table := {[ "a" := new_job example_key (JObject []) 0 1000 ]} in
  let t2 : Table := {[ "a" := mark_succeeded 5000 (take_lease "w" 32000 2000 (new_job example_key (JObject []) 0 1000)) ]} in
  (None : option string) = None ∧ t2 = t2.
Proof.
  intros t1 t2.
  refine (enqueueOnce_is_once example_key (JObject []) 0 "a" 1000 ∅ t1 t2 (JObject []) 0 "b" 6000 None t2 _ _ _);
    [vm_compute; reflexivity| |vm_compute; reflexivity].
  apply (rtc_l _ _ {[ "a" := take_lease "w" 32000 2000 (new_job example_key (JObject []) 0 1000) ]}).
  - exists "w", 2000. split; [split; vm_compute; discriminate|].
    refine (eq_rect _ (queue_step "w" 2000 t1) (step_lease "w" 2000 t1 1 30 ∅) _ _). vm_compute. reflexivity.
  - apply rtc_once. exists "w", 5000. split; [split; vm_compute; discriminate|].
    apply (step_succeed _ _ _ "a"). vm_compute. reflexivity.
Defined.
