(* ===== verification/Scheduler.v ===== *)
(** * The scheduler

    [server/src/scheduler.ts]: what [Scheduler.tick] reads of the database, the
    jobs it asks for, in its order, through the methods of [Jobs], and what
    [cleanup] deletes. Times are milliseconds. *)

From S2P Require Import Prelude Canonical Jobs.
From stdpp Require Import options.
Open Scope Z_scope.

(** ** What a tick reads *)

Record Connection := {
  connection_id : string;
  connection_organization : string;
  connection_status : string;
  intended_role : string;
}.

Record CalendarRow := {
  calendar_id : string;
  calendar_organization : string;
  calendar_connection : string;
  readable : bool;
}.

(** A row of [sync_policies], [planning_rules] or [conflict_response_rules]. *)
Record RuleRow := {
  rule_id : string;
  rule_organization : string;
  rule_status : string;
  revision : Z;
}.

Record Database := {
  organizations : list string;
  provider_connections : list Connection;
  calendar_endpoints : list CalendarRow;
  sync_policies : list RuleRow;
  planning_rules : list RuleRow;
  conflict_response_rules : list RuleRow;
}.

(** [order by id asc]. *)
Definition by_id {A} (id : A → string) : list A → list A := sort_by (λ x y, text_leb (id x) (id y)).

Definition active_connections (organization : string) (db : Database) : list Connection :=
  by_id connection_id (List.filter (λ c,
    bool_decide (connection_organization c = organization) && bool_decide (connection_status c = "active"))
    (provider_connections db)).

(** The inner join with the connections. *)
Definition source_calendars (organization : string) (db : Database) : list CalendarRow :=
  by_id calendar_id (flat_map (λ c,
    List.map (λ _, c) (List.filter (λ connection,
      bool_decide (connection_id connection = calendar_connection c) &&
      (bool_decide (intended_role connection = "source") || bool_decide (intended_role connection = "both")))
      (provider_connections db)))
    (List.filter (λ c, bool_decide (calendar_organization c = organization) && readable c)
      (calendar_endpoints db))).

Definition active_rules (organization : string) (rules : list RuleRow) : list RuleRow :=
  by_id rule_id (List.filter (λ r,
    bool_decide (rule_organization r = organization) && bool_decide (rule_status r = "active")) rules).

(** ** What a tick asks for *)

Definition DISCOVERY_WINDOW_MILLISECONDS : Z := 60 * 60000.
Definition RECONCILE_WINDOW_MILLISECONDS : Z := 15 * 60000.
Definition DESTINATION_VERIFICATION_INTERVAL_MILLISECONDS : Z := 15 * 60000.

Record Windows := { discoveryWindow : Z; reconcileWindow : Z; destinationVerificationWindow : Z }.

Definition windows_at (now : Z) : Windows :=
  {| discoveryWindow := now / DISCOVERY_WINDOW_MILLISECONDS;
     reconcileWindow := now / RECONCILE_WINDOW_MILLISECONDS;
     destinationVerificationWindow := now / DESTINATION_VERIFICATION_INTERVAL_MILLISECONDS |}.

(** A call of [enqueueOnce] or, for the calendars, of [enqueue]. *)
Record Request := { once : bool; request_key : JobKey; request_payload : json }.

Definition request (once : bool) (organization kind dedupeKey : string) (payload : list (string * json)) : Request :=
  {| once := once;
     request_key := {| organization_id := organization; job_kind := kind; dedupe_key := dedupeKey |};
     request_payload := JObject payload |}.

(** [`${prefix}:${id}:revision:${revision}:${label}:${window}`]. *)
Definition rule_dedupe (prefix label : string) (window : Z) (r : RuleRow) : string :=
  prefix +:+ (":" +:+ (rule_id r +:+ (":revision:" +:+ (pretty (revision r) +:+
    (":" +:+ (label +:+ (":" +:+ pretty window))))))).

Definition organization_requests (planningEnabled : bool) (w : Windows) (db : Database) (organization : string)
    : list Request :=
  map (λ c, request true organization "discover_calendars"
        ("connection:" +:+ (connection_id c +:+ (":window:" +:+ pretty (discoveryWindow w))))
        [("connection_id", JString (connection_id c))])
    (active_connections organization db)
  ++ map (λ c, request false organization "sync_calendar" ("calendar:" +:+ calendar_id c)
        [("calendar_id", JString (calendar_id c))])
    (source_calendars organization db)
  ++ map (λ r, request true organization "reconcile_policy" (rule_dedupe "policy" "safety" (reconcileWindow w) r)
        [("policy_id", JString (rule_id r))])
    (active_rules organization (sync_policies db))
  ++ map (λ r, request true organization "reconcile_planning_rule"
        (rule_dedupe "planning-rule" "window" (reconcileWindow w) r) [("rule_id", JString (rule_id r))])
    (if planningEnabled then active_rules organization (planning_rules db) else [])
  ++ map (λ r, request true organization "reconcile_conflict_response_rule"
        (rule_dedupe "conflict-response-rule" "window" (reconcileWindow w) r) [("rule_id", JString (rule_id r))])
    (active_rules organization (conflict_response_rules db))
  ++ [request true organization "verify_destinations"
        ("organization:" +:+ (organization +:+ (":window:" +:+ pretty (destinationVerificationWindow w)))) []].

Definition tick_requests (planningEnabled : bool) (w : Windows) (db : Database) : list Request :=
  flat_map (organization_requests planningEnabled w db) (by_id (λ id, id) (organizations db)).

(** ** The tick *)

Definition perform (now : Z) (newId : string) (r : Request) (t : Table) : res queue_error (option string * Table) :=
  (if once r then enqueueOnce else enqueue) (request_key r) (request_payload r) now newId now t.

(** The requests of the transaction, with the ids [newId] gives them. *)
Fixpoint perform_all (now : Z) (newId : nat → string) (n : nat) (requests : list Request) (t : Table)
    : res queue_error Table :=
  match requests with
  | [] => Ok t
  | r :: requests =>
      '(_, t) ← perform now (newId n) r t;
      perform_all now newId (S n) requests t
  end.

(** [tick]: the transaction, then the retention of the jobs. *)
Definition tick (planningEnabled : bool) (db : Database) (now : Z) (newId : nat → string) (t : Table)
    : res queue_error Table :=
  t ← perform_all now newId 0 (tick_requests planningEnabled (windows_at now) db) t;
  Ok (cleanup_jobs now t).

(** ** The retention *)

Record Expiring := { expiring_id : string; expires_at : Z }.
Record Suggestion := { suggestion_id : string; suggestion_status : string; suggestion_expires_at : Z; suggestion_updated_at : Z }.
Record Credential := { credential_id : string; credential_expires_at : Z; revoked_at : option Z }.
Record OutboxRow := { outbox_id : string; outbox_state : string; outbox_updated_at : Z }.

Record Retained := {
  policy_previews : list Expiring;
  planning_previews : list Expiring;
  conflict_response_previews : list Expiring;
  planning_suggestions : list Suggestion;
  browser_sessions : list Credential;
  api_tokens : list Credential;
  scheduled_jobs : Table;
  outbox_effects : list OutboxRow;
}.

Definition keep_expiring (cutoff : Z) : list Expiring → list Expiring :=
  List.filter (λ r, negb (expires_at r <? cutoff)).

(** [revoked_at < cutoff] is not true of a null. *)
Definition keep_credentials (cutoff : Z) : list Credential → list Credential :=
  List.filter (λ r, negb ((credential_expires_at r <? cutoff) ||
                          match revoked_at r with Some revoked => revoked <? cutoff | None => false end)).

Definition expire_suggestion (now : Z) (s : Suggestion) : Suggestion :=
  if bool_decide (suggestion_status s = "pending") && (suggestion_expires_at s <? now)
  then {| suggestion_id := suggestion_id s; suggestion_status := "expired";
          suggestion_expires_at := suggestion_expires_at s; suggestion_updated_at := now |}
  else s.

Definition cleanup (now : Z) (d : Retained) : Retained :=
  let retentionCutoff := now - RETENTION in
  {| policy_previews := keep_expiring retentionCutoff (policy_previews d);
     planning_previews := keep_expiring retentionCutoff (planning_previews d);
     conflict_response_previews := keep_expiring retentionCutoff (conflict_response_previews d);
     planning_suggestions := map (expire_suggestion now) (planning_suggestions d);
     browser_sessions := keep_credentials retentionCutoff (browser_sessions d);
     api_tokens := keep_credentials retentionCutoff (api_tokens d);
     scheduled_jobs := cleanup_jobs now (scheduled_jobs d);
     outbox_effects := List.filter (λ r,
       negb (bool_decide (outbox_state r = "succeeded") && (outbox_updated_at r <? retentionCutoff)))
       (outbox_effects d) |}.

(** ** Lemmas on the requests *)

Lemma elem_of_by_id {A} (id : A → string) xs x : x ∈ by_id id xs ↔ x ∈ xs.
Proof. apply elem_of_sort_by. Qed.

Lemma no_colon_stops w : stops (":" +:+ w).
Proof. reflexivity. Qed.

(** An id without the separator of the key texts, as a UUID is. *)
Definition plain_id (id : string) : Prop := string_forall (λ c, negb (Ascii.eqb c ":")) id = true.

Lemma window_dedupe_inj prefix x y r1 r2 :
  plain_id x → plain_id y → prefix +:+ (x +:+ (":" +:+ r1)) = prefix +:+ (y +:+ (":" +:+ r2)) → x = y ∧ r1 = r2.
Proof.
  intros Hx Hy H. apply (inj (String.append prefix)) in H. by eapply string_separator.
Qed.

Lemma rule_dedupe_inj prefix label w r1 r2 :
  plain_id (rule_id r1) → plain_id (rule_id r2) →
  rule_dedupe prefix label w r1 = rule_dedupe prefix label w r2 → rule_id r1 = rule_id r2.
Proof.
  unfold rule_dedupe. intros H1 H2 H. apply (inj (String.append prefix)) in H.
  eapply (window_dedupe_inj ":") in H as [? _]; done.
Qed.

(** The ids of the database are UUIDs as far as the key texts are concerned. *)
Record plain_database (db : Database) : Prop := {
  plain_connections : ∀ c, c ∈ provider_connections db → plain_id (connection_id c);
  plain_policies : ∀ r, r ∈ sync_policies db → plain_id (rule_id r);
  plain_planning : ∀ r, r ∈ planning_rules db → plain_id (rule_id r);
  plain_responses : ∀ r, r ∈ conflict_response_rules db → plain_id (rule_id r);
}.

Lemma elem_of_active_rules organization rules r :
  r ∈ active_rules organization rules ↔
  r ∈ rules ∧ rule_organization r = organization ∧ rule_status r = "active".
Proof.
  unfold active_rules. rewrite elem_of_by_id, list_elem_of_In, filter_In, <- list_elem_of_In,
    andb_true_iff, !bool_decide_eq_true. done.
Qed.

Lemma elem_of_active_connections organization db c :
  c ∈ active_connections organization db ↔
  c ∈ provider_connections db ∧ connection_organization c = organization ∧ connection_status c = "active".
Proof.
  unfold active_connections. rewrite elem_of_by_id, list_elem_of_In, filter_In, <- list_elem_of_In,
    andb_true_iff, !bool_decide_eq_true. done.
Qed.

(** What a request of an organization is, by kind. *)
Definition is_request (planningEnabled : bool) (w : Windows) (db : Database) (organization : string) (r : Request)
    : Prop :=
  (∃ c, c ∈ active_connections organization db ∧
     r = request true organization "discover_calendars"
       ("connection:" +:+ (connection_id c +:+ (":window:" +:+ pretty (discoveryWindow w))))
       [("connection_id", JString (connection_id c))]) ∨
  (∃ c, c ∈ source_calendars organization db ∧
     r = request false organization "sync_calendar" ("calendar:" +:+ calendar_id c)
       [("calendar_id", JString (calendar_id c))]) ∨
  (∃ p, p ∈ active_rules organization (sync_policies db) ∧
     r = request true organization "reconcile_policy" (rule_dedupe "policy" "safety" (reconcileWindow w) p)
       [("policy_id", JString (rule_id p))]) ∨
  (∃ p, planningEnabled = true ∧ p ∈ active_rules organization (planning_rules db) ∧
     r = request true organization "reconcile_planning_rule"
       (rule_dedupe "planning-rule" "window" (reconcileWindow w) p) [("rule_id", JString (rule_id p))]) ∨
  (∃ p, p ∈ active_rules organization (conflict_response_rules db) ∧
     r = request true organization "reconcile_conflict_response_rule"
       (rule_dedupe "conflict-response-rule" "window" (reconcileWindow w) p) [("rule_id", JString (rule_id p))]) ∨
  r = request true organization "verify_destinations"
    ("organization:" +:+ (organization +:+ (":window:" +:+ pretty (destinationVerificationWindow w)))) [].

Lemma elem_of_tick_requests planningEnabled w db r :
  r ∈ tick_requests planningEnabled w db ↔
  ∃ organization, organization ∈ organizations db ∧ is_request planningEnabled w db organization r.
Proof.
  unfold tick_requests. rewrite list_elem_of_In, in_flat_map.
  setoid_rewrite <- list_elem_of_In. setoid_rewrite elem_of_by_id.
  apply exist_proper. intros o. apply and_iff_compat_l.
  unfold organization_requests, is_request. rewrite !elem_of_app, !list_elem_of_fmap.
  rewrite list_elem_of_singleton.
  destruct planningEnabled; cbn; [naive_solver|]. setoid_rewrite elem_of_nil. naive_solver.
Qed.

Ltac destruct_request H :=
  destruct H as [(? & ? & ->)|[(? & ? & ->)|[(? & ? & ->)|[(? & ? & ? & ->)|[(? & ? & ->)| ->]]]]].

(** Requests of the scheduler carry an object, and only those of the calendars
    may be repeated in a window. *)
Lemma tick_request_shape planningEnabled w db r :
  r ∈ tick_requests planningEnabled w db →
  (∃ members, request_payload r = JObject members) ∧
  (once r = false → job_kind (request_key r) = "sync_calendar").
Proof.
  intros (o & _ & H)%elem_of_tick_requests.
  destruct_request H; cbn; (split; [by eexists|done]).
Qed.

(** Two requests of one tick that share a key are the same request, so no
    connection, calendar or rule loses its job to another's: the texts of the
    keys are injective in the ids. *)
Theorem tick_requests_distinct planningEnabled w db r1 r2 :
  plain_database db →
  r1 ∈ tick_requests planningEnabled w db → r2 ∈ tick_requests planningEnabled w db →
  request_key r1 = request_key r2 → r1 = r2.
Proof.
  intros [Hc Hp Hl Hr] (o1 & _ & H1)%elem_of_tick_requests (o2 & _ & H2)%elem_of_tick_requests Hkey.
  assert (o1 = o2) as <-.
  { apply (f_equal organization_id) in Hkey. destruct_request H1; destruct_request H2; exact Hkey. }
  pose proof (f_equal job_kind Hkey) as Hkind. apply (f_equal dedupe_key) in Hkey.
  destruct_request H1; destruct_request H2; cbn in Hkind; try discriminate Hkind; cbn [request request_key dedupe_key] in Hkey.
  - apply (inj (String.append "connection:")) in Hkey.
    apply (string_separator ":") in Hkey as [-> _]; [done| |];
      apply Hc; by eapply elem_of_active_connections.
  - apply (inj (String.append "calendar:")) in Hkey. by rewrite Hkey.
  - apply rule_dedupe_inj in Hkey as Heq; [by rewrite Hkey, Heq| |]; apply Hp; by eapply elem_of_active_rules.
  - apply rule_dedupe_inj in Hkey as Heq; [by rewrite Hkey, Heq| |]; apply Hl; by eapply elem_of_active_rules.
  - apply rule_dedupe_inj in Hkey as Heq; [by rewrite Hkey, Heq| |]; apply Hr; by eapply elem_of_active_rules.
  - done.
Qed.

Definition example_database : Database :=
  {| organizations := ["o"];
     provider_connections :=
       [{| connection_id := "c2"; connection_organization := "o"; connection_status := "active"; intended_role := "both" |};
        {| connection_id := "c1"; connection_organization := "o"; connection_status := "revoked"; intended_role := "source" |}];
     calendar_endpoints :=
       [{| calendar_id := "k1"; calendar_organization := "o"; calendar_connection := "c2"; readable := true |};
        {| calendar_id := "k2"; calendar_organization := "o"; calendar_connection := "c1"; readable := false |}];
     sync_policies := [{| rule_id := "p1"; rule_organization := "o"; rule_status := "active"; revision := 3 |}];
     planning_rules := [{| rule_id := "r1"; rule_organization := "o"; rule_status := "paused"; revision := 1 |}];
     conflict_response_rules := [{| rule_id := "x1"; rule_organization := "o"; rule_status := "active"; revision := 2 |}] |}.

Lemma example_database_plain : plain_database example_database.
Proof.
  split; cbn; intros x; rewrite ?elem_of_cons, elem_of_nil; intros [->|Hx]; try done; naive_solver.
Defined.

Lemma tick_requests_distinct_witness :
  let w := windows_at 7200000 in
  let r := request true "o" "reconcile_policy" "policy:p1:revision:3:safety:8" [("policy_id", JString "p1")] in
  map (λ r, dedupe_key (request_key r)) (tick_requests true w example_database) =
    ["connection:c2:window:2"; "calendar:k1"; "policy:p1:revision:3:safety:8";
     "conflict-response-rule:x1:revision:2:window:8"; "organization:o:window:8"] ∧
  r = r.
Proof.
  intros w r. split; [vm_compute; reflexivity|].
  refine (tick_requests_distinct true w example_database r r example_database_plain _ _ eq_refl);
    vm_compute; in_list.
Defined.

(** ** Lemmas on the transaction *)

(** The table holds what a request asks for. *)
Definition satisfied (r : Request) (t : Table) : Prop :=
  ∃ id j, t !! id = Some j ∧ key j = request_key r ∧ (once r = false → active (state j) = true).

Lemma satisfied_mono r t t' :
  (∀ id j, t !! id = Some j → t' !! id = Some j) → satisfied r t → satisfied r t'.
Proof. intros Hsub (id & j & Hj & ?). exists id, j. auto. Qed.

Lemma perform_satisfied now newId r t o t' :
  satisfied r t → perform now newId r t = Ok (o, t') → t' = t.
Proof.
  intros (id & j & Hj & Hk & Ha). unfold perform. destruct (once r).
  - intros [(_ & -> & _)|[Hnone _]]%enqueueOnce_Ok; [done|].
    rewrite any_row_false in Hnone. specialize (Hnone id j Hj).
    by apply bool_decide_eq_false_1 in Hnone.
  - intros [[_ ->]|(_ & _ & _ & Hfree)]%enqueue_Ok; [done|].
    by destruct (Hfree id j Hj (Ha eq_refl)).
Qed.

(** A request of an object payload with a fresh id is satisfied. *)
Lemma perform_total now newId r t members :
  request_payload r = JObject members → t !! newId = None →
  ∃ o t', perform now newId r t = Ok (o, t') ∧ satisfied r t' ∧
    ((o = None ∧ t' = t) ∨
     (o = Some newId ∧ t' = <[newId := new_job (request_key r) (request_payload r) now now]> t)).
Proof.
  intros Hp Hid.
  assert (∃ o t', enqueue (request_key r) (request_payload r) now newId now t = Ok (o, t') ∧
    (∃ id j, t' !! id = Some j ∧ key j = request_key r ∧ active (state j) = true) ∧
    ((o = None ∧ t' = t) ∨
     (o = Some newId ∧ t' = <[newId := new_job (request_key r) (request_payload r) now now]> t)))
    as (o & t' & He & Hs & Hcase).
  { unfold enqueue. rewrite Hp, Hid. cbn.
    destruct (any_row _ t) eqn:E; do 2 eexists; (split; [done|]).
    - apply any_row_spec in E as (id & j & Hj & [Ha Hk]%andb_true_iff).
      apply bool_decide_eq_true_1 in Hk. split; [by exists id, j|]. by left.
    - split; [|by right]. eexists newId, _. by rewrite lookup_insert_eq. }
  unfold perform. destruct (once r) eqn:Ho.
  - unfold enqueueOnce. rewrite Hp. cbn [assertJobPayload mbind res_bind]. destruct (any_row _ t) eqn:E.
    + apply any_row_spec in E as (id & j & Hj & Hk%bool_decide_eq_true_1).
      do 2 eexists. split; [done|]. split; [|by left]. exists id, j. rewrite Ho. done.
    + rewrite <- Hp. do 2 eexists. split; [exact He|]. split; [|done].
      destruct Hs as (id & j & ? & ? & ?). exists id, j. auto.
  - do 2 eexists. split; [exact He|]. split; [|done].
    destruct Hs as (id & j & ? & ? & ?). exists id, j. auto.
Qed.

(** What a transaction adds to the table. *)
Definition adds_for (now : Z) (requests : list Request) (t t' : Table) : Prop :=
  (∀ id j, t !! id = Some j → t' !! id = Some j) ∧
  (∀ id j, t' !! id = Some j → t !! id = Some j ∨
     ∃ r, r ∈ requests ∧ ¬ satisfied r t ∧ j = new_job (request_key r) (request_payload r) now now).

Definition fresh_ids (newId : nat → string) (n : nat) (t : Table) : Prop :=
  ∀ m, (n ≤ m)%nat → t !! newId m = None.

Lemma perform_all_spec now newId n requests t :
  (∀ m1 m2, newId m1 = newId m2 → m1 = m2) → fresh_ids newId n t →
  (∀ r, r ∈ requests → ∃ members, request_payload r = JObject members) →
  ∃ t', perform_all now newId n requests t = Ok t' ∧
    (∀ r, r ∈ requests → satisfied r t') ∧ adds_for now requests t t'.
Proof.
  intros Hinj. revert n t. induction requests as [|r requests IH]; intros n t Hfresh Hp; cbn.
  - exists t. split; [done|]. split; [set_solver|]. split; auto.
  - destruct (Hp r) as [members Hr]; [set_solver|].
    destruct (perform_total now (newId n) r t members Hr (Hfresh n ltac:(lia)))
      as (o & t1 & Hperf & Hsat & Hcase). rewrite Hperf. cbn.
    destruct (IH (S n) t1) as (t' & -> & Hall & Hkeep & Hnew).
    + intros m Hm. destruct Hcase as [[_ ->]|[_ ->]]; [apply Hfresh; lia|].
      rewrite lookup_insert_ne; [apply Hfresh; lia|]. intros Heq%Hinj. lia.
    + set_solver.
    + assert (∀ id j, t !! id = Some j → t1 !! id = Some j) as Ht1.
      { intros id j Hj. destruct Hcase as [[_ ->]|[_ ->]]; [done|].
        rewrite lookup_insert_ne; [done|]. intros <-. rewrite Hfresh in Hj; [done|lia]. }
      exists t'. split; [done|]. split; [|split; [by auto|]].
      * intros r' [->|Hr']%elem_of_cons; [by eapply satisfied_mono|auto].
      * intros id j [Hj|(r' & Hr' & Hns & ->)]%Hnew.
        -- destruct Hcase as [[_ ->]|[_ ->]]; [by left|].
           apply lookup_insert_Some in Hj as [[<- <-]|[_ Hj]]; [right|by left].
           exists r. split; [set_solver|]. split; [|done]. intros Hs.
           pose proof (perform_satisfied _ _ _ _ _ _ Hs Hperf) as Heq.
           apply (f_equal (lookup (newId n))) in Heq. rewrite lookup_insert_eq, Hfresh in Heq by lia. done.
        -- right. exists r'. split; [set_solver|]. split; [|done]. intros Hs. apply Hns.
           by eapply satisfied_mono.
Qed.

(** ** The tick *)

(** A tick commits: every request of it finds its job in the table, an
    active one for the calendars; the rows already there are kept, and each new
    row is a pending job due at once for a request that had none. *)
Theorem tick_enqueues planningEnabled db now newId t :
  (∀ m1 m2, newId m1 = newId m2 → m1 = m2) → fresh_ids newId 0 t →
  ∃ t', perform_all now newId 0 (tick_requests planningEnabled (windows_at now) db) t = Ok t' ∧
    (∀ r, r ∈ tick_requests planningEnabled (windows_at now) db → satisfied r t') ∧
    adds_for now (tick_requests planningEnabled (windows_at now) db) t t' ∧
    tick planningEnabled db now newId t = Ok (cleanup_jobs now t').
Proof.
  intros Hinj Hfresh.
  destruct (perform_all_spec now newId 0 (tick_requests planningEnabled (windows_at now) db) t)
    as (t' & Hp & Hs & Ha); [done|done| |].
  { intros r Hr. by apply tick_request_shape in Hr as [? _]. }
  exists t'. repeat split; [done|done|apply Ha|apply Ha|]. unfold tick. by rewrite Hp.
Qed.

Definition numbered (n : nat) : string := "id-" +:+ pretty (Z.of_nat n).

Lemma numbered_inj m1 m2 : numbered m1 = numbered m2 → m1 = m2.
Proof. unfold numbered. intros H%(inj (String.append "id-"))%(inj pretty). lia. Qed.

Lemma tick_enqueues_witness :
  ∃ t', perform_all 7200000 numbered 0 (tick_requests true (windows_at 7200000) example_database) ∅ = Ok t' ∧
    (∀ r, r ∈ tick_requests true (windows_at 7200000) example_database → satisfied r t') ∧
    adds_for 7200000 (tick_requests true (windows_at 7200000) example_database) ∅ t' ∧
    tick true example_database 7200000 numbered ∅ = Ok (cleanup_jobs 7200000 t').
Proof.
  refine (tick_enqueues true example_database 7200000 numbered ∅ numbered_inj _).
  intros m _. reflexivity.
Defined.

(** Rows of the kept keys satisfy the windowed requests for good. *)
Lemma satisfied_once_steps r from until t t' :
  until ≤ from + RETENTION →
  (∃ id, kept_row (request_key r) from id t) → rtc (step_within from until) t t' →
  once r = true → satisfied r t'.
Proof.
  intros Hu [id Hk] Hrun Ho. apply (kept_row_steps _ _ _ _ _ _ Hu Hk) in Hrun as (j & Hj & Hkj & _).
  exists id, j. rewrite Ho. done.
Qed.

(** Two ticks in the same windows, whatever the workers and the retention
    did in between: the second one adds no job but those of the calendars. The
    terminal rows the first tick meets under a key of the windows must be less
    than seven days old at the second, as rows of the present windows are. *)
Theorem tick_repeats_no_window planningEnabled db from now now' newId newId' n t t1 t2 t3 :
  (∀ m1 m2, newId m1 = newId m2 → m1 = m2) → fresh_ids newId 0 t →
  (∀ m1 m2, newId' m1 = newId' m2 → m1 = m2) → fresh_ids newId' n t2 →
  from ≤ now →
  (∀ id j r, t !! id = Some j → r ∈ tick_requests planningEnabled (windows_at now) db →
     key j = request_key r → active (state j) = true ∨ from ≤ updated_at j) →
  perform_all now newId 0 (tick_requests planningEnabled (windows_at now) db) t = Ok t1 →
  rtc (step_within from (from + RETENTION)) t1 t2 →
  windows_at now' = windows_at now →
  perform_all now' newId' n (tick_requests planningEnabled (windows_at now') db) t2 = Ok t3 →
  ∀ id j, t3 !! id = Some j → t2 !! id = Some j ∨ job_kind (key j) = "sync_calendar".
Proof.
  intros Hinj Hfresh Hinj' Hfresh' Hfrom Hrecent Hfirst Hrun Hw Hsecond id j Hj. rewrite Hw in Hsecond.
  set (requests := tick_requests planningEnabled (windows_at now) db) in *.
  assert (∀ r, r ∈ requests → ∃ members, request_payload r = JObject members) as Hp.
  { intros r Hr. by apply tick_request_shape in Hr as [? _]. }
  destruct (perform_all_spec now newId 0 requests t Hinj Hfresh Hp) as (t1' & Hok & Hsat & _ & Hnew).
  assert (t1' = t1) as -> by congruence.
  destruct (perform_all_spec now' newId' n requests t2 Hinj' Hfresh' Hp) as (t3' & Hok' & _ & _ & Hnew').
  assert (t3' = t3) as -> by congruence.
  destruct (Hnew' _ _ Hj) as [?|(r & Hr & Hns & ->)]; [by left|right].
  pose proof (tick_request_shape _ _ _ _ Hr) as [_ Hkind].
  destruct (once r) eqn:Ho; [|by apply Hkind].
  destruct Hns. eapply satisfied_once_steps; [done| |exact Hrun|done].
  destruct (Hsat r Hr) as (id1 & j1 & Hj1 & Hk1 & _). exists id1, j1. split; [done|]. split; [done|].
  destruct (Hnew _ _ Hj1) as [Ht|(r' & _ & _ & ->)]; [by eapply Hrecent|]. by left.
Qed.

Section tick_example.
(** One calendar; a worker leases and finishes both jobs of the first tick. *)
Definition small_database : Database :=
  {| organizations := ["o"];
     provider_connections :=
       [{| connection_id := "c"; connection_organization := "o"; connection_status := "paused"; intended_role := "both" |}];
     calendar_endpoints :=
       [{| calendar_id := "k"; calendar_organization := "o"; calendar_connection := "c"; readable := true |}];
     sync_policies := []; planning_rules := []; conflict_response_rules := [] |}.
Definition calendar_job : JobKey := {| organization_id := "o"; job_kind := "sync_calendar"; dedupe_key := "calendar:k" |}.
Definition verify_job : JobKey :=
  {| organization_id := "o"; job_kind := "verify_destinations"; dedupe_key := "organization:o:window:8" |}.
Definition ticked (now : Z) (k : JobKey) (payload : list (string * json)) : Job := new_job k (JObject payload) now now.
Definition finished (now : Z) (k : JobKey) (payload : list (string * json)) : Job :=
  mark_succeeded (now + 20000) (take_lease "w" (now + 40000) (now + 10000) (ticked now k payload)).
Definition small_pair (f : Z → JobKey → list (string * json) → Job) (g : Z → JobKey → list (string * json) → Job) : Table :=
  {[ "id-0" := f 7200000 calendar_job [("calendar_id", JString "k")]; "id-1" := g 7200000 verify_job [] ]}.
Definition leased_pair : Table :=
  (lease "w" 10 30 7210000 ∅ (small_pair ticked ticked)).2.
Definition later (m : nat) : string := numbered (m + 100).
End tick_example.

Lemma small_run : rtc (step_within 7200000 (7200000 + RETENTION)) (small_pair ticked ticked) (small_pair finished finished).
Proof.
  apply (rtc_l _ _ leased_pair).
  { exists "w", 7210000. split; [split; vm_compute; discriminate|]. apply step_lease. }
  apply (rtc_l _ _ (<["id-0" := finished 7200000 calendar_job [("calendar_id", JString "k")]]> leased_pair)).
  { exists "w", 7220000. split; [split; vm_compute; discriminate|].
    apply (step_succeed _ _ _ "id-0"). vm_compute. reflexivity. }
  apply rtc_once. exists "w", 7220000. split; [split; vm_compute; discriminate|].
  apply (step_succeed _ _ _ "id-1"). vm_compute. reflexivity.
Defined.

Lemma small_fresh : fresh_ids later 0 (small_pair finished finished).
Proof.
  intros m _. unfold small_pair, later.
  change "id-0" with (numbered 0). change "id-1" with (numbered 1).
  rewrite lookup_insert_ne by (intros H%numbered_inj; lia).
  apply lookup_singleton_ne. intros H%numbered_inj. lia.
Defined.

Lemma tick_repeats_no_window_witness :
  let job := ticked 7260000 calendar_job [("calendar_id", JString "k")] in
  small_pair finished finished !! "id-100" = Some job ∨ job_kind (key job) = "sync_calendar".
Proof.
  intros job.
  refine (tick_repeats_no_window true small_database 7200000 7200000 7260000 numbered later 0 ∅
    (small_pair ticked ticked) (small_pair finished finished)
    (<["id-100" := job]> (small_pair finished finished))
    numbered_inj _ _ small_fresh _ _ _ small_run _ _ "id-100" job _).
  - intros m _. reflexivity.
  - intros m1 m2 H%numbered_inj. lia.
  - lia.
  - intros ? ? ? H. discriminate H.
  - vm_compute. reflexivity.
  - reflexivity.
  - vm_compute. reflexivity.
  - apply lookup_insert_eq.
Defined.

Lemma elem_of_filter_bool {A} (p : A → bool) xs x : x ∈ List.filter p xs ↔ x ∈ xs ∧ p x = true.
Proof. by rewrite !list_elem_of_In, filter_In. Qed.

Lemma filter_bool_idempotent {A} (p : A → bool) xs : List.filter p (List.filter p xs) = List.filter p xs.
Proof.
  induction xs as [|x xs IH]; cbn; [done|]. destruct (p x) eqn:E; [|done]. cbn. by rewrite E, IH.
Qed.

Lemma expire_suggestion_idempotent now s :
  expire_suggestion now (expire_suggestion now s) = expire_suggestion now s.
Proof.
  unfold expire_suggestion at 2 3. case_match eqn:E; [done|]. unfold expire_suggestion. by rewrite E.
Qed.

(** The retention deletes nothing that is still live: a job it removes is
    terminal, an effect it removes has succeeded, and each of them, like a
    preview, a session or a token it removes, is past for more than seven days;
    repeating it at the same time changes nothing. *)
Theorem cleanup_deletes_only_old now d :
  (∀ id j, scheduled_jobs d !! id = Some j → scheduled_jobs (cleanup now d) !! id = None →
     active (state j) = false ∧ updated_at j + RETENTION < now) ∧
  (∀ p, p ∈ policy_previews d → p ∉ policy_previews (cleanup now d) → expires_at p + RETENTION < now) ∧
  (∀ p, p ∈ planning_previews d → p ∉ planning_previews (cleanup now d) → expires_at p + RETENTION < now) ∧
  (∀ p, p ∈ conflict_response_previews d → p ∉ conflict_response_previews (cleanup now d) →
     expires_at p + RETENTION < now) ∧
  (∀ c, c ∈ api_tokens d ∧ c ∉ api_tokens (cleanup now d) ∨
        c ∈ browser_sessions d ∧ c ∉ browser_sessions (cleanup now d) →
     credential_expires_at c + RETENTION < now ∨ ∃ r, revoked_at c = Some r ∧ r + RETENTION < now) ∧
  (∀ o, o ∈ outbox_effects d → o ∉ outbox_effects (cleanup now d) →
     outbox_state o = "succeeded" ∧ outbox_updated_at o + RETENTION < now) ∧
  (∀ s, s ∈ planning_suggestions (cleanup now d) → suggestion_status s = "pending" → now ≤ suggestion_expires_at s) ∧
  cleanup now (cleanup now d) = cleanup now d.
Proof.
  assert (∀ ps p, p ∈ ps → p ∉ keep_expiring (now - RETENTION) ps → expires_at p + RETENTION < now) as Hexp.
  { intros ps p Hp Hnot. unfold keep_expiring in Hnot. rewrite elem_of_filter_bool in Hnot.
    destruct (expires_at p <? now - RETENTION) eqn:E; bool_to_prop; [lia|naive_solver]. }
  assert (∀ cs c, c ∈ cs → c ∉ keep_credentials (now - RETENTION) cs →
    credential_expires_at c + RETENTION < now ∨ ∃ r, revoked_at c = Some r ∧ r + RETENTION < now) as Hcred.
  { intros cs c Hc Hnot. unfold keep_credentials in Hnot. rewrite elem_of_filter_bool in Hnot.
    destruct (credential_expires_at c <? now - RETENTION) eqn:E; bool_to_prop; [left; lia|right].
    destruct (revoked_at c) as [r|]; [|naive_solver]. exists r. split; [done|].
    destruct (r <? now - RETENTION) eqn:E'; bool_to_prop; [lia|naive_solver]. }
  repeat split.
  - apply map_lookup_filter_None in H0 as [?|H0]; [congruence|].
    specialize (H0 _ H). destruct (active (state j)) eqn:E; [|done]. exfalso. apply H0.
    unfold terminal. rewrite E. by intros [? _].
  - apply map_lookup_filter_None in H0 as [?|H0]; [congruence|].
    specialize (H0 _ H). apply dec_stable in H0 as [_ ?]. lia.
  - eauto.
  - eauto.
  - eauto.
  - intros c [[? ?]|[? ?]]; eauto.
  - unfold cleanup in H0. cbn in H0. rewrite elem_of_filter_bool in H0.
    destruct (decide (outbox_state o = "succeeded")) as [?|Hn]; [done|].
    rewrite bool_decide_eq_false_2 in H0 by done. naive_solver.
  - unfold cleanup in H0. cbn in H0. rewrite elem_of_filter_bool in H0.
    destruct (outbox_updated_at o <? now - RETENTION) eqn:E; bool_to_prop; [lia|].
    rewrite andb_false_r in H0. naive_solver.
  - intros s (s0 & -> & Hs0)%list_elem_of_fmap. unfold expire_suggestion.
    destruct (_ && _) eqn:E; cbn; [done|]. intros Hst. rewrite bool_decide_eq_true_2 in E by done.
    cbn in E. by apply Z.ltb_ge in E.
  - unfold cleanup at 1 3. cbn. unfold keep_expiring, keep_credentials, cleanup_jobs.
    rewrite !filter_bool_idempotent, map_filter_filter, map_map. f_equal.
    + apply map_ext. intros. apply expire_suggestion_idempotent.
    + apply map_filter_ext. intros i x _. by destruct_and?; split; [intros [? _]|].
Qed.

Lemma cleanup_deletes_only_old_witness :
  let d := {| policy_previews := []; planning_previews := []; conflict_response_previews := [];
              planning_suggestions := []; browser_sessions := []; api_tokens := [];
              scheduled_jobs := small_pair finished ticked; outbox_effects := [] |} in
  let now := 7220001 + RETENTION in
  scheduled_jobs (cleanup now d) !! "id-0" = None ∧ is_Some (scheduled_jobs (cleanup now d) !! "id-1") ∧
  cleanup now (cleanup now d) = cleanup now d.
Proof.
  intros d now. split; [vm_compute; reflexivity|]. split; [vm_compute; eauto|].
  destruct (cleanup_deletes_only_old now d) as (_ & _ & _ & _ & _ & _ & _ & H). exact H.
Defined.
