(* ===== verification/Transaction.v ===== *)
(** * Transactions

    The monad of the code that runs in a database transaction and calls a
    calendar provider: the database, the remote state, the ids [newId] gives,
    and errors that are thrown and caught ([server/src/foundation.ts],
    [server/src/providers/types.ts]).

    The clock is an argument of every operation: the calls of [new Date()] of
    one transaction read the same time. *)

From S2P Require Import Prelude Canonical Text.
From stdpp Require Import options.
Open Scope Z_scope.

(** ** Errors *)

(** [ProviderError]; its message is not modelled. *)
Record ProviderError := {
  code : string;
  retryable : bool;
  error_ambiguous : bool;
  http_status : option Z;
}.

(** What a [catch] meets: a [ProviderError]; an error of another class with a
    [code] and perhaps [retryable]; a violation of a unique constraint; another
    error, by its safe code; or the [NoResultError] of [executeTakeFirstOrThrow]. *)
Inductive failure :=
| provider_failure (e : ProviderError)
| coded_failure (code : string) (code_retryable : bool)
| unique_violation (constraint : string)
| other_failure (safe_code : string)
| no_result.

Definition provider_error (code : string) (retryable : bool) : ProviderError :=
  {| code := code; retryable := retryable; error_ambiguous := false; http_status := None |}.

(** [/[^a-z0-9_:-]/gu] to an underscore. *)
Definition safe_char (c : ascii) : ascii :=
  if (is_letter c && negb (is_upper c) && is_ascii c) || is_digit c
     || Ascii.eqb c "_" || Ascii.eqb c ":" || Ascii.eqb c "-"
  then c else "_"%char.

Definition safe_code_text (code : string) : string := slice_to 80 (string_map safe_char (toLowerCase code)).

Definition safeErrorCode (error : failure) : string :=
  match error with
  | provider_failure e => safe_code_text (code e)
  | coded_failure code _ => safe_code_text code
  | unique_violation _ => "23505"
  | other_failure safe_code => safe_code
  | no_result => "error"
  end.

(** [isRetryable] of the coordinators: the property [retryable] is [true]. *)
Definition isRetryable (error : failure) : bool :=
  match error with
  | provider_failure e => retryable e
  | coded_failure _ code_retryable => code_retryable
  | _ => false
  end.

(** [newId()]: the n-th id it returns. *)
Class NewId := { newId : nat → string }.

(** ** Transactions

    Over a database [D], a remote state [R] and the calls [C] that are recorded. *)

Section monad.
Context {D R C : Type}.

Record World := { db : D; remote : R; calls : list C; issued : nat }.

Definition M (A : Type) : Type := World → res failure A * World.

#[global] Instance M_ret : MRet M := λ A a w, (Ok a, w).
#[global] Instance M_bind : MBind M := λ A B f m w,
  match m w with
  | (Ok a, w) => f a w
  | (Throw e, w) => (Throw e, w)
  end.

Definition throw {A} (e : failure) : M A := λ w, (Throw e, w).
Definition lift {A} (r : res failure A) : M A := λ w, (r, w).

(** [try { m } catch (error) { handler(error) }]: the updates of [m] remain. *)
Definition try_catch {A} (m : M A) (handler : failure → M A) : M A := λ w,
  match m w with
  | (Throw e, w) => handler e w
  | done => done
  end.

(** The result of [m] as a value, for a [try] whose handlers differ by the error. *)
Definition attempt {A} (m : M A) : M (res failure A) := λ w, let '(r, w) := m w in (Ok r, w).

Definition read_db {A} (f : D → A) : M A := λ w, (Ok (f (db w)), w).

Definition write_db (f : D → D) : M () := λ w,
  (Ok (), {| db := f (db w); remote := remote w; calls := calls w; issued := issued w |}).

(** [newId()]. *)
Definition fresh_id `{NewId} : M string := λ w,
  (Ok (newId (issued w)), {| db := db w; remote := remote w; calls := calls w; issued := S (issued w) |}).

(** A call of the provider, recorded with its answer. *)
Definition call {A} (c : res failure A → C) (f : R → res failure A * R) : M A := λ w,
  let '(r, remote') := f (remote w) in
  (r, {| db := db w; remote := remote'; calls := calls w ++ [c r]; issued := issued w |}).

(** A use of the remote side that is no calendar call: a token. *)
Definition use_remote {A} (f : R → res failure A * R) : M A := λ w,
  let '(r, remote') := f (remote w) in
  (r, {| db := db w; remote := remote'; calls := calls w; issued := issued w |}).

(** [db.transaction().execute(m)]: an error rolls the database back. *)
Definition transaction {A} (m : M A) : M A := λ w,
  match m w with
  | (Throw e, w') => (Throw e, {| db := db w; remote := remote w'; calls := calls w'; issued := issued w' |})
  | done => done
  end.
End monad.

Arguments World : clear implicits.
Arguments M : clear implicits.

(** [sharedPolicyRuntime.hash]: a [TypeError] of the canonical form is another error. *)
Definition hash `{Unicode} `{Digest} (value : json) : res failure string :=
  match sha256Canonical value with Ok h => Ok h | Throw _ => Throw (other_failure "typeerror") end.

(** ** Weakest preconditions

    [wp m w Q]: run from [w], [m] ends with a result and a world of [Q]. *)

Section wp.
Context {D R C : Type}.
Implicit Types w : World D R C.

Definition wp {A} (m : M D R C A) w (Q : res failure A → World D R C → Prop) : Prop := Q (m w).1 (m w).2.

Lemma bind_run {A B} (m : M D R C A) (f : A → M D R C B) w :
  (m ≫= f) w = match m w with (Ok a, w') => f a w' | (Throw e, w') => (Throw e, w') end.
Proof. done. Qed.

Lemma wp_run {A} (m : M D R C A) w Q r w' : wp m w Q → m w = (r, w') → Q r w'.
Proof. unfold wp. intros HQ Hm. by rewrite Hm in HQ. Qed.

Lemma wp_mono {A} (m : M D R C A) w (P Q : res failure A → World D R C → Prop) :
  wp m w P → (∀ r w', P r w' → Q r w') → wp m w Q.
Proof. unfold wp. auto. Qed.

Lemma wp_ret {A} (a : A) w Q : wp (mret a : M D R C A) w Q ↔ Q (Ok a) w.
Proof. done. Qed.

Lemma wp_bind {A B} (m : M D R C A) (f : A → M D R C B) w Q :
  wp (m ≫= f) w Q ↔
  wp m w (λ r w', match r with Ok a => wp (f a) w' Q | Throw e => Q (Throw e) w' end).
Proof. unfold wp. cbv [mbind M_bind]. by destruct (m w) as [[] ?]. Qed.

Lemma wp_throw {A} (e : failure) w Q : wp (throw e : M D R C A) w Q ↔ Q (Throw e) w.
Proof. done. Qed.

Lemma wp_lift {A} (r : res failure A) w Q : wp (lift r : M D R C A) w Q ↔ Q r w.
Proof. done. Qed.

Lemma wp_read {A} (f : D → A) w Q : wp (read_db f : M D R C A) w Q ↔ Q (Ok (f (db w))) w.
Proof. done. Qed.

Lemma wp_write (f : D → D) w Q :
  wp (write_db f : M D R C ()) w Q ↔
  Q (Ok ()) {| db := f (db w); remote := remote w; calls := calls w; issued := issued w |}.
Proof. done. Qed.

Lemma wp_fresh `{NewId} w Q :
  wp (fresh_id : M D R C string) w Q ↔
  Q (Ok (newId (issued w))) {| db := db w; remote := remote w; calls := calls w; issued := S (issued w) |}.
Proof. done. Qed.

Lemma wp_call {A} (c : res failure A → C) (f : R → res failure A * R) w (Q : res failure A → World D R C → Prop) :
  (∀ r remote', f (remote w) = (r, remote') →
     Q r {| db := db w; remote := remote'; calls := calls w ++ [c r]; issued := issued w |}) →
  wp (call c f : M D R C A) w Q.
Proof. unfold wp, call. destruct (f (remote w)) as [r remote'] eqn:E. cbn. auto. Qed.

Lemma wp_use_remote {A} (f : R → res failure A * R) w (Q : res failure A → World D R C → Prop) :
  (∀ r remote', Q r {| db := db w; remote := remote'; calls := calls w; issued := issued w |}) →
  wp (use_remote f : M D R C A) w Q.
Proof. unfold wp, use_remote. destruct (f (remote w)) as [r remote'] eqn:E. cbn. auto. Qed.

Lemma wp_try_catch {A} (m : M D R C A) (handler : failure → M D R C A) w Q :
  wp (try_catch m handler) w Q ↔
  wp m w (λ r w', match r with Ok a => Q (Ok a) w' | Throw e => wp (handler e) w' Q end).
Proof. unfold wp, try_catch. by destruct (m w) as [[] ?]. Qed.

Lemma wp_attempt {A} (m : M D R C A) w Q :
  wp (attempt m) w Q ↔ wp m w (λ r w', Q (Ok r) w').
Proof. unfold wp, attempt. by destruct (m w) as [? ?]. Qed.

Lemma wp_transaction {A} (m : M D R C A) w Q :
  wp (transaction m) w Q ↔
  wp m w (λ r w', match r with
    | Ok a => Q (Ok a) w'
    | Throw e => Q (Throw e) {| db := db w; remote := remote w'; calls := calls w'; issued := issued w' |}
    end).
Proof. unfold wp, transaction. by destruct (m w) as [[] ?]. Qed.
End wp.

(** ** Computations that returned

    What each step did, read off a run that ended with [Ok]. *)

Section runs.
Context {D R C : Type}.
Implicit Types w : World D R C.

Lemma run_bind {A B} (m : M D R C A) (f : A → M D R C B) w b w' :
  (m ≫= f) w = (Ok b, w') → ∃ a w1, m w = (Ok a, w1) ∧ f a w1 = (Ok b, w').
Proof. rewrite bind_run. destruct (m w) as [[a|e] w1]; [eauto|done]. Qed.

Lemma run_lift {A} (r : res failure A) w a w' : (lift r : M D R C A) w = (Ok a, w') → r = Ok a ∧ w' = w.
Proof. by intros [= -> <-]. Qed.

Lemma run_read {A} (f : D → A) w a w' : (read_db f : M D R C A) w = (Ok a, w') → a = f (db w) ∧ w' = w.
Proof. by intros [= <- <-]. Qed.

(** The world with another database. *)
Definition at_db (d : D) w : World D R C := {| db := d; remote := remote w; calls := calls w; issued := issued w |}.

Lemma run_write (f : D → D) w u w' : (write_db f : M D R C ()) w = (Ok u, w') → w' = at_db (f (db w)) w.
Proof. by intros [= _ <-]. Qed.

Lemma run_fresh `{NewId} w i w' :
  (fresh_id : M D R C string) w = (Ok i, w') →
  i = newId (issued w) ∧ w' = {| db := db w; remote := remote w; calls := calls w; issued := S (issued w) |}.
Proof. by intros [= <- <-]. Qed.

Lemma run_transaction {A} (m : M D R C A) w a w' : transaction m w = (Ok a, w') → m w = (Ok a, w').
Proof. unfold transaction. by destruct (m w) as [[] ?]. Qed.

(** A transaction that throws leaves the database as it was. *)
Lemma transaction_throws {A} (m : M D R C A) w e w' : transaction m w = (Throw e, w') → db w' = db w.
Proof. unfold transaction. destruct (m w) as [[] ?]; [done|]. by intros [= _ <-]. Qed.
End runs.

(** Read the next step off [Hrun : m w = (Ok _, _)]. *)
Tactic Notation "run_step" hyp(Hrun) "as" simple_intropattern(a) simple_intropattern(w) simple_intropattern(Hm) :=
  apply run_bind in Hrun as (a & w & Hm & Hrun).

(** One step of a computation. *)
Ltac wp_step :=
  first [ rewrite wp_bind | rewrite wp_ret | rewrite wp_throw | rewrite wp_lift | rewrite wp_read | rewrite wp_write
        | rewrite wp_fresh | rewrite wp_try_catch | rewrite wp_attempt | rewrite wp_transaction
        | apply wp_call; intros ?r ?remote' ?Hcall | apply wp_use_remote; intros ?r ?remote' ];
  cbn beta iota.
