(* ===== verification/Policies.v ===== *)
(** * Bridge drafts

    The part of [server/src/policy/service.ts] that the workers and the service
    share: the draft a bridge is stored as, the policy it is compiled to, what a
    calendar is capable of, what a preview stores as its result, and the person
    or token that acts. *)

From S2P Require Import Prelude Canonical DestinationEdits Types.
From stdpp Require Import options.
Open Scope Z_scope.

(** A validated profile; its intervals and exceptions stay the values they are. *)
Record InlineHoursProfile := {
  inline_name : string;
  inline_timezone : string;
  inline_ambiguous : AmbiguousResolution;
  inline_nonexistent : NonexistentResolution;
  inline_weekly : list json;
  inline_exceptions : list json;
}.

Record Horizon := { past_days : Z; future_days : Z }.

(** An optional member that is absent or [null] is [None]: the code tells the
    two apart nowhere but in the hash of the whole document. [destination] is
    its colour; [hours_profile] and [destination_edits] are any value, which the
    preview validates, and [JUndefined] when absent. *)
Record PolicyDraft := {
  draft_name : string;
  source_calendar_id : string;
  destination_calendar_id : string;
  hours_profile_id : option string;
  draft_hours : option (HoursMode * option string);
  draft_hours_profile : json;
  draft_privacy : PrivacyPolicy;
  draft_selection : SelectionPolicy;
  draft_color : option string;
  draft_destination_edits : json;
  draft_horizon : option Horizon;
}.

(** [Boolean(text)]. *)
Definition truthy (text : option string) : bool := match text with None | Some "" => false | Some _ => true end.

(** [Boolean(value)]. *)
Definition json_truthy (value : json) : bool :=
  match value with
  | JUndefined | JNull | JBool false | JString "" => false
  | JNumber n => match n with NaN => false | _ => negb (bool_decide (integer_value n = Some 0)) end
  | _ => true
  end.

(** A text that is not empty; [null] otherwise. *)
Definition non_empty (text : option string) : option string := if truthy text then text else None.

(** [value[key] !== false] and [value[key] === true]. *)
Definition not_false (value : json) : bool := match value with JBool false => false | _ => true end.
Definition is_true (value : json) : bool := match value with JBool true => true | _ => false end.

(** [typeof raw === "object" && raw !== null ? raw : {}]: the named members of
    an array are absent. *)
Definition members_of (raw : json) : list (string * json) := match raw with JObject members => members | _ => [] end.

Definition destinationCapabilities (raw : json) (writable : bool) : DestinationCapabilities :=
  let value := members_of raw in
  {| Types.writable := writable;
     private_visibility := not_false (member value "private_visibility");
     conference_copy := is_true (member value "conference_copy");
     color_capability := not_false (member value "color") |}.

Definition compilePolicyDraft (draft : PolicyDraft) (policyRef : string) (revision : Z) (state : PolicyState)
    (resolvedHoursProfileRef : option string) : SyncPolicy :=
  let hoursMode := match draft_hours draft with
    | Some (mode, _) => mode
    | None => if truthy (hours_profile_id draft) || json_truthy (draft_hours_profile draft)
              then overlaps_profile else all_times
    end in
  let profileRef := match resolvedHoursProfileRef with
    | Some ref => Some ref
    | None => match draft_hours draft with
              | Some (_, Some ref) => Some ref
              | _ => hours_profile_id draft
              end
    end in
  {| policy_ref := policyRef; Types.revision := revision; Types.state := state;
     source_calendar_ref := source_calendar_id draft; destination_calendar_ref := destination_calendar_id draft;
     hours_mode := hoursMode;
     hours_profile_ref := if negb (bool_decide (hoursMode = all_times)) && truthy profileRef then profileRef else None;
     privacy := draft_privacy draft; selection := draft_selection draft; destination_color := draft_color draft;
     destination_edits := Some (normalizeDestinationEditPolicy (draft_destination_edits draft)) |}.

(** [configuredHorizon ?? { past_days: 30, future_days: 365 }]. *)
Definition horizon_of (draft : PolicyDraft) : Horizon :=
  nullish (draft_horizon draft) {| past_days := 30; future_days := 365 |}.

(** ** Previews *)

(** An example of [result_document]; the source is its hash only. *)
Record PreviewExample := {
  example_hash : string;
  example_decision : string;
  example_reasons : list ReasonCode;
  example_disclosure : option DisclosureManifest;
}.

(** [result_document] of a preview; counts are members in their order. *)
Record PreviewResult := {
  result_complete : bool;
  result_counts : list (string * Z);
  excluded_by_reason : list (string * Z);
  result_disclosure : option DisclosureManifest;
  result_examples : list PreviewExample;
  result_warnings : list string;
}.

(** ** Who asks *)

(** The principal of a command, and the API token it used, if any. *)
Record Actor := { principal : string; actor_kind : string; actor_token : option string }.

(** [auditActorDetail]; [conflict-response/service.ts] has the same function. *)
Definition auditActorDetail (detail : list (string * json)) (actor : Actor) : list (string * json) :=
  match non_empty (actor_token actor) with
  | Some token => if (actor_kind actor =? "api_token")%string then detail ++ [("api_token_id", JString token)] else detail
  | None => detail
  end.
