(* ===== verification/HoursDrafts.v ===== *)
(** * Inline hours profiles

    The parser of hours profiles in [server/src/policy/service.ts]: the
    predicates on untrusted JSON and [validateInlineHoursProfile]. The source
    keeps the validated values and casts them to [WeeklyInterval] and
    [HoursException]; [weekly_of_json] and [exception_of_json] read them as such. *)

From S2P Require Import Prelude Canonical Types Dates Text PlanningDrafts Temporal Hours Transaction Policies.
From stdpp Require Import options.
Open Scope Z_scope.

(** ** Predicates *)

(** [typeof value === "object" && value !== null && !Array.isArray(value)]:
    its members. *)
Definition isRecord (value : json) : option (list (string * json)) :=
  match value with JObject members => Some members | _ => None end.

(** [/^(?:[01]\d|2[0-3]):[0-5]\d:[0-5]\d$/u]. *)
Definition isLocalTime (value : string) : bool := matches (hour_classes value ++ sixty ++ sixty) value.

Definition isLocalDate (value : string) : bool :=
  is_date_text value &&
  match Date_parse (value +:+ "T00:00:00Z") with
  | Some time => (slice_to 10 (toISOString time) =? value)%string
  | None => false
  end.

(** [value === z] for an integer. *)
Definition is_integer (value : json) (z : Z) : bool :=
  match value with JNumber n => bool_decide (integer_value n = Some z) | _ => false end.

Definition isLocalInterval (value : list (string * json)) : bool :=
  match member value "start", member value "end" with
  | JString from, JString until =>
      (is_integer (member value "end_day_offset") 0 || is_integer (member value "end_day_offset") 1)
      && isLocalTime from && isLocalTime until
      && (is_integer (member value "end_day_offset") 1 || (from <? until)%string)
  | _, _ => false
  end.

Definition isWeeklyInterval (value : json) : bool :=
  match isRecord value with
  | Some members =>
      match member members "weekday" with
      | JNumber n => match integer_value n with Some z => (1 <=? z) && (z <=? 7) | None => false end
      | _ => false
      end && isLocalInterval members
  | None => false
  end.

Definition isHoursException (value : json) : bool :=
  match isRecord value with
  | Some members =>
      match member members "date" with
      | JString date =>
          isLocalDate date &&
          match member members "kind" with
          | JString "closed" => negb (is_defined (member members "intervals"))
          | JString "replace" | JString "add" | JString "remove" =>
              match member members "intervals" with
              | JArray intervals =>
                  (length intervals <=? 32)%nat
                  && forallb (λ interval, match isRecord interval with
                                          | Some members => isLocalInterval members
                                          | None => false
                                          end) intervals
              | _ => false
              end
          | _ => false
          end
      | _ => false
      end
  | None => false
  end.

(** ** Reading validated values *)

Definition text_of (value : json) : string := match value with JString s => s | _ => "" end.
Definition integer_of (value : json) : Z :=
  match value with JNumber n => nullish (integer_value n) 0 | _ => 0 end.
Definition items_of (value : json) : list json := match value with JArray items => items | _ => [] end.

Definition local_of_json (value : json) : LocalInterval :=
  let members := members_of value in
  {| local_start := text_of (member members "start"); local_end := text_of (member members "end");
     end_day_offset := integer_of (member members "end_day_offset") |}.

Definition weekly_of_json (value : json) : WeeklyInterval :=
  {| weekday := integer_of (member (members_of value) "weekday"); weekly_interval := local_of_json value |}.

Definition exception_of_json (value : json) : HoursException :=
  let members := members_of value in
  let intervals := map local_of_json (items_of (member members "intervals")) in
  {| exception_date := text_of (member members "date");
     kind := match text_of (member members "kind") with
             | "replace" => replace intervals
             | "add" => add intervals
             | "remove" => remove intervals
             | _ => closed
             end |}.

(** The profile an inline profile is evaluated as. *)
Definition profile_of (ref : string) (revision : Z) (p : InlineHoursProfile) : HoursProfile :=
  {| profile_ref := ref; profile_revision := revision; profile_timezone := inline_timezone p;
     ambiguous_resolution := inline_ambiguous p; nonexistent_resolution := inline_nonexistent p;
     weekly := map weekly_of_json (inline_weekly p); exceptions := map exception_of_json (inline_exceptions p) |}.

Definition ambiguous_text (r : AmbiguousResolution) : string :=
  match r with earlier_offset => "earlier_offset" | later_offset => "later_offset" end.
Definition nonexistent_text (r : NonexistentResolution) : string :=
  match r with reject => "reject" | shift_forward_by_gap => "shift_forward_by_gap" end.

(** The document of an inline profile, which is hashed. *)
Definition inline_json (p : InlineHoursProfile) : json :=
  JObject [("name", JString (inline_name p)); ("timezone", JString (inline_timezone p));
    ("dst_resolution", JObject [("ambiguous", JString (ambiguous_text (inline_ambiguous p)));
                                ("nonexistent", JString (nonexistent_text (inline_nonexistent p)))]);
    ("weekly", JArray (inline_weekly p)); ("exceptions", JArray (inline_exceptions p))].

(** ** The parser *)

Section validate.
Context `{Unicode} `{TimeZones}.

Definition invalid_profile : failure := coded_failure "invalid_hours_profile" false.
Definition refuse_profile (condition : bool) : res failure () := if condition then Throw invalid_profile else Ok ().

Definition ambiguous_of (value : json) : option AmbiguousResolution :=
  match value with
  | JString "earlier_offset" => Some earlier_offset
  | JString "later_offset" => Some later_offset
  | _ => None
  end.
Definition nonexistent_of (value : json) : option NonexistentResolution :=
  match value with
  | JString "reject" => Some reject
  | JString "shift_forward_by_gap" => Some shift_forward_by_gap
  | _ => None
  end.

Definition validateInlineHoursProfile (value : json) : res failure InlineHoursProfile :=
  members ← otherwise (isRecord value) invalid_profile;
  match member members "name", member members "timezone" with
  | JString rawName, JString rawTimezone =>
      let name := trim (nfc rawName) in
      let timezone := trim rawTimezone in
      _ ← refuse_profile ((String.length name <? 1)%nat || (120 <? String.length name)%nat || string_exists is_control name);
      _ ← refuse_profile (negb (known_timezone timezone));
      resolution ← otherwise (isRecord (member members "dst_resolution")) invalid_profile;
      ambiguous ← otherwise (ambiguous_of (member resolution "ambiguous")) invalid_profile;
      nonexistent ← otherwise (nonexistent_of (member resolution "nonexistent")) invalid_profile;
      match member members "weekly" with
      | JArray rawWeekly =>
          _ ← refuse_profile ((128 <? length rawWeekly)%nat || negb (forallb isWeeklyInterval rawWeekly));
          match member members "exceptions" with
          | JArray rawExceptions =>
              _ ← refuse_profile ((366 <? length rawExceptions)%nat || negb (forallb isHoursException rawExceptions));
              let exceptionDates := map (λ e, text_of (member (members_of e) "date")) rawExceptions in
              _ ← refuse_profile (negb (length (new_set exceptionDates) =? length exceptionDates)%nat);
              Ok {| inline_name := name; inline_timezone := timezone; inline_ambiguous := ambiguous;
                    inline_nonexistent := nonexistent; inline_weekly := rawWeekly; inline_exceptions := rawExceptions |}
          | _ => Throw invalid_profile
          end
      | _ => Throw invalid_profile
      end
  | _, _ => Throw invalid_profile
  end.
End validate.

(** ** Valid profiles *)

Definition valid_local (i : LocalInterval) : Prop :=
  isLocalTime (local_start i) = true ∧ isLocalTime (local_end i) = true ∧
  (end_day_offset i = 1 ∨ end_day_offset i = 0 ∧ (local_start i <? local_end i)%string = true).

Definition valid_weekly (w : WeeklyInterval) : Prop := 1 <= weekday w <= 7 ∧ valid_local (weekly_interval w).

Definition exception_intervals (k : HoursExceptionKind) : list LocalInterval :=
  match k with closed => [] | replace intervals | add intervals | remove intervals => intervals end.

Definition valid_exception (e : HoursException) : Prop :=
  valid_date (exception_date e) ∧ (length (exception_intervals (kind e)) <= 32)%nat ∧
  Forall valid_local (exception_intervals (kind e)).

Section valid.
Context `{Unicode} `{TimeZones}.

Definition valid_profile (name : string) (p : HoursProfile) : Prop :=
  valid_text 120 name ∧ trim (profile_timezone p) = profile_timezone p ∧ known_timezone (profile_timezone p) = true ∧
  (length (weekly p) <= 128)%nat ∧ Forall valid_weekly (weekly p) ∧
  (length (exceptions p) <= 366)%nat ∧ Forall valid_exception (exceptions p) ∧ NoDup (map exception_date (exceptions p)).
End valid.

Definition local_members (i : LocalInterval) : list (string * json) :=
  [("start", JString (local_start i)); ("end", JString (local_end i)); ("end_day_offset", int (end_day_offset i))].

Definition weekly_json (w : WeeklyInterval) : json :=
  JObject (("weekday", int (weekday w)) :: local_members (weekly_interval w)).

Definition exception_json (e : HoursException) : json :=
  let intervals (k : string) (xs : list LocalInterval) :=
    [("kind", JString k); ("intervals", JArray (map (λ i, JObject (local_members i)) xs))] in
  JObject (("date", JString (exception_date e)) ::
    match kind e with
    | closed => [("kind", JString "closed")]
    | replace xs => intervals "replace" xs
    | add xs => intervals "add" xs
    | remove xs => intervals "remove" xs
    end).

(** The document of a profile. *)
Definition profile_json (name : string) (p : HoursProfile) : json :=
  JObject [("name", JString name); ("timezone", JString (profile_timezone p));
    ("dst_resolution", JObject [("ambiguous", JString (ambiguous_text (ambiguous_resolution p)));
                                ("nonexistent", JString (nonexistent_text (nonexistent_resolution p)))]);
    ("weekly", JArray (map weekly_json (weekly p))); ("exceptions", JArray (map exception_json (exceptions p)))].

Lemma is_integer_spec v z : is_integer v z = true → integer_of v = z.
Proof. unfold is_integer, integer_of. destruct v; try done. intros Hz. bool_to_prop. by rewrite Hz. Qed.

Lemma integer_value_int z : integer_value (Finite z 0) = Some z.
Proof. cbn. by rewrite Z.mul_1_r. Qed.

Lemma is_integer_int z w : is_integer (int z) w = bool_decide (z = w).
Proof. unfold is_integer, int. rewrite integer_value_int. apply bool_decide_ext. naive_solver. Qed.

Lemma isLocalInterval_valid members : isLocalInterval members = true → valid_local (local_of_json (JObject members)).
Proof.
  unfold isLocalInterval, valid_local, local_of_json. cbn [members_of local_start local_end end_day_offset].
  destruct (member members "start"); try done. destruct (member members "end"); try done. cbn [text_of].
  intros Hb. bool_to_prop. split_and!; try done.
  match goal with Ho : _ || _ = true |- _ => apply orb_true_iff in Ho as [Ho%is_integer_spec|Ho] end; [by left|].
  match goal with Ho : (is_integer _ 0 || _) = true |- _ => apply orb_true_iff in Ho as [Hz%is_integer_spec|Hz%is_integer_spec] end;
    [by right|by left].
Qed.

Lemma isLocalInterval_json i : valid_local i → isLocalInterval (local_members i) = true.
Proof.
  intros (Hs & He & Ho). unfold isLocalInterval, local_members. cbn [member find String.eqb Ascii.eqb Bool.eqb].
  unfold member. cbn [find String.eqb Ascii.eqb Bool.eqb]. rewrite !is_integer_int, Hs, He.
  destruct Ho as [->|[-> ->]]; done.
Qed.

Lemma local_of_json_json members i :
  member members "start" = JString (local_start i) → member members "end" = JString (local_end i) →
  member members "end_day_offset" = int (end_day_offset i) → local_of_json (JObject members) = i.
Proof.
  intros Hs He Ho. unfold local_of_json. cbn [members_of]. rewrite Hs, He, Ho. cbn [text_of].
  unfold integer_of, int. rewrite integer_value_int. by destruct i.
Qed.

Lemma valid_local_check i : isLocalInterval (local_members i) = true → valid_local i.
Proof. intros Hi%isLocalInterval_valid. by rewrite (local_of_json_json (local_members i) i) in Hi. Qed.

Lemma isWeeklyInterval_valid v : isWeeklyInterval v = true → valid_weekly (weekly_of_json v).
Proof.
  unfold isWeeklyInterval, valid_weekly. destruct v as [| | | | | |members]; try done. cbn [isRecord].
  intros [Hw Hl%isLocalInterval_valid]%andb_true_iff. split; [|done]. unfold weekly_of_json. cbn [weekday members_of].
  destruct (member members "weekday"); try done. cbn [integer_of]. destruct (integer_value n) as [z|]; [|done].
  bool_to_prop. done.
Qed.

Lemma isWeeklyInterval_json w : valid_weekly w → isWeeklyInterval (weekly_json w) = true ∧ weekly_of_json (weekly_json w) = w.
Proof.
  destruct w as [day i]. intros [Hw Hl]. cbn [weekday weekly_interval] in *. split.
  - unfold isWeeklyInterval, weekly_json. cbn [isRecord weekday weekly_interval].
    pose proof (isLocalInterval_json i Hl) as Hi. unfold isLocalInterval, local_members in *.
    unfold member in *. cbn [find String.eqb Ascii.eqb Bool.eqb] in *. unfold int at 1. rewrite integer_value_int.
    rewrite (proj2 (Z.leb_le 1 day)), (proj2 (Z.leb_le day 7)) by lia. exact Hi.
  - unfold weekly_of_json. f_equal; [|by apply local_of_json_json; reflexivity].
    unfold weekly_json, integer_of. cbn [members_of weekday]. unfold member. cbn [find String.eqb Ascii.eqb Bool.eqb].
    unfold int. by rewrite integer_value_int.
Qed.

Lemma isLocalDate_spec s : isLocalDate s = true ↔ valid_date s.
Proof.
  split.
  - intros Hd. apply (localDate_Ok (JString s)). unfold isLocalDate in Hd. apply andb_true_iff in Hd as [Ht Hp].
    unfold localDate. rewrite Ht. cbn [negb]. destruct (Date_parse _); [|done]. by rewrite Hp.
  - intros Hd%localDate_json. unfold localDate, invalid in Hd. unfold isLocalDate.
    destruct (is_date_text s); cbn [negb] in Hd; [|done]. destruct (Date_parse _); [|done]. by destruct (_ =? _)%string.
Qed.

(** The test of an item of [intervals]. *)
Definition is_interval (interval : json) : bool :=
  match isRecord interval with Some members => isLocalInterval members | None => false end.

Lemma is_interval_valid v : is_interval v = true → valid_local (local_of_json v).
Proof. unfold is_interval. destruct v; try done. apply isLocalInterval_valid. Qed.

Lemma forallb_spec {A} (p : A → bool) xs : forallb p xs = true ↔ ∀ x, x ∈ xs → p x = true.
Proof. rewrite forallb_forall. by setoid_rewrite <-list_elem_of_In. Qed.

Lemma intervals_valid (items : list json) :
  (length items <=? 32)%nat && forallb is_interval items = true →
  (length (map local_of_json items) <= 32)%nat ∧ Forall valid_local (map local_of_json items).
Proof.
  intros [Hlen%Nat.leb_le Hall]%andb_true_iff. rewrite length_map. split; [done|].
  apply Forall_forall. intros i (v & -> & Hv)%list_elem_of_fmap. apply is_interval_valid. by eapply forallb_spec.
Qed.

Lemma intervals_json (xs : list LocalInterval) :
  (length xs <= 32)%nat → Forall valid_local xs →
  (length (map (λ i, JObject (local_members i)) xs) <=? 32)%nat
    && forallb is_interval (map (λ i, JObject (local_members i)) xs) = true ∧
  map local_of_json (map (λ i, JObject (local_members i)) xs) = xs.
Proof.
  intros Hlen Hall. split.
  - rewrite length_map, (proj2 (Nat.leb_le _ _)) by done. cbn [andb]. apply forallb_spec.
    intros v (i & -> & Hi)%list_elem_of_fmap. rewrite Forall_forall in Hall. by apply isLocalInterval_json, Hall.
  - rewrite map_map. rewrite <-(map_id xs) at 2. apply map_ext. intros i. by apply local_of_json_json.
Qed.

Lemma isHoursException_valid v : isHoursException v = true → valid_exception (exception_of_json v).
Proof.
  unfold isHoursException, valid_exception. destruct v as [| | | | | |members]; try done. cbn [isRecord].
  unfold exception_of_json. cbn [members_of exception_date kind].
  destruct (member members "date") as [| | | |date| |]; try done. intros [Hd%isLocalDate_spec Hk]%andb_true_iff. cbn [text_of].
  split; [done|]. fold is_interval in Hk. change (λ interval, match isRecord interval with Some members => isLocalInterval members
    | None => false end) with is_interval in Hk.
  destruct (member members "kind") as [| | | |text| |]; try done. cbn [text_of].
  assert (∀ f : list LocalInterval → HoursExceptionKind, (∀ xs, exception_intervals (f xs) = xs) →
    match member members "intervals" with
    | JArray intervals => (length intervals <=? 32)%nat && forallb is_interval intervals
    | _ => false
    end = true →
    (length (exception_intervals (f (map local_of_json (items_of (member members "intervals"))))) <= 32)%nat ∧
    Forall valid_local (exception_intervals (f (map local_of_json (items_of (member members "intervals")))))) as Hxs.
  { intros f Hf Hi. rewrite Hf. destruct (member members "intervals"); try done. by apply intervals_valid. }
  assert (match text with
    | "closed" => negb (is_defined (member members "intervals"))
    | "replace" | "add" | "remove" =>
        match member members "intervals" with
        | JArray intervals => (length intervals <=? 32)%nat && forallb is_interval intervals
        | _ => false
        end
    | _ => false
    end = true) as Hk' by exact Hk. clear Hk.
  destruct (decide (text = "replace")) as [->|H1]; [by apply (Hxs replace)|].
  destruct (decide (text = "add")) as [->|H2]; [by apply (Hxs add)|].
  destruct (decide (text = "remove")) as [->|H3]; [by apply (Hxs remove)|].
  repeat case_match; simplify_eq; cbn; by split; [lia|constructor].
Qed.

Lemma isHoursException_json e :
  valid_exception e → isHoursException (exception_json e) = true ∧ exception_of_json (exception_json e) = e.
Proof.
  destruct e as [date k]. intros (Hd & Hlen & Hall). cbn [exception_date kind] in *. apply isLocalDate_spec in Hd.
  unfold isHoursException, exception_of_json, exception_json. cbn [isRecord members_of exception_date kind].
  destruct k as [|xs|xs|xs]; unfold member; cbn [find String.eqb Ascii.eqb Bool.eqb text_of items_of exception_intervals] in *;
    rewrite Hd; cbn [andb negb is_defined]; [done|..];
    destruct (intervals_json xs Hlen Hall) as [Hb Heq]; (split; [exact Hb|by rewrite Heq]).
Qed.

(** ** The parser is exact *)

Section exact.
Context `{Unicode} `{TimeZones}.

Lemma refuse_profile_Ok c u : refuse_profile c = Ok u ↔ c = false.
Proof. unfold refuse_profile. destruct c, u; naive_solver. Qed.

Lemma ambiguous_of_text r : ambiguous_of (JString (ambiguous_text r)) = Some r.
Proof. by destruct r. Qed.
Lemma nonexistent_of_text r : nonexistent_of (JString (nonexistent_text r)) = Some r.
Proof. by destruct r. Qed.

(** A validated profile, named, is valid as the profile it is evaluated as. *)
Lemma validate_valid `{!UnicodeLaws _} v p ref revision :
  validateInlineHoursProfile v = Ok p → valid_profile (inline_name p) (profile_of ref revision p).
Proof.
  unfold validateInlineHoursProfile. destruct v as [| | | | | |members]; try done. cbn [isRecord otherwise mbind res_bind].
  destruct (member members "name") as [| | | |rawName| |]; try done.
  destruct (member members "timezone") as [| | | |rawTimezone| |]; try done.
  intros (u1 & Hname%refuse_profile_Ok & H2)%bind_Ok_inv. apply bind_Ok_inv in H2 as (u2 & Hzone%refuse_profile_Ok & H2).
  apply bind_Ok_inv in H2 as (resolution & _ & H2). apply bind_Ok_inv in H2 as (ambiguous & _ & H2).
  apply bind_Ok_inv in H2 as (nonexistent & _ & H2). destruct (member members "weekly") as [| | | | |rawWeekly|]; try done.
  apply bind_Ok_inv in H2 as (u3 & Hweekly%refuse_profile_Ok & H2).
  destruct (member members "exceptions") as [| | | | |rawExceptions|]; try done.
  apply bind_Ok_inv in H2 as (u4 & Hexc%refuse_profile_Ok & H2). apply bind_Ok_inv in H2 as (u5 & Hset%refuse_profile_Ok & [= <-]).
  apply orb_false_iff in Hname as [[Hlo%Nat.ltb_ge Hhi%Nat.ltb_ge]%orb_false_iff Hctl].
  apply negb_false_iff in Hzone. apply orb_false_iff in Hweekly as [Hwl%Nat.ltb_ge Hwall%negb_false_iff].
  apply orb_false_iff in Hexc as [Hel%Nat.ltb_ge Heall%negb_false_iff].
  apply negb_false_iff, Nat.eqb_eq, new_set_length_NoDup in Hset.
  unfold valid_profile. cbn [inline_name profile_timezone weekly exceptions profile_of inline_timezone inline_weekly inline_exceptions].
  rewrite !length_map, map_map. split_and!; try done.
  - unfold valid_text. split; [by rewrite nfc_trim, trim_idempotent|]. split; [lia|done].
  - apply trim_idempotent.
  - apply Forall_forall. intros w (x & -> & Hx)%list_elem_of_fmap. apply isWeeklyInterval_valid. by eapply forallb_spec.
  - apply Forall_forall. intros w (x & -> & Hx)%list_elem_of_fmap. apply isHoursException_valid. by eapply forallb_spec.
Qed.

Lemma read_back {A} (f : json → A) (g : A → json) (xs : list A) :
  Forall (λ x, f (g x) = x) xs → map f (map g xs) = xs.
Proof. induction 1 as [|x xs Hx _ IH]; [done|]. cbn. by rewrite Hx, IH. Qed.

(** The document of a valid profile is admitted, and read back to it. *)
Lemma validate_json name p :
  valid_profile name p → ∃ q, validateInlineHoursProfile (profile_json name p) = Ok q ∧ inline_name q = name ∧
    profile_of (profile_ref p) (profile_revision p) q = p.
Proof.
  intros ((Hname & Hlen & Hctl) & Htrim & Hzone & Hwl & Hwall & Hel & Heall & Hset).
  assert (forallb isWeeklyInterval (map weekly_json (weekly p)) = true) as Hw.
  { apply forallb_spec. intros v (w & -> & Hw)%list_elem_of_fmap. rewrite Forall_forall in Hwall. by apply isWeeklyInterval_json, Hwall. }
  assert (forallb isHoursException (map exception_json (exceptions p)) = true) as He.
  { apply forallb_spec. intros v (e & -> & He)%list_elem_of_fmap. rewrite Forall_forall in Heall. by apply isHoursException_json, Heall. }
  assert (map weekly_of_json (map weekly_json (weekly p)) = weekly p) as Hwback.
  { apply read_back. eapply Forall_impl; [exact Hwall|]. intros w Hvw. by apply isWeeklyInterval_json. }
  assert (map exception_of_json (map exception_json (exceptions p)) = exceptions p) as Heback.
  { apply read_back. eapply Forall_impl; [exact Heall|]. intros e Hve. by apply isHoursException_json. }
  exists {| inline_name := name; inline_timezone := profile_timezone p; inline_ambiguous := ambiguous_resolution p;
            inline_nonexistent := nonexistent_resolution p; inline_weekly := map weekly_json (weekly p);
            inline_exceptions := map exception_json (exceptions p) |}.
  split; [|split; [done|]].
  - unfold validateInlineHoursProfile, profile_json. cbn [isRecord otherwise mbind res_bind].
    unfold member. cbn [find String.eqb Ascii.eqb Bool.eqb]. rewrite Hname, Hctl, Htrim, Hzone.
    rewrite (proj2 (Nat.ltb_ge _ 1)), (proj2 (Nat.ltb_ge 120 _)) by lia. cbn [orb negb refuse_profile mbind res_bind isRecord otherwise].
    cbn [find String.eqb Ascii.eqb Bool.eqb]. rewrite ambiguous_of_text, nonexistent_of_text. cbn [otherwise mbind res_bind].
    rewrite !length_map, Hw, He. rewrite (proj2 (Nat.ltb_ge 128 _)), (proj2 (Nat.ltb_ge 366 _)) by lia.
    cbn [orb negb refuse_profile mbind res_bind].
    match goal with |- context [new_set ?ds] => assert (ds = map exception_date (exceptions p)) as -> end.
    { transitivity (map exception_date (map exception_of_json (map exception_json (exceptions p)))); [|by rewrite Heback].
      by rewrite (map_map exception_of_json). }
    rewrite (proj2 (new_set_length_NoDup _)) by done. rewrite length_map, Nat.eqb_refl. cbn [negb refuse_profile mbind res_bind].
    reflexivity.
  - unfold profile_of. cbn [inline_timezone inline_ambiguous inline_nonexistent inline_weekly inline_exceptions].
    rewrite Hwback, Heback. by destruct p.
Qed.

(** C40. The parser of inline hours profiles admits exactly the valid profiles:
    what it accepts has a name and a known time zone, at most 128 weekly
    intervals and 366 exceptions, each on its own date, whose times exist on a
    clock and whose ends follow their starts; and the document of every valid
    profile is accepted and read back as that profile. *)
Theorem validateInlineHoursProfile_exact `{!UnicodeLaws _} name p :
  (∀ v q, validateInlineHoursProfile v = Ok q → inline_name q = name →
     profile_of (profile_ref p) (profile_revision p) q = p → valid_profile name p) ∧
  (valid_profile name p → ∃ q, validateInlineHoursProfile (profile_json name p) = Ok q ∧ inline_name q = name ∧
     profile_of (profile_ref p) (profile_revision p) q = p).
Proof.
  split; [|apply validate_json]. intros v q Hv <- <-. by eapply validate_valid.
Qed.
End exact.

(** ** Valid profiles can be evaluated *)

Section usable.
Context `{Temporal} `{!TemporalLaws _}.

(** The platform reads a time of day, and counts days around the event. *)
Definition reads_clock : Prop := ∀ s, isLocalTime s = true → is_Some (PlainTime_from s).
Definition counts_days (from until : Z) : Prop := ∀ d n, from <= d <= until → -1 <= n <= 1 → is_Some (PlainDate_add d n).

Context (clock : reads_clock) (from until : Z) (days : counts_days from until).

Lemma resolveLocal_reads date text profile : isLocalTime text = true → resolveLocal date text profile ≠ Throw RangeError.
Proof using clock.
  intros [time Ht]%clock. unfold resolveLocal. rewrite Ht. cbn [otherwise mbind res_bind].
  destruct (ZonedDateTime_from _ _ _ Reject); [done|].
  destruct (ZonedDateTime_from _ _ _ Earlier); cbn; [|done].
  destruct (ZonedDateTime_from _ _ _ Later); cbn; [|done].
  by repeat case_match.
Qed.

Lemma materialize_all_reads date locals profile :
  from <= date <= until → Forall valid_local locals → never RangeError (materialize_all date locals profile).
Proof using clock days.
  intros Hdate Hall. rewrite Forall_forall in Hall. unfold materialize_all, materialize.
  apply never_bind; [|intros; apply never_ret]. apply never_map_diag. intros i Hi.
  destruct (Hall i Hi) as (Hs & He & Ho).
  apply never_bind; [by apply never_lift, resolveLocal_reads|intros a].
  assert (is_Some (PlainDate_add date (end_day_offset i))) as [d' ->] by (apply days; [done|lia]).
  apply never_bind; [by apply never_lift|intros endDate]. apply never_bind; [by apply never_lift, resolveLocal_reads|intros b].
  apply never_bind; [apply never_push|intros]. apply never_bind; [apply never_push|intros]. apply never_ret.
Qed.

Lemma intervalsForDate_reads date profile :
  from <= date <= until → Forall valid_weekly (weekly profile) → Forall valid_exception (exceptions profile) →
  never RangeError (intervalsForDate date profile).
Proof using clock days.
  intros Hdate Hweekly Hexceptions. unfold intervalsForDate.
  assert (Forall valid_local (weekly_of date profile)) as Hw.
  { apply Forall_forall. intros i (w & -> & Hin)%list_elem_of_fmap. apply list_elem_of_In, filter_In in Hin as [Hin _].
    rewrite Forall_forall in Hweekly. by apply Hweekly, list_elem_of_In. }
  assert (∀ k, exception_of date profile = Some k → Forall valid_local (exception_intervals k)) as Hk.
  { unfold exception_of. intros k. destruct (List.find _ _) as [e|] eqn:Hfind; cbn; [|done]. intros [= <-].
    apply List.find_some in Hfind as [Hin _]. rewrite Forall_forall in Hexceptions. by apply Hexceptions, list_elem_of_In. }
  destruct (exception_of date profile) as [k|]; [|by apply materialize_all_reads].
  specialize (Hk k eq_refl). destruct k as [|xs|xs|xs]; cbn [exception_intervals] in Hk.
  - apply never_ret.
  - by apply materialize_all_reads.
  - apply materialize_all_reads; [done|by apply Forall_app].
  - apply never_bind; [by apply materialize_all_reads|intros]. apply never_bind; [by apply materialize_all_reads|intros].
    apply never_ret.
Qed.

Lemma days_of_reads fuel date bound n profile concrete :
  from <= date → bound <= until → Forall valid_weekly (weekly profile) → Forall valid_exception (exceptions profile) →
  never RangeError (days_of fuel true date bound n profile concrete).
Proof using All.
  intros Hdate Hbound Hweekly Hexceptions. revert date n concrete Hdate.
  induction fuel as [|fuel IH]; intros date n concrete Hdate; cbn [days_of]; [by apply never_lift|].
  destruct (Z.leb_spec date bound); [|apply never_ret]. destruct (MAX_DAYS <? n); [by apply never_lift|].
  apply never_bind; [by apply intervalsForDate_reads; [lia|..]|intros today].
  destruct (days date 1) as [next Hnext]; [lia..|]. pose proof (PlainDate_add_days _ _ _ Hnext) as ->.
  rewrite Hnext. intros ds. apply (IH (date + 1)). lia.
Qed.

(** A validated profile can be evaluated: where the platform knows the zone,
    reads times of day and counts the days around an event, evaluating the event
    under the profile never reports an invalid profile. *)
Theorem validated_profiles_evaluate `{Unicode} `{!UnicodeLaws _} `{TimeZones} v p ref revision how begin finish s e d1 t1 d2 t2 r :
  validateInlineHoursProfile v = Ok p → how ≠ all_times →
  Instant_from begin = Some s → Instant_from finish = Some e → s < e →
  toZonedDateTimeISO (inline_timezone p) s = Some (d1, t1) → toZonedDateTimeISO (inline_timezone p) e = Some (d2, t2) →
  from <= d1 - 1 → d1 <= until → d2 <= until →
  evaluateHours {| mode := how; event := {| start := begin; end_ := finish |};
                   profile := Some (profile_of ref revision p) |} = Ok r →
  reason_code r ≠ Reason.invalid_hours_profile.
Proof using All.
  intros Hv Hhow Hs He Hlt Hd1 Hd2 Hfrom Hmid Huntil.
  pose proof (validate_valid v p ref revision Hv) as (_ & _ & _ & _ & Hweekly & _ & Hexceptions & _).
  assert (evaluate_profile how s e (profile_of ref revision p) ≠ Throw RangeError) as Hnever.
  { unfold evaluate_profile. cbn [profile_of profile_timezone]. rewrite Hd1. cbn [otherwise mbind res_bind].
    destruct (days d1 (-1)) as [first Hfirst]; [lia..|]. pose proof (PlainDate_add_days _ _ _ Hfirst) as ->.
    rewrite Hfirst. cbn [otherwise mbind res_bind]. rewrite Hd2. cbn [otherwise mbind res_bind].
    pose proof (days_of_reads FUEL (d1 + -1) d2 0 (profile_of ref revision p) [] ltac:(lia) Huntil Hweekly Hexceptions []) as Hdays.
    destruct (days_of _ _ _ _ _ _ _ _) as [[concrete ds]|err]; cbn; [done|]. congruence. }
  unfold evaluateHours. cbn [event start end_ mode profile]. rewrite Hs, He. cbn [otherwise mbind res_bind].
  rewrite (proj2 (Z.leb_gt e s)) by lia. destruct how; [done|..];
    destruct (evaluate_profile _ s e _) as [r0|[]] eqn:Hr0; try done; intros [= <-]; try done;
    apply evaluate_profile_Ok in Hr0 as (? & ? & ? & ? & ? & ? & ? & _ & _ & _ & _ & ->);
    unfold profile_result; cbn; by case_match.
Qed.
End usable.

(** ** Examples *)

Module Samples.

Lemma class_digit lo hi c :
  in_class (48 + lo) (48 + hi) c = true → (hi < 10)%nat →
  ∃ n, digit_value c = Some n ∧ Z.of_nat lo <= n <= Z.of_nat hi.
Proof.
  unfold in_class, digit_value, is_digit. intros [Hlo%Nat.leb_le Hhi%Nat.leb_le]%andb_true_iff Hten.
  rewrite (proj2 (Nat.leb_le _ _)), (proj2 (Nat.leb_le _ _)) by lia. cbn [andb]. eexists. split; [done|]. lia.
Qed.

Lemma is_digit_class c : is_digit c = true → in_class 48 57 c = true.
Proof. done. Qed.

Lemma two_digits lo hi a b s :
  in_class (48 + lo) (48 + hi) a = true → (hi < 10)%nat → is_digit b = true →
  ∃ n, take_digits 2 0 (String a (String b s)) = Some (n, s) ∧ 10 * Z.of_nat lo <= n <= 10 * Z.of_nat hi + 9.
Proof.
  intros Ha Hten Hb%is_digit_class. destruct (class_digit lo hi a Ha Hten) as (x & Hx & Hlo & Hhi).
  destruct (class_digit 0 9 b Hb ltac:(lia)) as (y & Hy & Hy0 & Hy9).
  exists (10 * x + y). cbn [take_digits]. rewrite Hx. cbn. rewrite Hy. cbn. split; [do 2 f_equal; lia|lia].
Qed.

Lemma minute_field more s :
  matches (sixty ++ more) s = true →
  ∃ n rest s', take_char ":" s = Some rest ∧ take_digits 2 0 rest = Some (n, s') ∧ n <= 59 ∧ matches more s' = true.
Proof.
  unfold sixty. destruct s as [|c [|a [|b s]]]; cbn [app matches]; rewrite ?andb_false_r; try done.
  intros [Hc%Ascii.eqb_eq [Ha [Hb Hm]%andb_true_iff]%andb_true_iff]%andb_true_iff. subst c.
  destruct (two_digits 0 5 a b s Ha ltac:(lia) Hb) as (n & Hn & _ & Hn59). exists n, (String a (String b s)), s.
  split_and!; [done|done|lia|done].
Qed.

(** The sample platform reads every time of day. *)
Lemma two_zones_reads_clock : reads_clock.
Proof.
  intros s. unfold isLocalTime. intros Hm. cbn [PlainTime_from two_zones].
  assert (∃ h rest, take_digits 2 0 s = Some (h, rest) ∧ h <= 23 ∧ matches (sixty ++ sixty) rest = true)
    as (h & rest & Hh & Hh23 & Hrest).
  { destruct s as [|a [|b rest]]; [done| |].
    { exfalso. apply matches_length in Hm. unfold hour_classes in Hm. by destruct a as [[] [] [] [] [] [] [] []]. }
    destruct (decide (a = "2"%char)) as [->|Hne].
    - cbn [hour_classes app matches] in Hm. apply andb_true_iff in Hm as [_ Hm]. apply andb_true_iff in Hm as [Hb Hm].
      destruct (class_digit 0 3 b Hb ltac:(lia)) as (y & Hy & Hy0 & Hy3). exists (20 + y), rest.
      split_and!; [|lia|done]. cbn [take_digits]. change (digit_value "2") with (Some 2). cbn. rewrite Hy. cbn.
      done.
    - assert (hour_classes (String a (String b rest)) = [in_class 48 49; is_digit]) as Hc.
      { destruct a as [[] [] [] [] [] [] [] []]; try done. }
      rewrite Hc in Hm. cbn [app matches] in Hm. apply andb_true_iff in Hm as [Ha Hm]. apply andb_true_iff in Hm as [Hb Hm].
      destruct (two_digits 0 1 a b rest Ha ltac:(lia) Hb) as (n & Hn & _ & Hn19). exists n, rest. split_and!; [done|lia|done]. }
  change (sixty ++ sixty) with (sixty ++ (sixty ++ [])) in Hrest.
  apply minute_field in Hrest as (m & r1 & s1 & Hc1 & Hm1 & Hm59 & Hrest).
  apply minute_field in Hrest as (sec & r2 & s2 & Hc2 & Hs2 & Hs59 & Hrest).
  destruct s2; [|done]. unfold read_time. rewrite Hh. cbn [mbind option_bind]. rewrite Hc1. cbn [mbind option_bind].
  rewrite Hm1. cbn [mbind option_bind]. rewrite Hc2, Hs2. cbn [mbind option_bind String.eqb].
  rewrite !(proj2 (Z.leb_le _ _)) by done. by eexists.
Qed.

Definition office : HoursProfile :=
  {| profile_ref := "inline"; profile_revision := 1; profile_timezone := "Autumn"; ambiguous_resolution := earlier_offset;
     nonexistent_resolution := shift_forward_by_gap;
     weekly := [{| weekday := 7; weekly_interval := {| local_start := "02:30:00"; local_end := "10:00:00"; end_day_offset := 0 |} |};
                {| weekday := 1; weekly_interval := {| local_start := "22:00:00"; local_end := "06:00:00"; end_day_offset := 1 |} |}];
     exceptions := [{| exception_date := "2026-11-01"; kind := closed |};
                    {| exception_date := "2026-11-02";
                       kind := add [{| local_start := "09:00:00"; local_end := "12:00:00"; end_day_offset := 0 |}] |}] |}.

Definition office_json : json := profile_json "Office hours" office.

Lemma office_valid : valid_profile "Office hours" office.
Proof.
  unfold valid_profile, office. cbn [profile_timezone weekly exceptions]. split_and!.
  - vm_compute. repeat split; lia.
  - reflexivity.
  - reflexivity.
  - cbn. lia.
  - repeat constructor; cbn [weekday weekly_interval]; try lia; by apply valid_local_check.
  - cbn. lia.
  - repeat apply Forall_cons_2; [..|apply Forall_nil_2]; (split; [apply isLocalDate_spec; vm_compute; reflexivity|]);
      cbn [kind exception_intervals]; (split; [cbn; lia|]); repeat constructor; by apply valid_local_check.
  - repeat constructor; set_solver.
Qed.

Lemma validateInlineHoursProfile_exact_witness :
  ∃ q, validateInlineHoursProfile office_json = Ok q ∧ profile_of "inline" 1 q = office.
Proof.
  destruct (proj2 (validateInlineHoursProfile_exact "Office hours" office) office_valid) as (q & Hq & _ & Hback).
  exists q. split; [exact Hq|exact Hback].
Defined.

Lemma two_zones_counts : counts_days 0 100000.
Proof. intros d n _ _. by eexists. Qed.

Lemma validated_profiles_evaluate_witness :
  ∃ p r, validateInlineHoursProfile office_json = Ok p ∧
    evaluateHours {| mode := overlaps_profile; event := {| start := "2026-10-25T00:45:00Z"; end_ := "2026-10-25T08:00:00Z" |};
                     profile := Some (profile_of "inline" 1 p) |} = Ok r ∧
    reason_code r = Reason.overlaps_hours ∧ reason_code r ≠ Reason.invalid_hours_profile.
Proof.
  eexists _, _. split; [vm_compute; reflexivity|]. split; [vm_compute; reflexivity|]. split; [reflexivity|].
  eapply (validated_profiles_evaluate two_zones_reads_clock 0 100000 two_zones_counts office_json _ "inline" 1 overlaps_profile
    "2026-10-25T00:45:00Z" "2026-10-25T08:00:00Z" 1792889100000000000 1792915200000000000);
    [vm_compute; reflexivity|discriminate|vm_compute; reflexivity|vm_compute; reflexivity|lia|vm_compute; reflexivity
    |vm_compute; reflexivity|lia|lia|lia|vm_compute; reflexivity].
Defined.
End Samples.
