(* ===== verification/Store.v ===== *)
(** * The database and the provider

    The tables of [server/src/database/types.ts] that the synchronisation reads
    and writes, a row a record with the columns the modelled code uses; the
    calendar provider of [server/src/providers/types.ts] as an interface over
    an unknown remote state, each call of it recorded. *)

From S2P Require Import Prelude Canonical DestinationEdits Types Text Evaluate Jobs Transaction Policies.
From stdpp Require Import options.
Open Scope Z_scope.

(** ** Rows *)

Module Policy.
Inductive PolicyStatus := active | paused | deleted.
Record PolicyRow := {
  organization : string;
  source_calendar : string;
  destination_calendar : string;
  source_identity : string;
  destination_identity : string;
  hours_profile : option string;
  status : PolicyStatus;
  revision : Z;
  document : PolicyDraft;
  hash : string;
  last_success_at : option Z;
  safe_error_code : option string;
  updated_at : Z;
}.
End Policy.

Module Endpoint.
Record EndpointRow := {
  organization : string;
  connection : string;
  remote_id : string;
  name : string;
  timezone : string;
  access_role : string;
  readable : bool;
  writable : bool;
  primary_calendar : bool;
  capabilities : json;
  updated_at : Z;
}.
End Endpoint.

Module Connection.
Record ConnectionRow := {
  organization : string;
  provider : string;
  account_label : string;
  intended_role : string;
  status : string;
  last_success_at : option Z;
  safe_error_code : option string;
  updated_at : Z;
}.
End Connection.

Module Observation.
Record ObservationRow := {
  organization : string;
  calendar : string;
  remote_event : string;
  recurrence_identity : string;
  remote_etag : option string;
  event : SourceObservation;
  observation_hash : string;
  managed_copy : bool;
  tombstone : bool;
  sync_generation : Z;
  observed_at : Z;
  updated_at : Z;
}.
End Observation.

Module HoursRow.
Record HoursProfileRow := {
  organization : string;
  version : Z;
  timezone : string;
  ambiguous_resolution : AmbiguousResolution;
  nonexistent_resolution : NonexistentResolution;
  weekly_intervals : list WeeklyInterval;
  exceptions : list HoursException;
}.
End HoursRow.

Module SyncCursor.
Inductive CursorState := full_required | syncing | ready | action_required.
Record CursorRow := {
  organization : string;
  calendar : string;
  query_fingerprint : string;
  sync_token : option string;
  generation : Z;
  state : CursorState;
  last_started_at : option Z;
  last_full_sync_at : option Z;
  last_success_at : option Z;
  safe_error_code : option string;
  updated_at : Z;
}.
End SyncCursor.

Inductive EffectOperation := op_create | op_update | op_delete.

Module Projection.
Inductive ProjectionOwnership := attached | detached | ambiguous.
(** [desired_state] is [None] for null and for a document [requireDesiredCopy] rejects. *)
Record ProjectionRow := {
  organization : string;
  policy : string;
  policy_revision : Z;
  source_observation : string;
  source_basis_hash : option string;
  recovery_operation : option EffectOperation;
  recurrence_identity : string;
  destination_calendar : string;
  destination_event : option string;
  destination_etag : option string;
  generation : Z;
  intent_sequence : Z;
  desired_hash : option string;
  desired_state : option DesiredCopy;
  status : string;
  ownership : ProjectionOwnership;
  last_success_at : option Z;
  last_verified_at : option Z;
  safe_error_code : option string;
  updated_at : Z;
}.
End Projection.

Module Effect.
Record EffectRow := {
  organization : string;
  policy : string;
  projection : string;
  source_basis_hash : option string;
  policy_revision : Z;
  operation : EffectOperation;
  idempotency_key : string;
  desired_state : option DesiredCopy;
  state : JobState;
  attempt_count : Z;
  run_after : Z;
  lease_owner : option string;
  lease_expires_at : option Z;
  ambiguous : bool;
  safe_error_code : option string;
  created_at : Z;
  updated_at : Z;
}.
End Effect.

Module Audit.
(** [detail] is the list of its members that are texts or integers. *)
Record AuditFact := {
  organization : string;
  principal : option string;
  actor_kind : string;
  action : string;
  target_type : string;
  target : string;
  reason_code : string;
  before_hash : option string;
  after_hash : option string;
  detail : list (string * json);
  created_at : Z;
}.
End Audit.

Module Notice.
Inductive NoticeStatus := unread | acknowledged | resolved.
Inductive NoticeResolution := restore | keep_and_detach.
Record NoticeRow := {
  organization : string;
  policy : string;
  projection : string;
  kind : DestinationEditNoticeKind;
  status : NoticeStatus;
  resolution : option NoticeResolution;
  detail : json;
  created_at : Z;
  updated_at : Z;
}.
End Notice.

Module ConflictRule.
(** The columns of [conflict_response_rules] that ingestion and bridges read,
    with the identities of its availability calendars; [live] means not deleted.
    The whole tables are modelled with conflict response. *)
Record RuleView := {
  organization : string;
  response_calendar : string;
  active : bool;
  live : bool;
  revision : Z;
  protected : list string;
}.
End ConflictRule.

Module PolicyPreview.
Record PreviewRow := {
  organization : string;
  principal : string;
  document : PolicyDraft;
  hash : string;
  cursor_fingerprint : string;
  result : PreviewResult;
  expires_at : Z;
  consumed_at : option Z;
}.
End PolicyPreview.

#[export] Instance EffectOperation_eq_dec : EqDecision EffectOperation.
Proof. solve_decision. Defined.
#[export] Instance PolicyStatus_eq_dec : EqDecision Policy.PolicyStatus.
Proof. solve_decision. Defined.
#[export] Instance ProjectionOwnership_eq_dec : EqDecision Projection.ProjectionOwnership.
Proof. solve_decision. Defined.
#[export] Instance CursorState_eq_dec : EqDecision SyncCursor.CursorState.
Proof. solve_decision. Defined.
#[export] Instance NoticeStatus_eq_dec : EqDecision Notice.NoticeStatus.
Proof. solve_decision. Defined.

Record Db := {
  sync_policies : gmap string Policy.PolicyRow;
  calendar_endpoints : gmap string Endpoint.EndpointRow;
  provider_connections : gmap string Connection.ConnectionRow;
  hours_profiles : gmap string HoursRow.HoursProfileRow;
  source_observations : gmap string Observation.ObservationRow;
  sync_cursors : gmap string SyncCursor.CursorRow;
  projections : gmap string Projection.ProjectionRow;
  outbox_effects : gmap string Effect.EffectRow;
  sync_notices : gmap string Notice.NoticeRow;
  conflict_rules : gmap string ConflictRule.RuleView;
  policy_previews : gmap string PolicyPreview.PreviewRow;
  audit_facts : list Audit.AuditFact;
  scheduled_jobs : gmap string Job;
}.

Definition with_policies (f : gmap string Policy.PolicyRow → gmap string Policy.PolicyRow) (d : Db) : Db :=
  {| sync_policies := f (sync_policies d); calendar_endpoints := calendar_endpoints d; provider_connections :=
     provider_connections d; hours_profiles := hours_profiles d; source_observations := source_observations d;
     sync_cursors := sync_cursors d; projections := projections d; outbox_effects := outbox_effects d;
     sync_notices := sync_notices d; conflict_rules := conflict_rules d; policy_previews := policy_previews d; audit_facts := audit_facts d;
     scheduled_jobs := scheduled_jobs d |}.
Definition with_endpoints (f : gmap string Endpoint.EndpointRow → gmap string Endpoint.EndpointRow) (d : Db) : Db :=
  {| sync_policies := sync_policies d; calendar_endpoints := f (calendar_endpoints d); provider_connections :=
     provider_connections d; hours_profiles := hours_profiles d; source_observations := source_observations d;
     sync_cursors := sync_cursors d; projections := projections d; outbox_effects := outbox_effects d;
     sync_notices := sync_notices d; conflict_rules := conflict_rules d; policy_previews := policy_previews d; audit_facts := audit_facts d;
     scheduled_jobs := scheduled_jobs d |}.
Definition with_connections (f : gmap string Connection.ConnectionRow → gmap string Connection.ConnectionRow) (d : Db) : Db :=
  {| sync_policies := sync_policies d; calendar_endpoints := calendar_endpoints d; provider_connections := f
     (provider_connections d); hours_profiles := hours_profiles d; source_observations := source_observations d;
     sync_cursors := sync_cursors d; projections := projections d; outbox_effects := outbox_effects d;
     sync_notices := sync_notices d; conflict_rules := conflict_rules d; policy_previews := policy_previews d; audit_facts := audit_facts d;
     scheduled_jobs := scheduled_jobs d |}.
Definition with_hours_profiles (f : gmap string HoursRow.HoursProfileRow → gmap string HoursRow.HoursProfileRow) (d : Db) : Db :=
  {| sync_policies := sync_policies d; calendar_endpoints := calendar_endpoints d; provider_connections :=
     provider_connections d; hours_profiles := f (hours_profiles d); source_observations := source_observations d;
     sync_cursors := sync_cursors d; projections := projections d; outbox_effects := outbox_effects d;
     sync_notices := sync_notices d; conflict_rules := conflict_rules d; policy_previews := policy_previews d; audit_facts := audit_facts d;
     scheduled_jobs := scheduled_jobs d |}.
Definition with_observations (f : gmap string Observation.ObservationRow → gmap string Observation.ObservationRow) (d : Db) : Db :=
  {| sync_policies := sync_policies d; calendar_endpoints := calendar_endpoints d; provider_connections :=
     provider_connections d; hours_profiles := hours_profiles d; source_observations := f (source_observations
     d); sync_cursors := sync_cursors d; projections := projections d; outbox_effects := outbox_effects d;
     sync_notices := sync_notices d; conflict_rules := conflict_rules d; policy_previews := policy_previews d; audit_facts := audit_facts d;
     scheduled_jobs := scheduled_jobs d |}.
Definition with_cursors (f : gmap string SyncCursor.CursorRow → gmap string SyncCursor.CursorRow) (d : Db) : Db :=
  {| sync_policies := sync_policies d; calendar_endpoints := calendar_endpoints d; provider_connections :=
     provider_connections d; hours_profiles := hours_profiles d; source_observations := source_observations d;
     sync_cursors := f (sync_cursors d); projections := projections d; outbox_effects := outbox_effects d;
     sync_notices := sync_notices d; conflict_rules := conflict_rules d; policy_previews := policy_previews d; audit_facts := audit_facts d;
     scheduled_jobs := scheduled_jobs d |}.
Definition with_projections (f : gmap string Projection.ProjectionRow → gmap string Projection.ProjectionRow) (d : Db) : Db :=
  {| sync_policies := sync_policies d; calendar_endpoints := calendar_endpoints d; provider_connections :=
     provider_connections d; hours_profiles := hours_profiles d; source_observations := source_observations d;
     sync_cursors := sync_cursors d; projections := f (projections d); outbox_effects := outbox_effects d;
     sync_notices := sync_notices d; conflict_rules := conflict_rules d; policy_previews := policy_previews d; audit_facts := audit_facts d;
     scheduled_jobs := scheduled_jobs d |}.
Definition with_effects (f : gmap string Effect.EffectRow → gmap string Effect.EffectRow) (d : Db) : Db :=
  {| sync_policies := sync_policies d; calendar_endpoints := calendar_endpoints d; provider_connections :=
     provider_connections d; hours_profiles := hours_profiles d; source_observations := source_observations d;
     sync_cursors := sync_cursors d; projections := projections d; outbox_effects := f (outbox_effects d);
     sync_notices := sync_notices d; conflict_rules := conflict_rules d; policy_previews := policy_previews d; audit_facts := audit_facts d;
     scheduled_jobs := scheduled_jobs d |}.
Definition with_notices (f : gmap string Notice.NoticeRow → gmap string Notice.NoticeRow) (d : Db) : Db :=
  {| sync_policies := sync_policies d; calendar_endpoints := calendar_endpoints d; provider_connections :=
     provider_connections d; hours_profiles := hours_profiles d; source_observations := source_observations d;
     sync_cursors := sync_cursors d; projections := projections d; outbox_effects := outbox_effects d;
     sync_notices := f (sync_notices d); conflict_rules := conflict_rules d; policy_previews := policy_previews d; audit_facts := audit_facts d;
     scheduled_jobs := scheduled_jobs d |}.
Definition with_policy_previews (f : gmap string PolicyPreview.PreviewRow → gmap string PolicyPreview.PreviewRow) (d : Db) : Db :=
  {| sync_policies := sync_policies d; calendar_endpoints := calendar_endpoints d; provider_connections :=
     provider_connections d; hours_profiles := hours_profiles d; source_observations := source_observations d;
     sync_cursors := sync_cursors d; projections := projections d; outbox_effects := outbox_effects d;
     sync_notices := sync_notices d; conflict_rules := conflict_rules d; policy_previews := f (policy_previews d);
     audit_facts := audit_facts d; scheduled_jobs := scheduled_jobs d |}.
Definition with_audit (fact : Audit.AuditFact) (d : Db) : Db :=
  {| sync_policies := sync_policies d; calendar_endpoints := calendar_endpoints d; provider_connections :=
     provider_connections d; hours_profiles := hours_profiles d; source_observations := source_observations d;
     sync_cursors := sync_cursors d; projections := projections d; outbox_effects := outbox_effects d;
     sync_notices := sync_notices d; conflict_rules := conflict_rules d; policy_previews := policy_previews d; audit_facts := audit_facts d ++ [fact];
     scheduled_jobs := scheduled_jobs d |}.
Definition with_jobs (f : gmap string Job → gmap string Job) (d : Db) : Db :=
  {| sync_policies := sync_policies d; calendar_endpoints := calendar_endpoints d; provider_connections :=
     provider_connections d; hours_profiles := hours_profiles d; source_observations := source_observations d;
     sync_cursors := sync_cursors d; projections := projections d; outbox_effects := outbox_effects d;
     sync_notices := sync_notices d; conflict_rules := conflict_rules d; policy_previews := policy_previews d; audit_facts := audit_facts d;
     scheduled_jobs := f (scheduled_jobs d) |}.

(** ** The provider *)

Record ManagedIdentity := { policyRef : string; projectionRef : string; identity_generation : Z }.

Record ProviderEventLookup := {
  found_id : string;
  found_revision : string;
  managedIdentity : option ManagedIdentity;
}.

Record ProviderWriteResult := { remoteEventId : string; remoteRevision : string }.

(** A call of the calendar, with the answer it got. *)
Inductive Call :=
| GetEvent (calendar event : string) (answer : res failure (option ProviderEventLookup))
| CreateEvent (calendar event : string) (desired : DesiredCopy) (answer : res failure ProviderWriteResult)
| UpdateEvent (calendar event : string) (expectedRevision : option string) (desired : DesiredCopy)
    (answer : res failure ProviderWriteResult)
| DeleteEvent (calendar event : string) (expectedRevision : option string) (answer : res failure ()).

(** The provider and the token broker over a remote state: any answer or
    error, and any effect on the remote state, of each call. *)
Class Provider (R : Type) := {
  provider_resolve : string → res failure ();
  provider_token : string → string → R → res failure string * R;
  provider_get : string → string → string → string → R → res failure (option ProviderEventLookup) * R;
  provider_create : string → string → string → string → DesiredCopy → R → res failure ProviderWriteResult * R;
  provider_update : string → string → string → string → option string → DesiredCopy → R →
    res failure ProviderWriteResult * R;
  provider_delete : string → string → string → string → option string → R → res failure () * R;
}.

Notation World R := (Transaction.World Db R Call).
Notation M R := (Transaction.M Db R Call).

Section operations.
Context {R : Type} `{Provider R} `{NewId} `{Unicode} `{Digest}.
Local Notation M := (M R).

Definition resolve_and_token (provider organization connection : string) : M string :=
  _ ← lift (provider_resolve provider);
  use_remote (provider_token organization connection).

Definition getEvent (provider token calendar event : string) : M (option ProviderEventLookup) :=
  call (GetEvent calendar event) (provider_get provider token calendar event).
Definition createEvent (provider token calendar event : string) (desired : DesiredCopy) : M ProviderWriteResult :=
  call (CreateEvent calendar event desired) (provider_create provider token calendar event desired).
Definition updateEvent (provider token calendar event : string) (expected : option string) (desired : DesiredCopy)
    : M ProviderWriteResult :=
  call (UpdateEvent calendar event expected desired) (provider_update provider token calendar event expected desired).
Definition deleteEvent (provider token calendar event : string) (expected : option string) : M () :=
  call (DeleteEvent calendar event expected) (provider_delete provider token calendar event expected).

(** [sourceObservationBasisHash] of [sync/basis.ts]. *)
Definition sourceObservationBasisHash (observationHash : string) (tombstone : bool) : res failure string :=
  hash (JObject [("version", int 1); ("observation_hash", JString observationHash); ("tombstone", JBool tombstone)]).

(** [jobs.enqueue(organization, kind, dedupeKey, payload, now, transaction)]. *)
Definition enqueue_job_id {C} (organization kind dedupeKey : string) (payload : list (string * json)) (now : Z)
    : Transaction.M Db R C (option string) :=
  id ← fresh_id;
  jobs ← read_db scheduled_jobs;
  match Jobs.enqueue {| organization_id := organization; job_kind := kind; dedupe_key := dedupeKey |}
          (JObject payload) now id now jobs with
  | Ok (out, jobs') => _ ← write_db (with_jobs (λ _, jobs')); mret out
  | Throw _ => throw (other_failure "typeerror")
  end.

(** Where the id of the job is not used. *)
Definition enqueue_job {C} (organization kind dedupeKey : string) (payload : list (string * json)) (now : Z)
    : Transaction.M Db R C () :=
  _ ← enqueue_job_id organization kind dedupeKey payload now;
  mret ().
End operations.

(** ** The query of ingestion ([sync/query.ts]) *)

Definition FULL_SYNC_PAST_DAYS : Z := 30.
Definition FULL_SYNC_FUTURE_DAYS : Z := 365.

Definition calendarSyncQueryFingerprint `{Unicode} `{Digest} (provider remoteCalendar : string) : res failure string :=
  hash (JObject [("version", int 1); ("provider", JString provider); ("remote_calendar", JString remoteCalendar);
    ("recurrence", JString "materialized_occurrences"); ("deleted", JBool true);
    ("full_sync_past_days", int FULL_SYNC_PAST_DAYS); ("full_sync_future_days", int FULL_SYNC_FUTURE_DAYS)]).

Lemma basis_hash_defined `{Unicode} `{!UnicodeLaws _} `{Digest} observationHash tombstone :
  ∃ h, sourceObservationBasisHash observationHash tombstone = Ok h.
Proof.
  unfold sourceObservationBasisHash, hash.
  destruct (sha256Canonical_Ok (JObject [("version", int 1); ("observation_hash", JString observationHash);
    ("tombstone", JBool tombstone)])) as [h ->]; [|eauto].
  apply representable_object; try done. apply (bool_decide_unpack _). vm_compute. done.
Qed.

(** ** Jobs enqueued in a transaction *)

(** A job with the key is waiting, leased or to be retried. *)
Definition job_waits (organization kind dedupeKey : string) (d : Db) : Prop :=
  ∃ i j, scheduled_jobs d !! i = Some j ∧ active (state j) = true ∧
    key j = {| organization_id := organization; job_kind := kind; dedupe_key := dedupeKey |}.

(** No job has an id that is still to be given out. *)
Definition fresh_jobs `{NewId} (n : nat) (d : Db) : Prop := ∀ k, (n <= k)%nat → scheduled_jobs d !! newId k = None.

Lemma enqueue_job_id_wp {R C} `{NewId} organization kind dedupeKey payload now (w : Transaction.World Db R C) Q :
  (∀ out jobs', (∀ i j, scheduled_jobs (db w) !! i = Some j → jobs' !! i = Some j) →
     (∀ i, i ≠ newId (issued w) → jobs' !! i = scheduled_jobs (db w) !! i) →
     (scheduled_jobs (db w) !! newId (issued w) = None → job_waits organization kind dedupeKey (with_jobs (λ _, jobs') (db w))) →
     Q (Ok out) {| db := with_jobs (λ _, jobs') (db w); remote := remote w; calls := calls w; issued := S (issued w) |}) →
  wp (enqueue_job_id organization kind dedupeKey payload now) w Q.
Proof.
  intros HQ. unfold enqueue_job_id. do 4 wp_step. cbn [db issued].
  destruct (Jobs.enqueue _ _ _ _ _ _) as [[out jobs']|e] eqn:Hen.
  - apply enqueue_adds in Hen as (Hkeep & Hsame & Hhas). do 3 wp_step. by apply HQ.
  - exfalso. unfold Jobs.enqueue in Hen. cbn in Hen. by case_match.
Qed.

Lemma enqueue_job_wp {R C} `{NewId} organization kind dedupeKey payload now (w : Transaction.World Db R C) Q :
  (∀ jobs', (∀ i j, scheduled_jobs (db w) !! i = Some j → jobs' !! i = Some j) →
     (∀ i, i ≠ newId (issued w) → jobs' !! i = scheduled_jobs (db w) !! i) →
     (scheduled_jobs (db w) !! newId (issued w) = None → job_waits organization kind dedupeKey (with_jobs (λ _, jobs') (db w))) →
     Q (Ok ()) {| db := with_jobs (λ _, jobs') (db w); remote := remote w; calls := calls w; issued := S (issued w) |}) →
  wp (enqueue_job organization kind dedupeKey payload now) w Q.
Proof.
  intros HQ. unfold enqueue_job. wp_step. apply enqueue_job_id_wp. intros out jobs' Hkeep Hsame Hhas. wp_step. by apply HQ.
Qed.
