(* ===== verification/NoCopy.v ===== *)
(** * Protected calendars are never copied

    The contract between bridges ([server/src/policy/service.ts]) and rules of
    private availability ([server/src/conflict-response/service.ts]), which no
    constraint of the database expresses: a calendar whose availability is
    private has no bridge that could copy its events. An abstract specification
    of what both services promise, and its implementation by transactions that
    take the locks of [Locks], check, and write later. *)

From S2P Require Import Prelude Canonical Locks Store.
From stdpp Require Import options.
Open Scope Z_scope.

(** ** What is shared *)

(** A bridge, and a rule that is not deleted: identities of provider calendars. *)
Record BridgeView := {
  view_organization : string;
  view_status : Policy.PolicyStatus;
  view_source : string;
  view_destination : string;
}.
Record Protection := { protected_organization : string; protected_identities : list string }.

Record Copies := { bridge_views : gmap string BridgeView; live_rules : gmap string Protection }.

(** No bridge writes to a protected calendar, and none that runs reads one. A
    paused bridge may: its copies remain, which the preview of the rule says. *)
Definition no_copy (c : Copies) : Prop := ∀ b v r p,
  bridge_views c !! b = Some v → live_rules c !! r = Some p → view_organization v = protected_organization p →
  view_status v ≠ Policy.deleted →
  view_destination v ∉ protected_identities p ∧
  (view_status v = Policy.active → view_source v ∉ protected_identities p).

(** ** Specification *)

Inductive Request :=
| open_bridge (id organization source destination : string)
| protect (rule organization : string) (identities : list string).

(** No live rule protects one of the two calendars. *)
Definition may_open (organization source destination : string) (c : Copies) : Prop := ∀ r p,
  live_rules c !! r = Some p → protected_organization p = organization →
  source ∉ protected_identities p ∧ destination ∉ protected_identities p.

(** No bridge writes to one of the calendars, and no running one reads one. *)
Definition may_protect (organization : string) (identities : list string) (c : Copies) : Prop := ∀ b v,
  bridge_views c !! b = Some v → view_organization v = organization → view_status v ≠ Policy.deleted →
  view_destination v ∉ identities ∧ (view_status v = Policy.active → view_source v ∉ identities).

Definition admitted (q : Request) (c : Copies) : Prop :=
  match q with
  | open_bridge _ organization source destination => may_open organization source destination c
  | protect _ organization identities => may_protect organization identities c
  end.

Definition perform (q : Request) (c : Copies) : Copies :=
  match q with
  | open_bridge id organization source destination =>
      {| bridge_views := <[id := {| view_organization := organization; view_status := Policy.active;
                                    view_source := source; view_destination := destination |}]> (bridge_views c);
         live_rules := live_rules c |}
  | protect rule organization identities =>
      {| bridge_views := bridge_views c;
         live_rules := <[rule := {| protected_organization := organization; protected_identities := identities |}]>
                         (live_rules c) |}
  end.

Definition pause_view (v : BridgeView) : BridgeView :=
  {| view_organization := view_organization v; view_status := Policy.paused; view_source := view_source v;
     view_destination := view_destination v |}.

(** What takes no lock: a bridge is paused, a rule is removed. *)
Inductive relax : Copies → Copies → Prop :=
| relax_pause c b v :
    bridge_views c !! b = Some v → view_status v ≠ Policy.deleted →
    relax c {| bridge_views := <[b := pause_view v]> (bridge_views c); live_rules := live_rules c |}
| relax_release c r :
    relax c {| bridge_views := bridge_views c; live_rules := delete r (live_rules c) |}
| relax_nothing c : relax c c.

(** What an operation of the services may do to the shared state. *)
Inductive copy_step : Copies → Copies → Prop :=
| step_request q c : admitted q c → copy_step c (perform q c)
| step_relax c c' : relax c c' → copy_step c c'.

Lemma perform_no_copy q c : admitted q c → no_copy c → no_copy (perform q c).
Proof.
  intros Hq Hc. destruct q as [id organization source destination|rule organization identities]; cbn in Hq.
  - unfold no_copy. cbn. intros b v r p [[<- <-]|[_ Hv]]%lookup_insert_Some Hr Horg Hst; cbn in *; [|by eapply Hc].
    destruct (Hq r p Hr (eq_sym Horg)). done.
  - unfold no_copy. cbn. intros b v r p Hv [[<- <-]|[_ Hr]]%lookup_insert_Some Horg Hst; cbn in *; [|by eapply Hc]. by apply (Hq b v).
Qed.

Lemma relax_no_copy c c' : relax c c' → no_copy c → no_copy c'.
Proof.
  intros [c0 b v Hv Hst|c0 rule|c0] Hc; [| |done].
  - unfold no_copy. cbn. intros b' v' r p [[<- <-]|[_ Hv']]%lookup_insert_Some Hr Horg Hst'; cbn in *; [|by eapply Hc].
    split; [|done]. by destruct (Hc b v r p Hv Hr Horg Hst).
  - unfold no_copy. cbn. intros b' v' r p Hv [_ Hr]%lookup_delete_Some. by eapply Hc.
Qed.

Lemma copy_step_no_copy c c' : copy_step c c' → no_copy c → no_copy c'.
Proof. intros []; [by apply perform_no_copy|by apply relax_no_copy]. Qed.

(** ** Implementation *)

(** The locks a request must take. *)
Definition required_locks (q : Request) : list string :=
  match q with
  | open_bridge _ _ source destination => map providerCalendarProtectionKey [source; destination]
  | protect _ _ identities => map providerCalendarProtectionKey identities
  end.

Definition request_organization (q : Request) : string :=
  match q with open_bridge _ organization _ _ => organization | protect _ organization _ => organization end.

(** The transactions under way, each with its request once it was checked. *)
Record System := {
  table : LockTable;
  checked : gmap nat Request;
  copies : Copies;
}.

Section system.
Context `{LockHash}.

(** Transactions of both services, interleaved: a transaction starts with locks
    that cover its request, takes them, checks the request against what is
    committed by then, and commits later. *)
Inductive system_step : System → System → Prop :=
| transaction_starts s t organization calendars :
    table s !! t = None →
    system_step s {| table := <[t := start_session organization calendars]> (table s); checked := checked s;
                     copies := copies s |}
| transaction_locks s t x k rest :
    table s !! t = Some x → wanted x = k :: rest → free_for t k (table s) →
    system_step s {| table := <[t := take_lock k rest x]> (table s); checked := checked s; copies := copies s |}
| transaction_checks s t x q :
    table s !! t = Some x → wanted x = [] → session_organization x = request_organization q →
    required_locks q ⊆ session_calendars x → admitted q (copies s) →
    system_step s {| table := table s; checked := <[t := q]> (checked s); copies := copies s |}
| transaction_commits s t q :
    checked s !! t = Some q →
    system_step s {| table := delete t (table s); checked := delete t (checked s); copies := perform q (copies s) |}
| transaction_ends s t x :
    table s !! t = Some x →
    system_step s {| table := delete t (table s); checked := delete t (checked s); copies := copies s |}
| others_relax s c' :
    relax (copies s) c' →
    system_step s {| table := table s; checked := checked s; copies := c' |}.

(** What was checked stays true, and is covered by locks. *)
Record system_ok (s : System) : Prop := {
  system_table : table_ok (table s);
  system_checked : ∀ t q, checked s !! t = Some q → ∃ x, table s !! t = Some x ∧ wanted x = [] ∧
    session_organization x = request_organization q ∧ required_locks q ⊆ session_calendars x ∧ admitted q (copies s);
  system_no_copy : no_copy (copies s);
}.

Lemma admitted_relax q c c' : relax c c' → admitted q c → admitted q c'.
Proof.
  intros [c0 b v Hv Hst|c0 rule|c0] Hq; [| |done]; destruct q as [id organization source destination|r organization ids]; cbn in *.
  - exact Hq.
  - unfold may_protect. cbn. intros b' v' [[<- <-]|[_ Hv']]%lookup_insert_Some Horg Hst'; cbn in *; [|by eapply Hq]. split; [|done].
    by destruct (Hq b v Hv Horg Hst).
  - unfold may_open. cbn. intros r p [_ Hr]%lookup_delete_Some. by apply (Hq r).
  - exact Hq.
Qed.

(** A request is disturbed only by one that takes a common lock. *)
Lemma admitted_perform q q' c :
  (request_organization q = request_organization q' → ∀ k, k ∈ required_locks q → k ∈ required_locks q' → False) →
  admitted q c → admitted q (perform q' c).
Proof.
  intros Hdis Hq. destruct q as [id organization source destination|r organization ids],
    q' as [id' organization' source' destination'|r' organization' ids']; cbn in *; [done| | |done].
  - unfold may_open. cbn. intros r p [[<- <-]|[_ Hr]]%lookup_insert_Some Horg; cbn in *; [|by eapply Hq]. subst organization'. specialize (Hdis eq_refl).
    split; intros Hin; (eapply Hdis; [|apply list_elem_of_fmap; eexists; split; [reflexivity|exact Hin]]); set_solver.
  - unfold may_protect. cbn. intros b v [[<- <-]|[_ Hv]]%lookup_insert_Some Horg Hst; cbn in *; [|by eapply Hq]. subst organization'. specialize (Hdis eq_refl).
    split; [|intros _]; intros Hin; (eapply Hdis; [apply list_elem_of_fmap; eexists; split; [reflexivity|exact Hin]|]); set_solver.
Qed.

Lemma checked_exclusive s t t' q q' k :
  system_ok s → checked s !! t = Some q → checked s !! t' = Some q' → t ≠ t' →
  request_organization q = request_organization q' → k ∈ required_locks q → k ∈ required_locks q' → False.
Proof.
  intros [Htab Hch _] Hq Hq' Hne Horg Hk Hk'.
  destruct (Hch t q Hq) as (x & Hx & Hw & Ho & Hl & _). destruct (Hch t' q' Hq') as (x' & Hx' & Hw' & Ho' & Hl' & _).
  apply (locked_disjoint (table s) t t' x x' k); [done..| |by apply Hl|by apply Hl']. congruence.
Qed.

Lemma system_step_ok s s' : system_step s s' → system_ok s → system_ok s'.
Proof.
  intros Hstep Hok. pose proof Hok as [Htab Hch Hnc].
  destruct Hstep as [s t organization calendars Hnew|s t x k rest Hx Hw Hfree|s t x q Hx Hw Ho Hl Hq|s t q Hq|s t x Hx|s c' Hr].
  - split; cbn; [by apply table_ok_start| |done]. intros t' q (x & Hx & Hrest)%Hch. exists x.
    rewrite lookup_insert_ne; [done|]. intros <-. congruence.
  - split; cbn; [by apply table_ok_take| |done]. intros t' q (x' & Hx' & Hw' & Hrest)%Hch. exists x'.
    rewrite lookup_insert_ne; [done|]. intros <-. congruence.
  - split; cbn; [done| |done]. intros t' q' [[<- <-]|[_ Hq']]%lookup_insert_Some; [by exists x|by apply Hch].
  - split; cbn; [by apply table_ok_delete| |].
    + intros t' q' [Hne Hq']%lookup_delete_Some. destruct (Hch t' q' Hq') as (x & Hx & Hw & Ho & Hl & Hadm).
      exists x. rewrite lookup_delete_ne by done. split_and!; try done. apply admitted_perform; [|done].
      intros Horg k Hk Hk'. eapply (checked_exclusive s t' t q' q k); done.
    + apply perform_no_copy; [|done]. by destruct (Hch t q Hq) as (x & _ & _ & _ & _ & ?).
  - split; cbn; [by apply table_ok_delete| |done]. intros t' q' [Hne (x' & Hx' & Hrest)%Hch]%lookup_delete_Some.
    exists x'. by rewrite lookup_delete_ne.
  - split; cbn; [done| |by apply (relax_no_copy (copies s))]. intros t q (x & Hx & Hw & Ho & Hl & Hadm)%Hch.
    exists x. split_and!; try done. by apply (admitted_relax q (copies s)).
Qed.

Definition idle (c : Copies) : System := {| table := ∅; checked := ∅; copies := c |}.

Lemma idle_ok c : no_copy c → system_ok (idle c).
Proof. intros Hc. split; cbn; [apply table_ok_empty|intros t q; by rewrite lookup_empty|done]. Qed.

End system.

(** ** Examples *)

Module Samples.
#[local] Instance numbers : LockHash := { hashtextextended k := Zpos (encode k) }.

Definition work_home : BridgeView :=
  {| view_organization := "org"; view_status := Policy.active; view_source := "work"; view_destination := "home" |}.
Definition before : Copies := {| bridge_views := {[ "b" := work_home ]}; live_rules := ∅ |}.

Definition request : Request := protect "rule" "org" ["kids"].
Definition session : Session := start_session "org" (required_locks request).
Definition the_key : string := protection_key "org" (providerCalendarProtectionKey "kids").
Definition after : System := {| table := delete 0%nat (<[0%nat := take_lock the_key [] session]> (<[0%nat := session]> ∅));
  checked := delete 0%nat (<[0%nat := request]> ∅); copies := perform request before |}.

Lemma before_no_copy : no_copy before.
Proof. intros b v r p _ Hr. cbn in Hr. by rewrite lookup_empty in Hr. Qed.

Lemma rule_commits : rtc system_step (idle before) after.
Proof.
  eapply rtc_l; [by apply (transaction_starts (idle before) 0%nat "org" (required_locks request))|].
  eapply rtc_l.
  { apply (transaction_locks _ 0%nat session the_key []); [reflexivity|vm_compute; reflexivity|].
    unfold idle. cbn [table].
    intros t' x' k' [[<- _]|[_ Hx']]%lookup_insert_Some; [done|]. by rewrite lookup_empty in Hx'. }
  eapply rtc_l.
  { apply (transaction_checks _ 0%nat (take_lock the_key [] session) request); try reflexivity.
    change (may_protect "org" ["kids"] before). unfold may_protect. cbn [bridge_views before].
    intros b v [_ <-]%lookup_singleton_Some _ _. split; [|intros _]; cbn; set_solver. }
  eapply rtc_l; [by apply (transaction_commits _ 0%nat request)|]. apply rtc_refl.
Qed.

End Samples.
