(* ===== verification/Effects.v ===== *)
(** * The effect executor

    [server/src/sync/effects.ts]: the outbox as a finite map of effects, the
    lease of a batch, and [executeOne], the transaction that holds the policy,
    the effect and the projection while it calls the provider and records the
    outcome. *)

From S2P Require Import Prelude Canonical Types Text Evaluate Jobs Transaction Policies Store.
From stdpp Require Import options.
Open Scope Z_scope.

(** ** Effects and their identities *)

Record LeasedEffect := {
  id : string;
  organizationId : string;
  policyId : string;
  policyRevision : Z;
  projectionId : string;
  sourceBasisHash : option string;
  operation : EffectOperation;
  desiredState : option DesiredCopy;
  attemptCount : Z;
  ambiguous : bool;
}.

(** [`p${projectionId.replaceAll("-", "").toLowerCase()}${generation}`]. *)
Fixpoint without_dashes (s : string) : string :=
  match s with
  | "" => ""
  | String c s => if Ascii.eqb c "-" then without_dashes s else String c (without_dashes s)
  end.

Definition managedEventId (projectionId : string) (generation : Z) : string :=
  "p" +:+ (toLowerCase (without_dashes projectionId) +:+ pretty generation).

Definition eventBelongsToProjection (event : ProviderEventLookup) (policyId projectionId : string) (generation : Z)
    : bool :=
  match managedIdentity event with
  | Some identity =>
      bool_decide (policyRef identity = policyId) && bool_decide (projectionRef identity = projectionId)
      && (identity_generation identity =? generation)
  | None => false
  end.

Inductive EffectPolicyExecutionDisposition := execute | defer_paused | defer_revision | supersede_deleted.

Definition effectPolicyExecutionDisposition (status : Policy.PolicyStatus) (currentRevision effectRevision : Z)
    : EffectPolicyExecutionDisposition :=
  match status with
  | Policy.deleted => supersede_deleted
  | Policy.paused => defer_paused
  | Policy.active => if currentRevision =? effectRevision then execute else defer_revision
  end.

(** ** The lease *)

Notation Outbox := (gmap string Effect.EffectRow).

Definition is_open (e : Effect.EffectRow) : bool := negb (bool_decide (Effect.state e = succeeded)).

(** [created_at], then [id]. *)
Definition created_before (left right : string * Effect.EffectRow) : bool :=
  (Effect.created_at left.2 <? Effect.created_at right.2)
  || ((Effect.created_at left.2 =? Effect.created_at right.2) && (left.1 <? right.1)%string).

(** The [exists] of the selection: an effect of the same projection that was
    created before and has not succeeded. *)
Definition has_prior (id : string) (e : Effect.EffectRow) (outbox : Outbox) : bool :=
  existsb (λ prior, bool_decide (Effect.projection prior.2 = Effect.projection e) && is_open prior.2
                    && created_before prior (id, e))
    (map_to_list outbox).

Definition reap (now : Z) (e : Effect.EffectRow) : Effect.EffectRow :=
  match Effect.state e, Effect.lease_expires_at e with
  | leased, Some expires =>
      if expires <? now
      then {| Effect.organization := Effect.organization e; Effect.policy := Effect.policy e;
              Effect.projection := Effect.projection e; Effect.source_basis_hash := Effect.source_basis_hash e;
              Effect.policy_revision := Effect.policy_revision e; Effect.operation := Effect.operation e;
              Effect.idempotency_key := Effect.idempotency_key e; Effect.desired_state := Effect.desired_state e;
              Effect.state := retry; Effect.attempt_count := Effect.attempt_count e; Effect.run_after := now;
              Effect.lease_owner := None; Effect.lease_expires_at := None; Effect.ambiguous := true;
              Effect.safe_error_code := Effect.safe_error_code e; Effect.created_at := Effect.created_at e;
              Effect.updated_at := now |}
      else e
  | _, _ => e
  end.

Definition effect_due (now : Z) (e : Effect.EffectRow) : bool :=
  (bool_decide (Effect.state e = pending) || bool_decide (Effect.state e = retry)) && (Effect.run_after e <=? now).

Definition effect_leb (left right : string * Effect.EffectRow) : bool :=
  (Effect.run_after left.2 <? Effect.run_after right.2)
  || ((Effect.run_after left.2 =? Effect.run_after right.2) && text_leb left.1 right.1).

Definition selected_effects (limit : nat) (now : Z) (locked : gset string) (outbox : Outbox)
    : list (string * Effect.EffectRow) :=
  take limit (sort_by effect_leb (List.filter (λ '(id, e),
    effect_due now e && negb (has_prior id e outbox) && negb (bool_decide (id ∈ locked))) (map_to_list outbox))).

Definition take_effect (owner : string) (expires now : Z) (e : Effect.EffectRow) : Effect.EffectRow :=
  {| Effect.organization := Effect.organization e; Effect.policy := Effect.policy e;
     Effect.projection := Effect.projection e; Effect.source_basis_hash := Effect.source_basis_hash e;
     Effect.policy_revision := Effect.policy_revision e; Effect.operation := Effect.operation e;
     Effect.idempotency_key := Effect.idempotency_key e; Effect.desired_state := Effect.desired_state e;
     Effect.state := leased; Effect.attempt_count := Effect.attempt_count e + 1; Effect.run_after := Effect.run_after e;
     Effect.lease_owner := Some owner; Effect.lease_expires_at := Some expires; Effect.ambiguous := Effect.ambiguous e;
     Effect.safe_error_code := Effect.safe_error_code e; Effect.created_at := Effect.created_at e;
     Effect.updated_at := now |}.

Definition leased_of (id : string) (e : Effect.EffectRow) : LeasedEffect :=
  {| id := id; organizationId := Effect.organization e; policyId := Effect.policy e;
     policyRevision := Effect.policy_revision e; projectionId := Effect.projection e;
     sourceBasisHash := Effect.source_basis_hash e; operation := Effect.operation e;
     desiredState := Effect.desired_state e; attemptCount := Effect.attempt_count e + 1;
     ambiguous := Effect.ambiguous e |}.

Definition lease_effects (owner : string) (limit : nat) (leaseSeconds now : Z) (locked : gset string) (outbox : Outbox)
    : list LeasedEffect * Outbox :=
  let outbox := reap now <$> outbox in
  let rows := selected_effects limit now locked outbox in
  (map (λ '(id, e), leased_of id e) rows,
   foldr (λ '(id, e) outbox, <[id := take_effect owner (now + leaseSeconds * 1000) now e]> outbox) outbox rows).

#[global] Arguments lease_effects : simpl never.

(** ** Outcomes *)

(** The columns an outcome sets. *)
Definition settle (state : JobState) (attempts : Z → Z) (run_after : Z → Z) (ambiguous : bool) (code : option string)
    (now : Z) (e : Effect.EffectRow) : Effect.EffectRow :=
  {| Effect.organization := Effect.organization e; Effect.policy := Effect.policy e;
     Effect.projection := Effect.projection e; Effect.source_basis_hash := Effect.source_basis_hash e;
     Effect.policy_revision := Effect.policy_revision e; Effect.operation := Effect.operation e;
     Effect.idempotency_key := Effect.idempotency_key e; Effect.desired_state := Effect.desired_state e;
     Effect.state := state; Effect.attempt_count := attempts (Effect.attempt_count e);
     Effect.run_after := run_after (Effect.run_after e); Effect.lease_owner := None; Effect.lease_expires_at := None;
     Effect.ambiguous := ambiguous; Effect.safe_error_code := code; Effect.created_at := Effect.created_at e;
     Effect.updated_at := now |}.

(** The condition of the outcomes: leased by the worker. *)
Definition holds (owner : string) (e : Effect.EffectRow) : bool :=
  bool_decide (Effect.state e = leased) && bool_decide (Effect.lease_owner e = Some owner).

Section executor.
Context {R : Type} `{Provider R} `{NewId} `{Unicode} `{Digest}.
Local Notation M := (M R).

(** [update outbox_effects ... where id, state = leased and lease_owner], [executeTakeFirstOrThrow]. *)
Definition settle_effect (owner : string) (effect : LeasedEffect) (f : Effect.EffectRow → Effect.EffectRow) : M () :=
  row ← read_db (λ d, outbox_effects d !! id effect);
  match row with
  | Some e => if holds owner e then write_db (with_effects (λ t, <[id effect := f e]> t)) else throw no_result
  | None => throw no_result
  end.

(** [update projections ... where id], [executeTakeFirstOrThrow]. *)
Definition update_projection (projectionId : string) (f : Projection.ProjectionRow → Projection.ProjectionRow) : M () :=
  row ← read_db (λ d, projections d !! projectionId);
  match row with
  | Some p => write_db (with_projections (λ t, <[projectionId := f p]> t))
  | None => throw no_result
  end.

Definition operation_text (op : EffectOperation) : string :=
  match op with op_create => "create" | op_update => "update" | op_delete => "delete" end.

Definition audit (effect : LeasedEffect) (action reasonCode : string) (extraDetail : list (string * json)) (now : Z)
    : M () :=
  _ ← fresh_id;
  write_db (with_audit
    {| Audit.organization := organizationId effect; Audit.principal := None; Audit.actor_kind := "sync";
       Audit.action := action; Audit.target_type := "projection"; Audit.target := projectionId effect;
       Audit.reason_code := reasonCode; Audit.before_hash := None; Audit.after_hash := None;
       Audit.detail := [("effect_id", JString (id effect));
                        ("operation", JString (operation_text (operation effect)))] ++ extraDetail;
       Audit.created_at := now |}).

Definition DEFERRAL : Z := 24 * 60 * 60000.

Definition defer (owner : string) (effect : LeasedEffect) (reasonCode : string) (now : Z) : M () :=
  _ ← settle_effect owner effect
        (settle retry (λ n, n - 1) (λ _, now + DEFERRAL) false (Some reasonCode) now);
  audit effect "copy.deferred" reasonCode [] now.

Definition supersede (owner : string) (effect : LeasedEffect) (reasonCode : string) (now : Z) : M () :=
  _ ← settle_effect owner effect (settle succeeded (λ n, n) (λ r, r) false (Some reasonCode) now);
  audit effect "copy.effect_superseded" reasonCode [] now.

(** The columns a successful write sets on the projection. *)
Definition converge (op : EffectOperation) (remoteEventId remoteRevision : option string) (now : Z)
    (p : Projection.ProjectionRow) : Projection.ProjectionRow :=
  let deleted := match op with op_delete => true | _ => false end in
  {| Projection.organization := Projection.organization p; Projection.policy := Projection.policy p;
     Projection.policy_revision := Projection.policy_revision p;
     Projection.source_observation := Projection.source_observation p;
     Projection.source_basis_hash := Projection.source_basis_hash p; Projection.recovery_operation := None;
     Projection.recurrence_identity := Projection.recurrence_identity p;
     Projection.destination_calendar := Projection.destination_calendar p;
     Projection.destination_event := if deleted then None else remoteEventId;
     Projection.destination_etag := if deleted then None else remoteRevision;
     Projection.generation := if deleted then Projection.generation p + 1 else Projection.generation p;
     Projection.intent_sequence := Projection.intent_sequence p;
     Projection.desired_hash := Projection.desired_hash p; Projection.desired_state := Projection.desired_state p;
     Projection.status := if deleted then "deleted" else "converged";
     Projection.ownership := if deleted then Projection.ownership p else Projection.attached;
     Projection.last_success_at := Some now;
     Projection.last_verified_at := if deleted then None else Some now;
     Projection.safe_error_code := None; Projection.updated_at := now |}.

(** The columns a failure or a hold sets on the projection. *)
Definition mark_projection (status : string) (ownership : option Projection.ProjectionOwnership) (code : string)
    (now : Z) (p : Projection.ProjectionRow) : Projection.ProjectionRow :=
  {| Projection.organization := Projection.organization p; Projection.policy := Projection.policy p;
     Projection.policy_revision := Projection.policy_revision p;
     Projection.source_observation := Projection.source_observation p;
     Projection.source_basis_hash := Projection.source_basis_hash p;
     Projection.recovery_operation := Projection.recovery_operation p;
     Projection.recurrence_identity := Projection.recurrence_identity p;
     Projection.destination_calendar := Projection.destination_calendar p;
     Projection.destination_event := Projection.destination_event p;
     Projection.destination_etag := Projection.destination_etag p; Projection.generation := Projection.generation p;
     Projection.intent_sequence := Projection.intent_sequence p;
     Projection.desired_hash := Projection.desired_hash p; Projection.desired_state := Projection.desired_state p;
     Projection.status := status; Projection.ownership := nullish ownership (Projection.ownership p);
     Projection.last_success_at := Projection.last_success_at p;
     Projection.last_verified_at := Projection.last_verified_at p; Projection.safe_error_code := Some code;
     Projection.updated_at := now |}.

Definition succeed_effect (owner : string) (effect : LeasedEffect) (remoteEventId remoteRevision : option string)
    (now : Z) : M () :=
  _ ← settle_effect owner effect (settle succeeded (λ n, n) (λ r, r) false None now);
  _ ← update_projection (projectionId effect) (converge (operation effect) remoteEventId remoteRevision now);
  audit effect (match operation effect with op_delete => "copy.deleted" | _ => "copy.converged" end)
    "provider_write_succeeded" [] now.

Definition holdAmbiguous (owner : string) (effect : LeasedEffect) (error : ProviderError) (now : Z) : M () :=
  _ ← settle_effect owner effect (settle dead (λ n, n) (λ r, r) true (Some (code error)) now);
  _ ← update_projection (projectionId effect)
        (mark_projection "held" (Some Projection.ambiguous) (code error) now);
  audit effect "copy.held"
    (if (code error =? "ownership_mismatch")%string then "destination_ownership_mismatch"
     else "provider_precondition_failed") [] now.

Definition effect_retryable (error : failure) : bool :=
  match error with provider_failure e => retryable e | _ => true end.

Definition effect_is_dead (error : failure) (attempts : Z) : bool :=
  negb (effect_retryable error) || (10 <=? attempts).

(** [Math.min(3_600, 2 ** Math.min(attemptCount, 10))] seconds. *)
Definition effect_delay (attempts : Z) : Z := Z.min 3600 (2 ^ Z.min attempts 10) * 1000.

Definition fail_effect (owner : string) (effect : LeasedEffect) (error : failure) (now : Z) : M () :=
  let dead_now := effect_is_dead error (attemptCount effect) in
  _ ← settle_effect owner effect
        (settle (if dead_now then dead else retry) (λ n, n) (λ _, now + effect_delay (attemptCount effect))
          (ambiguous effect || match error with provider_failure e => error_ambiguous e | _ => false end)
          (Some (safeErrorCode error)) now);
  write_db (with_projections (alter
    (mark_projection (if dead_now then "failed" else "retrying") None (safeErrorCode error) now)
    (projectionId effect))).

(** ** Execution *)

(** The joined row [executeOneLocked] reads of the projection. *)
Record Target := {
  target_projection : string;
  target_row : Projection.ProjectionRow;
  observation_hash : string;
  observation_tombstone : bool;
  calendar_remote_id : string;
  calendar_writable : bool;
  connection_id : string;
  connection : Connection.ConnectionRow;
}.

(** The joined row it reads of the policy. *)
Record PolicyTarget := {
  policy_row : Policy.PolicyRow;
  source_readable : bool;
  source_connection : Connection.ConnectionRow;
}.

Definition load_policy (effect : LeasedEffect) (d : Db) : option PolicyTarget :=
  p ← sync_policies d !! policyId effect;
  source ← calendar_endpoints d !! Policy.source_calendar p;
  conn ← provider_connections d !! Endpoint.connection source;
  if bool_decide (Policy.organization p = organizationId effect)
  then Some {| policy_row := p; source_readable := Endpoint.readable source; source_connection := conn |}
  else None.

Definition load_target (effect : LeasedEffect) (d : Db) : option Target :=
  p ← projections d !! projectionId effect;
  observation ← source_observations d !! Projection.source_observation p;
  calendar ← calendar_endpoints d !! Projection.destination_calendar p;
  conn ← provider_connections d !! Endpoint.connection calendar;
  if bool_decide (Projection.organization p = organizationId effect) && bool_decide (Projection.policy p = policyId effect)
  then Some {| target_projection := projectionId effect; target_row := p;
               observation_hash := Observation.observation_hash observation;
               observation_tombstone := Observation.tombstone observation;
               calendar_remote_id := Endpoint.remote_id calendar; calendar_writable := Endpoint.writable calendar;
               connection_id := Endpoint.connection calendar; connection := conn |}
  else None.

(** Whether the worker still holds the effect. *)
Definition has_lease (owner : string) (effect : LeasedEffect) (d : Db) : bool :=
  match outbox_effects d !! id effect with
  | Some e => bool_decide (Effect.organization e = organizationId effect) && holds owner e
  | None => false
  end.

Definition source_authorizes (t : PolicyTarget) : bool :=
  source_readable t && bool_decide (Connection.status (source_connection t) = "active")
  && (bool_decide (Connection.intended_role (source_connection t) = "source")
      || bool_decide (Connection.intended_role (source_connection t) = "both")).

Definition target_available (t : Target) : bool :=
  bool_decide (Connection.status (connection t) = "active") && calendar_writable t
  && (bool_decide (Connection.intended_role (connection t) = "destination")
      || bool_decide (Connection.intended_role (connection t) = "both")).

Definition requireDesiredCopy (value : option DesiredCopy) : M DesiredCopy :=
  match value with
  | Some desired => mret desired
  | None => throw (provider_failure (provider_error "invalid_desired_state" false))
  end.

(** Whether another effect of the projection is pending, leased or to retry. *)
Definition has_newer (effect : LeasedEffect) (d : Db) : bool :=
  existsb (λ '(other, e), bool_decide (Effect.projection e = projectionId effect) && negb (bool_decide (other = id effect))
    && active (Effect.state e)) (map_to_list (outbox_effects d)).

Definition with_generation (generation : Z) (d : DesiredCopy) : DesiredCopy :=
  {| desired_timing := desired_timing d; desired_summary := desired_summary d;
     desired_description := desired_description d; desired_location := desired_location d;
     desired_conference := desired_conference d; transparency := transparency d; visibility := visibility d;
     desired_color := desired_color d; provenance_policy := provenance_policy d;
     provenance_projection := provenance_projection d; provenance_generation := generation |}.

Definition stale_missing_repair : failure := provider_failure (provider_error "stale_missing_repair" false).

(** The check that the copy to replace is the one of the projection. *)
Definition check_replacement (effect : LeasedEffect) (target : Projection.ProjectionRow) (desired effectDesired : DesiredCopy)
    : res failure () :=
  if negb (Projection.policy_revision target =? policyRevision effect)
     || negb (provenance_policy desired =? policyId effect)%string
     || negb (provenance_projection desired =? projectionId effect)%string
     || negb (provenance_generation desired =? Projection.generation target)
  then Throw stale_missing_repair
  else match Projection.desired_hash target with
       | None | Some "" => Throw stale_missing_repair
       | Some expected =>
           actual ← hash (desired_json desired);
           if negb (actual =? expected)%string then Throw stale_missing_repair
           else
             actual ← hash (desired_json effectDesired);
             if negb (actual =? expected)%string then Throw stale_missing_repair else Ok ()
       end.

Definition replacement_effect (effect : LeasedEffect) (desired : DesiredCopy) (idempotencyKey : string) (now : Z)
    : Effect.EffectRow :=
  {| Effect.organization := organizationId effect; Effect.policy := policyId effect;
     Effect.projection := projectionId effect; Effect.source_basis_hash := sourceBasisHash effect;
     Effect.policy_revision := policyRevision effect; Effect.operation := op_create;
     Effect.idempotency_key := idempotencyKey; Effect.desired_state := Some desired; Effect.state := pending;
     Effect.attempt_count := 0; Effect.run_after := now; Effect.lease_owner := None;
     Effect.lease_expires_at := None; Effect.ambiguous := false; Effect.safe_error_code := None;
     Effect.created_at := now; Effect.updated_at := now |}.

Definition advance_generation (generation intentSequence : Z) (desired : DesiredCopy) (desiredHash : string) (now : Z)
    (p : Projection.ProjectionRow) : Projection.ProjectionRow :=
  {| Projection.organization := Projection.organization p; Projection.policy := Projection.policy p;
     Projection.policy_revision := Projection.policy_revision p;
     Projection.source_observation := Projection.source_observation p;
     Projection.source_basis_hash := Projection.source_basis_hash p; Projection.recovery_operation := None;
     Projection.recurrence_identity := Projection.recurrence_identity p;
     Projection.destination_calendar := Projection.destination_calendar p;
     Projection.destination_event := None; Projection.destination_etag := None;
     Projection.generation := generation; Projection.intent_sequence := intentSequence;
     Projection.desired_hash := Some desiredHash; Projection.desired_state := Some desired;
     Projection.status := "pending"; Projection.ownership := Projection.ownership p;
     Projection.last_success_at := Projection.last_success_at p;
     Projection.last_verified_at := Projection.last_verified_at p;
     Projection.safe_error_code := Some "destination_missing"; Projection.updated_at := now |}.

Definition replacement_key_json (effect : LeasedEffect) (generation intentSequence : Z) (desiredHash : string) : json :=
  JObject [("version", int 1); ("kind", JString "destination_missing_generation_repair");
           ("policy_ref", JString (policyId effect)); ("policy_revision", int (policyRevision effect));
           ("projection_ref", JString (projectionId effect)); ("generation", int generation);
           ("intent_sequence", int intentSequence); ("operation", JString "create");
           ("desired_fingerprint", JString desiredHash)].

Definition scheduleReplacementAfterMissing (owner : string) (effect : LeasedEffect) (target : Projection.ProjectionRow)
    (now : Z) : M () :=
  newer ← read_db (has_newer effect);
  if newer : bool then supersede owner effect "destination_missing_newer_intent" now
  else
    desired ← requireDesiredCopy (Projection.desired_state target);
    effectDesired ← requireDesiredCopy (desiredState effect);
    _ ← lift (check_replacement effect target desired effectDesired);
    let generation := Projection.generation target + 1 in
    let intentSequence := Projection.intent_sequence target + 1 in
    let replacementDesired := with_generation generation desired in
    desiredHash ← lift (hash (desired_json replacementDesired));
    replacementEffectId ← fresh_id;
    idempotencyKey ← lift (hash (replacement_key_json effect generation intentSequence desiredHash));
    _ ← supersede owner effect "destination_missing_generation_advanced" now;
    _ ← write_db (with_effects (λ t,
          <[replacementEffectId := replacement_effect effect replacementDesired idempotencyKey now]> t));
    _ ← update_projection (projectionId effect)
          (advance_generation generation intentSequence replacementDesired desiredHash now);
    audit effect "copy.repair_scheduled" "destination_missing_generation_advanced"
      [("replacement_effect_id", JString replacementEffectId);
       ("previous_generation", int (Projection.generation target)); ("repair_generation", int generation)] now.

Definition ownership_mismatch : ProviderError := provider_error "ownership_mismatch" false.

(** [eventBelongsToProjection] of the event found for this effect. *)
Definition owned (effect : LeasedEffect) (target : Target) (found : ProviderEventLookup) : bool :=
  eventBelongsToProjection found (policyId effect) (target_projection target) (Projection.generation (target_row target)).

Definition run_create (owner : string) (effect : LeasedEffect) (target : Target) (token eventId : string) (now : Z) : M () :=
  let provider := Connection.provider (connection target) in
  let calendar := calendar_remote_id target in
  desired ← requireDesiredCopy (desiredState effect);
  found ← getEvent provider token calendar eventId;
  match found with
  | Some found =>
      if negb (owned effect target found) then holdAmbiguous owner effect ownership_mismatch now
      else
        restored ← updateEvent provider token calendar (found_id found) (Some (found_revision found)) desired;
        succeed_effect owner effect (Some (remoteEventId restored)) (Some (remoteRevision restored)) now
  | None =>
      if ambiguous effect then scheduleReplacementAfterMissing owner effect (target_row target) now
      else
        created ← createEvent provider token calendar eventId desired;
        succeed_effect owner effect (Some (remoteEventId created)) (Some (remoteRevision created)) now
  end.

(** A [ProviderError] with the status 404. *)
Definition is_missing (error : failure) : bool :=
  match error with provider_failure e => bool_decide (http_status e = Some 404) | _ => false end.

(** An update of an event at a known id, and the read that follows a 404:
    the write to record, or [None] when the effect is settled already. *)
Definition update_known (owner : string) (effect : LeasedEffect) (target : Target) (token eventId : string)
    (expected : option string) (desired : DesiredCopy) (now : Z) : M (option ProviderWriteResult) :=
  let provider := Connection.provider (connection target) in
  let calendar := calendar_remote_id target in
  try_catch
    (updated ← updateEvent provider token calendar eventId expected desired; mret (Some updated))
    (λ error,
       if negb (is_missing error) then throw error
       else
         found ← getEvent provider token calendar eventId;
         match found with
         | Some found =>
             if negb (owned effect target found)
             then _ ← holdAmbiguous owner effect ownership_mismatch now; mret None
             else
               updated ← updateEvent provider token calendar (found_id found) (Some (found_revision found)) desired;
               mret (Some updated)
         | None => _ ← scheduleReplacementAfterMissing owner effect (target_row target) now; mret None
         end).

(** [if (updateEventId)]: an update of that event, or a creation. *)
Definition update_or_create (owner : string) (effect : LeasedEffect) (target : Target) (token eventId : string)
    (updateEventId expected : option string) (desired : DesiredCopy) (now : Z) : M (option ProviderWriteResult) :=
  match updateEventId with
  | None | Some "" =>
      created ← createEvent (Connection.provider (connection target)) token (calendar_remote_id target) eventId desired;
      mret (Some created)
  | Some event => update_known owner effect target token event expected desired now
  end.

Definition record_update (owner : string) (effect : LeasedEffect) (updated : option ProviderWriteResult) (now : Z) : M () :=
  match updated with
  | Some updated => succeed_effect owner effect (Some (remoteEventId updated)) (Some (remoteRevision updated)) now
  | None => mret ()
  end.

Definition is_empty (text : option string) : bool := match text with None | Some "" => true | Some _ => false end.

Definition run_update (owner : string) (effect : LeasedEffect) (target : Target) (token eventId : string) (now : Z) : M () :=
  let row := target_row target in
  desired ← requireDesiredCopy (desiredState effect);
  if ambiguous effect && negb (is_empty (Projection.destination_event row)) then
    found ← getEvent (Connection.provider (connection target)) token (calendar_remote_id target)
              (nullish (Projection.destination_event row) "");
    match found with
    | None => scheduleReplacementAfterMissing owner effect row now
    | Some found =>
        if negb (owned effect target found) then holdAmbiguous owner effect ownership_mismatch now
        else
          updated ← update_or_create owner effect target token eventId (Some (found_id found))
                      (Some (found_revision found)) desired now;
          record_update owner effect updated now
    end
  else
    updated ← update_or_create owner effect target token eventId (Projection.destination_event row)
                (Projection.destination_etag row) desired now;
    record_update owner effect updated now.

Definition run_delete (owner : string) (effect : LeasedEffect) (target : Target) (token eventId : string) (now : Z) : M () :=
  let provider := Connection.provider (connection target) in
  let calendar := calendar_remote_id target in
  let deleteEventId := match Projection.destination_event (target_row target) with
                       | Some event => Some event
                       | None => if ambiguous effect then Some eventId else None
                       end in
  match deleteEventId with
  | None | Some "" => succeed_effect owner effect None None now
  | Some event =>
      if ambiguous effect then
        found ← getEvent provider token calendar event;
        match found with
        | None => succeed_effect owner effect None None now
        | Some found =>
            if negb (owned effect target found) then holdAmbiguous owner effect ownership_mismatch now
            else
              _ ← deleteEvent provider token calendar event (Some (found_revision found));
              succeed_effect owner effect None None now
        end
      else
        _ ← deleteEvent provider token calendar event (Projection.destination_etag (target_row target));
        succeed_effect owner effect None None now
  end.

(** The body of the [try] of [executeOneLocked]. *)
Definition run_operation (owner : string) (effect : LeasedEffect) (target : Target) (eventId : string) (now : Z) : M () :=
  token ← resolve_and_token (Connection.provider (connection target)) (organizationId effect) (connection_id target);
  match operation effect with
  | op_create => run_create owner effect target token eventId now
  | op_update => run_update owner effect target token eventId now
  | op_delete => run_delete owner effect target token eventId now
  end.

Definition require_action (effect : LeasedEffect) (code : string) (now : Z) (c : Connection.ConnectionRow)
    : Connection.ConnectionRow :=
  if bool_decide (Connection.organization c = organizationId effect)
  then {| Connection.organization := Connection.organization c; Connection.provider := Connection.provider c;
          Connection.account_label := Connection.account_label c;
          Connection.intended_role := Connection.intended_role c; Connection.status := "action_required";
          Connection.last_success_at := Connection.last_success_at c;
          Connection.safe_error_code := Some code; Connection.updated_at := now |}
  else c.

(** The [catch] of [executeOneLocked]. *)
Definition on_failure (owner : string) (effect : LeasedEffect) (target : Target) (now : Z) (error : failure) : M () :=
  match error with
  | provider_failure e =>
      if (code e =? "precondition_failed")%string then holdAmbiguous owner effect e now
      else
        _ ← (if (code e =? "provider_auth")%string
             then write_db (with_connections (alter (require_action effect (code e) now) (connection_id target)))
             else mret ());
        fail_effect owner effect error now
  | _ => fail_effect owner effect error now
  end.

Definition role_changed (effect : LeasedEffect) (now : Z) (p : Policy.PolicyRow) : Policy.PolicyRow :=
  if bool_decide (Policy.organization p = organizationId effect) && bool_decide (Policy.status p = Policy.active)
  then {| Policy.organization := Policy.organization p; Policy.source_calendar := Policy.source_calendar p;
          Policy.destination_calendar := Policy.destination_calendar p;
          Policy.source_identity := Policy.source_identity p;
          Policy.destination_identity := Policy.destination_identity p;
          Policy.hours_profile := Policy.hours_profile p;
          Policy.status := Policy.status p; Policy.revision := Policy.revision p;
          Policy.document := Policy.document p; Policy.hash := Policy.hash p;
          Policy.last_success_at := Policy.last_success_at p;
          Policy.safe_error_code := Some "connection_role_changed"; Policy.updated_at := now |}
  else p.

(** The basis of an effect that is no longer the one of its projection or of its source. *)
Definition basis_changed (effect : LeasedEffect) (target : Projection.ProjectionRow) (current : string) : bool :=
  match sourceBasisHash effect, Projection.source_basis_hash target with
  | Some basis, Some of_projection =>
      (basis =? "")%string || (of_projection =? "")%string
      || negb (basis =? of_projection)%string || negb (basis =? current)%string
  | _, _ => true
  end.

(** A changed basis: the effect is superseded and the policy reconciled again. *)
Definition recover_basis (owner : string) (effect : LeasedEffect) (now : Z) : M () :=
  _ ← supersede owner effect "recovery_basis_changed" now;
  _ ← update_projection (projectionId effect) (mark_projection "failed" None "recovery_basis_changed" now);
  enqueue_job (organizationId effect) "reconcile_policy"
    ("policy:" +:+ (policyId effect +:+ (":revision:" +:+ (pretty (policyRevision effect) +:+
      (":recovery-basis:" +:+ id effect)))))
    [("policy_id", JString (policyId effect))] now.

(** What is left once the policy allows the effect. *)
Definition execute_target (owner : string) (effect : LeasedEffect) (policy : option PolicyTarget) (now : Z) : M () :=
  target ← read_db (load_target effect);
  match policy, target with
  | Some _, Some target =>
      if negb (target_available target)
      then fail_effect owner effect (provider_failure (provider_error "target_unavailable" false)) now
      else
        current ← lift (sourceObservationBasisHash (observation_hash target) (observation_tombstone target));
        if basis_changed effect (target_row target) current then recover_basis owner effect now
        else
          let eventId := nullish (Projection.destination_event (target_row target))
            (managedEventId (target_projection target) (Projection.generation (target_row target))) in
          try_catch (run_operation owner effect target eventId now) (on_failure owner effect target now)
  | _, _ => fail_effect owner effect (provider_failure (provider_error "target_unavailable" false)) now
  end.

Definition executeOneLocked (owner : string) (effect : LeasedEffect) (now : Z) : M () :=
  policy ← read_db (load_policy effect);
  lease ← read_db (has_lease owner effect);
  if negb lease then mret ()
  else
    match policy with
    | None => execute_target owner effect None now
    | Some p =>
        match effectPolicyExecutionDisposition (Policy.status (policy_row p)) (Policy.revision (policy_row p))
                (policyRevision effect) with
        | defer_paused => defer owner effect "policy_paused" now
        | defer_revision => defer owner effect "policy_revision_changed" now
        | supersede_deleted => supersede owner effect "policy_deleted" now
        | execute =>
            if negb (source_authorizes p) then
              _ ← write_db (with_policies (alter (role_changed effect now) (policyId effect)));
              fail_effect owner effect (provider_failure (provider_error "connection_role_changed" false)) now
            else execute_target owner effect (Some p) now
        end
    end.

Definition executeOne (owner : string) (effect : LeasedEffect) (now : Z) : M () :=
  transaction (executeOneLocked owner effect now).

(** The loop of [runBatch], the time of each effect from [clock]. *)
Fixpoint execute_all (owner : string) (clock : nat → Z) (n : nat) (effects : list LeasedEffect) : M () :=
  match effects with
  | [] => mret ()
  | effect :: effects => _ ← executeOne owner effect (clock n); execute_all owner clock (S n) effects
  end.

Definition runBatch (owner : string) (limit : nat) (leaseSeconds : Z) (locked : gset string) (clock : nat → Z) : M nat :=
  outbox ← read_db outbox_effects;
  let '(effects, outbox') := lease_effects owner limit leaseSeconds (clock 0%nat) locked outbox in
  _ ← write_db (with_effects (λ _, outbox'));
  _ ← execute_all owner clock 1 effects;
  mret (length effects).
End executor.

(** ** The verdicts: what one execution does to the database *)

(** The columns written with an audit fact of the effect. *)
Definition audit_fact (effect : LeasedEffect) (action reasonCode : string) (extra : list (string * json)) (now : Z)
    : Audit.AuditFact :=
  {| Audit.organization := organizationId effect; Audit.principal := None; Audit.actor_kind := "sync";
     Audit.action := action; Audit.target_type := "projection"; Audit.target := projectionId effect;
     Audit.reason_code := reasonCode; Audit.before_hash := None; Audit.after_hash := None;
     Audit.detail := [("effect_id", JString (id effect));
                      ("operation", JString (operation_text (operation effect)))] ++ extra;
     Audit.created_at := now |}.

Definition db_settle (effect : LeasedEffect) (f : Effect.EffectRow → Effect.EffectRow) : Db → Db :=
  with_effects (alter f (id effect)).
Definition db_projection (effect : LeasedEffect) (f : Projection.ProjectionRow → Projection.ProjectionRow) : Db → Db :=
  with_projections (alter f (projectionId effect)).

Definition db_supersede (effect : LeasedEffect) (reasonCode : string) (now : Z) (d : Db) : Db :=
  with_audit (audit_fact effect "copy.effect_superseded" reasonCode [] now)
    (db_settle effect (settle succeeded (λ n, n) (λ r, r) false (Some reasonCode) now) d).

Definition db_defer (effect : LeasedEffect) (reasonCode : string) (now : Z) (d : Db) : Db :=
  with_audit (audit_fact effect "copy.deferred" reasonCode [] now)
    (db_settle effect (settle retry (λ n, n - 1) (λ _, now + DEFERRAL) false (Some reasonCode) now) d).

Definition db_succeed (effect : LeasedEffect) (event revision : option string) (now : Z) (d : Db) : Db :=
  with_audit (audit_fact effect (match operation effect with op_delete => "copy.deleted" | _ => "copy.converged" end)
                "provider_write_succeeded" [] now)
    (db_projection effect (converge (operation effect) event revision now)
      (db_settle effect (settle succeeded (λ n, n) (λ r, r) false None now) d)).

Definition db_hold (effect : LeasedEffect) (error : ProviderError) (now : Z) (d : Db) : Db :=
  with_audit (audit_fact effect "copy.held"
                (if (code error =? "ownership_mismatch")%string then "destination_ownership_mismatch"
                 else "provider_precondition_failed") [] now)
    (db_projection effect (mark_projection "held" (Some Projection.ambiguous) (code error) now)
      (db_settle effect (settle dead (λ n, n) (λ r, r) true (Some (code error)) now) d)).

Definition db_fail (effect : LeasedEffect) (error : failure) (now : Z) (d : Db) : Db :=
  let dead_now := effect_is_dead error (attemptCount effect) in
  db_projection effect (mark_projection (if dead_now then "failed" else "retrying") None (safeErrorCode error) now)
    (db_settle effect
      (settle (if dead_now then dead else retry) (λ n, n) (λ _, now + effect_delay (attemptCount effect))
        (ambiguous effect || match error with provider_failure e => error_ambiguous e | _ => false end)
        (Some (safeErrorCode error)) now) d).

Definition db_replace (effect : LeasedEffect) (target : Projection.ProjectionRow) (desired : DesiredCopy)
    (desiredHash replacementId key : string) (now : Z) (d : Db) : Db :=
  let generation := Projection.generation target + 1 in
  with_audit (audit_fact effect "copy.repair_scheduled" "destination_missing_generation_advanced"
      [("replacement_effect_id", JString replacementId);
       ("previous_generation", int (Projection.generation target)); ("repair_generation", int generation)] now)
    (db_projection effect
      (advance_generation generation (Projection.intent_sequence target + 1) (with_generation generation desired)
        desiredHash now)
      (with_effects (λ t, <[replacementId := replacement_effect effect (with_generation generation desired) key now]> t)
        (db_supersede effect "destination_missing_generation_advanced" now d))).

Section verdicts.
Context `{NewId} `{Unicode} `{Digest}.

(** What the [try] of an execution may record. *)
Inductive run_verdict (effect : LeasedEffect) (target : Projection.ProjectionRow) (now : Z) (d : Db) : Db → Prop :=
| run_succeeds event revision : run_verdict effect target now d (db_succeed effect event revision now d)
| run_holds : run_verdict effect target now d (db_hold effect ownership_mismatch now d)
| run_yields : has_newer effect d = true →
    run_verdict effect target now d (db_supersede effect "destination_missing_newer_intent" now d)
| run_replaces desired effectDesired h n key :
    has_newer effect d = false → Projection.desired_state target = Some desired →
    desiredState effect = Some effectDesired → check_replacement effect target desired effectDesired = Ok () →
    hash (desired_json (with_generation (Projection.generation target + 1) desired)) = Ok h →
    run_verdict effect target now d (db_replace effect target desired h (newId n) key now d).

(** The call of the calendar of the target that a write needs as a reason: it
    was found and owned, it is the recorded copy, or it was not there. *)
Definition justified (effect : LeasedEffect) (target : Target) (eventId : string) (tr : list Call) (c : Call) : Prop :=
  let row := target_row target in
  match c with
  | GetEvent calendar _ _ => calendar = calendar_remote_id target
  | CreateEvent calendar event desired _ =>
      calendar = calendar_remote_id target ∧ event = eventId ∧ desiredState effect = Some desired ∧
      ((operation effect = op_create ∧ ambiguous effect = false ∧
        GetEvent calendar eventId (Ok None) ∈ tr) ∨
       (operation effect = op_update ∧
        (is_empty (Projection.destination_event row) = true ∨
         ∃ found, GetEvent calendar (nullish (Projection.destination_event row) "") (Ok (Some found)) ∈ tr ∧
           owned effect target found = true ∧ found_id found = "")))
  | UpdateEvent calendar event expected desired _ =>
      calendar = calendar_remote_id target ∧ desiredState effect = Some desired ∧ operation effect ≠ op_delete ∧
      ((operation effect = op_update ∧ ambiguous effect = false ∧
        Projection.destination_event row = Some event ∧ expected = Projection.destination_etag row) ∨
       ∃ looked found, GetEvent calendar looked (Ok (Some found)) ∈ tr ∧ owned effect target found = true ∧
         event = found_id found ∧ expected = Some (found_revision found))
  | DeleteEvent calendar event expected _ =>
      calendar = calendar_remote_id target ∧ operation effect = op_delete ∧
      ((ambiguous effect = false ∧ Projection.destination_event row = Some event ∧
        expected = Projection.destination_etag row) ∨
       ∃ found, GetEvent calendar event (Ok (Some found)) ∈ tr ∧ owned effect target found = true ∧
         expected = Some (found_revision found))
  end.

Definition all_justified (effect : LeasedEffect) (target : Target) (eventId : string) (tr : list Call) : Prop :=
  ∀ c, c ∈ tr → justified effect target eventId tr c.
End verdicts.

(** ** Running the operations *)

(** The lease and the projection that the locks of an execution guarantee. *)
Definition locked_rows (owner : string) (effect : LeasedEffect) (d : Db) : Prop :=
  (∃ e, outbox_effects d !! id effect = Some e ∧ holds owner e = true) ∧ is_Some (projections d !! projectionId effect).

Section running.
Context {R : Type} `{Provider R} `{NewId} `{Unicode} `{Digest}.
Implicit Types w : World R.

Lemma settle_effect_run owner effect f w :
  locked_rows owner effect (db w) →
  settle_effect owner effect f w =
    (Ok (), {| db := db_settle effect f (db w); remote := remote w; calls := calls w; issued := issued w |}).
Proof.
  intros [(e & He & Ho) _]. unfold settle_effect. rewrite bind_run. cbn [read_db]. rewrite He, Ho.
  unfold write_db, db_settle, with_effects. cbn. repeat f_equal. symmetry.
  apply map_eq. intros i. destruct (decide (i = id effect)) as [->|Hne].
  - by rewrite lookup_alter_eq, lookup_insert_eq, He.
  - by rewrite lookup_alter_ne, lookup_insert_ne.
Qed.

Lemma update_projection_run pid f w :
  is_Some (projections (db w) !! pid) →
  update_projection pid f w =
    (Ok (), {| db := with_projections (alter f pid) (db w); remote := remote w; calls := calls w; issued := issued w |}).
Proof.
  intros [p Hp]. unfold update_projection. rewrite bind_run. cbn [read_db]. rewrite Hp.
  unfold write_db, with_projections. cbn. repeat f_equal. symmetry.
  apply map_eq. intros i. destruct (decide (i = pid)) as [->|Hne].
  - by rewrite lookup_alter_eq, lookup_insert_eq, Hp.
  - by rewrite lookup_alter_ne, lookup_insert_ne.
Qed.

Lemma audit_run effect action reasonCode extra now w :
  audit effect action reasonCode extra now w =
    (Ok (), {| db := with_audit (audit_fact effect action reasonCode extra now) (db w); remote := remote w;
               calls := calls w; issued := S (issued w) |}).
Proof. done. Qed.

(** [m] commits the database [d] and calls nobody. *)
Definition commits (m : M R ()) (w : World R) (d : Db) : Prop :=
  ∃ n, m w = (Ok (), {| db := d; remote := remote w; calls := calls w; issued := n |}).

Lemma settle_audit_run owner effect f action reasonCode extra now w :
  locked_rows owner effect (db w) →
  commits (_ ← settle_effect owner effect f; audit effect action reasonCode extra now) w
    (with_audit (audit_fact effect action reasonCode extra now) (db_settle effect f (db w))).
Proof. intros Hl. eexists. rewrite bind_run, settle_effect_run by done. by rewrite audit_run. Qed.

Lemma settle_project_audit_run owner effect f g action reasonCode extra now w :
  locked_rows owner effect (db w) →
  commits (_ ← settle_effect owner effect f; _ ← update_projection (projectionId effect) g;
           audit effect action reasonCode extra now) w
    (with_audit (audit_fact effect action reasonCode extra now) (db_projection effect g (db_settle effect f (db w)))).
Proof.
  intros Hl. eexists. rewrite bind_run, settle_effect_run by done.
  rewrite bind_run, update_projection_run by (cbn; apply Hl). by rewrite audit_run.
Qed.

Lemma supersede_run owner effect reasonCode now w :
  locked_rows owner effect (db w) →
  commits (supersede owner effect reasonCode now) w (db_supersede effect reasonCode now (db w)).
Proof. apply settle_audit_run. Qed.

Lemma defer_run owner effect reasonCode now w :
  locked_rows owner effect (db w) →
  commits (defer owner effect reasonCode now) w (db_defer effect reasonCode now (db w)).
Proof. apply settle_audit_run. Qed.

Lemma succeed_run owner effect event revision now w :
  locked_rows owner effect (db w) →
  commits (succeed_effect owner effect event revision now) w (db_succeed effect event revision now (db w)).
Proof. apply settle_project_audit_run. Qed.

Lemma hold_run owner effect error now w :
  locked_rows owner effect (db w) →
  commits (holdAmbiguous owner effect error now) w (db_hold effect error now (db w)).
Proof. apply settle_project_audit_run. Qed.

Lemma fail_run owner effect error now w :
  locked_rows owner effect (db w) →
  commits (fail_effect owner effect error now) w (db_fail effect error now (db w)).
Proof. intros Hl. eexists. unfold fail_effect. by rewrite bind_run, settle_effect_run. Qed.

(** The replacement of a missing copy: a verdict, or nothing and an error. *)
Lemma replacement_run owner effect target now w :
  locked_rows owner effect (db w) →
  (∃ d, commits (scheduleReplacementAfterMissing owner effect target now) w d ∧ run_verdict effect target now (db w) d) ∨
  ∃ e n, scheduleReplacementAfterMissing owner effect target now w =
    (Throw e, {| db := db w; remote := remote w; calls := calls w; issued := n |}).
Proof.
  intros Hl. unfold scheduleReplacementAfterMissing, commits. setoid_rewrite bind_run. cbn [read_db].
  destruct (has_newer effect (db w)) eqn:Hn.
  { left. eexists. split; [by apply supersede_run|]. by apply run_yields. }
  destruct (Projection.desired_state target) as [desired|] eqn:Hd; cbn [requireDesiredCopy];
    [|right; destruct w; do 2 eexists; reflexivity].
  rewrite bind_run. cbn [mret M_ret].
  destruct (desiredState effect) as [effectDesired|] eqn:He; cbn [requireDesiredCopy];
    [|right; destruct w; do 2 eexists; reflexivity].
  rewrite bind_run. cbn [mret M_ret]. rewrite bind_run. cbn [lift].
  destruct (check_replacement effect target desired effectDesired) as [[]|e] eqn:Hc;
    [|right; destruct w; do 2 eexists; reflexivity].
  rewrite bind_run. cbn [lift]. destruct (hash (desired_json _)) as [h|e] eqn:Hh;
    [|right; destruct w; do 2 eexists; reflexivity].
  rewrite bind_run. unfold fresh_id at 1. rewrite bind_run. cbn [lift].
  destruct (hash (replacement_key_json _ _ _ _)) as [key|e];
    [|right; destruct w; do 2 eexists; reflexivity].
  left. rewrite bind_run.
  match goal with |- context [supersede owner effect ?r now ?w0] =>
    destruct (supersede_run owner effect r now w0 Hl) as [n ->] end.
  rewrite bind_run. cbn [write_db]. rewrite bind_run, update_projection_run by (cbn; apply Hl).
  rewrite audit_run. eexists. split; [eexists; reflexivity|]. cbn.
  by apply (run_replaces effect target now (db w) desired effectDesired h (issued w) key).
Qed.

(** ** The calls of an execution *)

(** [w'] differs from [w] in the remote side and in calls that are justified. *)
Definition called (effect : LeasedEffect) (target : Target) (eventId : string) (tr : list Call) (w w' : World R) : Prop :=
  db w' = db w ∧ calls w' = calls w ++ tr ∧ all_justified effect target eventId tr.

(** After the body of the [try]: a verdict with justified calls, or an error
    that left the database as it was. *)
Definition body_post (effect : LeasedEffect) (target : Target) (eventId : string) (now : Z) (w : World R)
    (out : res failure () * World R) : Prop :=
  ∃ tr, calls out.2 = calls w ++ tr ∧ all_justified effect target eventId tr ∧
    match out.1 with
    | Ok _ => run_verdict effect (target_row target) now (db w) (db out.2)
    | Throw _ => db out.2 = db w
    end.

Lemma commits_post effect target eventId now tr w w' m d :
  called effect target eventId tr w w' → commits m w' d → run_verdict effect (target_row target) now (db w') d →
  body_post effect target eventId now w (m w').
Proof. intros (Hdb & Hc & Hj) [n ->] Hv. exists tr. cbn. rewrite <- Hdb. done. Qed.

Lemma throw_post effect target eventId now tr w w' e :
  called effect target eventId tr w w' → body_post effect target eventId now w (Throw e, w').
Proof. intros (Hdb & Hc & Hj). exists tr. done. Qed.

Lemma replacement_post owner effect target eventId now tr w w' :
  called effect target eventId tr w w' → locked_rows owner effect (db w') →
  body_post effect target eventId now w (scheduleReplacementAfterMissing owner effect (target_row target) now w').
Proof.
  intros Hc Hl. destruct (replacement_run owner effect (target_row target) now w' Hl) as [(d & Hd & Hv)|(e & n & ->)].
  - by eapply commits_post.
  - destruct Hc as (Hdb & Hc & Hj). exists tr. done.
Qed.

(** One more call that the calls so far justify. *)
Lemma called_more effect target eventId tr w w1 w2 c :
  called effect target eventId tr w w1 → db w2 = db w1 → calls w2 = calls w1 ++ [c] →
  (∀ tr', tr ⊆ tr' → justified effect target eventId tr' c) →
  called effect target eventId (tr ++ [c]) w w2.
Proof.
  intros (Hdb & Hc & Hj) Hdb2 Hc2 Hjc. split; [congruence|]. split; [by rewrite Hc2, Hc, app_assoc|].
  assert (∀ c', justified effect target eventId tr c' → justified effect target eventId (tr ++ [c]) c') as Hmono.
  { intros []; cbn; [done|..];
      intros; destruct_and?; split_and?; try done; set_solver. }
  intros c' [Hin| ->%list_elem_of_singleton]%elem_of_app; [auto|]. apply Hjc. set_solver.
Qed.

Lemma call_cases {A} (c : res failure A → Call) (f : R → res failure A * R) w :
  ∃ a w', call c f w = (a, w') ∧ db w' = db w ∧ calls w' = calls w ++ [c a].
Proof. unfold call. destruct (f (remote w)) as [a r]. eauto. Qed.

Lemma getEvent_cases p t c e w :
  ∃ a w', getEvent p t c e w = (a, w') ∧ db w' = db w ∧ calls w' = calls w ++ [GetEvent c e a].
Proof. apply call_cases. Qed.
Lemma createEvent_cases p t c e d w :
  ∃ a w', createEvent p t c e d w = (a, w') ∧ db w' = db w ∧ calls w' = calls w ++ [CreateEvent c e d a].
Proof. apply call_cases. Qed.
Lemma updateEvent_cases p t c e x d w :
  ∃ a w', updateEvent p t c e x d w = (a, w') ∧ db w' = db w ∧ calls w' = calls w ++ [UpdateEvent c e x d a].
Proof. apply call_cases. Qed.
Lemma deleteEvent_cases p t c e x w :
  ∃ a w', deleteEvent p t c e x w = (a, w') ∧ db w' = db w ∧ calls w' = calls w ++ [DeleteEvent c e x a].
Proof. apply call_cases. Qed.

Lemma succeed_post owner effect target eventId now tr w w' event revision :
  called effect target eventId tr w w' → locked_rows owner effect (db w') →
  body_post effect target eventId now w (succeed_effect owner effect event revision now w').
Proof. intros Hc Hl. eapply commits_post; [done|by apply succeed_run|constructor]. Qed.

Lemma hold_post owner effect target eventId now tr w w' :
  called effect target eventId tr w w' → locked_rows owner effect (db w') →
  body_post effect target eventId now w (holdAmbiguous owner effect ownership_mismatch now w').
Proof. intros Hc Hl. eapply commits_post; [done|by apply hold_run|constructor]. Qed.

(** Make the next call of the calendar and justify it. *)
Ltac next_call_of Hc cases :=
  let answer := fresh "answer" in let w' := fresh "w" in
  let Hrun := fresh in let Hdb := fresh "Hdb" in let Hcalls := fresh "Hcalls" in
  destruct cases as (answer & w' & Hrun & Hdb & Hcalls); rewrite Hrun; clear Hrun;
  eapply called_more in Hc; [|exact Hdb|exact Hcalls|].

Ltac next_call Hc :=
  rewrite bind_run;
  lazymatch goal with
  | |- context [getEvent ?p ?t ?c ?e ?w] => next_call_of Hc (getEvent_cases p t c e w)
  | |- context [createEvent ?p ?t ?c ?e ?d ?w] => next_call_of Hc (createEvent_cases p t c e d w)
  | |- context [updateEvent ?p ?t ?c ?e ?x ?d ?w] => next_call_of Hc (updateEvent_cases p t c e x d w)
  | |- context [deleteEvent ?p ?t ?c ?e ?x ?w] => next_call_of Hc (deleteEvent_cases p t c e x w)
  end.

Lemma run_create_post owner effect target token eventId now tr w w0 :
  operation effect = op_create → called effect target eventId tr w0 w → locked_rows owner effect (db w) →
  body_post effect target eventId now w0 (run_create owner effect target token eventId now w).
Proof.
  intros Hop Hc Hl. unfold run_create. rewrite bind_run.
  destruct (desiredState effect) as [desired|] eqn:Hd; cbn [requireDesiredCopy]; [|by eapply throw_post].
  cbn [mret M_ret]. next_call Hc; [|done].
  destruct answer as [[found|]|e]; [| |by eapply throw_post].
  - destruct (owned effect target found) eqn:Hown; cbn [negb].
    + rewrite <- Hdb in Hl. clear Hdb Hcalls. next_call Hc.
      * destruct answer as [restored|e]; [|by eapply throw_post].
        eapply succeed_post; [done|congruence].
      * intros tr' Htr. cbn. rewrite Hd, Hop. split_and?; try done. right. exists eventId, found.
        split_and?; try done. set_solver.
    + eapply hold_post; [done|congruence].
  - destruct (ambiguous effect) eqn:Ha; [eapply replacement_post; [done|congruence]|].
    rewrite <- Hdb in Hl. clear Hdb Hcalls. next_call Hc.
    + destruct answer as [created|e]; [|by eapply throw_post]. eapply succeed_post; [done|congruence].
    + intros tr' Htr. cbn. rewrite Hd, Hop, Ha. split_and?; try done. left. split_and?; try done. set_solver.
Qed.

(** After an update: a write to record, or a verdict, or an error. *)
Definition update_post (effect : LeasedEffect) (target : Target) (eventId : string) (now : Z) (w : World R)
    (out : res failure (option ProviderWriteResult) * World R) : Prop :=
  ∃ tr, calls out.2 = calls w ++ tr ∧ all_justified effect target eventId tr ∧
    match out.1 with
    | Ok None => run_verdict effect (target_row target) now (db w) (db out.2)
    | Ok (Some _) | Throw _ => db out.2 = db w
    end.

Lemma update_post_called effect target eventId now tr w w' r :
  called effect target eventId tr w w' → r ≠ Ok None → update_post effect target eventId now w (r, w').
Proof. intros (Hdb & Hc & Hj) Hr. exists tr. split_and!; [done..|]. by destruct r as [[]|]. Qed.

Lemma update_post_settled effect target eventId now w m (w' : World R) :
  body_post effect target eventId now w (m w') →
  update_post effect target eventId now w
    ((_ ← m; mret (M := M R) (None : option ProviderWriteResult)) w').
Proof.
  rewrite bind_run. intros (tr & Hc & Hj & Hv). destruct (m w') as [[[]|e] w1]; exists tr; done.
Qed.

Lemma record_update_post owner effect target eventId now w out :
  locked_rows owner effect (db w) →
  update_post effect target eventId now w out →
  body_post effect target eventId now w
    (match out with
     | (Ok updated, w') => record_update owner effect updated now w'
     | (Throw e, w') => (Throw e, w')
     end).
Proof.
  intros Hl (tr & Hc & Hj & Hv). destruct out as [[[u|]|e] w1]; cbn in *.
  - eapply succeed_post; [by split_and!|congruence].
  - exists tr. done.
  - exists tr. done.
Qed.

Lemma update_known_post owner effect target token event expected desired eventId now tr w w0 :
  called effect target eventId tr w0 w → locked_rows owner effect (db w) →
  desiredState effect = Some desired → operation effect = op_update →
  (∀ tr' answer, tr ⊆ tr' →
     justified effect target eventId tr' (UpdateEvent (calendar_remote_id target) event expected desired answer)) →
  update_post effect target eventId now w0 (update_known owner effect target token event expected desired now w).
Proof.
  intros Hc Hl Hd Hop Hjust. unfold update_known, try_catch. next_call Hc; [|by auto].
  destruct answer as [u|e]; cbn beta iota; [by eapply update_post_called|].
  destruct (is_missing e); cbn [negb]; [|by eapply update_post_called].
  rewrite <- Hdb in Hl. clear Hdb Hcalls. next_call Hc; [|done].
  destruct answer as [[found|]|e']; [| |by eapply update_post_called].
  - destruct (owned effect target found) eqn:Hown; cbn [negb].
    + rewrite <- Hdb in Hl. clear Hdb Hcalls. next_call Hc.
      * destruct answer as [u|e']; by eapply update_post_called.
      * intros tr' Htr. cbn. rewrite Hd, Hop. split_and?; try done. right. exists event, found.
        split_and?; try done. set_solver.
    + apply update_post_settled. eapply hold_post; [done|congruence].
  - apply update_post_settled. eapply replacement_post; [done|congruence].
Qed.

Lemma update_or_create_post owner effect target token eventId updateEventId expected desired now tr w w0 :
  called effect target eventId tr w0 w → locked_rows owner effect (db w) →
  desiredState effect = Some desired → operation effect = op_update →
  (∀ tr' answer event, tr ⊆ tr' → updateEventId = Some event → event ≠ "" →
     justified effect target eventId tr' (UpdateEvent (calendar_remote_id target) event expected desired answer)) →
  (∀ tr' answer, tr ⊆ tr' → is_empty updateEventId = true →
     justified effect target eventId tr' (CreateEvent (calendar_remote_id target) eventId desired answer)) →
  update_post effect target eventId now w0
    (update_or_create owner effect target token eventId updateEventId expected desired now w).
Proof.
  intros Hc Hl Hd Hop Hup Hcr.
  assert (is_empty updateEventId = true →
    update_post effect target eventId now w0
      ((created ← createEvent (Connection.provider (connection target)) token (calendar_remote_id target) eventId desired;
        mret (M := M R) (Some created)) w)) as Hcreate.
  { intros He. next_call Hc; [|by auto]. destruct answer; by eapply update_post_called. }
  unfold update_or_create. destruct updateEventId as [[|c event]|]; [by apply Hcreate| |by apply Hcreate].
  eapply update_known_post; try done. intros. by apply Hup.
Qed.

Lemma run_update_post owner effect target token eventId now tr w w0 :
  operation effect = op_update → called effect target eventId tr w0 w → locked_rows owner effect (db w0) →
  body_post effect target eventId now w0 (run_update owner effect target token eventId now w).
Proof.
  intros Hop Hc Hl0. assert (locked_rows owner effect (db w)) as Hl by (by destruct Hc as (-> & _)).
  unfold run_update. rewrite bind_run.
  destruct (desiredState effect) as [desired|] eqn:Hd; cbn [requireDesiredCopy]; [|by eapply throw_post].
  cbn [mret M_ret].
  destruct (ambiguous effect) eqn:Ha; cbn [andb];
    [destruct (is_empty (Projection.destination_event (target_row target))) eqn:He; cbn [negb]|].
  - rewrite bind_run. apply record_update_post; [done|].
    eapply update_or_create_post; try done.
    + intros tr' answer event Htr Hev Hne. rewrite Hev in He. cbn. rewrite Hd, Hop. split_and?; try done.
      by destruct event.
    + intros tr' answer Htr Hev. cbn. rewrite Hd, Hop. split_and?; try done. right. auto.
  - next_call Hc; [|done]. destruct answer as [[found|]|e]; [| |by eapply throw_post].
    + destruct (owned effect target found) eqn:Hown; cbn [negb]; [|eapply hold_post; [done|congruence]].
      rewrite bind_run. apply record_update_post; [done|].
      eapply update_or_create_post; try done; [congruence| |].
      * intros tr' answer event Htr [= <-] _. cbn. rewrite Hd, Hop. split_and?; try done. right.
        exists (nullish (Projection.destination_event (target_row target)) ""), found. split_and?; try done. set_solver.
      * intros tr' answer Htr Hev. cbn. rewrite Hd, Hop. split_and?; try done. right. split; [done|]. right.
        exists found. split_and?; [set_solver|done|]. cbn in Hev. by destruct (found_id found).
    + eapply replacement_post; [done|congruence].
  - rewrite bind_run. apply record_update_post; [done|].
    eapply update_or_create_post; try done.
    + intros tr' answer event Htr Hev _. cbn. rewrite Hd, Hop. split_and?; try done. left. done.
    + intros tr' answer Htr Hev. cbn. rewrite Hd, Hop. split_and?; try done. right. auto.
Qed.

Lemma run_delete_post owner effect target token now tr w w0 :
  let eventId := nullish (Projection.destination_event (target_row target))
    (managedEventId (target_projection target) (Projection.generation (target_row target))) in
  operation effect = op_delete → called effect target eventId tr w0 w → locked_rows owner effect (db w) →
  body_post effect target eventId now w0 (run_delete owner effect target token eventId now w).
Proof.
  intros eventId Hop Hc Hl.
  assert (∀ event, (ambiguous effect = false → Projection.destination_event (target_row target) = Some event) →
    body_post effect target eventId now w0
      ((if ambiguous effect then
          found ← getEvent (Connection.provider (connection target)) token (calendar_remote_id target) event;
          match found with
          | None => succeed_effect owner effect None None now
          | Some found =>
              if negb (owned effect target found) then holdAmbiguous owner effect ownership_mismatch now
              else
                _ ← deleteEvent (Connection.provider (connection target)) token (calendar_remote_id target) event
                      (Some (found_revision found));
                succeed_effect owner effect None None now
          end
        else
          _ ← deleteEvent (Connection.provider (connection target)) token (calendar_remote_id target) event
                (Projection.destination_etag (target_row target));
          succeed_effect owner effect None None now) w)) as Hevent.
  { intros event Hev. destruct (ambiguous effect) eqn:Ha.
    - next_call Hc; [|done]. destruct answer as [[found|]|e]; [| |by eapply throw_post].
      + destruct (owned effect target found) eqn:Hown; cbn [negb]; [|eapply hold_post; [done|congruence]].
        rewrite <- Hdb in Hl. clear Hdb Hcalls. next_call Hc.
        * destruct answer as [[]|e]; [|by eapply throw_post]. eapply succeed_post; [done|congruence].
        * intros tr' Htr. cbn. rewrite Hop. split_and?; try done. right. exists found.
          split_and?; try done. set_solver.
      + eapply succeed_post; [done|congruence].
    - next_call Hc.
      + destruct answer as [[]|e]; [|by eapply throw_post]. eapply succeed_post; [done|congruence].
      + intros tr' Htr. cbn. rewrite Hop, Ha. split_and?; try done. left. auto. }
  unfold run_delete.
  destruct (Projection.destination_event (target_row target)) as [[|c event]|] eqn:Hdest.
  - by eapply succeed_post.
  - apply Hevent. done.
  - destruct (ambiguous effect) eqn:Ha; [|by eapply succeed_post].
    destruct eventId as [|c event] eqn:He; [by eapply succeed_post|]. by apply Hevent.
Qed.

Lemma token_cases provider organization connection w :
  ∃ a w', resolve_and_token provider organization connection w = (a, w') ∧ db w' = db w ∧ calls w' = calls w.
Proof.
  unfold resolve_and_token. rewrite bind_run. cbn [lift].
  destruct (provider_resolve provider) as [[]|e]; [|by do 2 eexists].
  unfold use_remote. destruct (provider_token _ _ _) as [a r]. by do 2 eexists.
Qed.

Lemma run_operation_post owner effect target now w :
  let eventId := nullish (Projection.destination_event (target_row target))
    (managedEventId (target_projection target) (Projection.generation (target_row target))) in
  locked_rows owner effect (db w) →
  body_post effect target eventId now w (run_operation owner effect target eventId now w).
Proof.
  intros eventId Hl. unfold run_operation. rewrite bind_run.
  destruct (token_cases (Connection.provider (connection target)) (organizationId effect) (connection_id target) w)
    as (a & w1 & -> & Hdb & Hcalls).
  assert (called effect target eventId [] w w1) as Hc.
  { split_and!; [done|by rewrite Hcalls, app_nil_r|]. intros c. by rewrite elem_of_nil. }
  destruct a as [token|e]; [|by eapply throw_post].
  destruct (operation effect) eqn:Hop.
  - eapply run_create_post; [done..|congruence].
  - eapply run_update_post; done.
  - eapply run_delete_post; [done..|congruence].
Qed.

(** The database after the [catch]. *)
Definition db_on_failure (effect : LeasedEffect) (target : Target) (now : Z) (error : failure) (d : Db) : Db :=
  match error with
  | provider_failure e =>
      if (code e =? "precondition_failed")%string then db_hold effect e now d
      else db_fail effect error now
        (if (code e =? "provider_auth")%string
         then with_connections (alter (require_action effect (code e) now) (connection_id target)) d else d)
  | _ => db_fail effect error now d
  end.

Lemma on_failure_run owner effect target now error w :
  locked_rows owner effect (db w) →
  commits (on_failure owner effect target now error) w (db_on_failure effect target now error (db w)).
Proof.
  intros Hl. unfold on_failure, db_on_failure. destruct error as [e| | | |]; [|by apply fail_run..].
  destruct (code e =? "precondition_failed")%string; [by apply hold_run|].
  destruct (code e =? "provider_auth")%string; [|by apply fail_run].
  unfold commits. rewrite bind_run. cbn [write_db].
  match goal with |- context [fail_effect owner effect ?x now ?w0] =>
    destruct (fail_run owner effect x now w0 Hl) as [n ->] end. eauto.
Qed.
End running.

(** ** The specification of an execution *)

Section specification.
Context `{NewId} `{Unicode} `{Digest}.

(** The policy lets the effect run: active, at the revision of the effect, over
    a source that may be copied. *)
Definition permits (effect : LeasedEffect) (p : PolicyTarget) : Prop :=
  Policy.status (policy_row p) = Policy.active ∧ Policy.revision (policy_row p) = policyRevision effect ∧
  source_authorizes p = true.

(** The effect, its projection and its source agree on what was authorised. *)
Definition basis_current (effect : LeasedEffect) (target : Target) : Prop :=
  ∃ basis, basis ≠ "" ∧ sourceBasisHash effect = Some basis ∧
    Projection.source_basis_hash (target_row target) = Some basis ∧
    sourceObservationBasisHash (observation_hash target) (observation_tombstone target) = Ok basis.

Definition event_id (target : Target) : string :=
  nullish (Projection.destination_event (target_row target))
    (managedEventId (target_projection target) (Projection.generation (target_row target))).

Definition recovery_key (effect : LeasedEffect) : JobKey :=
  {| organization_id := organizationId effect; job_kind := "reconcile_policy";
     dedupe_key := "policy:" +:+ (policyId effect +:+ (":revision:" +:+ (pretty (policyRevision effect) +:+
       (":recovery-basis:" +:+ id effect)))) |}.

Definition role_error : failure := provider_failure (provider_error "connection_role_changed" false).
Definition target_error : failure := provider_failure (provider_error "target_unavailable" false).

(** What an execution may do to the database, and with which calls. *)
Inductive verdict (owner : string) (effect : LeasedEffect) (now : Z) (d : Db) : Db → list Call → Prop :=
| lease_is_lost : has_lease owner effect d = false → verdict owner effect now d d []
| policy_paused p : has_lease owner effect d = true → load_policy effect d = Some p → Policy.status (policy_row p) = Policy.paused →
    verdict owner effect now d (db_defer effect "policy_paused" now d) []
| policy_revised p : has_lease owner effect d = true → load_policy effect d = Some p → Policy.status (policy_row p) = Policy.active →
    Policy.revision (policy_row p) ≠ policyRevision effect →
    verdict owner effect now d (db_defer effect "policy_revision_changed" now d) []
| policy_deleted p : has_lease owner effect d = true → load_policy effect d = Some p → Policy.status (policy_row p) = Policy.deleted →
    verdict owner effect now d (db_supersede effect "policy_deleted" now d) []
| source_role_changed p : has_lease owner effect d = true → load_policy effect d = Some p → source_authorizes p = false →
    verdict owner effect now d
      (db_fail effect role_error now (with_policies (alter (role_changed effect now) (policyId effect)) d)) []
| target_is_unavailable : has_lease owner effect d = true →
    (load_policy effect d = None ∨ load_target effect d = None ∨
     ∃ target, load_target effect d = Some target ∧ target_available target = false) →
    verdict owner effect now d (db_fail effect target_error now d) []
| basis_is_stale p target r n jobs : has_lease owner effect d = true →
    load_policy effect d = Some p → permits effect p → load_target effect d = Some target →
    ¬ basis_current effect target →
    Jobs.enqueue (recovery_key effect) (JObject [("policy_id", JString (policyId effect))]) now (newId n) now
      (scheduled_jobs d) = Ok (r, jobs) →
    verdict owner effect now d
      (with_jobs (λ _, jobs) (db_projection effect (mark_projection "failed" None "recovery_basis_changed" now)
        (db_supersede effect "recovery_basis_changed" now d))) []
| executed p target d' tr : has_lease owner effect d = true →
    load_policy effect d = Some p → permits effect p → load_target effect d = Some target →
    target_available target = true → basis_current effect target →
    all_justified effect target (event_id target) tr →
    run_verdict effect (target_row target) now d d' → verdict owner effect now d d' tr
| execution_failed p target error tr : has_lease owner effect d = true →
    load_policy effect d = Some p → permits effect p → load_target effect d = Some target →
    target_available target = true → basis_current effect target →
    all_justified effect target (event_id target) tr →
    verdict owner effect now d (db_on_failure effect target now error d) tr.

(** A lease comes with the projection its effect refers to (a foreign key). *)
Definition projection_present (effect : LeasedEffect) (d : Db) : Prop := is_Some (projections d !! projectionId effect).

Lemma has_lease_locked owner effect d :
  has_lease owner effect d = true → projection_present effect d → locked_rows owner effect d.
Proof.
  unfold has_lease. destruct (outbox_effects d !! id effect) as [e|] eqn:He; [|done].
  intros [_ Ho]%andb_true_iff Hp. split; [by exists e|done].
Qed.

Lemma basis_changed_spec effect target h :
  sourceObservationBasisHash (observation_hash target) (observation_tombstone target) = Ok h →
  (basis_changed effect (target_row target) h = false ↔ basis_current effect target).
Proof.
  intros Hh. unfold basis_changed, basis_current. rewrite Hh. split.
  - destruct (sourceBasisHash effect) as [b|], (Projection.source_basis_hash (target_row target)) as [b'|]; try done.
    intros [[[Hb _]%orb_false_iff Hb']%orb_false_iff Hc]%orb_false_iff. bool_to_prop. subst. exists h. done.
  - intros (b & Hne & -> & -> & [= ->]). apply String.eqb_neq in Hne. by rewrite Hne, String.eqb_refl.
Qed.
End specification.

Section refinement.
Context {R : Type} `{Provider R} `{NewId} `{Unicode} `{!UnicodeLaws _} `{Digest}.

(** [w'] is reached from [w] by a verdict. *)
Definition reaches (owner : string) (effect : LeasedEffect) (now : Z) (w : World R) (out : res failure () * World R) : Prop :=
  out.1 = Ok () ∧ ∃ tr, calls out.2 = calls w ++ tr ∧ verdict owner effect now (db w) (db out.2) tr.

Lemma commits_reaches owner effect now m (w : World R) d :
  commits m w d → verdict owner effect now (db w) d [] → reaches owner effect now w (m w).
Proof. intros [n ->] Hv. split; [done|]. exists []. rewrite app_nil_r. done. Qed.

Lemma recover_basis_run owner effect now (w : World R) :
  locked_rows owner effect (db w) →
  ∃ r n jobs, Jobs.enqueue (recovery_key effect) (JObject [("policy_id", JString (policyId effect))]) now (newId n) now
      (scheduled_jobs (db w)) = Ok (r, jobs) ∧
    commits (recover_basis owner effect now) w
      (with_jobs (λ _, jobs) (db_projection effect (mark_projection "failed" None "recovery_basis_changed" now)
        (db_supersede effect "recovery_basis_changed" now (db w)))).
Proof using Type.
  intros Hl. unfold recover_basis.
  destruct (supersede_run owner effect "recovery_basis_changed" now w Hl) as [n Hs].
  assert (∃ r jobs, Jobs.enqueue (recovery_key effect) (JObject [("policy_id", JString (policyId effect))]) now
    (newId n) now (scheduled_jobs (db w)) = Ok (r, jobs)) as (r & jobs & He).
  { unfold Jobs.enqueue. cbn. case_match; eauto. }
  exists r, n, jobs. split; [done|]. eexists. rewrite bind_run, Hs, bind_run, update_projection_run by (cbn; apply Hl).
  unfold enqueue_job, enqueue_job_id. rewrite !bind_run. cbn [fresh_id]. rewrite bind_run. cbn [read_db scheduled_jobs db].
  unfold recovery_key in He. cbn [with_projections with_audit scheduled_jobs with_effects db_supersede db_settle].
  cbn [issued db remote calls]. rewrite He. reflexivity.
Qed.

Lemma execute_target_reaches owner effect policy now (w : World R) :
  has_lease owner effect (db w) = true → locked_rows owner effect (db w) → load_policy effect (db w) = policy → (∀ p, policy = Some p → permits effect p) →
  reaches owner effect now w (execute_target owner effect policy now w).
Proof using All.
  intros Hlease Hl Hp Hperm. unfold execute_target. rewrite bind_run. cbn [read_db].
  destruct policy as [p|].
  2: { eapply commits_reaches; [by apply fail_run|]. apply target_is_unavailable; auto. }
  specialize (Hperm p eq_refl).
  destruct (load_target effect (db w)) as [target|] eqn:Ht.
  2: { eapply commits_reaches; [by apply fail_run|]. apply target_is_unavailable; auto. }
  destruct (target_available target) eqn:Ha; cbn [negb].
  2: { eapply commits_reaches; [by apply fail_run|]. apply target_is_unavailable; eauto. }
  rewrite bind_run. cbn [lift].
  destruct (basis_hash_defined (observation_hash target) (observation_tombstone target)) as [h Hh]. rewrite Hh.
  pose proof (basis_changed_spec effect target h Hh) as Hspec.
  destruct (basis_changed effect (target_row target) h).
  { destruct (recover_basis_run owner effect now w Hl) as (r & n & jobs & He & Hc).
    eapply commits_reaches; [done|]. eapply basis_is_stale; try done. intros Hb. by apply Hspec in Hb. }
  apply proj1 in Hspec. specialize (Hspec eq_refl). unfold try_catch.
  destruct (run_operation_post owner effect target now w Hl) as (tr & Hcalls & Hj & Hv).
  destruct (run_operation _ _ _ _ _ _) as [[[]|e] w1]; cbn in Hcalls, Hv.
  - split; [done|]. exists tr. split; [done|]. by eapply executed.
  - rewrite <- Hv in Hl. destruct (on_failure_run owner effect target now e w1 Hl) as [n ->].
    split; [done|]. exists tr. cbn. split; [done|]. rewrite Hv. by eapply execution_failed.
Qed.

Lemma executeOneLocked_reaches owner effect now (w : World R) :
  projection_present effect (db w) →
  reaches owner effect now w (executeOneLocked owner effect now w).
Proof using All.
  intros Hp.
  unfold executeOneLocked. rewrite bind_run. cbn [read_db]. rewrite bind_run. cbn [read_db].
  destruct (has_lease owner effect (db w)) eqn:Hlease; cbn [negb].
  2: { split; [done|]. exists []. rewrite app_nil_r. split; [done|]. by apply lease_is_lost. }
  pose proof (has_lease_locked owner effect (db w) Hlease Hp) as Hl.
  destruct (load_policy effect (db w)) as [p|] eqn:Hpol; [|by apply execute_target_reaches].
  destruct (Policy.status (policy_row p)) eqn:Hs; cbn [effectPolicyExecutionDisposition].
  - destruct (Policy.revision (policy_row p) =? policyRevision effect) eqn:Hrev; bool_to_prop.
    + destruct (source_authorizes p) eqn:Ha; cbn [negb].
      * apply execute_target_reaches; [done..|]. by intros ? [= <-].
      * eapply commits_reaches; [|by eapply source_role_changed]. unfold commits. rewrite bind_run. cbn [write_db].
        match goal with |- context [fail_effect owner effect ?x now ?w0] =>
          destruct (fail_run owner effect x now w0 Hl) as [n ->] end. eauto.
    + eapply commits_reaches; [by apply defer_run|by eapply policy_revised].
  - eapply commits_reaches; [by apply defer_run|by eapply policy_paused].
  - eapply commits_reaches; [by apply supersede_run|by eapply policy_deleted].
Qed.

(** An execution does not roll back. *)
Lemma executeOne_commits owner effect now (w : World R) :
  projection_present effect (db w) → executeOne owner effect now w = executeOneLocked owner effect now w.
Proof using All.
  intros Hp. unfold executeOne, transaction.
  destruct (executeOneLocked_reaches owner effect now w Hp) as [Hok _].
  by destruct (executeOneLocked _ _ _ _) as [[[]|e] w1].
Qed.


(** C19. No call of a calendar without authority: every call an execution makes
    finds the effect leased by the worker, the policy active at the revision
    of the effect over a source that may be copied, the destination writable
    and the basis current; a write carries the desired state of the effect
    and is justified by the recorded copy, by an owned event just read, or by
    the absence of any. *)
Theorem calls_are_authorised owner effect now (w : World R) c :
  projection_present effect (db w) →
  c ∈ drop (length (calls w)) (calls (executeOne owner effect now w).2) →
  has_lease owner effect (db w) = true ∧
  ∃ p target tr, load_policy effect (db w) = Some p ∧ permits effect p ∧
    load_target effect (db w) = Some target ∧ target_available target = true ∧ basis_current effect target ∧
    calls (executeOne owner effect now w).2 = calls w ++ tr ∧ justified effect target (event_id target) tr c.
Proof using All.
  intros Hp. rewrite executeOne_commits by done.
  destruct (executeOneLocked_reaches owner effect now w Hp) as (_ & tr & -> & Hv).
  rewrite drop_app_length. intros Hc.
  destruct Hv as [| | | | | | |p target d' tr|p target error tr]; try (by apply elem_of_nil in Hc);
    (split; [done|]); exists p, target, tr; split_and!; try done;
    by match goal with Hj : all_justified _ _ _ _ |- _ => apply Hj end.
Qed.

(** ** Settling *)

(** The effect after an execution: one settlement, and perhaps a replacement. *)
Inductive settled_outbox (effect : LeasedEffect) (now : Z) (t : Outbox) : Outbox → Prop :=
| settled_alone state attempts run_after ambiguous code :
    active state = false ∨ state = retry →
    settled_outbox effect now t (alter (settle state attempts run_after ambiguous code now) (id effect) t)
| settled_replaced code n desired key :
    settled_outbox effect now t
      (<[newId n := replacement_effect effect desired key now]>
        (alter (settle succeeded (λ n, n) (λ r, r) false code now) (id effect) t)).

Lemma verdict_outbox owner effect now d d' tr :
  verdict owner effect now d d' tr → has_lease owner effect d = true →
  settled_outbox effect now (outbox_effects d) (outbox_effects d').
Proof using Type.
  intros Hv Hlease.
  assert (∀ error d0, outbox_effects d0 = outbox_effects d →
    settled_outbox effect now (outbox_effects d) (outbox_effects (db_fail effect error now d0))) as Hfail.
  { intros error d0 Hd0. cbn. rewrite Hd0. apply settled_alone. destruct (effect_is_dead _ _); auto. }
  destruct Hv as [Hno| | | | | | |p target d' tr _ _ _ _ _ _ _ Hrun|p target error tr]; cbn;
    try (by apply settled_alone; auto); [congruence|by apply Hfail..| |].
  - destruct Hrun; cbn; [apply settled_alone; auto..|apply settled_replaced].
  - unfold db_on_failure. destruct error as [e| | | |]; [|by apply Hfail..].
    case_match; [apply settled_alone; auto|]. apply Hfail. by case_match.
Qed.

Lemma executeOne_outbox owner effect now (w : World R) :
  projection_present effect (db w) →
  outbox_effects (db (executeOne owner effect now w).2) = outbox_effects (db w) ∧ has_lease owner effect (db w) = false ∨
  has_lease owner effect (db w) = true ∧
  settled_outbox effect now (outbox_effects (db w)) (outbox_effects (db (executeOne owner effect now w).2)).
Proof using All.
  intros Hp. rewrite executeOne_commits by done.
  destruct (executeOneLocked_reaches owner effect now w Hp) as (_ & tr & _ & Hv).
  destruct (has_lease owner effect (db w)) eqn:Hlease.
  - right. split; [done|]. by eapply verdict_outbox.
  - left. split; [|done]. by destruct Hv; try congruence.
Qed.
End refinement.

(** ** The order of the outbox *)

(** [existsb] over the table of the prior effects. *)
Lemma has_prior_false id e outbox :
  has_prior id e outbox = false ↔
  ∀ other e', outbox !! other = Some e' → Effect.projection e' = Effect.projection e → is_open e' = true →
    created_before (other, e') (id, e) = false.
Proof.
  unfold has_prior. rewrite <- not_true_iff_false, existsb_exists. split.
  - intros H other e' He' Hp Ho. apply not_true_iff_false. intros Hc. apply H. exists (other, e').
    split; [by apply list_elem_of_In, elem_of_map_to_list|]. cbn. by rewrite Hp, bool_decide_eq_true_2, Ho, Hc.
  - intros H ([other e'] & Hin & Hc). apply list_elem_of_In, elem_of_map_to_list in Hin. cbn in Hc.
    apply andb_true_iff in Hc as [[Hp Ho]%andb_true_iff Hc]. apply bool_decide_eq_true_1 in Hp.
    by rewrite (H other e' Hin Hp Ho) in Hc.
Qed.

Lemma created_before_total id1 e1 id2 e2 :
  id1 ≠ id2 → created_before (id1, e1) (id2, e2) = false → created_before (id2, e2) (id1, e1) = true.
Proof.
  unfold created_before. cbn. intros Hne. rewrite orb_false_iff, orb_true_iff, andb_false_iff, andb_true_iff.
  intros [Hlt Heq]. apply Z.ltb_ge in Hlt.
  destruct (Z.eq_dec (Effect.created_at e1) (Effect.created_at e2)) as [E|E]; [|left; apply Z.ltb_lt; lia].
  rewrite E, Z.eqb_refl in *. right. split; [done|]. destruct Heq as [|Heq]; [done|].
  destruct (ltb_total id1 id2) as [?|[?|?]]; congruence.
Qed.

(** Every leased effect is the first of its projection that has not succeeded. *)
Definition in_order (t : Outbox) : Prop :=
  ∀ id e other e', t !! id = Some e → Effect.state e = leased → t !! other = Some e' → other ≠ id →
    Effect.projection e' = Effect.projection e → is_open e' = true → created_before (id, e) (other, e') = true.

Definition same_order (e e' : Effect.EffectRow) : Prop :=
  Effect.projection e' = Effect.projection e ∧ Effect.created_at e' = Effect.created_at e ∧ is_open e' = is_open e.

Lemma reap_same_order now e : same_order e (reap now e).
Proof.
  unfold reap. destruct (Effect.state e) eqn:Hs; try (by split_and!).
  destruct (Effect.lease_expires_at e); [case_match|]; unfold same_order, is_open; cbn; by rewrite Hs.
Qed.

Lemma same_order_trans e1 e2 e3 : same_order e1 e2 → same_order e2 e3 → same_order e1 e3.
Proof. unfold same_order. intros (-> & -> & ->) (-> & -> & ->). done. Qed.

Lemma created_before_same id1 e1 e1' id2 e2 e2' :
  same_order e1 e1' → same_order e2 e2' → created_before (id1, e1') (id2, e2') = created_before (id1, e1) (id2, e2).
Proof. intros (_ & H1 & _) (_ & H2 & _). unfold created_before. cbn. by rewrite H1, H2. Qed.

Lemma effect_due_open now e : effect_due now e = true → is_open e = true.
Proof. unfold effect_due, is_open. destruct (Effect.state e); cbn; done. Qed.

Lemma elem_of_selected_effects limit now locked outbox id e :
  (id, e) ∈ selected_effects limit now locked outbox →
  outbox !! id = Some e ∧ effect_due now e = true ∧ has_prior id e outbox = false.
Proof.
  unfold selected_effects. intros Hin. apply (subseteq_take limit) in Hin.
  rewrite elem_of_sort_by, list_elem_of_In, filter_In, <- list_elem_of_In, elem_of_map_to_list in Hin.
  destruct Hin as [? ?]; bool_to_prop. done.
Qed.

Lemma lease_effects_lookup owner limit leaseSeconds now locked outbox id :
  (lease_effects owner limit leaseSeconds now locked outbox).2 !! id =
  (if bool_decide (id ∈ (selected_effects limit now locked (reap now <$> outbox)).*1)
   then take_effect owner (now + leaseSeconds * 1000) now <$> (reap now <$> (outbox !! id))
   else reap now <$> (outbox !! id)).
Proof.
  unfold lease_effects. cbn [snd]. rewrite (foldr_update_lookup (take_effect _ _ _)).
  - by rewrite lookup_fmap.
  - intros i j Hij. by apply elem_of_selected_effects in Hij as [? _].
Qed.

Lemma in_order_lease owner limit leaseSeconds now locked t :
  in_order t → in_order (lease_effects owner limit leaseSeconds now locked t).2.
Proof.
  intros Hord id e other e' He Hs He' Hne Hp Ho. rewrite lease_effects_lookup in He, He'.
  destruct (t !! id) as [e0|] eqn:H0; [|revert He; cbn; by destruct (bool_decide (id ∈ _))].
  destruct (t !! other) as [e1|] eqn:H1; [|revert He'; cbn; by destruct (bool_decide (other ∈ _))].
  pose proof (reap_same_order now e0) as Hr0. pose proof (reap_same_order now e1) as Hr1.
  assert (same_order (reap now e1) e') as Hs1.
  { clear He. case_bool_decide as Hsel; injection He' as <-; [|by split_and!]. split_and!; try done.
    apply list_elem_of_fmap in Hsel as ([i x] & -> & (Hl & Hd & _)%elem_of_selected_effects).
    cbn [fst] in H1. rewrite lookup_fmap, H1 in Hl. injection Hl as <-.
    cbn. by rewrite (effect_due_open _ _ Hd). }
  clear He'. case_bool_decide as Hsel; injection He as <-.
  - apply list_elem_of_fmap in Hsel as ([i x] & -> & (Hl & Hd & Hprior)%elem_of_selected_effects).
    cbn [fst] in *. rewrite lookup_fmap, H0 in Hl. injection Hl as <-.
    rewrite has_prior_false in Hprior.
    apply created_before_total; [done|]. rewrite <- (Hprior other (reap now e1)).
    + apply created_before_same; [done|]. split_and!; [done..|]. cbn. by rewrite (effect_due_open _ _ Hd).
    + by rewrite lookup_fmap, H1.
    + destruct Hs1 as (Hp1 & _ & _). by rewrite <- Hp1.
    + destruct Hs1 as (_ & _ & <-). done.
  - assert (reap now e0 = e0) as Heq by (unfold reap in Hs |- *; by repeat case_match).
    pose proof (same_order_trans _ _ _ Hr1 Hs1) as (Hp1 & Hc1 & Ho1). rewrite Heq in *.
    rewrite (created_before_same id e0 e0 other e1 e'); [|done..].
    apply (Hord id e0 other e1); try done; congruence.
Qed.

(** The effects of a projection are added one after the other. *)
Definition added_last (t t' : Outbox) : Prop :=
  ∀ id e other e', t !! id = None → t' !! id = Some e → t !! other = Some e' →
    Effect.projection e' = Effect.projection e → is_open e' = true → created_before (other, e') (id, e) = true.

Lemma in_order_settled `{NewId} effect now t t' e0 :
  in_order t → t !! id effect = Some e0 → Effect.state e0 = leased →
  settled_outbox effect now t t' → added_last t t' → (∀ n, t !! newId n = None) → in_order t'.
Proof.
  intros Hord H0 Hs0 Hset Hlast Hfresh.
  assert (∀ i e', t' !! i = Some e' → Effect.state e' ≠ leased ∨ i ≠ id effect ∧ t !! i = Some e') as Hleased.
  { intros i e'. destruct Hset as [st at' ra amb code Hst|code n desired key].
    - rewrite lookup_alter. case_decide as Hi; [subst i; rewrite H0|by auto]. intros [= <-]. left. cbn.
      destruct Hst as [?| ->]; [by destruct st|done].
    - rewrite lookup_insert_Some, lookup_alter. intros [[<- <-]|[_ Hi]]; [by left|].
      case_decide; [subst i; rewrite H0 in Hi; injection Hi as <-; by left|by auto]. }
  assert (∀ i e', t' !! i = Some e' → is_open e' = true →
    t !! i = None ∨ ∃ e1, t !! i = Some e1 ∧ is_open e1 = true ∧ Effect.projection e1 = Effect.projection e' ∧
      Effect.created_at e1 = Effect.created_at e') as Hopen.
  { intros i e'. destruct Hset as [st at' ra amb code Hst|code n desired key].
    - rewrite lookup_alter. case_decide as Hi; [subst i; rewrite H0|by eauto 10].
      intros [= <-] _. right. exists e0. unfold is_open. by rewrite Hs0.
    - rewrite lookup_insert_Some, lookup_alter. intros [[<- <-]|[_ Hi]]; [by left|].
      case_decide; [subst i; rewrite H0 in Hi; injection Hi as <-|by eauto 10].
      intros _. right. exists e0. unfold is_open. by rewrite Hs0. }
  intros i e other e' He Hs He' Hne Hp Ho.
  destruct (Hleased i e He) as [?|[Hi Hti]]; [done|].
  destruct (Hopen other e' He' Ho) as [Hnone|(e1 & He1 & Ho1 & Hp1 & Hc1)].
  - apply (Hlast other e' i e); [done..| |unfold is_open; by rewrite Hs]. by rewrite Hp.
  - rewrite (created_before_same i e e other e1 e'); [|done|].
    + apply (Hord i e other e1); try done. congruence.
    + split_and!; [congruence..|]. by rewrite Ho, Ho1.
Qed.

Section outbox.
Context {R : Type} `{Provider R} `{NewId} `{Unicode} `{!UnicodeLaws _} `{Digest}.

(** What happens to the outbox: a worker leases a batch; it executes an effect,
    with any answers of the provider; the reconciliation adds effects. *)
Inductive outbox_step (t : Outbox) : Outbox → Prop :=
| step_lease_effects owner limit leaseSeconds now locked :
    outbox_step t (lease_effects owner limit leaseSeconds now locked t).2
| step_execute owner effect now (w : World R) :
    outbox_effects (db w) = t → projection_present effect (db w) → (∀ n, t !! newId n = None) →
    added_last t (outbox_effects (db (executeOne owner effect now w).2)) →
    outbox_step t (outbox_effects (db (executeOne owner effect now w).2))
| step_add id e : t !! id = None → Effect.state e = pending → added_last t (<[id := e]> t) →
    outbox_step t (<[id := e]> t).

Lemma outbox_step_in_order t t' : in_order t → outbox_step t t' → in_order t'.
Proof using All.
  intros Hord [owner limit secs now locked|owner effect now w <- Hp Hfresh Hlast|i e Hi Hs Hlast].
  - by apply in_order_lease.
  - destruct (executeOne_outbox owner effect now w Hp) as [[-> _]|[Hlease Hset]]; [done|].
    pose proof (has_lease_locked _ _ _ Hlease Hp) as [(e & He & Ho) _].
    apply andb_true_iff in Ho as [Ho%bool_decide_eq_true_1 _]. by eapply in_order_settled.
  - intros i1 e1 i2 e2. rewrite !lookup_insert_Some.
    intros [[<- <-]|[Hne1 He1]] Hst; [congruence|]. intros [[<- <-]|[Hne2 He2]] Hne Hp Ho; [|by eapply Hord].
    apply (Hlast i e i1 e1); [done|by rewrite lookup_insert_eq|done|done|]. unfold is_open. by rewrite Hst.
Qed.

End outbox.

(** ** Managed ids *)

Lemma string_app_length_inj x y r s :
  String.length x = String.length y → x +:+ r = y +:+ s → x = y ∧ r = s.
Proof.
  revert y. induction x as [|c x IH]; intros [|d y]; cbn; try done.
  intros [= Hlen] [= -> Happ]. by destruct (IH y Hlen Happ) as [-> ->].
Qed.

Definition is_lower_hex (c : ascii) : bool := is_digit c || in_class 97 102 c.

(** The text of a UUID as PostgreSQL prints it. *)
Definition uuid_text (p : string) : Prop :=
  ∃ a b c d e, p = a +:+ ("-" +:+ (b +:+ ("-" +:+ (c +:+ ("-" +:+ (d +:+ ("-" +:+ e))))))) ∧
    String.length a = 8%nat ∧ String.length b = 4%nat ∧ String.length c = 4%nat ∧ String.length d = 4%nat ∧
    String.length e = 12%nat ∧ string_forall is_lower_hex (a +:+ (b +:+ (c +:+ (d +:+ e)))) = true.

Lemma without_dashes_app s1 s2 : without_dashes (s1 +:+ s2) = without_dashes s1 +:+ without_dashes s2.
Proof. induction s1 as [|c s1 IH]; cbn; [done|]. rewrite IH. by destruct (Ascii.eqb c "-"). Qed.

Lemma is_lower_hex_char c : is_lower_hex c = true → lower_char c = c ∧ Ascii.eqb c "-" = false.
Proof.
  intros Hc. revert Hc.
  assert (∀ c, implb (is_lower_hex c) (Ascii.eqb (lower_char c) c && negb (Ascii.eqb c "-")) = true) as Hall.
  { apply (all_ascii (λ c, implb (is_lower_hex c) (Ascii.eqb (lower_char c) c && negb (Ascii.eqb c "-")))).
    vm_compute. reflexivity. }
  specialize (Hall c). intros Hc. rewrite Hc in Hall. cbn in Hall. apply andb_true_iff in Hall as [H1 H2].
  apply Ascii.eqb_eq in H1. by apply negb_true_iff in H2.
Qed.

Lemma lower_hex_fixed s : string_forall is_lower_hex s = true → toLowerCase s = s ∧ without_dashes s = s.
Proof.
  unfold toLowerCase. induction s as [|c s IH]; cbn; [done|]. intros [[Hl Hd]%is_lower_hex_char Hs]%andb_true_iff.
  destruct (IH Hs) as [IH1 IH2]. by rewrite Hl, Hd, IH1, IH2.
Qed.

Lemma toLowerCase_app s1 s2 : toLowerCase (s1 +:+ s2) = toLowerCase s1 +:+ toLowerCase s2.
Proof. unfold toLowerCase. induction s1 as [|c s1 IH]; cbn; [done|]. by rewrite IH. Qed.

Lemma managedEventId_uuid p g :
  uuid_text p → ∃ a b c d e, p = a +:+ ("-" +:+ (b +:+ ("-" +:+ (c +:+ ("-" +:+ (d +:+ ("-" +:+ e))))))) ∧
    String.length a = 8%nat ∧ String.length b = 4%nat ∧ String.length c = 4%nat ∧ String.length d = 4%nat ∧
    String.length e = 12%nat ∧ managedEventId p g = "p" +:+ (a +:+ (b +:+ (c +:+ (d +:+ (e +:+ pretty g))))).
Proof.
  intros (a & b & c & d & e & -> & Ha & Hb & Hc & Hd & He & Hhex). exists a, b, c, d, e. split_and!; try done.
  rewrite !string_forall_app, !andb_true_iff in Hhex. destruct Hhex as (Xa & Xb & Xc & Xd & Xe).
  unfold managedEventId. rewrite !without_dashes_app, !toLowerCase_app.
  apply lower_hex_fixed in Xa as [La ->], Xb as [Lb ->], Xc as [Lc ->], Xd as [Ld ->], Xe as [Le ->].
  rewrite La, Lb, Lc, Ld, Le. cbn. by rewrite !string_app_assoc.
Qed.

Lemma managedEventId_injective_lemma p q g h :
  uuid_text p → uuid_text q → managedEventId p g = managedEventId q h → p = q ∧ g = h.
Proof.
  intros (a & b & c & d & e & -> & Ha & Hb & Hc & Hd & He & ->)%(managedEventId_uuid p g)
    (a' & b' & c' & d' & e' & -> & Ha' & Hb' & Hc' & Hd' & He' & ->)%(managedEventId_uuid q h) Heq.
  apply (inj (String.append "p")) in Heq.
  repeat (apply string_app_length_inj in Heq as [-> Heq]; [|congruence]).
  apply (inj pretty) in Heq. by subst.
Qed.

(** The deterministic event id names one generation of one projection, for
    ids printed as PostgreSQL prints a UUID. *)
Theorem managedEventId_injective p q g h :
  uuid_text p → uuid_text q → managedEventId p g = managedEventId q h → p = q ∧ g = h.
Proof. apply managedEventId_injective_lemma. Qed.

Definition sample_uuid : string := "0198c0de-aaaa-7bbb-8ccc-0123456789ab".

Lemma sample_uuid_text : uuid_text sample_uuid.
Proof. by exists "0198c0de", "aaaa", "7bbb", "8ccc", "0123456789ab". Defined.

Lemma managedEventId_injective_witness :
  managedEventId sample_uuid 2 = "p0198c0deaaaa7bbb8ccc0123456789ab2" ∧
  sample_uuid = sample_uuid ∧ (2 : Z) = 2.
Proof.
  split; [vm_compute; reflexivity|].
  refine (managedEventId_injective sample_uuid sample_uuid 2 2 sample_uuid_text sample_uuid_text eq_refl).
Defined.

(** ** Progress, replacement and pause *)

Section progress.
Context {R : Type} `{Provider R} `{NewId} `{Unicode} `{!UnicodeLaws _} `{Digest}.

(** An execution ends the lease: the effect has succeeded, is dead or waits
    for a retry, with no owner and the attempts of the row or one fewer; every
    other effect is as before, but for a pending creation of the same
    projection that may have been added. *)
Theorem executeOne_settles owner effect now (w : World R) e :
  projection_present effect (db w) → has_lease owner effect (db w) = true →
  outbox_effects (db w) !! id effect = Some e → (∀ n, outbox_effects (db w) !! newId n = None) →
  let t' := outbox_effects (db (executeOne owner effect now w).2) in
  (∃ e', t' !! id effect = Some e' ∧ Effect.lease_owner e' = None ∧
     (Effect.state e' = succeeded ∨ Effect.state e' = dead ∨ Effect.state e' = retry) ∧
     Effect.projection e' = Effect.projection e ∧ Effect.desired_state e' = Effect.desired_state e) ∧
  ∀ other, other ≠ id effect →
    t' !! other = outbox_effects (db w) !! other ∨
    outbox_effects (db w) !! other = None ∧
    ∃ x, t' !! other = Some x ∧ Effect.state x = pending ∧ Effect.operation x = op_create ∧
      Effect.projection x = projectionId effect.
Proof using All.
  intros Hp Hlease He Hfresh t'.
  destruct (executeOne_outbox owner effect now w Hp) as [[_ ?]|[_ Hset]]; [congruence|]. fold t' in Hset.
  destruct Hset as [st at' ra amb code Hst|code n desired key].
  - split.
    + exists (settle st at' ra amb code now e). rewrite lookup_alter_eq, He. split_and!; try done.
      cbn. destruct Hst as [Hst| ->]; [destruct st; auto; done|auto].
    + intros other Hne. left. by rewrite lookup_alter_ne.
  - assert (newId n ≠ id effect) as Hn by (intros Heq; rewrite <- Heq, Hfresh in He; done). split.
    + exists (settle succeeded (λ n, n) (λ r, r) false code now e).
      rewrite lookup_insert_ne, lookup_alter_eq, He by done. split_and!; try done. auto.
    + intros other Hne. destruct (decide (newId n = other)) as [<-|Hno].
      * right. rewrite lookup_insert_eq. split; [done|]. eexists. by split_and!.
      * left. by rewrite lookup_insert_ne, lookup_alter_ne.
Qed.

Lemma load_target_row effect d target :
  load_target effect d = Some target → projections d !! projectionId effect = Some (target_row target).
Proof.
  unfold load_target. intros (p & Hp & Ht)%bind_Some. apply bind_Some in Ht as (o & _ & Ht).
  apply bind_Some in Ht as (c & _ & Ht). apply bind_Some in Ht as (k & _ & Ht).
  case_match; [|done]. by injection Ht as <-.
Qed.

Lemma check_replacement_Ok effect target desired effectDesired :
  check_replacement effect target desired effectDesired = Ok () →
  provenance_generation desired = Projection.generation target ∧ hash (desired_json desired) = hash (desired_json effectDesired).
Proof.
  unfold check_replacement. case_match eqn:E; [done|]. bool_to_prop.
  destruct (Projection.desired_hash target) as [[|c h]|]; [done| |done].
  destruct (hash (desired_json desired)) as [h1|]; cbn; [|done]. destruct (h1 =? _)%string eqn:E1; cbn; [|done].
  destruct (hash (desired_json effectDesired)) as [h2|]; cbn; [|done]. destruct (h2 =? _)%string eqn:E2; cbn; [|done].
  bool_to_prop. split; [done|congruence].
Qed.

(** When an execution adds an effect, the copy was missing: the projection
    moves to the next generation with the copy of that generation, the new
    effect creates exactly that copy, under an id no other generation has, and
    the recorded hash is the hash of the recorded copy. *)
Theorem replacement_is_consistent owner effect now (w : World R) n x :
  projection_present effect (db w) → uuid_text (projectionId effect) →
  outbox_effects (db w) !! newId n = None →
  outbox_effects (db (executeOne owner effect now w).2) !! newId n = Some x →
  ∃ p p' desired h,
    projections (db w) !! projectionId effect = Some p ∧
    projections (db (executeOne owner effect now w).2) !! projectionId effect = Some p' ∧
    Projection.generation p' = Projection.generation p + 1 ∧ Projection.destination_event p' = None ∧
    Projection.intent_sequence p' = Projection.intent_sequence p + 1 ∧
    Projection.desired_state p' = Some desired ∧ Projection.desired_hash p' = Some h ∧
    hash (desired_json desired) = Ok h ∧ provenance_generation desired = Projection.generation p' ∧
    Effect.operation x = op_create ∧ Effect.state x = pending ∧ Effect.desired_state x = Some desired ∧
    (∀ g, g ≠ Projection.generation p' →
       managedEventId (projectionId effect) g ≠ managedEventId (projectionId effect) (Projection.generation p')).
Proof using All.
  intros Hp Huuid Hfresh Hx. rewrite executeOne_commits in Hx |- * by done.
  destruct (executeOneLocked_reaches owner effect now w Hp) as (_ & tr & _ & Hv).
  set (d' := db (executeOneLocked owner effect now w).2) in *. clearbody d'.
  assert (∀ f, alter f (id effect) (outbox_effects (db w)) !! newId n = None) as Halter.
  { intros f. rewrite lookup_alter. case_decide as Hd; [by rewrite Hd, Hfresh|done]. }
  assert (∀ error d0, outbox_effects d0 = outbox_effects (db w) →
    outbox_effects (db_fail effect error now d0) !! newId n = None) as Hfail.
  { intros error d0 Hd0. cbn. by rewrite Hd0. }
  destruct Hv as [| | | | | | |pol target d' tr _ _ _ Ht _ _ _ Hrun|pol target error tr];
    try (cbn in Hx; rewrite ?Halter in Hx; discriminate Hx); try congruence.
  - destruct Hrun as [| | |desired effectDesired h m key Hn Hd Hed Hcheck Hh]; try (cbn in Hx; by rewrite Halter in Hx).
    apply load_target_row in Ht. exists (target_row target).
    cbn in Hx. rewrite lookup_insert_Some, Halter in Hx. destruct Hx as [[_ <-]|[_ ?]]; [|done].
    eexists _, _, h. split; [done|]. cbn [db_replace db_projection with_audit with_projections projections].
    rewrite lookup_alter_eq. cbn [with_effects db_supersede db_settle with_audit projections]. rewrite Ht.
    split; [reflexivity|]. split_and!; try done.
    intros g Hg Heq. by apply managedEventId_injective_lemma in Heq as [_ ?].
  - exfalso. unfold db_on_failure in Hx. destruct error as [e| | | |]; [|by rewrite Hfail in Hx..].
    case_match; [cbn in Hx; by rewrite Halter in Hx|]. rewrite Hfail in Hx; [done|by case_match].
Qed.

(** A pause makes an effect forget that a previous attempt may have reached
    the provider: an effect whose lease expired is ambiguous, and deferring it
    under a paused policy clears the mark, so that after the pause it is
    executed as if it had never been sent. *)
Theorem pause_forgets_ambiguity owner effect now (w : World R) e p :
  projection_present effect (db w) → has_lease owner effect (db w) = true →
  outbox_effects (db w) !! id effect = Some e → Effect.ambiguous e = true →
  load_policy effect (db w) = Some p → Policy.status (policy_row p) = Policy.paused →
  ∃ e', outbox_effects (db (executeOne owner effect now w).2) !! id effect = Some e' ∧
    Effect.ambiguous e' = false ∧ Effect.state e' = retry ∧ Effect.run_after e' = now + DEFERRAL ∧
    Effect.attempt_count e' = Effect.attempt_count e - 1 ∧
    calls (executeOne owner effect now w).2 = calls w.
Proof using All.
  intros Hp Hlease He Hamb Hpol Hpaused. rewrite executeOne_commits by done.
  pose proof (has_lease_locked _ _ _ Hlease Hp) as Hl.
  unfold executeOneLocked. rewrite bind_run. cbn [read_db]. rewrite bind_run. cbn [read_db].
  rewrite Hlease, Hpol. cbn [negb]. rewrite Hpaused. cbn [effectPolicyExecutionDisposition].
  destruct (defer_run owner effect "policy_paused" now w Hl) as [n ->]. cbn [snd db calls].
  exists (settle retry (λ n, n - 1) (λ _, now + DEFERRAL) false (Some "policy_paused") now e).
  split; [|by split_and!]. cbn. by rewrite lookup_alter_eq, He.
Qed.
End progress.

(** ** A calendar, and executions on it *)

(** A calendar that checks revisions as Google's API does. *)
Definition Remote := gmap string ProviderEventLookup.

Definition written (r : Remote) (event : string) (revision : string) (desired : DesiredCopy)
    : res failure ProviderWriteResult * Remote :=
  (Ok {| remoteEventId := event; remoteRevision := revision |},
   <[event := {| found_id := event; found_revision := revision;
                 managedIdentity := Some {| policyRef := provenance_policy desired;
                                            projectionRef := provenance_projection desired;
                                            identity_generation := provenance_generation desired |} |}]> r).

Definition status_failure (code : string) (status : Z) : failure :=
  provider_failure {| code := code; retryable := false; error_ambiguous := false; http_status := Some status |}.

Definition matching (r : Remote) (event : string) (expected : option string)
    : res failure ProviderEventLookup :=
  match r !! event with
  | None => Throw (status_failure "not_found" 404)
  | Some found =>
      if bool_decide (expected = Some (found_revision found)) then Ok found
      else Throw (status_failure "precondition_failed" 412)
  end.

#[export] Instance sample_provider : Provider Remote := {
  provider_resolve _ := Ok ();
  provider_token _ connection r := (Ok connection, r);
  provider_get _ _ _ event r := (Ok (r !! event), r);
  provider_create _ _ _ event desired r :=
    match r !! event with
    | Some _ => (Throw (status_failure "conflict" 409), r)
    | None => written r event "1" desired
    end;
  provider_update _ _ _ event expected desired r :=
    match matching r event expected with
    | Ok found => written r event (found_revision found +:+ "+") desired
    | Throw e => (Throw e, r)
    end;
  provider_delete _ _ _ event expected r :=
    match matching r event expected with
    | Ok _ => (Ok (), delete event r)
    | Throw e => (Throw e, r)
    end;
}.

#[export] Instance sample_ids : NewId := { newId n := "new-" +:+ pretty (Z.of_nat n) }.

Definition sample_desired (generation : Z) : DesiredCopy :=
  {| desired_timing := timed "2026-10-25T00:45:00Z" "2026-10-25T08:00:00Z" "UTC" "UTC"; desired_summary := "Busy";
     desired_description := None; desired_location := None; desired_conference := None; transparency := opaque;
     visibility := private; desired_color := None; provenance_policy := "policy";
     provenance_projection := sample_uuid; provenance_generation := generation |}.

Definition value {A} (r : res failure A) (x : A) : A := match r with Ok a => a | Throw _ => x end.

Definition sample_basis : string := value (sourceObservationBasisHash "observed" false) "".

Definition sample_effect_row (op : EffectOperation) (ambiguous : bool) : Effect.EffectRow :=
  {| Effect.organization := "o"; Effect.policy := "policy"; Effect.projection := sample_uuid;
     Effect.source_basis_hash := Some sample_basis; Effect.policy_revision := 1; Effect.operation := op;
     Effect.idempotency_key := "k"; Effect.desired_state := Some (sample_desired 1); Effect.state := pending;
     Effect.attempt_count := 0; Effect.run_after := 0; Effect.lease_owner := None; Effect.lease_expires_at := None;
     Effect.ambiguous := ambiguous; Effect.safe_error_code := None; Effect.created_at := 0; Effect.updated_at := 0 |}.

Definition sample_projection (destination : option string) : Projection.ProjectionRow :=
  {| Projection.organization := "o"; Projection.policy := "policy"; Projection.policy_revision := 1;
     Projection.source_observation := "source"; Projection.source_basis_hash := Some sample_basis;
     Projection.recovery_operation := None; Projection.recurrence_identity := "";
     Projection.destination_calendar := "work";
     Projection.destination_event := destination; Projection.destination_etag := None; Projection.generation := 1;
     Projection.intent_sequence := 1;
     Projection.desired_hash := Some (value (hash (desired_json (sample_desired 1))) "");
     Projection.desired_state := Some (sample_desired 1); Projection.status := "pending";
     Projection.ownership := Projection.attached; Projection.last_success_at := None;
     Projection.last_verified_at := None; Projection.safe_error_code := None; Projection.updated_at := 0 |}.

Definition sample_connection (role : string) : Connection.ConnectionRow :=
  {| Connection.organization := "o"; Connection.provider := "fake"; Connection.account_label := "me@example.org";
     Connection.intended_role := role; Connection.status := "active"; Connection.last_success_at := None;
     Connection.safe_error_code := None; Connection.updated_at := 0 |}.

Definition sample_endpoint (connection : string) : Endpoint.EndpointRow :=
  {| Endpoint.organization := "o"; Endpoint.connection := connection; Endpoint.remote_id := "remote";
     Endpoint.name := "remote"; Endpoint.timezone := "UTC"; Endpoint.access_role := "owner";
     Endpoint.readable := true; Endpoint.writable := true; Endpoint.primary_calendar := true;
     Endpoint.capabilities := JObject []; Endpoint.updated_at := 0 |}.

Definition sample_draft : PolicyDraft :=
  {| draft_name := "bridge"; source_calendar_id := "home"; destination_calendar_id := "work"; hours_profile_id := None;
     draft_hours := None; draft_hours_profile := JUndefined;
     draft_privacy := {| preset := busy_only; generic_summary := "Busy"; copy_summary := false; copy_description := false;
                         copy_location := false; copy_conference := false; copy_attendees := false;
                         copy_organizer := false |};
     draft_selection := {| timed_selection := timed_include; all_day_selection := all_day_skip;
                           free_events := skip_when_redacted; tentative_selection := rsvp_busy;
                           unanswered_selection := rsvp_busy; skip_when_destination_identity_invited := true;
                           source_exclusion_marker := "#nosync"; manual_exclusions := [] |};
     draft_color := None; draft_destination_edits := JUndefined; draft_horizon := None |}.

Definition sample_policy (status : Policy.PolicyStatus) : Policy.PolicyRow :=
  {| Policy.organization := "o"; Policy.source_calendar := "home"; Policy.destination_calendar := "work";
     Policy.source_identity := "home-identity"; Policy.destination_identity := "work-identity";
     Policy.hours_profile := None; Policy.status := status; Policy.revision := 1; Policy.document := sample_draft;
     Policy.hash := "policy-hash"; Policy.last_success_at := None; Policy.safe_error_code := None;
     Policy.updated_at := 0 |}.

Definition sample_source : SourceObservation :=
  {| source_event_ref := "event"; source_occurrence_ref := ""; remote_revision := "1"; lifecycle := confirmed;
     origin := provider_original; timing := Some (timed "2026-10-25T00:45:00Z" "2026-10-25T08:00:00Z" "UTC" "UTC");
     recurrence := None; availability := Some busy;
     relationship := {| role := organizer_role; response := not_applicable; response_note := None |};
     destination_identity_invited := false;
     content := {| summary := Some "Dentist"; description := None; location := None; conference := None |};
     attendees := None; organizer := None; attachments := None; source_url := None; provider_metadata := None |}.

Definition sample_observation : Observation.ObservationRow :=
  {| Observation.organization := "o"; Observation.calendar := "home"; Observation.remote_event := "event";
     Observation.recurrence_identity := ""; Observation.remote_etag := Some "1"; Observation.event := sample_source;
     Observation.observation_hash := "observed"; Observation.managed_copy := false; Observation.tombstone := false;
     Observation.sync_generation := 1; Observation.observed_at := 0; Observation.updated_at := 0 |}.

Definition sample_db (status : Policy.PolicyStatus) (op : EffectOperation) (ambiguous : bool) (destination : option string) : Db :=
  {| sync_policies := {[ "policy" := sample_policy status ]};
     calendar_endpoints := {[ "home" := sample_endpoint "c1"; "work" := sample_endpoint "c2" ]};
     provider_connections := {[ "c1" := sample_connection "source"; "c2" := sample_connection "destination" ]};
     hours_profiles := ∅; source_observations := {[ "source" := sample_observation ]}; sync_cursors := ∅;
     projections := {[ sample_uuid := sample_projection destination ]};
     outbox_effects := (lease_effects "w" 5 30 1000 ∅ {[ "e1" := sample_effect_row op ambiguous ]}).2;
     sync_notices := ∅; conflict_rules := ∅; policy_previews := ∅; audit_facts := []; scheduled_jobs := ∅ |}.

Definition sample_world (status : Policy.PolicyStatus) (op : EffectOperation) (ambiguous : bool)
    (destination : option string) (remote : Remote) : World Remote :=
  {| db := sample_db status op ambiguous destination; remote := remote; calls := []; issued := 0 |}.

Definition sample_leased (op : EffectOperation) (ambiguous : bool) : LeasedEffect :=
  leased_of "e1" (sample_effect_row op ambiguous).

Definition sample_run (status : Policy.PolicyStatus) (op : EffectOperation) (ambiguous : bool)
    (destination : option string) (remote : Remote) : res failure () * World Remote :=
  executeOne "w" (sample_leased op ambiguous) 2000 (sample_world status op ambiguous destination remote).

(** A first creation; a lost one repaired in the next generation; a pause. *)
Example sample_create :
  let out := sample_run Policy.active op_create false None ∅ in
  out.1 = Ok () ∧ length (calls out.2) = 2%nat ∧
  (Effect.state <$> outbox_effects (db out.2) !! "e1") = Some succeeded ∧
  (Projection.destination_event <$> projections (db out.2) !! sample_uuid) =
    Some (Some "p0198c0deaaaa7bbb8ccc0123456789ab1").
Proof. vm_compute. split_and!; reflexivity. Qed.

Example sample_replace :
  let out := sample_run Policy.active op_create true None ∅ in
  (Effect.state <$> outbox_effects (db out.2) !! "e1") = Some succeeded ∧
  (Effect.state <$> outbox_effects (db out.2) !! "new-0") = Some pending ∧
  (Projection.generation <$> projections (db out.2) !! sample_uuid) = Some 2.
Proof. vm_compute. split_and!; reflexivity. Qed.


(** An update found by its markers after a lost answer. *)
Definition moved_event : Remote :=
  {[ "copy" := {| found_id := "copy"; found_revision := "7";
                  managedIdentity := Some {| policyRef := "policy"; projectionRef := sample_uuid; identity_generation := 1 |} |} ]}.

Lemma calls_are_authorised_witness :
  let w := sample_world Policy.active op_update true (Some "copy") moved_event in
  let effect := sample_leased op_update true in
  let c := UpdateEvent "remote" "copy" (Some "7") (sample_desired 1)
             (Ok {| remoteEventId := "copy"; remoteRevision := "7+" |}) in
  has_lease "w" effect (db w) = true ∧
  ∃ p target tr, load_policy effect (db w) = Some p ∧ permits effect p ∧
    load_target effect (db w) = Some target ∧ target_available target = true ∧ basis_current effect target ∧
    calls (executeOne "w" effect 2000 w).2 = calls w ++ tr ∧ justified effect target (event_id target) tr c.
Proof.
  intros w effect c. refine (calls_are_authorised "w" effect 2000 w c _ _).
  - eexists. vm_compute. reflexivity.
  - vm_compute. in_list.
Defined.


Lemma sample_fresh status op ambiguous destination remote n :
  outbox_effects (db (sample_world status op ambiguous destination remote)) !! newId n = None.
Proof.
  cbn [db sample_world sample_db outbox_effects]. rewrite lease_effects_lookup.
  rewrite lookup_singleton_ne; [by case_bool_decide|]. cbn. discriminate.
Defined.

Lemma executeOne_settles_witness :
  let w := sample_world Policy.active op_delete false (Some "copy") ∅ in
  let t' := outbox_effects (db (executeOne "w" (sample_leased op_delete false) 2000 w).2) in
  (Effect.state <$> t' !! "e1") = Some dead ∧
  ∃ e e', outbox_effects (db w) !! "e1" = Some e ∧ t' !! "e1" = Some e' ∧ Effect.lease_owner e' = None ∧
     (Effect.state e' = succeeded ∨ Effect.state e' = dead ∨ Effect.state e' = retry) ∧
     Effect.projection e' = Effect.projection e ∧ Effect.desired_state e' = Effect.desired_state e.
Proof.
  intros w t'. split; [vm_compute; reflexivity|].
  exists (take_effect "w" 31000 1000 (sample_effect_row op_delete false)).
  destruct (executeOne_settles "w" (sample_leased op_delete false) 2000 w
    (take_effect "w" 31000 1000 (sample_effect_row op_delete false))) as [(e' & He' & Hrest) _].
  - eexists. vm_compute. reflexivity.
  - vm_compute. reflexivity.
  - vm_compute. reflexivity.
  - intros n. apply sample_fresh.
  - exists e'. split; [vm_compute; reflexivity|]. exact (conj He' Hrest).
Defined.

Lemma replacement_is_consistent_witness :
  let w := sample_world Policy.active op_create true None ∅ in
  let effect := sample_leased op_create true in
  ∃ p p' desired h,
    projections (db w) !! projectionId effect = Some p ∧
    projections (db (executeOne "w" effect 2000 w).2) !! projectionId effect = Some p' ∧
    Projection.generation p' = Projection.generation p + 1 ∧ Projection.destination_event p' = None ∧
    Projection.intent_sequence p' = Projection.intent_sequence p + 1 ∧
    Projection.desired_state p' = Some desired ∧ Projection.desired_hash p' = Some h ∧
    hash (desired_json desired) = Ok h ∧ provenance_generation desired = Projection.generation p' ∧
    op_create = op_create ∧ pending = pending ∧ Some (sample_desired 2) = Some desired ∧
    (∀ g, g ≠ Projection.generation p' →
       managedEventId (projectionId effect) g ≠ managedEventId (projectionId effect) (Projection.generation p')).
Proof.
  intros w effect.
  refine (replacement_is_consistent "w" effect 2000 w 0
    (replacement_effect effect (sample_desired 2)
       (value (hash (replacement_key_json effect 2 2 (value (hash (desired_json (sample_desired 2))) ""))) "") 2000)
    _ _ _ _).
  - eexists. vm_compute. reflexivity.
  - exact sample_uuid_text.
  - apply sample_fresh.
  - vm_compute. reflexivity.
Defined.

(** After the pause the creation reuses the id of the lost one; without it a
    new generation would have been used ([sample_replace]). *)
Lemma pause_forgets_ambiguity_witness :
  let w := sample_world Policy.paused op_create true None ∅ in
  calls (sample_run Policy.active op_create false None ∅).2 =
    [GetEvent "remote" "p0198c0deaaaa7bbb8ccc0123456789ab1" (Ok None);
     CreateEvent "remote" "p0198c0deaaaa7bbb8ccc0123456789ab1" (sample_desired 1)
       (Ok {| remoteEventId := "p0198c0deaaaa7bbb8ccc0123456789ab1"; remoteRevision := "1" |})] ∧
  ∃ e', outbox_effects (db (executeOne "w" (sample_leased op_create true) 2000 w).2) !! "e1" = Some e' ∧
    Effect.ambiguous e' = false ∧ Effect.state e' = retry ∧ Effect.run_after e' = 2000 + DEFERRAL ∧
    Effect.attempt_count e' = 0 ∧
    calls (executeOne "w" (sample_leased op_create true) 2000 w).2 = calls w.
Proof.
  intros w. split; [vm_compute; reflexivity|].
  refine (pause_forgets_ambiguity "w" (sample_leased op_create true) 2000 w
    (take_effect "w" 31000 1000 (sample_effect_row op_create true))
    {| policy_row := sample_policy Policy.paused;
       source_readable := true; source_connection := sample_connection "source" |} _ _ _ _ _ _);
    [eexists; vm_compute; reflexivity|vm_compute; reflexivity..].
Defined.
