(* ===== verification/Notices.v ===== *)
(** * Destination-edit notices

    [server/src/sync/notices.ts]: the notices a person sees about edited or
    deleted copies, and the decision that ends a hold: restore the copy, or keep
    the change and detach. *)

From S2P Require Import Prelude Canonical DestinationEdits Types Evaluate Text Jobs Transaction Policies Store Effects.
From stdpp Require Import options.
Open Scope Z_scope.

(** ** Holds *)

Definition edit_code_text (code : DestinationEditSafeErrorCode) : string :=
  match code with
  | destination_drift => "destination_drift"
  | destination_missing => "destination_missing"
  | destination_edit_held => "destination_edit_held"
  | destination_delete_held => "destination_delete_held"
  end.

Definition DESTINATION_EDIT_HOLD_CODES : list string := ["destination_edit_held"; "destination_delete_held"].

Definition HELD_NOTICE_KINDS : list DestinationEditNoticeKind := [copy_edit_held; copy_delete_held].

Definition isDestinationEditHold (p : Projection.ProjectionRow) : bool :=
  (Projection.status p =? "held")%string && bool_decide (Projection.ownership p = Projection.attached)
  && match Projection.safe_error_code p with
     | Some code => includes DESTINATION_EDIT_HOLD_CODES code
     | None => false
     end.

Definition noticeDetailForDesiredCopy (observed : DestinationEditObservationKind) (desired : DesiredCopy) : json :=
  JObject [("observed", JString (match observed with drifted => "drifted" | missing => "missing" end));
           ("copy_summary", JString (desired_summary desired)); ("copy_timing", timing_json (desired_timing desired))].

(** ** Rows *)

(** [desired.provenance] names the policy, the projection and its generation. *)
Definition provenance_is (policy projection : string) (generation : Z) (desired : DesiredCopy) : bool :=
  (provenance_policy desired =? policy)%string && (provenance_projection desired =? projection)%string
  && (provenance_generation desired =? generation).

Definition op_json (op : EffectOperation) : json := JString (operation_text op).
Definition text_json (text : option string) : json := match text with Some t => JString t | None => JNull end.

(** The columns every new effect has alike. *)
Definition new_effect (organization policy projection : string) (basis : option string) (revision : Z)
    (op : EffectOperation) (key : string) (desired : option DesiredCopy) (ambiguous : bool) (now : Z) : Effect.EffectRow :=
  {| Effect.organization := organization; Effect.policy := policy; Effect.projection := projection;
     Effect.source_basis_hash := basis; Effect.policy_revision := revision; Effect.operation := op;
     Effect.idempotency_key := key; Effect.desired_state := desired; Effect.state := pending;
     Effect.attempt_count := 0; Effect.run_after := now; Effect.lease_owner := None; Effect.lease_expires_at := None;
     Effect.ambiguous := ambiguous; Effect.safe_error_code := None; Effect.created_at := now;
     Effect.updated_at := now |}.

(** A hold that is released: detached, or with the next intent. *)
Definition release_projection (ownership : Projection.ProjectionOwnership) (intentSequence : Z) (status : string)
    (now : Z) (p : Projection.ProjectionRow) : Projection.ProjectionRow :=
  {| Projection.organization := Projection.organization p; Projection.policy := Projection.policy p;
     Projection.policy_revision := Projection.policy_revision p;
     Projection.source_observation := Projection.source_observation p;
     Projection.source_basis_hash := Projection.source_basis_hash p; Projection.recovery_operation := None;
     Projection.recurrence_identity := Projection.recurrence_identity p;
     Projection.destination_calendar := Projection.destination_calendar p;
     Projection.destination_event := Projection.destination_event p;
     Projection.destination_etag := Projection.destination_etag p; Projection.generation := Projection.generation p;
     Projection.intent_sequence := intentSequence; Projection.desired_hash := Projection.desired_hash p;
     Projection.desired_state := Projection.desired_state p; Projection.status := status;
     Projection.ownership := ownership; Projection.last_success_at := Projection.last_success_at p;
     Projection.last_verified_at := Projection.last_verified_at p; Projection.safe_error_code := None;
     Projection.updated_at := now |}.

Definition resolve_notice (resolution : Notice.NoticeResolution) (now : Z) (n : Notice.NoticeRow) : Notice.NoticeRow :=
  {| Notice.organization := Notice.organization n; Notice.policy := Notice.policy n;
     Notice.projection := Notice.projection n; Notice.kind := Notice.kind n; Notice.status := Notice.resolved;
     Notice.resolution := Some resolution; Notice.detail := Notice.detail n; Notice.created_at := Notice.created_at n;
     Notice.updated_at := now |}.

Definition acknowledge_notice (now : Z) (n : Notice.NoticeRow) : Notice.NoticeRow :=
  {| Notice.organization := Notice.organization n; Notice.policy := Notice.policy n;
     Notice.projection := Notice.projection n; Notice.kind := Notice.kind n; Notice.status := Notice.acknowledged;
     Notice.resolution := Notice.resolution n; Notice.detail := Notice.detail n;
     Notice.created_at := Notice.created_at n; Notice.updated_at := now |}.

(** [new PolicyInputError(code)]. *)
Definition input_error (code : string) : failure := coded_failure code false.

Definition idempotency_taken (key : string) (t : Outbox) : bool :=
  existsb (λ '(_, e), (Effect.idempotency_key e =? key)%string) (map_to_list t).

Section notices.
Context {R C : Type} `{NewId} `{Unicode} `{Digest}.
Local Notation M := (Transaction.M Db R C).

(** [insert into outbox_effects], whose keys are unique. *)
Definition insert_effect (row : Effect.EffectRow) : M () :=
  effectId ← fresh_id;
  taken ← read_db (λ d, idempotency_taken (Effect.idempotency_key row) (outbox_effects d));
  if taken : bool then throw (unique_violation "outbox_effects_idempotency_key_key")
  else write_db (with_effects (λ t, <[effectId := row]> t)).

(** [update projections ... where id], [executeTakeFirstOrThrow]. *)
Definition set_projection (projectionId : string) (f : Projection.ProjectionRow → Projection.ProjectionRow) : M () :=
  row ← read_db (λ d, projections d !! projectionId);
  match row with
  | Some p => write_db (with_projections (λ t, <[projectionId := f p]> t))
  | None => throw no_result
  end.

Definition recordSyncNotice (organization policy projection : string) (kind : DestinationEditNoticeKind) (detail : json)
    (now : Z) : M () :=
  noticeId ← fresh_id;
  write_db (with_notices (λ t, <[noticeId :=
    {| Notice.organization := organization; Notice.policy := policy; Notice.projection := projection;
       Notice.kind := kind; Notice.status := Notice.unread; Notice.resolution := None; Notice.detail := detail;
       Notice.created_at := now; Notice.updated_at := now |}]> t)).

Definition finishNotice (organization noticeId : string) (resolution : Notice.NoticeResolution) (now : Z) : M () :=
  row ← read_db (λ d, sync_notices d !! noticeId);
  match row with
  | Some n =>
      if bool_decide (Notice.organization n = organization)
      then write_db (with_notices (λ t, <[noticeId := resolve_notice resolution now n]> t))
      else throw no_result
  | None => throw no_result
  end.

Definition notice_audit (organization principal policyHash projection action reasonCode : string) (now : Z) : M () :=
  _ ← fresh_id;
  write_db (with_audit
    {| Audit.organization := organization; Audit.principal := Some principal; Audit.actor_kind := "user";
       Audit.action := action; Audit.target_type := "projection"; Audit.target := projection;
       Audit.reason_code := reasonCode; Audit.before_hash := Some policyHash; Audit.after_hash := Some policyHash;
       Audit.detail := []; Audit.created_at := now |}).

(** ** The service *)

Definition acknowledge (organization noticeId : string) (now : Z) : M () :=
  row ← read_db (λ d, sync_notices d !! noticeId);
  match row with
  | Some n =>
      if bool_decide (Notice.organization n = organization) then
        write_db (with_notices (alter (λ n,
          if bool_decide (Notice.organization n = organization) && bool_decide (Notice.status n = Notice.unread)
          then acknowledge_notice now n else n) noticeId))
      else throw (input_error "not_found")
  | None => throw (input_error "not_found")
  end.

(** The evidence of a recovery: a deletion has no copy; a write has the copy of
    this projection and generation whose hash is recorded. *)
Definition recovery_evidence (policyId projectionId : string) (p : Projection.ProjectionRow) (op : EffectOperation)
    : res failure bool :=
  match op with
  | op_delete =>
      Ok (bool_decide (Projection.desired_hash p = None) && bool_decide (Projection.desired_state p = None))
  | _ =>
      match Projection.desired_state p with
      | Some desired =>
          if is_empty (Projection.desired_hash p)
             || negb (provenance_is policyId projectionId (Projection.generation p) desired)
          then Ok false
          else
            desiredHash ← hash (desired_json desired);
            Ok (bool_decide (Projection.desired_hash p = Some desiredHash))
      | None => Ok false
      end
  end.

Definition restore_key_json (kind policyId : string) (revision : Z) (projectionId : string)
    (p : Projection.ProjectionRow) (intentSequence : Z) (op : EffectOperation) : json :=
  JObject [("version", int 1); ("kind", JString kind); ("policy_ref", JString policyId);
           ("policy_revision", int revision); ("projection_ref", JString projectionId);
           ("generation", int (Projection.generation p)); ("intent_sequence", int intentSequence);
           ("operation", op_json op); ("desired_fingerprint", text_json (Projection.desired_hash p))].

(** The basis hash of an observation as it is now; [None] when it is gone. *)
Definition current_basis (organization observationId : string) : M (option string) :=
  row ← read_db (λ d, source_observations d !! observationId);
  match row with
  | Some o =>
      if bool_decide (Observation.organization o = organization)
      then basis ← lift (sourceObservationBasisHash (Observation.observation_hash o) (Observation.tombstone o));
           mret (Some basis)
      else mret None
  | None => mret None
  end.

(** The ambiguous intent that replays the evidence of a projection. *)
Definition schedule_recovery (organization policyId : string) (revision : Z) (projectionId : string)
    (p : Projection.ProjectionRow) (op : EffectOperation) (kind : string) (now : Z) : M () :=
  let intentSequence := Projection.intent_sequence p + 1 in
  idempotencyKey ← lift (hash (restore_key_json kind policyId revision projectionId p intentSequence op));
  _ ← insert_effect (new_effect organization policyId projectionId (Projection.source_basis_hash p) revision op
        idempotencyKey (Projection.desired_state p) true now);
  set_projection projectionId (λ q, release_projection (Projection.ownership q) intentSequence "retrying" now q).

Definition resolve_restore (organization principal noticeId policyId : string) (policy : Policy.PolicyRow)
    (projectionId : string) (p : Projection.ProjectionRow) (now : Z) : M () :=
  match Projection.recovery_operation p with
  | None => throw (input_error "hold_stale")
  | Some op =>
      if negb (Projection.policy_revision p =? Policy.revision policy) then throw (input_error "hold_stale")
      else
        basis ← current_basis organization (Projection.source_observation p);
        if is_empty basis || is_empty (Projection.source_basis_hash p)
           || negb (bool_decide (basis = Projection.source_basis_hash p))
        then
          _ ← enqueue_job organization "reconcile_policy"
                ("policy:" +:+ (policyId +:+ (":revision:" +:+ (pretty (Policy.revision policy) +:+
                  (":notice-basis:" +:+ noticeId)))))
                [("policy_id", JString policyId)] now;
          throw (input_error "hold_stale")
        else
          evidence ← lift (recovery_evidence policyId projectionId p op);
          if negb evidence then throw (input_error "hold_stale")
          else
            _ ← schedule_recovery organization policyId (Policy.revision policy) projectionId p op
                  "destination_edit_hold_restore" now;
            _ ← finishNotice organization noticeId Notice.restore now;
            notice_audit organization principal (Policy.hash policy) projectionId "copy.restore_requested"
              "destination_edit_restored" now
  end.

Definition resolve (organization principal noticeId : string) (action : Notice.NoticeResolution) (now : Z) : M () :=
  transaction (
    notice ← read_db (λ d, n ← sync_notices d !! noticeId;
                           if bool_decide (Notice.organization n = organization) then Some n else None);
    match notice with
    | None => throw (input_error "not_found")
    | Some n =>
        if negb (includes HELD_NOTICE_KINDS (Notice.kind n)) || bool_decide (Notice.status n = Notice.resolved)
        then throw (input_error "notice_not_resolvable")
        else
          policy ← read_db (λ d, p ← sync_policies d !! Notice.policy n;
            if bool_decide (Policy.organization p = organization) && negb (bool_decide (Policy.status p = Policy.deleted))
            then Some p else None);
          match policy with
          | None => throw (input_error "not_found")
          | Some policy =>
              projection ← read_db (λ d, p ← projections d !! Notice.projection n;
                if bool_decide (Projection.organization p = organization) then Some p else None);
              match projection with
              | None => throw (input_error "hold_stale")
              | Some p =>
                  if negb (isDestinationEditHold p) then throw (input_error "hold_stale")
                  else
                    match action with
                    | Notice.keep_and_detach =>
                        _ ← set_projection (Notice.projection n) (λ q,
                              release_projection Projection.detached (Projection.intent_sequence q) "converged" now q);
                        _ ← finishNotice organization noticeId Notice.keep_and_detach now;
                        notice_audit organization principal (Policy.hash policy) (Notice.projection n) "copy.detached"
                          "destination_edit_kept" now
                    | Notice.restore =>
                        resolve_restore organization principal noticeId (Notice.policy n) policy (Notice.projection n) p now
                    end
              end
          end
    end).
End notices.

(** ** Properties *)

Section decisions.
Context {R C : Type} `{NewId} `{Unicode} `{Digest}.
Context (organization principal noticeId : string) (now : Z).
Implicit Types w : Transaction.World Db R C.

(** The rows a decision is taken on. *)
Record open_hold (d : Db) (n : Notice.NoticeRow) (policy : Policy.PolicyRow) (p : Projection.ProjectionRow) : Prop := {
  hold_notice : sync_notices d !! noticeId = Some n;
  hold_notice_organization : Notice.organization n = organization;
  hold_kind : Notice.kind n ∈ HELD_NOTICE_KINDS;
  hold_open : Notice.status n ≠ Notice.resolved;
  hold_policy : sync_policies d !! Notice.policy n = Some policy;
  hold_policy_organization : Policy.organization policy = organization;
  hold_policy_live : Policy.status policy ≠ Policy.deleted;
  hold_projection : projections d !! Notice.projection n = Some p;
  hold_projection_organization : Projection.organization p = organization;
  hold_held : isDestinationEditHold p = true;
}.

(** What a restore needs beyond that. *)
Record restorable (d : Db) (n : Notice.NoticeRow) (policy : Policy.PolicyRow) (p : Projection.ProjectionRow)
    (op : EffectOperation) : Prop := {
  restore_operation : Projection.recovery_operation p = Some op;
  restore_revision : Projection.policy_revision p = Policy.revision policy;
  restore_evidence : recovery_evidence (Notice.policy n) (Notice.projection n) p op = Ok true;
  restore_basis : ∃ o, source_observations d !! Projection.source_observation p = Some o ∧
    Observation.organization o = organization ∧
    match sourceObservationBasisHash (Observation.observation_hash o) (Observation.tombstone o) with
    | Ok basis => Projection.source_basis_hash p = Some basis
    | Throw _ => False
    end;
}.

(** The fact a decision leaves. *)
Definition decision_fact (policy : Policy.PolicyRow) (projectionId action reasonCode : string) : Audit.AuditFact :=
  {| Audit.organization := organization; Audit.principal := Some principal; Audit.actor_kind := "user";
     Audit.action := action; Audit.target_type := "projection"; Audit.target := projectionId;
     Audit.reason_code := reasonCode; Audit.before_hash := Some (Policy.hash policy);
     Audit.after_hash := Some (Policy.hash policy); Audit.detail := []; Audit.created_at := now |}.

Definition resolved_by (action : Notice.NoticeResolution) (n : Notice.NoticeRow) (d : Db) : Db :=
  with_notices (λ t, <[noticeId := resolve_notice action now n]> t) d.

Definition detach_db (n : Notice.NoticeRow) (policy : Policy.PolicyRow) (p : Projection.ProjectionRow) (d : Db) : Db :=
  with_audit (decision_fact policy (Notice.projection n) "copy.detached" "destination_edit_kept")
    (resolved_by Notice.keep_and_detach n (with_projections (λ t, <[Notice.projection n :=
      release_projection Projection.detached (Projection.intent_sequence p) "converged" now p]> t) d)).

Definition restore_db (n : Notice.NoticeRow) (policy : Policy.PolicyRow) (p : Projection.ProjectionRow) (op : EffectOperation)
    (effectId key : string) (d : Db) : Db :=
  with_audit (decision_fact policy (Notice.projection n) "copy.restore_requested" "destination_edit_restored")
    (resolved_by Notice.restore n (with_projections (λ t, <[Notice.projection n :=
        release_projection (Projection.ownership p) (Projection.intent_sequence p + 1) "retrying" now p]> t)
      (with_effects (λ t, <[effectId := new_effect organization (Notice.policy n) (Notice.projection n)
          (Projection.source_basis_hash p) (Policy.revision policy) op key (Projection.desired_state p) true now]> t) d))).

Lemma set_projection_run projectionId f w (Q : res failure () → Transaction.World Db R C → Prop) :
  match projections (db w) !! projectionId with
  | Some p => Q (Ok ()) {| db := with_projections (λ t, <[projectionId := f p]> t) (db w); remote := remote w;
                           calls := calls w; issued := issued w |}
  | None => Q (Throw no_result) w
  end → wp (set_projection projectionId f) w Q.
Proof using Type. intros HQ. unfold set_projection. do 2 wp_step. destruct (projections _ !! _); by wp_step. Qed.

Lemma finish_and_audit_wp n resolution hash projectionId action reasonCode w (Q : res failure () → Transaction.World Db R C → Prop) :
  sync_notices (db w) !! noticeId = Some n → Notice.organization n = organization →
  Q (Ok ()) {| db := with_audit
      {| Audit.organization := organization; Audit.principal := Some principal; Audit.actor_kind := "user";
         Audit.action := action; Audit.target_type := "projection"; Audit.target := projectionId;
         Audit.reason_code := reasonCode; Audit.before_hash := Some hash; Audit.after_hash := Some hash;
         Audit.detail := []; Audit.created_at := now |}
      (with_notices (λ t, <[noticeId := resolve_notice resolution now n]> t) (db w));
    remote := remote w; calls := calls w; issued := S (issued w) |} →
  wp (_ ← finishNotice organization noticeId resolution now;
      notice_audit organization principal hash projectionId action reasonCode now) w Q.
Proof using Type.
  intros Hn Ho HQ. unfold finishNotice, notice_audit. do 3 wp_step. rewrite Hn, Ho, bool_decide_eq_true_2 by done.
  by repeat wp_step.
Qed.

Lemma current_basis_wp observationId w (Q : res failure (option string) → Transaction.World Db R C → Prop) :
  match source_observations (db w) !! observationId with
  | Some o =>
      if bool_decide (Observation.organization o = organization)
      then Q (Some <$> sourceObservationBasisHash (Observation.observation_hash o) (Observation.tombstone o)) w
      else Q (Ok None) w
  | None => Q (Ok None) w
  end → wp (current_basis organization observationId) w Q.
Proof using Type.
  intros HQ. unfold current_basis. do 2 wp_step. destruct (source_observations _ !! _) as [o|]; [|by wp_step].
  destruct (bool_decide _); [|by wp_step]. do 2 wp_step. destruct (sourceObservationBasisHash _ _); [by wp_step|done].
Qed.

(** What a decision does: nothing when it throws. *)
Definition decided (action : Notice.NoticeResolution) (d : Db) (r : res failure ()) (d' : Db) : Prop :=
  match r with
  | Throw _ => d' = d
  | Ok _ => ∃ n policy p, open_hold d n policy p ∧
      match action with
      | Notice.keep_and_detach => d' = detach_db n policy p d
      | Notice.restore => ∃ op effectId key, restorable d n policy p op ∧
          idempotency_taken key (outbox_effects d) = false ∧ d' = restore_db n policy p op effectId key d
      end
  end.

Lemma resolve_restore_wp n policy p w :
  open_hold (db w) n policy p →
  wp (resolve_restore organization principal noticeId (Notice.policy n) policy (Notice.projection n) p now) w (λ r w',
    ∀ u, r = Ok u → decided Notice.restore (db w) r (db w')).
Proof using Type.
  intros Hopen. unfold resolve_restore. destruct (Projection.recovery_operation p) as [op|] eqn:Hop; [|by wp_step].
  destruct (Projection.policy_revision p =? Policy.revision policy) eqn:Hrev; cbn [negb]; [|by wp_step]. bool_to_prop.
  wp_step. apply current_basis_wp.
  assert (∀ basis, (is_empty basis || is_empty (Projection.source_basis_hash p)
    || negb (bool_decide (basis = Projection.source_basis_hash p))) = false → is_Some basis ∧ basis = Projection.source_basis_hash p)
    as Hcurrent.
  { intros basis [[Hb _]%orb_false_iff Heq]%orb_false_iff. apply negb_false_iff in Heq. bool_to_prop.
    split; [destruct basis; [by eexists|done]|done]. }
  assert (∀ w' Q, wp (_ ← enqueue_job organization "reconcile_policy"
    ("policy:" +:+ (Notice.policy n +:+ (":revision:" +:+ (pretty (Policy.revision policy) +:+ (":notice-basis:" +:+ noticeId)))))
    [("policy_id", JString (Notice.policy n))] now; throw (input_error "hold_stale")) w' (λ r w2, ∀ u : (), r = Ok u → Q r w2))
    as Hstale.
  { intros w' Q. wp_step. unfold wp. destruct (enqueue_job _ _ _ _ _ _) as [[]?]; done. }
  destruct (source_observations (db w) !! Projection.source_observation p) as [o|] eqn:Ho; [|by apply Hstale].
  case_bool_decide as Horg; [|by apply Hstale].
  destruct (sourceObservationBasisHash _ _) as [basis|e] eqn:Hbasis; cbn [fmap res_fmap]; [|done].
  destruct (_ || _) eqn:Hcmp; [by apply Hstale|]. apply Hcurrent in Hcmp as [_ Hcmp].
  do 2 wp_step. destruct (recovery_evidence _ _ _ _) as [[]|e] eqn:Hev; cbn [negb]; [|by wp_step|done].
  wp_step. unfold schedule_recovery, insert_effect. do 2 wp_step. destruct (hash _) as [key|e] eqn:Hkey; [|done].
  do 5 wp_step. cbn [db Effect.idempotency_key new_effect]. destruct (idempotency_taken _ _) eqn:Ht; [by wp_step|].
  wp_step. apply set_projection_run. cbn [db with_effects projections]. rewrite (hold_projection _ _ _ _ Hopen).
  apply (finish_and_audit_wp n); [exact (hold_notice _ _ _ _ Hopen)|exact (hold_notice_organization _ _ _ _ Hopen)|].
  intros u _. exists n, policy, p. split; [done|]. eexists op, _, key. split_and!; [|done|done].
  split; [done|done|done|]. exists o. by rewrite Hbasis.
Qed.

Lemma resolve_wp action w :
  wp (resolve organization principal noticeId action now) w (λ r w', decided action (db w) r (db w')).
Proof using Type.
  unfold resolve. wp_step. do 2 wp_step.
  destruct (sync_notices (db w) !! noticeId) as [n|] eqn:Hn; cbn [mbind option_bind]; [|by wp_step].
  case_bool_decide as Hno; [|by wp_step]. destruct (_ || _) eqn:Hkind; [by wp_step|].
  apply orb_false_iff in Hkind as [Hkind%negb_false_iff%includes_spec Hst]. do 2 wp_step.
  destruct (sync_policies (db w) !! Notice.policy n) as [policy|] eqn:Hp; cbn [mbind option_bind]; [|by wp_step].
  destruct (_ && _) eqn:Hlive; [|by wp_step]. do 2 wp_step.
  destruct (projections (db w) !! Notice.projection n) as [p|] eqn:Hpr; cbn [mbind option_bind]; [|by wp_step].
  destruct (bool_decide (Projection.organization p = organization)) eqn:Hpo; [|by wp_step].
  destruct (isDestinationEditHold p) eqn:Hheld; cbn [negb]; [|by wp_step].
  assert (open_hold (db w) n policy p) as Hopen.
  { apply andb_true_iff in Hlive as [? Hlive]. apply negb_true_iff in Hlive. bool_to_prop. by split. }
  destruct action.
  - eapply wp_mono; [by apply resolve_restore_wp|]. cbn beta. intros [u|e] w' Hd; [by apply (Hd u)|done].
  - wp_step. apply set_projection_run. rewrite Hpr.
    apply (finish_and_audit_wp n); [exact Hn|done|]. by exists n, policy, p.
Qed.

Lemma keep_succeeds n policy p w :
  open_hold (db w) n policy p → wp (resolve organization principal noticeId Notice.keep_and_detach now) w (λ r _, r = Ok ()).
Proof using Type.
  intros [Hn Hno Hkind Hst Hp Hpo Hlive Hpr Hpro Hheld]. unfold resolve. wp_step. do 2 wp_step.
  rewrite Hn. cbn [mbind option_bind]. rewrite bool_decide_eq_true_2 by done. apply includes_spec in Hkind as ->.
  rewrite bool_decide_eq_false_2 by done. cbn [negb orb]. do 2 wp_step. rewrite Hp. cbn [mbind option_bind].
  rewrite bool_decide_eq_true_2, bool_decide_eq_false_2 by done. cbn [negb andb]. do 2 wp_step. rewrite Hpr. cbn [mbind option_bind].
  rewrite bool_decide_eq_true_2, Hheld by done. cbn [negb]. wp_step. apply set_projection_run. rewrite Hpr.
  by apply (finish_and_audit_wp n).
Qed.

(** C16. A decision on a held copy does what it says or nothing at all. Keeping
    the change is possible on every open hold: it detaches the copy, schedules
    no write and resolves the notice. Restoring happens only while the source,
    the revision and the recorded evidence are those of the hold, and schedules
    one ambiguous write of the recorded copy as the next intent. Whatever throws
    leaves the database as it was. *)
Theorem decisions_are_exact action w r w' :
  resolve organization principal noticeId action now w = (r, w') →
  match r with
  | Throw _ => db w' = db w ∧ (action = Notice.keep_and_detach → ∀ n policy p, ¬ open_hold (db w) n policy p)
  | Ok _ => ∃ n policy p, open_hold (db w) n policy p ∧
      match action with
      | Notice.keep_and_detach => db w' = detach_db n policy p (db w)
      | Notice.restore => ∃ op effectId key, restorable (db w) n policy p op ∧
          idempotency_taken key (outbox_effects (db w)) = false ∧ db w' = restore_db n policy p op effectId key (db w)
      end
  end.
Proof using Type.
  intros Hrun. pose proof (wp_run _ _ _ _ _ (resolve_wp action w) Hrun) as Hd. destruct r as [u|e]; [done|].
  split; [done|]. intros -> n policy p Hopen.
  by pose proof (wp_run _ _ _ _ _ (keep_succeeds n policy p w Hopen) Hrun).
Qed.

(** The reconciliation that a stale restore announces is rolled back with the
    transaction: no job remains. *)
Lemma stale_restore_schedules_nothing w r w' n policy p :
  resolve organization principal noticeId Notice.restore now w = (r, w') →
  open_hold (db w) n policy p →
  (∀ o, source_observations (db w) !! Projection.source_observation p = Some o → Observation.organization o = organization →
     ∀ basis, sourceObservationBasisHash (Observation.observation_hash o) (Observation.tombstone o) = Ok basis →
     Projection.source_basis_hash p ≠ Some basis) →
  (∃ e, r = Throw e) ∧ scheduled_jobs (db w') = scheduled_jobs (db w).
Proof using Type.
  intros Hrun Hopen Hstale. pose proof (wp_run _ _ _ _ _ (resolve_wp Notice.restore w) Hrun) as Hd.
  destruct r as [u|e]; [|split; [by eexists|by rewrite Hd]]. exfalso.
  destruct Hd as (n' & policy' & p' & Hopen' & op & eid & key & [_ _ _ (o & Ho & Horg & Hb)] & _).
  assert (p' = p) as ->.
  { destruct Hopen as [Hn _ _ _ _ _ _ Hp _ _], Hopen' as [Hn' _ _ _ _ _ _ Hp' _ _].
    rewrite Hn in Hn'. injection Hn' as <-. congruence. }
  destruct (sourceObservationBasisHash _ _) as [basis|] eqn:E; [|done]. by apply (Hstale o Ho Horg basis).
Qed.
End decisions.

(** ** Examples *)

Module Samples.
#[local] Existing Instance Effects.sample_ids.

Definition held_copy : Projection.ProjectionRow :=
  {| Projection.organization := "o"; Projection.policy := "policy"; Projection.policy_revision := 1;
     Projection.source_observation := "source"; Projection.source_basis_hash := Some sample_basis;
     Projection.recovery_operation := Some op_update; Projection.recurrence_identity := "";
     Projection.destination_calendar := "work"; Projection.destination_event := Some "copy";
     Projection.destination_etag := Some "8"; Projection.generation := 1; Projection.intent_sequence := 3;
     Projection.desired_hash := Some (value (hash (desired_json (sample_desired 1))) "");
     Projection.desired_state := Some (sample_desired 1); Projection.status := "held";
     Projection.ownership := Projection.attached; Projection.last_success_at := None;
     Projection.last_verified_at := None; Projection.safe_error_code := Some "destination_edit_held";
     Projection.updated_at := 0 |}.

Definition notice : Notice.NoticeRow :=
  {| Notice.organization := "o"; Notice.policy := "policy"; Notice.projection := sample_uuid;
     Notice.kind := copy_edit_held; Notice.status := Notice.unread; Notice.resolution := None;
     Notice.detail := noticeDetailForDesiredCopy drifted (sample_desired 1); Notice.created_at := 0;
     Notice.updated_at := 0 |}.

Definition held_db : Db :=
  {| sync_policies := {[ "policy" := sample_policy Policy.active ]};
     calendar_endpoints := {[ "home" := sample_endpoint "c1"; "work" := sample_endpoint "c2" ]};
     provider_connections := {[ "c1" := sample_connection "source"; "c2" := sample_connection "destination" ]};
     hours_profiles := ∅; source_observations := {[ "source" := sample_observation ]}; sync_cursors := ∅;
     projections := {[ sample_uuid := held_copy ]}; outbox_effects := ∅; sync_notices := {[ "notice" := notice ]};
     conflict_rules := ∅; policy_previews := ∅; audit_facts := []; scheduled_jobs := ∅ |}.

Definition decide_on (action : Notice.NoticeResolution) : res failure () * Transaction.World Db () () :=
  resolve "o" "me" "notice" action 9 {| db := held_db; remote := tt; calls := []; issued := 0 |}.

Lemma decisions_are_exact_witness :
  (Projection.status <$> projections (db (decide_on Notice.restore).2) !! sample_uuid) = Some "retrying" ∧
  (Effect.ambiguous <$> outbox_effects (db (decide_on Notice.restore).2) !! "new-0") = Some true ∧
  ∃ n policy p op, open_hold "o" "notice" held_db n policy p ∧ restorable "o" held_db n policy p op.
Proof.
  split; [vm_compute; reflexivity|]. split; [vm_compute; reflexivity|].
  assert (decide_on Notice.restore = (Ok (), (decide_on Notice.restore).2)) as Hrun by (vm_compute; reflexivity).
  destruct (decisions_are_exact "o" "me" "notice" 9 Notice.restore _ _ _ Hrun)
    as (n & policy & p & Hopen & op & _ & _ & Hrestore & _).
  exists n, policy, p, op. split; [exact Hopen|exact Hrestore].
Defined.
End Samples.
