(* ===== verification/Reconciliation.v ===== *)
(** * Policy reconciliation

    [server/src/sync/reconciliation.ts]: the observations of a source calendar
    become projections and outbox effects, one transaction per observation. *)

From S2P Require Import Prelude Canonical DestinationEdits Types Dates Temporal Hours Text Evaluate Jobs Transaction Policies Store Effects Notices.
From stdpp Require Import options.
Open Scope Z_scope.

(** ** Texts *)

Definition selection_text (s : Selection.EvaluationSelection) : string :=
  match s with
  | Selection.included => "included"
  | Selection.excluded => "excluded"
  | Selection.held => "held"
  | Selection.invalid => "invalid"
  end.

Definition evaluation_operation_text (op : Operation.EvaluationOperation) : string :=
  match op with
  | Operation.create => "create"
  | Operation.update => "update"
  | Operation.delete => "delete"
  | Operation.none => "none"
  end.

(** [`${selection}:${operation}:${primary_reason_code}`]. *)
Definition decision_text (r : PolicyEvaluationResult) : string :=
  selection_text (result_selection r) +:+ (":" +:+ (evaluation_operation_text (Types.operation r) +:+
    (":" +:+ reason_text (primary_reason_code r)))).

(** The operation of an effect. *)
Definition effect_operation (op : Operation.EvaluationOperation) : option EffectOperation :=
  match op with
  | Operation.create => Some op_create
  | Operation.update => Some op_update
  | Operation.delete => Some op_delete
  | Operation.none => None
  end.

(** ** Persistence of a result *)

Record ProjectionPersistence := {
  persisted_hash : option string;
  persisted_state : option DesiredCopy;
  persisted_code : option string;
}.

Definition projectionPersistenceForResult (r : PolicyEvaluationResult) (existing : option Projection.ProjectionRow)
    : ProjectionPersistence :=
  let preserved := if bool_decide (result_selection r = Selection.held) && bool_decide (Types.operation r = Operation.none)
                   then existing else None in
  {| persisted_hash := match result_fingerprint r with Some h => Some h | None => preserved ≫= Projection.desired_hash end;
     persisted_state := match desired_copy r with Some d => Some d | None => preserved ≫= Projection.desired_state end;
     persisted_code := match result_selection r with
       | Selection.invalid => Some (reason_text (primary_reason_code r))
       | Selection.held => Some (nullish (existing ≫= Projection.safe_error_code) (reason_text (primary_reason_code r)))
       | _ => None
       end |}.

Definition recoveryOperationForResult (r : PolicyEvaluationResult) : option EffectOperation :=
  match result_selection r, Types.operation r with
  | Selection.included, Operation.create => Some op_create
  | Selection.included, _ => Some op_update
  | Selection.excluded, Operation.delete => Some op_delete
  | _, _ => None
  end.

(** ** The source *)

Section identity.
Context `{Unicode}.

Definition normalizeIdentity (value : string) : string := toLowerCase (trim (nfc value)).

Definition markDestinationIdentityInvitation (source : SourceObservation) (destinationIdentity : string)
    : SourceObservation :=
  let identity := normalizeIdentity destinationIdentity in
  let invited := destination_identity_invited source
    || existsb (λ attendee, (normalizeIdentity attendee =? identity)%string) (nullish (attendees source) [])
    || match organizer source with Some o => (normalizeIdentity o =? identity)%string | None => false end in
  {| source_event_ref := source_event_ref source; source_occurrence_ref := source_occurrence_ref source;
     remote_revision := remote_revision source; lifecycle := lifecycle source; origin := origin source;
     timing := timing source; recurrence := recurrence source; availability := availability source;
     relationship := relationship source; destination_identity_invited := invited; content := content source;
     attendees := attendees source; organizer := organizer source; attachments := attachments source;
     source_url := source_url source; provider_metadata := provider_metadata source |}.
End identity.

Definition with_lifecycle (l : Lifecycle) (source : SourceObservation) : SourceObservation :=
  {| source_event_ref := source_event_ref source; source_occurrence_ref := source_occurrence_ref source;
     remote_revision := remote_revision source; lifecycle := l; origin := origin source;
     timing := timing source; recurrence := recurrence source; availability := availability source;
     relationship := relationship source; destination_identity_invited := destination_identity_invited source;
     content := content source; attendees := attendees source; organizer := organizer source;
     attachments := attachments source; source_url := source_url source;
     provider_metadata := provider_metadata source |}.

Definition observationForEvaluation (source : SourceObservation) (tombstone : bool) : SourceObservation :=
  if tombstone && bool_decide (lifecycle source = confirmed) then with_lifecycle deleted source else source.

(** ** The input of the evaluation *)

Definition DAY_MILLISECONDS : Z := 86400000.

(** The retained identity of a copy that was deleted. *)
Definition is_retired (p : Projection.ProjectionRow) : bool :=
  (Projection.status p =? "deleted")%string && bool_decide (Projection.destination_event p = None).

Definition evaluated_ownership (p : Projection.ProjectionRow) : Ownership :=
  if is_retired p then none
  else match Projection.ownership p with
       | Projection.ambiguous => attached
       | Projection.attached => attached
       | Projection.detached => detached
       end.

Definition projection_input (existing : option (string * Projection.ProjectionRow)) : ProjectionInput :=
  match existing with
  | Some (id, p) =>
      {| Types.ownership := evaluated_ownership p; projection_ref := Some id; Types.generation := Some (Projection.generation p);
         destination_event_ref := non_empty (Projection.destination_event p);
         destination_exists := Some (bool_decide (is_Some (Projection.destination_event p)));
         desired_fingerprint := non_empty (Projection.desired_hash p); observed_copy := None |}
  | None =>
      {| Types.ownership := none; projection_ref := None; Types.generation := None; destination_event_ref := None;
         destination_exists := None; desired_fingerprint := None; observed_copy := None |}
  end.

Definition evaluation_input (policy : SyncPolicy) (capabilities : DestinationCapabilities)
    (hoursProfile : option HoursProfile) (source : SourceObservation) (horizon : Horizon) (projectionId : string)
    (existing : option (string * Projection.ProjectionRow)) (now : Z) : PolicyEvaluationInput :=
  {| Types.now := toISOString now;
     horizon := {| start := toISOString (now - past_days horizon * DAY_MILLISECONDS);
                   end_ := toISOString (now + future_days horizon * DAY_MILLISECONDS) |};
     candidate_projection_ref := projectionId; Types.policy := policy; Types.hours_profile := hoursProfile;
     source := source; projection := projection_input existing; destination_capabilities := capabilities |}.

(** ** Rows *)

(** The first row of a query without order: any row, here the first of the table. *)
Definition find_projection (organization policy observation recurrence : string) (d : Db)
    : option (string * Projection.ProjectionRow) :=
  find (λ '(_, p), bool_decide (Projection.organization p = organization) && bool_decide (Projection.policy p = policy)
                   && bool_decide (Projection.source_observation p = observation)
                   && bool_decide (Projection.recurrence_identity p = recurrence))
    (map_to_list (projections d)).

(** The unique constraint on [(policy_id, source_observation_id, recurrence_identity)]. *)
Definition projection_taken (p : Projection.ProjectionRow) (d : Db) : bool :=
  existsb (λ '(_, q), bool_decide (Projection.policy q = Projection.policy p)
                      && bool_decide (Projection.source_observation q = Projection.source_observation p)
                      && bool_decide (Projection.recurrence_identity q = Projection.recurrence_identity p))
    (map_to_list (projections d)).

(** The oldest dead effect of a projection. *)
Definition blocking_effect (organization projectionId : string) (d : Db) : option (string * Effect.EffectRow) :=
  head (sort_by (λ left right, created_before left right || (left.1 =? right.1)%string)
    (List.filter (λ '(_, e), bool_decide (Effect.organization e = organization)
       && bool_decide (Effect.projection e = projectionId) && bool_decide (Effect.state e = dead))
      (map_to_list (outbox_effects d)))).

(** The columns every pass over an existing projection sets. *)
Definition refresh_projection (revision : Z) (basis : string) (recovery : option EffectOperation) (intentSequence : Z)
    (desiredHash : option string) (desiredState : option DesiredCopy) (status : string) (code : option string) (now : Z)
    (p : Projection.ProjectionRow) : Projection.ProjectionRow :=
  {| Projection.organization := Projection.organization p; Projection.policy := Projection.policy p;
     Projection.policy_revision := revision; Projection.source_observation := Projection.source_observation p;
     Projection.source_basis_hash := Some basis; Projection.recovery_operation := recovery;
     Projection.recurrence_identity := Projection.recurrence_identity p;
     Projection.destination_calendar := Projection.destination_calendar p;
     Projection.destination_event := Projection.destination_event p;
     Projection.destination_etag := Projection.destination_etag p; Projection.generation := Projection.generation p;
     Projection.intent_sequence := intentSequence; Projection.desired_hash := desiredHash;
     Projection.desired_state := desiredState; Projection.status := status;
     Projection.ownership := Projection.ownership p; Projection.last_success_at := Projection.last_success_at p;
     Projection.last_verified_at := Projection.last_verified_at p; Projection.safe_error_code := code;
     Projection.updated_at := now |}.

Definition new_projection (organization : string) (policy : SyncPolicy) (observation basis recurrence : string)
    (intentSequence : Z) (r : PolicyEvaluationResult) (saved : ProjectionPersistence) (now : Z)
    : Projection.ProjectionRow :=
  {| Projection.organization := organization; Projection.policy := policy_ref policy;
     Projection.policy_revision := Types.revision policy; Projection.source_observation := observation;
     Projection.source_basis_hash := Some basis; Projection.recovery_operation := None;
     Projection.recurrence_identity := recurrence; Projection.destination_calendar := destination_calendar_ref policy;
     Projection.destination_event := None; Projection.destination_etag := None; Projection.generation := 1;
     Projection.intent_sequence := intentSequence; Projection.desired_hash := persisted_hash saved;
     Projection.desired_state := persisted_state saved;
     Projection.status := if bool_decide (Types.operation r = Operation.none) then "held" else "pending";
     Projection.ownership := if bool_decide (result_selection r = Selection.held) then Projection.ambiguous
                             else Projection.attached;
     Projection.last_success_at := None; Projection.last_verified_at := None;
     Projection.safe_error_code := persisted_code saved; Projection.updated_at := now |}.

(** The status of an existing projection after a pass. *)
Definition status_after (p : Projection.ProjectionRow) (r : PolicyEvaluationResult) : string :=
  if bool_decide (Types.operation r = Operation.none)
  then if bool_decide (result_selection r = Selection.held) then "held"
       else if is_retired p then "deleted" else "converged"
  else "pending".

(** The status, the code and the decision of a pass over a copy that waits. *)
Definition held_status (p : Projection.ProjectionRow) : string :=
  if bool_decide (Projection.ownership p = Projection.ambiguous) || isDestinationEditHold p then "held" else "failed".

Definition held_code (p : Projection.ProjectionRow) (blocking : option (string * Effect.EffectRow))
    (r : PolicyEvaluationResult) : string :=
  match recoveryOperationForResult r with
  | None => reason_text (primary_reason_code r)
  | Some _ => match blocking ≫= λ b, Effect.safe_error_code b.2 with
              | Some code => code
              | None => nullish (Projection.safe_error_code p) "effect_recovery_required"
              end
  end.

Definition held_decision (p : Projection.ProjectionRow) (blocking : option (string * Effect.EffectRow)) : string :=
  match blocking with
  | Some _ => held_status p +:+ ":none:blocking_dead_effect"
  | None => "held:none:recovery_shadow_refreshed"
  end.

Definition intent_key_json (policy : SyncPolicy) (projectionId : string) (generation intentSequence : Z)
    (op : EffectOperation) (desiredHash : option string) : json :=
  JObject [("version", int 1); ("policy_ref", JString (policy_ref policy));
           ("policy_revision", int (Types.revision policy)); ("projection_ref", JString projectionId);
           ("generation", int generation); ("intent_sequence", int intentSequence); ("operation", op_json op);
           ("desired_fingerprint", text_json desiredHash)].

Definition evaluation_failure (e : evaluation_error) : failure :=
  match e with
  | HoursError _ => other_failure "rangeerror"
  | CanonicalError _ | ConfirmedSourceRequiresTiming => other_failure "typeerror"
  end.

(** ** The reconciler *)

Section reconciler.
Context {R C : Type} `{NewId} `{Unicode} `{Digest} `{Temporal}.
Local Notation M := (Transaction.M Db R C).

(** [runtime.evaluate]. *)
Definition evaluate (input : PolicyEvaluationInput) : res failure PolicyEvaluationResult :=
  match evaluatePolicy input with Ok r => Ok r | Throw e => Throw (evaluation_failure e) end.

(** [insert into projections]. *)
Definition insert_projection (projectionId : string) (p : Projection.ProjectionRow) : M () :=
  taken ← read_db (projection_taken p);
  if taken : bool
  then throw (unique_violation "projections_policy_id_source_observation_id_recurrence_iden_key")
  else write_db (with_projections (λ t, <[projectionId := p]> t)).

(** [insert into outbox_effects ... on conflict (idempotency_key) do nothing]:
    whether a row was inserted. *)
Definition insert_effect_once (row : Effect.EffectRow) : M bool :=
  effectId ← fresh_id;
  taken ← read_db (λ d, idempotency_taken (Effect.idempotency_key row) (outbox_effects d));
  if taken : bool then mret false
  else _ ← write_db (with_effects (λ t, <[effectId := row]> t)); mret true.

Record Outcome := { created : bool; decision : string }.

(** A copy that waits for a person: only its evidence is refreshed. *)
Definition refresh_held (policy : SyncPolicy) (projectionId : string) (p : Projection.ProjectionRow)
    (blocking : option (string * Effect.EffectRow)) (basis : string) (r : PolicyEvaluationResult) (now : Z) : M Outcome :=
  _ ← set_projection projectionId (λ q, refresh_projection (Types.revision policy) basis (recoveryOperationForResult r)
        (Projection.intent_sequence q) (result_fingerprint r) (desired_copy r) (held_status p)
        (Some (held_code p blocking r)) now q);
  mret {| created := false; decision := held_decision p blocking |}.

(** The intent of a result that wants a write. *)
Definition enqueue_intent (organization : string) (policy : SyncPolicy) (projectionId : string) (generation intentSequence : Z)
    (basis : string) (saved : ProjectionPersistence) (r : PolicyEvaluationResult) (now : Z) : M Outcome :=
  match effect_operation (Types.operation r) with
  | None => mret {| created := false; decision := decision_text r |}
  | Some op =>
      idempotencyKey ← lift (hash (intent_key_json policy projectionId generation intentSequence op (persisted_hash saved)));
      inserted ← insert_effect_once (new_effect organization (policy_ref policy) projectionId (Some basis)
        (Types.revision policy) op idempotencyKey (persisted_state saved) false now);
      mret {| created := inserted; decision := decision_text r |}
  end.

Definition reconcileObservation (organization : string) (policy : SyncPolicy) (capabilities : DestinationCapabilities)
    (hoursProfile : option HoursProfile) (observationId observationHash : string) (tombstone : bool)
    (recurrenceIdentity : string) (source : SourceObservation) (horizon : Horizon) (now : Z) : M Outcome :=
  basis ← lift (sourceObservationBasisHash observationHash tombstone);
  existing ← read_db (find_projection organization (policy_ref policy) observationId recurrenceIdentity);
  blocking ← match existing with
             | Some (id, _) => read_db (blocking_effect organization id)
             | None => mret None
             end;
  projectionId ← match existing with Some (id, _) => mret id | None => fresh_id end;
  let generation := match existing with Some (_, p) => Projection.generation p | None => 1 end in
  r ← lift (evaluate (evaluation_input policy capabilities hoursProfile source horizon projectionId existing now));
  let wants := negb (bool_decide (Types.operation r = Operation.none)) in
  let intentSequence := match existing with Some (_, p) => Projection.intent_sequence p | None => 0 end
                        + (if wants then 1 else 0) in
  match existing with
  | Some (id, p) =>
      if bool_decide (is_Some blocking) || bool_decide (Projection.ownership p = Projection.ambiguous)
         || isDestinationEditHold p
      then refresh_held policy id p blocking basis r now
      else
        let saved := projectionPersistenceForResult r (Some p) in
        _ ← set_projection id (λ q, refresh_projection (Types.revision policy) basis None
              (if wants then intentSequence else Projection.intent_sequence q) (persisted_hash saved)
              (persisted_state saved) (status_after p r) (persisted_code saved) now q);
        enqueue_intent organization policy id generation intentSequence basis saved r now
  | None =>
      if negb wants then mret {| created := false; decision := decision_text r |}
      else
        let saved := projectionPersistenceForResult r None in
        _ ← insert_projection projectionId
              (new_projection organization policy observationId basis recurrenceIdentity intentSequence r saved now);
        enqueue_intent organization policy projectionId generation intentSequence basis saved r now
  end.

(** ** A pass over a calendar *)

(** [counts] of the summary by decision. *)
Record Summary := { evaluated : Z; effectsCreated : Z; counts : gmap string Z }.

Definition count_decision (o : Outcome) (s : Summary) : Summary :=
  {| evaluated := evaluated s; effectsCreated := effectsCreated s + (if created o then 1 else 0);
     counts := <[decision o := nullish (counts s !! decision o) 0 + 1]> (counts s) |}.

Definition add_evaluated (n : nat) (s : Summary) : Summary :=
  {| evaluated := evaluated s + Z.of_nat n; effectsCreated := effectsCreated s; counts := counts s |}.

Definition no_summary (reason : string) : Summary :=
  {| evaluated := 0; effectsCreated := 0; counts := {[ reason := 1 ]} |}.

(** What a pass works with: the policy, compiled, and what was read with it. *)
Record Pass := {
  pass_policy : SyncPolicy;
  pass_capabilities : DestinationCapabilities;
  pass_hours : option HoursProfile;
  pass_identity : string;
  pass_horizon : Horizon;
}.

Definition reconcile_row (organization : string) (pass : Pass) (id : string) (o : Observation.ObservationRow) (now : Z)
    : M Outcome :=
  transaction (reconcileObservation organization (pass_policy pass) (pass_capabilities pass) (pass_hours pass) id
    (Observation.observation_hash o) (Observation.tombstone o) (Observation.recurrence_identity o)
    (markDestinationIdentityInvitation (observationForEvaluation (Observation.event o) (Observation.tombstone o))
      (pass_identity pass))
    (pass_horizon pass) now).

Definition PAGE : nat := 1000.

Definition observation_page (organization calendar : string) (afterId : option string) (d : Db)
    : list (string * Observation.ObservationRow) :=
  take PAGE (sort_by (λ left right, text_leb left.1 right.1)
    (List.filter (λ '(id, o), bool_decide (Observation.organization o = organization)
       && bool_decide (Observation.calendar o = calendar)
       && match afterId with Some after => (after <? id)%string | None => true end)
      (map_to_list (source_observations d)))).

(** [interfere n] is what other transactions do before the n-th statement of
    the pass; [clock n] is its time. *)
Fixpoint reconcile_rows (organization : string) (pass : Pass) (interfere : nat → Db → Db) (clock : nat → Z) (n : nat)
    (rows : list (string * Observation.ObservationRow)) (s : Summary) : M (nat * Summary) :=
  match rows with
  | [] => mret (n, s)
  | (id, o) :: rows =>
      _ ← write_db (interfere n);
      outcome ← reconcile_row organization pass id o (clock n);
      reconcile_rows organization pass interfere clock (S n) rows (count_decision outcome s)
  end.

(** The [while (true)] loop; [None] when the fuel is not enough. *)
Fixpoint reconcile_pages (fuel : nat) (organization calendar : string) (pass : Pass) (interfere : nat → Db → Db)
    (clock : nat → Z) (n : nat) (afterId : option string) (s : Summary) : M (option (nat * Summary)) :=
  match fuel with
  | O => mret None
  | S fuel =>
      _ ← write_db (interfere n);
      rows ← read_db (observation_page organization calendar afterId);
      '(n, s) ← reconcile_rows organization pass interfere clock (S n) rows s;
      let s := add_evaluated (length rows) s in
      if (length rows <? PAGE)%nat then mret (Some (n, s))
      else reconcile_pages fuel organization calendar pass interfere clock n (last rows ≫= λ row, Some row.1) s
  end.

(** The join [reconcile] starts with. *)
Record PolicyJoin := {
  join_policy : Policy.PolicyRow;
  join_source : Endpoint.EndpointRow;
  join_source_connection : Connection.ConnectionRow;
  join_destination : Endpoint.EndpointRow;
  join_destination_connection : Connection.ConnectionRow;
}.

Definition load_join (organization policyId : string) (d : Db) : option PolicyJoin :=
  p ← sync_policies d !! policyId;
  source ← calendar_endpoints d !! Policy.source_calendar p;
  sourceConnection ← provider_connections d !! Endpoint.connection source;
  destination ← calendar_endpoints d !! Policy.destination_calendar p;
  destinationConnection ← provider_connections d !! Endpoint.connection destination;
  if bool_decide (Policy.organization p = organization)
  then Some {| join_policy := p; join_source := source; join_source_connection := sourceConnection;
               join_destination := destination; join_destination_connection := destinationConnection |}
  else None.

Definition join_authorizes (j : PolicyJoin) : bool :=
  Endpoint.readable (join_source j) && (Connection.status (join_source_connection j) =? "active")%string
  && includes ["source"; "both"] (Connection.intended_role (join_source_connection j))
  && Endpoint.writable (join_destination j) && (Connection.status (join_destination_connection j) =? "active")%string
  && includes ["destination"; "both"] (Connection.intended_role (join_destination_connection j)).

Definition load_hours (organization : string) (profileId : option string) (d : Db) : option HoursProfile :=
  id ← non_empty profileId;
  row ← hours_profiles d !! id;
  if bool_decide (HoursRow.organization row = organization)
  then Some {| profile_ref := id; profile_revision := HoursRow.version row; profile_timezone := HoursRow.timezone row;
               ambiguous_resolution := HoursRow.ambiguous_resolution row;
               nonexistent_resolution := HoursRow.nonexistent_resolution row;
               weekly := HoursRow.weekly_intervals row; exceptions := HoursRow.exceptions row |}
  else None.

(** The columns of a policy a pass sets. *)
Definition mark_policy (success : option Z) (code : option string) (now : Z) (p : Policy.PolicyRow) : Policy.PolicyRow :=
  {| Policy.organization := Policy.organization p; Policy.source_calendar := Policy.source_calendar p;
     Policy.destination_calendar := Policy.destination_calendar p; Policy.source_identity := Policy.source_identity p;
     Policy.destination_identity := Policy.destination_identity p; Policy.hours_profile := Policy.hours_profile p;
     Policy.status := Policy.status p; Policy.revision := Policy.revision p; Policy.document := Policy.document p;
     Policy.hash := Policy.hash p;
     Policy.last_success_at := match success with Some t => Some t | None => Policy.last_success_at p end;
     Policy.safe_error_code := code; Policy.updated_at := now |}.

Definition pass_of (organization policyId : string) (j : PolicyJoin) (d : Db) : Pass :=
  let draft := Policy.document (join_policy j) in
  {| pass_policy := compilePolicyDraft draft policyId (Policy.revision (join_policy j)) Types.active None;
     pass_capabilities := destinationCapabilities (Endpoint.capabilities (join_destination j))
                            (Endpoint.writable (join_destination j));
     pass_hours := load_hours organization (Policy.hours_profile (join_policy j)) d;
     pass_identity := Connection.account_label (join_destination_connection j);
     pass_horizon := horizon_of draft |}.

Definition reconcile (fuel : nat) (interfere : nat → Db → Db) (clock : nat → Z) (organization policyId : string)
    : M (option Summary) :=
  joined ← read_db (load_join organization policyId);
  match joined with
  | None => mret (Some (no_summary "not_found"))
  | Some j =>
      match Policy.status (join_policy j) with
      | Policy.deleted => mret (Some (no_summary "not_found"))
      | Policy.paused => mret (Some (no_summary "paused"))
      | Policy.active =>
          if negb (join_authorizes j) then
            _ ← write_db (with_policies (alter (λ p,
                  if bool_decide (Policy.organization p = organization) && bool_decide (Policy.status p = Policy.active)
                  then mark_policy None (Some "connection_role_changed") (clock 0%nat) p else p) policyId));
            mret (Some (no_summary "connection_role_changed"))
          else
            pass ← read_db (pass_of organization policyId j);
            finished ← reconcile_pages fuel organization (Policy.source_calendar (join_policy j)) pass interfere clock 1
                         None {| evaluated := 0; effectsCreated := 0; counts := ∅ |};
            match finished with
            | None => mret None
            | Some (n, s) =>
                _ ← write_db (λ d, with_policies (alter (λ p,
                      if bool_decide (Policy.organization p = organization)
                      then mark_policy (Some (clock n)) None (clock n) p else p) policyId) (interfere n d));
                mret (Some s)
            end
      end
  end.
End reconciler.

(** ** What a pass over one observation does *)

Section passes.
Context `{NewId} `{Unicode} `{Digest} `{Temporal}.
Context (organization : string) (policy : SyncPolicy) (capabilities : DestinationCapabilities).
Context (hoursProfile : option HoursProfile) (observationId observationHash : string) (tombstone : bool).
Context (recurrenceIdentity : string) (source : SourceObservation) (horizon : Horizon) (now : Z).

(** The projection of the observation, and its evaluation. *)
Definition existing_projection (d : Db) : option (string * Projection.ProjectionRow) :=
  find_projection organization (policy_ref policy) observationId recurrenceIdentity d.

Definition evaluates (projectionId : string) (existing : option (string * Projection.ProjectionRow))
    (r : PolicyEvaluationResult) : Prop :=
  evaluatePolicy (evaluation_input policy capabilities hoursProfile source horizon projectionId existing now) = Ok r.

(** A projection that a pass may not schedule a write for. *)
Definition held_back (id : string) (p : Projection.ProjectionRow) (d : Db) : bool :=
  bool_decide (is_Some (blocking_effect organization id d)) || bool_decide (Projection.ownership p = Projection.ambiguous)
  || isDestinationEditHold p.

Definition put_projection (id : string) (p : Projection.ProjectionRow) : Db → Db := with_projections (λ t, <[id := p]> t).
Definition put_effect (id : string) (e : Effect.EffectRow) : Db → Db := with_effects (λ t, <[id := e]> t).

(** The row of an existing projection after a pass that may write. *)
Definition passed_projection (basis : string) (r : PolicyEvaluationResult) (p : Projection.ProjectionRow)
    : Projection.ProjectionRow :=
  let saved := projectionPersistenceForResult r (Some p) in
  refresh_projection (Types.revision policy) basis None
    (Projection.intent_sequence p + (if bool_decide (Types.operation r = Operation.none) then 0 else 1))
    (persisted_hash saved) (persisted_state saved) (status_after p r) (persisted_code saved) now p.

Definition intent_row (projectionId basis key : string) (r : PolicyEvaluationResult) (op : EffectOperation)
    (saved : ProjectionPersistence) : Effect.EffectRow :=
  new_effect organization (policy_ref policy) projectionId (Some basis) (Types.revision policy) op key
    (persisted_state saved) false now.

(** The projection after the pass that writes: new, or refreshed. *)
Definition written_projection (basis : string) (existing : option Projection.ProjectionRow) (r : PolicyEvaluationResult)
    : Projection.ProjectionRow :=
  match existing with
  | Some p => passed_projection basis r p
  | None => new_projection organization policy observationId basis recurrenceIdentity 1 r
              (projectionPersistenceForResult r None) now
  end.

(** One pass, from a database, with the ids after the n-th. *)
Inductive pass_step (d : Db) (n : nat) : Outcome → Db → Prop :=
| pass_skips r :
    existing_projection d = None → evaluates (newId n) None r → Types.operation r = Operation.none →
    pass_step d n {| created := false; decision := decision_text r |} d
| pass_refreshes id p r basis :
    existing_projection d = Some (id, p) → held_back id p d = true → evaluates id (Some (id, p)) r →
    sourceObservationBasisHash observationHash tombstone = Ok basis →
    let blocking := blocking_effect organization id d in
    pass_step d n {| created := false; decision := held_decision p blocking |}
      (put_projection id (refresh_projection (Types.revision policy) basis (recoveryOperationForResult r)
         (Projection.intent_sequence p) (result_fingerprint r) (desired_copy r) (held_status p)
         (Some (held_code p blocking r)) now p) d)
| pass_settles id p r basis :
    existing_projection d = Some (id, p) → held_back id p d = false → evaluates id (Some (id, p)) r →
    sourceObservationBasisHash observationHash tombstone = Ok basis → Types.operation r = Operation.none →
    pass_step d n {| created := false; decision := decision_text r |} (put_projection id (passed_projection basis r p) d)
| pass_writes existing projectionId r basis op key :
    existing_projection d = existing →
    match existing with
    | Some (id, p) => projectionId = id ∧ held_back id p d = false
    | None => projectionId = newId n ∧
              projection_taken (written_projection basis None r) d = false
    end →
    evaluates projectionId existing r → effect_operation (Types.operation r) = Some op →
    sourceObservationBasisHash observationHash tombstone = Ok basis →
    let saved := projectionPersistenceForResult r (snd <$> existing) in
    let row := written_projection basis (snd <$> existing) r in
    hash (intent_key_json policy projectionId (Projection.generation row) (Projection.intent_sequence row) op
            (persisted_hash saved)) = Ok key →
    let taken := idempotency_taken key (outbox_effects d) in
    let effectId := newId (match existing with Some _ => n | None => S n end) in
    pass_step d n {| created := negb taken; decision := decision_text r |}
      ((if taken then λ d, d else put_effect effectId (intent_row projectionId basis key r op saved))
         (put_projection projectionId row d)).

Context {R C : Type}.

Lemma existing_lookup d id p : existing_projection d = Some (id, p) →
  projections d !! id = Some p ∧ Projection.organization p = organization ∧ Projection.policy p = policy_ref policy ∧
  Projection.source_observation p = observationId ∧ Projection.recurrence_identity p = recurrenceIdentity.
Proof using Type.
  unfold existing_projection, find_projection. intros [Hin Heq]%List.find_some.
  apply list_elem_of_In, elem_of_map_to_list in Hin. by bool_to_prop.
Qed.

Lemma set_projection_wp id f (w : Transaction.World Db R C) (Q : res failure () → Transaction.World Db R C → Prop) p :
  projections (db w) !! id = Some p →
  Q (Ok ()) {| db := put_projection id (f p) (db w); remote := remote w; calls := calls w; issued := issued w |} →
  wp (set_projection id f) w Q.
Proof using Type. intros Hp HQ. unfold set_projection. do 2 wp_step. rewrite Hp. by wp_step. Qed.

Lemma evaluate_Ok `{Temporal} input r : evaluate input = Ok r ↔ evaluatePolicy input = Ok r.
Proof using Type. unfold evaluate. destruct (evaluatePolicy input); naive_solver. Qed.

Lemma enqueue_intent_wp projectionId generation intentSequence basis saved r (w : Transaction.World Db R C) :
  wp (enqueue_intent organization policy projectionId generation intentSequence basis saved r now) w (λ res w',
    ∀ o, res = Ok o →
      match effect_operation (Types.operation r) with
      | None => o = {| created := false; decision := decision_text r |} ∧ db w' = db w
      | Some op => ∃ key,
          hash (intent_key_json policy projectionId generation intentSequence op (persisted_hash saved)) = Ok key ∧
          let taken := idempotency_taken key (outbox_effects (db w)) in
          o = {| created := negb taken; decision := decision_text r |} ∧
          db w' = (if taken then λ d, d else put_effect (newId (issued w)) (intent_row projectionId basis key r op saved))
                    (db w)
      end).
Proof using Type.
  unfold enqueue_intent. destruct (effect_operation _) as [op|]; [|wp_step; by intros o [= <-]].
  do 2 wp_step. destruct (hash _) as [key|e] eqn:Hkey; [|done]. wp_step. unfold insert_effect_once. do 4 wp_step. cbn [db Effect.idempotency_key new_effect].
  destruct (idempotency_taken _ _) eqn:Ht; repeat wp_step; intros o [= <-]; exists key; by rewrite Ht.
Qed.

(** The transaction refines the step. *)
Lemma reconcileObservation_wp (w : Transaction.World Db R C) :
  wp (reconcileObservation organization policy capabilities hoursProfile observationId observationHash tombstone
        recurrenceIdentity source horizon now) w
    (λ res w', ∀ o, res = Ok o → pass_step (db w) (issued w) o (db w')).
Proof using Type.
  unfold reconcileObservation. do 2 wp_step. destruct (sourceObservationBasisHash _ _) as [basis|e] eqn:Hbasis; [|done].
  do 2 wp_step. fold (existing_projection (db w)). wp_step. destruct (existing_projection (db w)) as [[id p]|] eqn:He.
  - do 4 wp_step. destruct (evaluate _) as [r|e] eqn:Hr; [|done]. apply evaluate_Ok in Hr.
    destruct (existing_lookup _ _ _ He) as [Hp _].
    destruct (bool_decide (is_Some (blocking_effect organization id (db w))) || _ || _) eqn:Hheld.
    + unfold refresh_held. do 2 wp_step. eapply set_projection_wp; [done|]. wp_step. intros o [= <-]. by eapply pass_refreshes.
    + do 2 wp_step. eapply set_projection_wp; [done|]. cbn beta iota.
      eapply wp_mono; [apply enqueue_intent_wp|]. cbn [db issued]. intros res w1 Hres o Ho. specialize (Hres o Ho).
      destruct (effect_operation (Types.operation r)) as [op|] eqn:Hop.
      * assert (Types.operation r ≠ Operation.none) as Hne by (by destruct (Types.operation r)).
        rewrite bool_decide_eq_false_2 in Hres by done. cbn [negb] in Hres. destruct Hres as (key & Hkey & -> & ->).
        pose proof (pass_writes (db w) (issued w) (Some (id, p)) id r basis op key He (conj eq_refl Hheld) Hr Hop Hbasis) as Hstep.
        cbn [fmap option_fmap option_map snd written_projection] in Hstep. unfold passed_projection in Hstep.
        cbn [Projection.generation Projection.intent_sequence refresh_projection] in Hstep.
        rewrite bool_decide_eq_false_2 in Hstep by done. by apply Hstep.
      * assert (Types.operation r = Operation.none) as Hn by (by destruct (Types.operation r)).
        destruct Hres as [-> ->]. rewrite bool_decide_eq_true_2 by done. cbn [negb].
        pose proof (pass_settles (db w) (issued w) id p r basis He Hheld Hr Hbasis Hn) as Hstep.
        unfold passed_projection in Hstep. by rewrite bool_decide_eq_true_2, Z.add_0_r in Hstep.
  - wp_step. wp_step. wp_step. do 2 wp_step. destruct (evaluate _) as [r|e] eqn:Hr; [|done]. apply evaluate_Ok in Hr.
    cbn [db issued]. destruct (bool_decide (Types.operation r = Operation.none)) eqn:Hn; cbn [negb].
    { wp_step. intros o [= <-]. bool_to_prop. by apply pass_skips. }
    bool_to_prop. wp_step. unfold insert_projection. do 2 wp_step. cbn [db].
    destruct (projection_taken _ _) eqn:Ht; [wp_step; done|]. wp_step.
    eapply wp_mono; [apply enqueue_intent_wp|]. cbn [db issued]. intros res w1 Hres o Ho. specialize (Hres o Ho).
    destruct (effect_operation (Types.operation r)) as [op|] eqn:Hop; [|by destruct (Types.operation r)].
    destruct Hres as (key & Hkey & -> & ->).
    by apply (pass_writes (db w) (issued w) None (newId (issued w)) r basis op key).
Qed.
End passes.

(** ** Properties of one pass *)

Section evidence.
Context `{Unicode} `{Digest} `{Temporal}.

Lemma hash_sha value h : sha256Canonical value = Ok h → hash value = Ok h.
Proof. unfold hash. by intros ->. Qed.

Lemma desired_provenance input r d :
  evaluatePolicy input = Ok r → desired_copy r = Some d →
  result_selection r = Selection.included ∧ (∃ h, result_fingerprint r = Some h ∧ hash (desired_json d) = Ok h) ∧
  provenance_policy d = policy_ref (Types.policy input) ∧
  provenance_projection d = nullish (projection_ref (projection input)) (candidate_projection_ref input) ∧
  provenance_generation d = nullish (Types.generation (projection input)) 1.
Proof.
  intros Hr Hd. destruct (desired_copy_transform _ _ _ Hr Hd)
    as (a & reasons & ws & m & f & op & code & Hv & _ & Ht & Hf & _ & _ & _ & Hf' & _).
  apply evaluatePolicy_Ok in Hr as (v & Hv' & Hr). rewrite Hv in Hv'. injection Hv' as <-. cbn [apply_verdict] in Hr.
  unfold transform in Ht. apply bind_Ok_inv in Ht as (t & _ & [= <- _]). split; [|split].
  - by apply project_Ok in Hr as [[_ ->]|[[_ ->]|(_ & ? & ? & ? & ? & ? & _ & _ & _ & ->)]].
  - exists f. split; [done|]. by apply hash_sha.
  - done.
Qed.

Lemma desired_copy_of input r :
  evaluatePolicy input = Ok r → (Types.operation r = Operation.create ∨ Types.operation r = Operation.update) →
  ∃ d, desired_copy r = Some d.
Proof.
  intros Hr Hop. destruct (evaluation_well_formed _ _ Hr) as (_ & _ & _ & Hd).
  destruct (desired_copy r) as [d|]; [by eexists|]. destruct Hd as (_ & _ & ? & ?). by destruct Hop.
Qed.

Lemma no_desired_copy input r :
  evaluatePolicy input = Ok r → desired_copy r = None → result_fingerprint r = None.
Proof.
  intros Hr Hd. destruct (evaluation_well_formed _ _ Hr) as (_ & _ & _ & Hx). rewrite Hd in Hx. apply Hx.
Qed.
End evidence.

Section pass_properties.
Context `{NewId} `{Unicode} `{Digest} `{Temporal}.
Context (organization : string) (policy : SyncPolicy) (capabilities : DestinationCapabilities).
Context (hoursProfile : option HoursProfile) (observationId observationHash : string) (tombstone : bool).
Context (recurrenceIdentity : string) (source : SourceObservation) (horizon : Horizon).

Local Notation input := (evaluation_input policy capabilities hoursProfile source horizon).
Local Notation existing := (existing_projection organization policy observationId recurrenceIdentity).
Local Notation step := (pass_step organization policy capabilities hoursProfile observationId observationHash tombstone
  recurrenceIdentity source horizon).

Lemma non_empty_hash value h : hash value = Ok h → is_empty (Some h) = false.
Proof using Type.
  unfold hash, sha256Canonical. destruct (canonicalizeJson value); cbn; [|done]. by intros [= <-].
Qed.

(** The evidence of the row a pass leaves is that of its result. *)
Lemma written_evidence now basis existing_row projectionId r op :
  evaluatePolicy (input projectionId ((projectionId,.) <$> existing_row) now) = Ok r →
  effect_operation (Types.operation r) = Some op →
  let row := written_projection organization policy observationId recurrenceIdentity now basis existing_row r in
  recovery_evidence (policy_ref policy) projectionId row op = Ok true ∧
  persisted_hash (projectionPersistenceForResult r existing_row) = Projection.desired_hash row ∧
  persisted_state (projectionPersistenceForResult r existing_row) = Projection.desired_state row ∧
  Projection.status row = "pending" ∧ Projection.source_basis_hash row = Some basis ∧
  Projection.policy_revision row = Types.revision policy ∧
  (existing_row = None → Projection.ownership row = Projection.attached).
Proof using Type.
  intros Hr Hop row.
  assert (Types.operation r ≠ Operation.none) as Hne by (by destruct (Types.operation r)).
  pose proof (guarded_write _ _ Hr Hne) as (_ & _ & _ & _ & Hguard).
  assert (result_selection r ≠ Selection.held) as Hheld.
  { destruct (Types.operation r); destruct Hguard as (? & ? & ?); congruence. }
  set (saved := projectionPersistenceForResult r existing_row).
  assert (persisted_hash saved = result_fingerprint r ∧ persisted_state saved = desired_copy r) as [Hh Hs].
  { unfold saved, projectionPersistenceForResult. cbn. rewrite bool_decide_eq_false_2 by done. cbn [andb].
    by destruct (result_fingerprint r), (desired_copy r). }
  assert (Projection.desired_hash row = persisted_hash saved ∧ Projection.desired_state row = persisted_state saved ∧
    Projection.status row = "pending" ∧ Projection.source_basis_hash row = Some basis ∧
    Projection.policy_revision row = Types.revision policy ∧
    (existing_row = None → Projection.ownership row = Projection.attached)) as (Erow & Srow & Hrest).
  { unfold row, written_projection. destruct existing_row as [p|]; cbn.
    - unfold status_after. rewrite !bool_decide_eq_false_2 by done. by split_and!.
    - rewrite !bool_decide_eq_false_2 by done. by split_and!. }
  split; [|by split_and!; [..|apply Hrest|apply Hrest|apply Hrest|apply Hrest]].
  unfold recovery_evidence. rewrite Erow, Srow, Hh, Hs.
  assert (op ≠ op_delete → ∃ d, desired_copy r = Some d) as Hd.
  { intros Hnd. apply (desired_copy_of _ _ Hr). destruct (Types.operation r); cbn in Hop; naive_solver. }
  destruct op.
  3: { destruct (Types.operation r); try done. destruct Hguard as (_ & _ & Hnone). rewrite Hnone.
       by rewrite (no_desired_copy _ _ Hr Hnone), !bool_decide_eq_true_2. }
  all: destruct Hd as [d Hd]; [done|]; rewrite Hd; destruct (desired_provenance _ _ _ Hr Hd)
    as (_ & (h & -> & Hhash) & Hp & Hj & Hg); rewrite (non_empty_hash _ _ Hhash); cbn [orb];
    unfold provenance_is; rewrite Hp, Hj, Hg; cbn [input evaluation_input Types.policy];
    rewrite String.eqb_refl; unfold row, written_projection; destruct existing_row as [p|]; cbn -[hash];
    rewrite String.eqb_refl, ?Z.eqb_refl; cbn -[hash]; rewrite Hhash; cbn; by rewrite bool_decide_eq_true_2.
Qed.

Context {R C : Type}.
Implicit Types w : Transaction.World Db R C.

Local Notation run := (reconcileObservation (R := R) (C := C) organization policy capabilities hoursProfile observationId
  observationHash tombstone recurrenceIdentity source horizon).

Lemma run_step now w o w' : run now w = (Ok o, w') → step now (db w) (issued w) o (db w').
Proof using Type. intros Hrun. by apply (wp_run _ _ _ _ _ (reconcileObservation_wp _ _ _ _ _ _ _ _ _ _ _ w) Hrun). Qed.

(** What allows a write of the operation, from the projection as it was. *)
Definition write_allowed (op : EffectOperation) (before : option (string * Projection.ProjectionRow)) : Prop :=
  Types.state policy = Types.active ∧ Types.writable capabilities = true ∧
  source_calendar_ref policy ≠ destination_calendar_ref policy ∧
  match op with
  | op_delete => ∃ id p, before = Some (id, p) ∧ Projection.ownership p = Projection.attached ∧ is_retired p = false
  | _ => lifecycle source = confirmed ∧ origin source = provider_original ∧
         source_event_ref source ∉ manual_exclusions (selection policy)
  end.


(** A copy that waits for a person or for a recovery, and a copy that was
    detached, are left as they are: a pass schedules nothing for them and does
    not change the event, the revision, the generation or the ownership they
    have; a held copy stays held. *)
Theorem held_copies_are_left now w o w' id p :
  run now w = (Ok o, w') → existing (db w) = Some (id, p) →
  held_back organization id p (db w) = true ∨ (Projection.ownership p = Projection.detached ∧ is_retired p = false) →
  created o = false ∧ outbox_effects (db w') = outbox_effects (db w) ∧
  ∃ p', projections (db w') = <[id := p']> (projections (db w)) ∧
    Projection.ownership p' = Projection.ownership p ∧
    Projection.destination_event p' = Projection.destination_event p ∧
    Projection.destination_etag p' = Projection.destination_etag p ∧
    Projection.generation p' = Projection.generation p ∧
    Projection.intent_sequence p' = Projection.intent_sequence p ∧
    (Projection.ownership p = Projection.ambiguous ∨ isDestinationEditHold p = true → Projection.status p' = "held").
Proof using Type.
  intros Hrun%run_step Hex Hleft. destruct Hrun as [r Hno|id' q r basis Hex' Hheld Hr Hbasis blocking|id' q r basis Hex' Hheld Hr Hbasis Hn|
    ex projectionId r basis op key Hex' Hcase Hr Hop Hbasis saved row Hkey taken eid].
  - congruence.
  - rewrite Hex in Hex'. injection Hex' as <- <-. split_and!; [done..|]. eexists. split_and!; [done..|].
    cbn. unfold held_status. intros [->|Hh]; [by rewrite bool_decide_eq_true_2|by rewrite Hh, orb_true_r].
  - rewrite Hex in Hex'. injection Hex' as <- <-. split_and!; [done..|]. eexists. split; [done|].
    cbn. rewrite Hn, bool_decide_eq_true_2, Z.add_0_r by done. split_and!; try done.
    unfold held_back in Hheld. apply orb_false_iff in Hheld as [Hheld He]. apply orb_false_iff in Hheld as [_ Ha].
    bool_to_prop. intros [?|?]; congruence.
  - subst ex. rewrite Hex in Hcase. destruct Hcase as [-> Hheld]. exfalso.
    destruct Hleft as [Hh|[Hd Hret]]; [congruence|].
    assert (Types.operation r ≠ Operation.none) as Hne by (by destruct (Types.operation r)).
    unfold evaluates in Hr. rewrite Hex in Hr. pose proof (guarded_write _ _ Hr Hne) as (_ & _ & _ & _ & Hguard).
    cbn in Hguard. unfold evaluated_ownership in Hguard. rewrite Hret, Hd in Hguard.
    by destruct (Types.operation r); destruct Hguard as [? _]; naive_solver.
Qed.

(** An evaluation with a copy, once the projection has the hash of that copy and
    an event, wants nothing. *)
Lemma evaluates_converged now id p r d h :
  evaluatePolicy (input id (Some (id, p)) now) = Ok r →
  result_selection r = Selection.included → Projection.ownership p ≠ Projection.detached →
  is_Some (Projection.destination_event p) →
  desired_copy r = Some d → hash (desired_json d) = Ok h → non_empty (Projection.desired_hash p) = Some h →
  Types.operation r = Operation.none ∧ result_fingerprint r = Some h.
Proof using Type.
  intros Hr Hsel Hown [ev Hev] Hd Hh Hrec. destruct (desired_copy_transform _ _ _ Hr Hd)
    as (a & reasons & ws & m & f & op & code & _ & Ho & _ & Hf & Hc & -> & _ & Hf' & _).
  assert (f = h) as -> by (apply hash_sha in Hf; congruence). split; [|done].
  unfold choose_operation in Hc. cbn in Hc, Ho. rewrite Hev in Hc. cbn in Hc.
  assert (is_retired p = false) as Hret.
  { unfold is_retired. rewrite Hev, bool_decide_eq_false_2 by done. by rewrite andb_false_r. }
  unfold evaluated_ownership in Hc. rewrite Hret in Hc.
  destruct (Projection.ownership p); [|done|]; cbn in Hc; rewrite Hrec, String.eqb_refl in Hc; by injection Hc as <- _.
Qed.

Lemma verdict_of_Refused i sel code : verdict_of i = Ok (Refused sel code) → sel ≠ Selection.included.
Proof using Type.
  unfold verdict_of, policy_refusal, timing_verdict. intros Hv ->.
  destruct (validate i); [done|]. destruct (Types.state (Types.policy i)); try done.
  destruct (source_exclusion i) as [[]|]; [done|]. destruct (timing (Types.source i)); [|done].
  repeat (apply bind_Ok_inv in Hv as (? & _ & Hv) || destruct (negb _) || case_match); done.
Qed.

Lemma selected_availability i a reasons ws :
  verdict_of i = Ok (Selected a reasons ws) →
  ∃ codes ws', select_free i (nullish (effective (effectiveAvailability i)) busy) = inr (a, codes, ws').
Proof using Type.
  intros (_ & _ & _ & t & _ & Hv)%verdict_Selected. unfold timing_verdict in Hv.
  apply bind_Ok_inv in Hv as (iv & _ & Hv). apply bind_Ok_inv in Hv as (b & _ & Hv).
  destruct (negb b); [done|]. destruct (select_timing _ _ _); [done|].
  destruct (select_free _ _) as [|[[a' codes] ws']]; [done|].
  apply bind_Ok_inv in Hv as (hrs & _ & Hv). destruct hrs; [done|]. injection Hv as <- _ _. by eexists _, _.
Qed.

(** What [desired_of] reads of the input: not the time, not the status. *)
Lemma desired_copy_same i1 i2 r1 r2 d1 :
  evaluatePolicy i1 = Ok r1 → evaluatePolicy i2 = Ok r2 → desired_copy r1 = Some d1 →
  result_selection r2 = Selection.included → Types.ownership (projection i2) ≠ Types.detached →
  Types.policy i1 = Types.policy i2 → Types.source i1 = Types.source i2 →
  nullish (projection_ref (projection i1)) (candidate_projection_ref i1) =
    nullish (projection_ref (projection i2)) (candidate_projection_ref i2) →
  nullish (Types.generation (projection i1)) 1 = nullish (Types.generation (projection i2)) 1 →
  desired_copy r2 = Some d1.
Proof using Type.
  intros Hr1 Hr2 Hd Hsel Hown Hpol Hsrc Hpid Hgen.
  destruct (desired_copy_transform _ _ _ Hr1 Hd) as (a & ? & ? & m & ? & ? & ? & Hv & _ & Ht & _).
  apply evaluatePolicy_Ok in Hr2 as (v & Hv2 & Hr2). destruct v as [sel code|code removed|a2 reasons2 ws2];
    cbn [apply_verdict] in Hr2.
  - injection Hr2 as <-. cbn in Hsel. subst sel. apply verdict_of_Refused in Hv2. done.
  - injection Hr2 as <-. unfold excluded in Hsel. by destruct (Types.ownership (projection i2)).
  - apply project_Ok in Hr2 as [[? _]|[[_ ->]|(_ & d & m2 & f & op & code & Ht2 & _ & _ & ->)]]; [done|done|].
    assert (a2 = a) as ->.
    { apply selected_availability in Hv as (c1 & w1 & Hf1). apply selected_availability in Hv2 as (c2 & w2 & Hf2).
      unfold select_free, effectiveAvailability in Hf1, Hf2. rewrite Hpol, Hsrc in Hf1. congruence. }
    unfold transform in Ht, Ht2. rewrite Hsrc in Ht. apply bind_Ok_inv in Ht as (t & Ht & Hd1).
    rewrite Ht in Ht2. injection Hd1 as <- _. injection Ht2 as <- _. cbn [desired_copy]. unfold desired_of.
    by rewrite Hpol, Hsrc, Hpid, Hgen.
Qed.
(** A pass that wants nothing returns. *)
Lemma settling_returns now w id p r basis :
  existing (db w) = Some (id, p) → held_back organization id p (db w) = false →
  evaluatePolicy (input id (Some (id, p)) now) = Ok r → Types.operation r = Operation.none →
  sourceObservationBasisHash observationHash tombstone = Ok basis →
  run now w = (Ok {| created := false; decision := decision_text r |},
    {| db := put_projection id (passed_projection policy now basis r p) (db w); remote := remote w; calls := calls w;
       issued := issued w |}).
Proof using Type.
  intros Hex Hheld Hr%evaluate_Ok Hn Hbasis. destruct (existing_lookup _ _ _ _ _ _ _ Hex) as [Hp _].
  unfold existing_projection in Hex. unfold held_back in Hheld. unfold reconcileObservation, set_projection, enqueue_intent.
  cbv [mbind M_bind mret M_ret lift read_db fresh_id write_db]. rewrite Hbasis, Hex, Hr, Hheld, Hn, Hp. cbn.
  unfold passed_projection, projectionPersistenceForResult. rewrite Hn. cbn.
  by rewrite bool_decide_eq_true_2, !Z.add_0_r by done.
Qed.

(** C14. Reconciliation and execution converge: once the executor has carried out
    the effect that a pass has scheduled, another pass over the same source, at
    any time at which the policy decides alike, schedules nothing and leaves
    the copy converged with the same content, or deleted. *)
Theorem reconciliation_converges now w o w' effectId e p event revision time now2 w2 r2 :
  run now w = (Ok o, w') →
  outbox_effects (db w) !! effectId = None → outbox_effects (db w') !! effectId = Some e →
  projections (db w') !! Effect.projection e = Some p →
  let id := Effect.projection e in
  let p2 := converge (Effect.operation e) (Some event) (Some revision) time p in
  existing (db w2) = Some (id, p2) → blocking_effect organization id (db w2) = None →
  evaluatePolicy (input id (Some (id, p2)) now2) = Ok r2 →
  result_selection r2 = match Effect.operation e with op_delete => Selection.excluded | _ => Selection.included end →
  ∃ o2 w2' p3, run now2 w2 = (Ok o2, w2') ∧ created o2 = false ∧
    outbox_effects (db w2') = outbox_effects (db w2) ∧
    projections (db w2') = <[id := p3]> (projections (db w2)) ∧
    Projection.destination_event p3 = Projection.destination_event p2 ∧
    match Effect.operation e with
    | op_delete => Projection.status p3 = "deleted" ∧ Projection.destination_event p3 = None
    | _ => Projection.status p3 = "converged" ∧ Projection.destination_event p3 = Some event ∧
           Projection.desired_state p3 = Effect.desired_state e ∧ Projection.desired_hash p3 = Projection.desired_hash p
    end.
Proof using Type.
  intros Hrun%run_step Hnew He Hp id p2 Hex2 Hblock Hr2 Hsel.
  destruct Hrun as [| | |ex projectionId r basis op key Hex Hcase Hr Hop Hbasis saved row Hkey taken eid];
    try (cbn in He; congruence).
  subst ex. assert (e = intent_row organization policy now projectionId basis key r op saved) as ->.
  { destruct taken; cbn in He; [congruence|]. apply lookup_insert_Some in He as [[_ <-]|[_ He]]; [done|congruence]. }
  assert (p = row) as ->.
  { cbn in Hp. destruct taken; cbn in Hp; rewrite lookup_insert_eq in Hp; congruence. }
  assert (existing (db w) = (projectionId,.) <$> (snd <$> existing (db w))) as Hpair.
  { destruct (existing (db w)) as [[i q]|]; [|done]. by destruct Hcase as [-> _]. }
  unfold evaluates in Hr. rewrite Hpair in Hr.
  destruct (written_evidence now basis (snd <$> existing (db w)) projectionId r op Hr Hop)
    as (Hev & Hh & Hs & _ & _ & _ & Hown). fold row in Hev, Hh, Hs, Hown. fold saved in Hh, Hs.
  cbn [Effect.projection intent_row new_effect Effect.operation Effect.desired_state] in *. subst id.
  assert (Projection.ownership row ≠ Projection.ambiguous ∧
    nullish (Types.generation (projection (input projectionId ((projectionId,.) <$> (snd <$> existing (db w))) now))) 1 =
      Projection.generation row) as [Hamb Hgen].
  { unfold row. destruct (existing (db w)) as [[i q]|]; cbn in *; [|by rewrite Hown].
    destruct Hcase as [_ Hheld]. unfold held_back in Hheld. apply orb_false_iff in Hheld as [Hheld _].
    apply orb_false_iff in Hheld as [_ Ha]. by bool_to_prop. }
  assert (held_back organization projectionId p2 (db w2) = false) as Hheld2.
  { unfold held_back. rewrite Hblock. unfold isDestinationEditHold, p2. by destruct op; cbn; case_bool_decide. }
  assert (Types.operation r2 = Operation.none ∧ status_after p2 r2 = (match op with op_delete => "deleted" | _ => "converged" end)
    ∧ (op ≠ op_delete → desired_copy r2 = Projection.desired_state row ∧ result_fingerprint r2 = Projection.desired_hash row))
    as (Hnone & Hstatus & Hkeep).
  { destruct (decide (op = op_delete)) as [->|Hnd].
    - assert (Types.operation r2 = Operation.none) as Hn.
      { destruct (decide (Types.operation r2 = Operation.none)) as [|Hne]; [done|]. exfalso.
        pose proof (guarded_write _ _ Hr2 Hne) as (_ & _ & _ & _ & Hg). rewrite Hsel in Hg.
        destruct (Types.operation r2); [by destruct Hg as (_ & ? & _)..| |done]. by destruct Hg as [? _]. }
      split_and!; [done| |done]. unfold status_after. by rewrite Hn, Hsel, bool_decide_eq_true_2, bool_decide_eq_false_2.
    - assert (∃ d h, Projection.desired_state row = Some d ∧ desired_copy r = Some d ∧
        Projection.desired_hash row = Some h ∧ hash (desired_json d) = Ok h) as (d & h & Hds & Hdr & Hdh & Hhash).
      { destruct (desired_copy_of _ _ Hr) as [d Hd]; [destruct (Types.operation r); cbn in Hop; naive_solver|].
        destruct (desired_provenance _ _ _ Hr Hd) as (_ & (h & Hf & Hhash) & _). exists d, h.
        unfold saved, projectionPersistenceForResult in Hs, Hh. cbn in Hs, Hh. rewrite Hd in Hs. rewrite Hf in Hh. done. }
      assert (Projection.ownership p2 = Projection.attached ∧ Projection.destination_event p2 = Some event ∧
        Projection.desired_hash p2 = Some h ∧ Projection.generation p2 = Projection.generation row) as (Ho2 & He2 & Hh2 & Hg2)
        by (unfold p2; by destruct op).
      assert (result_selection r2 = Selection.included) as Hinc by (by destruct op).
      assert (desired_copy r2 = Some d) as Hd2.
      { apply (desired_copy_same _ _ _ _ _ Hr Hr2 Hdr Hinc); try done.
        - cbn. unfold evaluated_ownership. rewrite Ho2. by destruct (is_retired p2).
        - by destruct (snd <$> existing (db w)).
        - rewrite Hgen. exact (eq_sym Hg2). }
      destruct (evaluates_converged now2 projectionId p2 r2 d h Hr2 Hinc) as [Hn Hfp]; [by rewrite Ho2|by rewrite He2|done|done| |].
      { rewrite Hh2. unfold non_empty, truthy. apply non_empty_hash in Hhash. by destruct h. }
      split_and!; [done| |by rewrite Hd2, Hds, Hfp, Hdh]. unfold status_after, is_retired.
      rewrite Hn, Hinc, He2, bool_decide_eq_true_2, !bool_decide_eq_false_2 by done. rewrite andb_false_r. by destruct op. }
  eexists _, _, _. split; [apply (settling_returns now2 w2 projectionId p2 r2 basis); done|]. cbn [created db].
  split_and!; [done..|]. clearbody saved row. cbn. rewrite Hstatus. destruct op; [| |by split].
  all: destruct (Hkeep ltac:(done)) as [-> ->]; rewrite Hs, Hsel; split_and!; try done;
    by destruct (Projection.desired_hash row), (Projection.desired_state row).
Qed.
(** A change of the source can be lost: when the evidence of a copy has been
    erased, by a pass that wanted the copy deleted or could not evaluate the
    policy, a later pass over a source that is included again schedules no
    write, whatever its content and whatever the destination holds, and records
    the copy as converged with the new content. *)
Theorem erased_evidence_hides_change now w id p r d basis :
  existing (db w) = Some (id, p) → held_back organization id p (db w) = false →
  Projection.ownership p = Projection.attached → is_Some (Projection.destination_event p) →
  Projection.desired_hash p = None →
  evaluatePolicy (input id (Some (id, p)) now) = Ok r → desired_copy r = Some d →
  sourceObservationBasisHash observationHash tombstone = Ok basis →
  ∃ o w' p', run now w = (Ok o, w') ∧ created o = false ∧ outbox_effects (db w') = outbox_effects (db w) ∧
    projections (db w') = <[id := p']> (projections (db w)) ∧
    Projection.status p' = "converged" ∧ Projection.desired_state p' = Some d ∧
    Projection.destination_event p' = Projection.destination_event p ∧
    Projection.destination_etag p' = Projection.destination_etag p.
Proof using Type.
  intros Hex Hheld Hown [ev Hev] Hhash Hr Hd Hbasis.
  destruct (desired_copy_transform _ _ _ Hr Hd) as (a & reasons & ws & m & f & op & code & _ & _ & _ & _ & Hc & Hop & _).
  assert (is_retired p = false) as Hret.
  { unfold is_retired. by rewrite Hev, bool_decide_eq_false_2, andb_false_r by done. }
  assert (op = Operation.none) as ->.
  { unfold choose_operation in Hc. cbn in Hc. unfold evaluated_ownership in Hc. rewrite Hret, Hown, Hev, Hhash in Hc.
    cbn in Hc. by injection Hc as <- _. }
  destruct (desired_provenance _ _ _ Hr Hd) as (Hsel & _).
  eexists _, _, _. split; [by apply (settling_returns now w id p r basis)|]. cbn [created db].
  split; [done|]. split; [done|]. split; [reflexivity|]. cbn. unfold status_after. rewrite Hd, Hop, Hsel, Hret.
  by split_and!.
Qed.
End pass_properties.

(** ** Properties of a pass over a calendar *)

(** The decisions that were counted. *)
Definition counted (s : Summary) : Z := map_fold (λ _ x total, x + total) 0 (counts s).

Lemma map_fold_sum_delete k x (m : gmap string Z) :
  m !! k = Some x → map_fold (λ _ x total, x + total) 0 m = x + map_fold (λ _ x total, x + total) 0 (delete k m).
Proof. apply (map_fold_delete_L (λ (_ : string) (x total : Z), x + total) 0). intros. lia. Qed.

Lemma counted_count o s : counted (count_decision o s) = counted s + 1.
Proof.
  unfold counted. cbn [counts count_decision]. set (k := decision o). set (m := counts s).
  rewrite (map_fold_sum_delete k (nullish (m !! k) 0 + 1)) by apply lookup_insert_eq.
  rewrite delete_insert_eq. destruct (m !! k) as [x|] eqn:Hk; cbn [nullish].
  - rewrite (map_fold_sum_delete k x m Hk). lia.
  - rewrite delete_id by done. lia.
Qed.

Definition calendar_rows (organization calendar : string) (d : Db) : list (string * Observation.ObservationRow) :=
  sort_by (λ left right, text_leb left.1 right.1)
    (List.filter (λ '(_, o), bool_decide (Observation.organization o = organization)
                             && bool_decide (Observation.calendar o = calendar)) (map_to_list (source_observations d))).

Lemma calendar_rows_sorted organization calendar d :
  StronglySorted (λ x y, (x.1 <? y.1)%string = true) (calendar_rows organization calendar d).
Proof.
  assert (NoDup (calendar_rows organization calendar d).*1) as Hnd.
  { unfold calendar_rows. rewrite sort_by_perm. apply NoDup_fst_filter, NoDup_fst_map_to_list. }
  assert (StronglySorted (λ x y, text_leb x.1 y.1 = true) (calendar_rows organization calendar d)) as Hs.
  { apply sort_by_sorted; [intros; apply text_leb_total|intros x y z; apply text_leb_trans]. }
  induction Hs as [|x xs Hs IH Hx]; [constructor|]. rewrite fmap_cons in Hnd. apply NoDup_cons in Hnd as [Hin Hnd].
  constructor; [by apply IH|]. rewrite Forall_forall in Hx |- *. intros y Hy. specialize (Hx y Hy).
  destruct (ltb_total x.1 y.1) as [?|[Heq|Hlt]]; [done| |].
  - destruct Hin. rewrite Heq. by apply list_elem_of_fmap_2.
  - unfold text_leb in Hx. by rewrite Hlt in Hx.
Qed.

Lemma observation_page_rows organization calendar afterId d :
  observation_page organization calendar afterId d =
  take PAGE (match afterId with
             | Some after => List.filter (λ x, (after <? x.1)%string) (calendar_rows organization calendar d)
             | None => calendar_rows organization calendar d
             end).
Proof.
  unfold observation_page, calendar_rows. f_equal. destruct afterId as [after|].
  - rewrite <- sort_by_filter; [|intros; apply text_leb_total|intros x y z; apply text_leb_trans]. f_equal.
    induction (map_to_list _) as [|[id o] rows IH]; [done|]. cbn.
    destruct (_ && bool_decide (Observation.calendar o = calendar)); cbn; [|done].
    destruct (after <? id)%string; cbn; by rewrite IH.
  - f_equal. induction (map_to_list _) as [|[id o] rows IH]; [done|]. cbn. rewrite IH. by rewrite andb_true_r.
Qed.

Section whole_pass.
Context {R C : Type} `{NewId} `{Unicode} `{Digest} `{Temporal}.
Context (organization calendar : string) (pass : Pass) (interfere : nat → Db → Db) (clock : nat → Z).
Context (undisturbed : ∀ n d, source_observations (interfere n d) = source_observations d).
Implicit Types w : Transaction.World Db R C.

Lemma pass_step_observations pol caps hours id hash tomb rec src hor now d n o d' :
  pass_step organization pol caps hours id hash tomb rec src hor now d n o d' →
  source_observations d' = source_observations d.
Proof using Type. intros Hstep. destruct Hstep; try done. by destruct taken. Qed.

Lemma reconcile_row_wp id o now w :
  wp (reconcile_row organization pass id o now) w (λ res w', source_observations (db w') = source_observations (db w)).
Proof using Type.
  unfold reconcile_row. wp_step. eapply wp_mono; [apply reconcileObservation_wp|]. cbn beta. intros [out|e] w' Hstep; [|done].
  by eapply pass_step_observations, Hstep.
Qed.

(** What a run over rows adds to the summary. *)
Definition rows_added (n : nat) (s : Summary) (k : nat) (out : nat * Summary) : Prop :=
  out.1 = (n + k)%nat ∧ evaluated out.2 = evaluated s ∧ counted out.2 = counted s + Z.of_nat k ∧
  effectsCreated s <= effectsCreated out.2 <= effectsCreated s + Z.of_nat k.

Lemma reconcile_rows_wp rows : ∀ n s w,
  wp (reconcile_rows organization pass interfere clock n rows s) w (λ res w',
    source_observations (db w') = source_observations (db w) ∧
    ∀ out, res = Ok out → rows_added n s (length rows) out).
Proof using undisturbed.
  induction rows as [|[id o] rows IH]; intros n s w; cbn [reconcile_rows].
  { wp_step. split; [done|]. intros out [= <-]. unfold rows_added. cbn. lia. }
  do 3 wp_step. eapply wp_mono; [apply reconcile_row_wp|]. cbn [db]. intros [out|e] w1 Hobs.
  2: { split; [by rewrite Hobs, undisturbed|done]. }
  eapply wp_mono; [apply IH|]. cbn beta. intros res w2 [Hobs2 Hout].
  split; [by rewrite Hobs2, Hobs, undisturbed|]. intros out2 Hres. destruct (Hout out2 Hres) as (Hn & He & Hc & Hf).
  unfold rows_added. rewrite counted_count in Hc. cbn [evaluated effectsCreated count_decision length] in *.
  destruct (created out); lia.
Qed.

Lemma reconcile_pages_wp fuel : ∀ n left right w s,
  calendar_rows organization calendar (db w) = left ++ right →
  (length right / PAGE < fuel)%nat →
  wp (reconcile_pages fuel organization calendar pass interfere clock n (last left ≫= λ x, Some x.1) s) w (λ res w',
    ∀ out, res = Ok out → ∃ n' s', out = Some (n', s') ∧
      evaluated s' = evaluated s + Z.of_nat (length right) ∧ counted s' = counted s + Z.of_nat (length right) ∧
      effectsCreated s <= effectsCreated s' <= effectsCreated s + Z.of_nat (length right)).
Proof using undisturbed.
  induction fuel as [|fuel IH]; intros n left right w s Hrows Hfuel; [lia|]. cbn [reconcile_pages].
  do 3 wp_step. do 2 wp_step. cbn [db]. set (d1 := interfere n (db w)).
  assert (calendar_rows organization calendar d1 = left ++ right) as Hrows1.
  { unfold calendar_rows, d1. rewrite undisturbed. exact Hrows. }
  assert (observation_page organization calendar (last left ≫= λ x, Some x.1) d1 = take PAGE right) as Hpage.
  { rewrite observation_page_rows, Hrows1. f_equal. destruct (last left) as [[k o]|] eqn:Hlast; cbn [mbind option_bind].
    - apply filter_after; [|by rewrite Hlast]. rewrite <- Hrows1. apply calendar_rows_sorted.
    - by apply last_None in Hlast as ->. }
  rewrite Hpage. eapply wp_mono; [apply reconcile_rows_wp|]. cbn [db]. intros [[n1 s1]|e] w1 [Hobs Hout]; [|done].
  specialize (Hout _ eq_refl). destruct Hout as (_ & He & Hc & Hf). cbn [fst snd] in *. rewrite length_take in *.
  destruct (PAGE `min` length right <? PAGE)%nat eqn:Hlt.
  { apply Nat.ltb_lt in Hlt. wp_step. intros out [= <-]. exists n1, (add_evaluated (PAGE `min` length right) s1).
    split; [done|]. unfold add_evaluated, counted in *. cbn [evaluated effectsCreated counts]. lia. }
  apply Nat.ltb_ge in Hlt. assert (PAGE <= length right)%nat as Hlen by lia.
  assert (PAGE ≠ 0)%nat as HPAGE by done.
  assert (last (take PAGE right) = last (left ++ take PAGE right)) as Hlast.
  { rewrite last_app. destruct (last (take PAGE right)) eqn:E; [done|]. apply last_None in E.
    assert (length (take PAGE right) = 0%nat) as E0 by by rewrite E. rewrite length_take in E0. lia. }
  rewrite Hlast. eapply wp_mono; [apply (IH n1 (left ++ take PAGE right) (drop PAGE right))|].
  - unfold calendar_rows. rewrite Hobs. fold (calendar_rows organization calendar d1).
    rewrite Hrows1, <- app_assoc, take_drop. done.
  - rewrite length_drop.
    assert (length right = (length right - PAGE) + 1 * PAGE)%nat as E by lia.
    rewrite E, Nat.div_add in Hfuel by done. lia.
  - cbn beta. intros res w2 Hres out Hok. destruct (Hres out Hok) as (n' & s' & -> & He' & Hc' & Hf').
    exists n', s'. split; [done|]. unfold add_evaluated, counted in *. cbn [evaluated effectsCreated counts] in *.
    rewrite length_drop in *. lia.
Qed.
End whole_pass.

Section reconciler_properties.
Context {R C : Type} `{NewId} `{Unicode} `{Digest} `{Temporal}.
Implicit Types w : Transaction.World Db R C.

(** A pass of an active, authorised policy ends and considers every
    observation of its calendar exactly once, however many pages they fill and
    whatever other transactions do to other tables: the fuel of one page more
    than the calendar fills is enough, the decisions add up to the observations
    evaluated, and no more effects are created than observations evaluated. *)
Theorem reconcile_covers_calendar fuel interfere clock organization policyId w out w' j :
  (∀ n d, source_observations (interfere n d) = source_observations d) →
  load_join organization policyId (db w) = Some j → Policy.status (join_policy j) = Policy.active →
  join_authorizes j = true →
  let total := length (calendar_rows organization (Policy.source_calendar (join_policy j)) (db w)) in
  (total / PAGE < fuel)%nat →
  reconcile fuel interfere clock organization policyId w = (Ok out, w') →
  ∃ s, out = Some s ∧ evaluated s = Z.of_nat total ∧ counted s = Z.of_nat total ∧
    0 <= effectsCreated s <= Z.of_nat total.
Proof.
  intros Hquiet Hj Hactive Hauth total Hfuel Hrun.
  assert (wp (reconcile fuel interfere clock organization policyId) w (λ res _, ∀ out, res = Ok out →
    ∃ s, out = Some s ∧ evaluated s = Z.of_nat total ∧ counted s = Z.of_nat total ∧
      0 <= effectsCreated s <= Z.of_nat total)) as Hwp; [|by apply (wp_run _ _ _ _ _ Hwp Hrun)].
  unfold reconcile. do 2 wp_step. rewrite Hj, Hactive, Hauth. cbn [negb]. do 3 wp_step.
  eapply wp_mono; [apply (reconcile_pages_wp _ _ _ interfere clock Hquiet fuel 1 []
    (calendar_rows organization (Policy.source_calendar (join_policy j)) (db w)) w); [done|exact Hfuel]|].
  cbn beta. intros [out1|e] w1 Hout; [|done]. destruct (Hout out1 eq_refl) as (n' & s' & -> & He & Hc & Hf).
  repeat wp_step. intros out2 [= <-]. exists s'. split; [done|].
  change (counted {| evaluated := 0; effectsCreated := 0; counts := ∅ |}) with 0 in Hc. cbn [evaluated effectsCreated] in *.
  subst total. lia.
Qed.

(** A policy that is gone, deleted or paused leaves everything as it is; one
    whose connections lost their roles is only marked. *)
Lemma frozen_policies fuel interfere clock organization policyId w :
  (∀ j, load_join organization policyId (db w) = Some j →
     Policy.status (join_policy j) ≠ Policy.active ∨ join_authorizes j = false) →
  ∃ s, (reconcile fuel interfere clock organization policyId w).1 = Ok (Some s) ∧ evaluated s = 0 ∧ effectsCreated s = 0 ∧
    let d' := db (reconcile fuel interfere clock organization policyId w).2 in
    projections d' = projections (db w) ∧ outbox_effects d' = outbox_effects (db w) ∧
    source_observations d' = source_observations (db w).
Proof.
  intros Hno. unfold reconcile. rewrite bind_run. cbn [read_db]. destruct (load_join _ _ _) as [j|]; [|by eexists].
  destruct (Policy.status (join_policy j)) eqn:Hs; [|by eexists..].
  destruct (Hno j eq_refl) as [?|Ha]; [done|]. rewrite Ha. cbn. by eexists.
Qed.
End reconciler_properties.

(** ** Examples *)

Module Samples.
#[local] Existing Instance Effects.sample_ids.

Definition compiled : SyncPolicy := compilePolicyDraft sample_draft "policy" 1 Types.active None.
Definition all_capable : DestinationCapabilities := destinationCapabilities (JObject []) true.
Definition october : Z := 1792000000000.

(** The policy, its calendars and one observation. *)
Definition before (observed : SourceObservation) (known : gmap string Projection.ProjectionRow) : Db :=
  {| sync_policies := {[ "policy" := sample_policy Policy.active ]};
     calendar_endpoints := {[ "home" := sample_endpoint "c1"; "work" := sample_endpoint "c2" ]};
     provider_connections := {[ "c1" := sample_connection "source"; "c2" := sample_connection "destination" ]};
     hours_profiles := ∅; source_observations := {[ "source" := sample_observation ]}; sync_cursors := ∅;
     projections := known; outbox_effects := ∅; sync_notices := ∅; conflict_rules := ∅; policy_previews := ∅; audit_facts := [];
     scheduled_jobs := ∅ |}.

Definition world (d : Db) : Transaction.World Db () () := {| db := d; remote := tt; calls := []; issued := 0 |}.

Definition pass_over (observed : SourceObservation) (hash : string) (now : Z) (w : Transaction.World Db () ()) :=
  reconcileObservation "o" compiled all_capable None "source" hash false "" observed
    {| past_days := 30; future_days := 365 |} now w.

Definition first_pass := pass_over sample_source "observed" october (world (before sample_source ∅)).

Definition first_effect : Effect.EffectRow :=
  match outbox_effects (db first_pass.2) !! "new-1" with Some e => e | None => sample_effect_row op_delete true end.
Definition first_projection : Projection.ProjectionRow :=
  match projections (db first_pass.2) !! "new-0" with Some p => p | None => sample_projection None end.

Example first_pass_creates :
  first_pass.1 = Ok {| created := true; decision := "included:create:create_missing_copy" |} ∧
  Effect.operation first_effect = op_create ∧ Projection.status first_projection = "pending" ∧
  Effect.desired_state first_effect = Projection.desired_state first_projection.
Proof. vm_compute. split_and!; reflexivity. Qed.


(** A copy held for a person's decision. *)
Definition held_projection : Projection.ProjectionRow :=
  mark_projection "held" None "destination_edit_held" 5 (sample_projection (Some "copy")).

Definition held_pass := pass_over sample_source "changed" october
  (world (before sample_source {[ sample_uuid := held_projection ]})).

Lemma held_copies_are_left_witness :
  held_pass.1 = Ok {| created := false; decision := "held:none:recovery_shadow_refreshed" |} ∧
  ∃ p', projections (db held_pass.2) !! sample_uuid = Some p' ∧ Projection.destination_event p' = Some "copy" ∧
    Projection.status p' = "held".
Proof.
  assert (held_pass = (Ok {| created := false; decision := "held:none:recovery_shadow_refreshed" |}, held_pass.2)) as Hrun
    by (vm_compute; reflexivity).
  split; [rewrite Hrun; reflexivity|].
  destruct (held_copies_are_left "o" compiled all_capable None "source" "changed" false "" sample_source
    {| past_days := 30; future_days := 365 |} october _ _ _ sample_uuid held_projection Hrun)
    as (_ & _ & p' & Hp & _ & Hev & _ & _ & _ & Hheld).
  - vm_compute. reflexivity.
  - left. vm_compute. reflexivity.
  - exists p'. split; [rewrite Hp; apply lookup_insert_eq|]. split; [exact Hev|]. apply Hheld. right. vm_compute. reflexivity.
Defined.

(** A source with another title, hidden by the policy. *)
Definition retitled : SourceObservation :=
  {| source_event_ref := "event"; source_occurrence_ref := ""; remote_revision := "2"; lifecycle := confirmed;
     origin := provider_original; timing := timing sample_source; recurrence := None; availability := Some busy;
     relationship := relationship sample_source; destination_identity_invited := false;
     content := {| summary := Some "Surgeon"; description := Some "urgent"; location := None; conference := None |};
     attendees := Some ["someone@example.org"]; organizer := None; attachments := None; source_url := None;
     provider_metadata := None |}.


(** The executor has created the event. *)
Definition carried_out : Projection.ProjectionRow :=
  converge (Effect.operation first_effect) (Some "copy") (Some "7") (october + 1000) first_projection.
Definition after_execution : Transaction.World Db () () :=
  world (before sample_source {[ "new-0" := carried_out ]}).
Definition second_pass := pass_over sample_source "observed" (october + 60000) after_execution.
Definition second_input : PolicyEvaluationInput :=
  evaluation_input compiled all_capable None sample_source {| past_days := 30; future_days := 365 |}
    (Effect.projection first_effect) (Some (Effect.projection first_effect, carried_out)) (october + 60000).
Definition no_result : PolicyEvaluationResult := result Selection.invalid Operation.none Reason.no_change [] [].
Definition second_result : PolicyEvaluationResult := value (evaluate second_input) no_result.

Lemma second_result_Ok : evaluatePolicy second_input = Ok second_result.
Proof. vm_compute. reflexivity. Qed.

Lemma reconciliation_converges_witness :
  second_pass.1 = Ok {| created := false; decision := "included:none:no_change" |} ∧
  ∃ p3, projections (db second_pass.2) = <[Effect.projection first_effect := p3]> (projections (db after_execution)) ∧
    Projection.destination_event p3 = Projection.destination_event carried_out.
Proof.
  split; [vm_compute; reflexivity|].
  assert (first_pass = (Ok {| created := true; decision := "included:create:create_missing_copy" |}, first_pass.2)) as Hrun
    by (vm_compute; reflexivity).
  assert (outbox_effects (db first_pass.2) !! "new-1" = Some first_effect) as He by (vm_compute; reflexivity).
  assert (projections (db first_pass.2) !! Effect.projection first_effect = Some first_projection) as Hp
    by (vm_compute; reflexivity).
  assert (existing_projection "o" compiled "source" "" (db after_execution) = Some (Effect.projection first_effect, carried_out))
    as Hex by (vm_compute; reflexivity).
  assert (blocking_effect "o" (Effect.projection first_effect) (db after_execution) = None) as Hblock
    by (vm_compute; reflexivity).
  assert (result_selection second_result =
    match Effect.operation first_effect with op_delete => Selection.excluded | _ => Selection.included end) as Hsel
    by (vm_compute; reflexivity).
  destruct (reconciliation_converges "o" compiled all_capable None "source" "observed" false "" sample_source
    {| past_days := 30; future_days := 365 |} october (world (before sample_source ∅)) _ first_pass.2 "new-1" first_effect
    first_projection "copy" "7" (october + 1000) (october + 60000) after_execution second_result Hrun eq_refl He Hp Hex Hblock
    second_result_Ok Hsel) as (o2 & w2' & p3 & Hrun2 & _ & _ & Hp3 & Hev & _).
  exists p3. change (pass_over sample_source "observed" (october + 60000) after_execution = (Ok o2, w2')) in Hrun2.
  unfold second_pass. rewrite Hrun2. split; [exact Hp3|exact Hev].
Defined.

(** The copy that is to be deleted; before that the source is back, with
    another time. *)
Definition rescheduled : SourceObservation :=
  {| source_event_ref := "event"; source_occurrence_ref := ""; remote_revision := "3"; lifecycle := confirmed;
     origin := provider_original; timing := Some (timed "2026-10-26T10:00:00Z" "2026-10-26T11:00:00Z" "UTC" "UTC");
     recurrence := None; availability := Some busy; relationship := relationship sample_source;
     destination_identity_invited := false; content := content sample_source; attendees := None; organizer := None;
     attachments := None; source_url := None; provider_metadata := None |}.

Definition removed_pass := pass_over (with_lifecycle cancelled sample_source) "cancelled" (october + 120000)
  (world (before sample_source {[ "new-0" := carried_out ]})).
Definition removed_projection : Projection.ProjectionRow :=
  match projections (db removed_pass.2) !! "new-0" with Some p => p | None => carried_out end.
Definition restored_pass := pass_over rescheduled "rescheduled" (october + 180000) removed_pass.2.

Definition restored_input : PolicyEvaluationInput :=
  evaluation_input compiled all_capable None rescheduled {| past_days := 30; future_days := 365 |}
    "new-0" (Some ("new-0", removed_projection)) (october + 180000).
Definition restored_result : PolicyEvaluationResult := value (evaluate restored_input) no_result.
Definition restored_copy : DesiredCopy :=
  match desired_copy restored_result with Some d => d | None => sample_desired 1 end.

Lemma restored_result_Ok : evaluatePolicy restored_input = Ok restored_result.
Proof. vm_compute. reflexivity. Qed.

Lemma erased_evidence_hides_change_witness :
  removed_pass.1 = Ok {| created := true; decision := "excluded:delete:delete_source_removed" |} ∧
  restored_pass.1 = Ok {| created := false; decision := "included:none:no_change" |} ∧
  Some (desired_timing restored_copy) = timing rescheduled ∧
  ∃ p', projections (db restored_pass.2) = <["new-0" := p']> (projections (db removed_pass.2)) ∧
    Projection.status p' = "converged" ∧ Projection.desired_state p' = Some restored_copy ∧
    Projection.destination_event p' = Projection.destination_event removed_projection.
Proof.
  split; [vm_compute; reflexivity|]. split; [vm_compute; reflexivity|]. split; [vm_compute; reflexivity|].
  assert (existing_projection "o" compiled "source" "" (db removed_pass.2) = Some ("new-0", removed_projection)) as Hex
    by (vm_compute; reflexivity).
  assert (held_back "o" "new-0" removed_projection (db removed_pass.2) = false) as Hheld by (vm_compute; reflexivity).
  assert (Projection.ownership removed_projection = Projection.attached) as Hown by (vm_compute; reflexivity).
  assert (is_Some (Projection.destination_event removed_projection)) as Hev by (vm_compute; eexists; reflexivity).
  assert (Projection.desired_hash removed_projection = None) as Hhash by (vm_compute; reflexivity).
  assert (desired_copy restored_result = Some restored_copy) as Hd by (vm_compute; reflexivity).
  assert (sourceObservationBasisHash "rescheduled" false = Ok (value (sourceObservationBasisHash "rescheduled" false) "")) as Hb
    by (vm_compute; reflexivity).
  destruct (erased_evidence_hides_change "o" compiled all_capable None "source" "rescheduled" false "" rescheduled
    {| past_days := 30; future_days := 365 |} (october + 180000) removed_pass.2 "new-0" removed_projection restored_result
    restored_copy _ Hex Hheld Hown Hev Hhash restored_result_Ok Hd Hb)
    as (o & w' & p' & Hrun & _ & _ & Hp & Hst & Hds & Hev' & _).
  exists p'. change (pass_over rescheduled "rescheduled" (october + 180000) removed_pass.2 = (Ok o, w')) in Hrun.
  unfold restored_pass. rewrite Hrun. split; [exact Hp|]. split; [exact Hst|]. split; [exact Hds|exact Hev'].
Defined.

Definition whole := reconcile (R := ()) (C := ()) 1 (λ _ d, d) (λ n, october + Z.of_nat n) "o" "policy"
  (world (before sample_source ∅)).

Lemma reconcile_covers_calendar_witness :
  ∃ s, whole.1 = Ok (Some s) ∧ evaluated s = 1 ∧ counted s = 1.
Proof.
  assert (load_join "o" "policy" (db (world (before sample_source ∅))) = Some {|
    join_policy := sample_policy Policy.active; join_source := sample_endpoint "c1";
    join_source_connection := sample_connection "source"; join_destination := sample_endpoint "c2";
    join_destination_connection := sample_connection "destination" |}) as Hj by (vm_compute; reflexivity).
  destruct (whole.1) as [out|e] eqn:Hout; [|exfalso; revert Hout; vm_compute; discriminate].
  assert (whole = (Ok out, whole.2)) as Hrun by (rewrite <- Hout; vm_compute; reflexivity).
  assert (length (calendar_rows "o" "home" (db (world (before sample_source ∅)))) = 1%nat) as Hlen by (vm_compute; reflexivity).
  assert (length (calendar_rows "o" "home" (db (world (before sample_source ∅)))) / PAGE < 1)%nat as Hfuel
    by (rewrite Hlen; vm_compute; apply le_n).
  destruct (reconcile_covers_calendar 1 (λ _ d, d) (λ n, october + Z.of_nat n) "o" "policy" _ _ _ _ (λ _ _, eq_refl) Hj
    eq_refl eq_refl Hfuel Hrun) as (s & Hs & He & Hc & _).
  exists s. rewrite Hs. change (Policy.source_calendar (sample_policy Policy.active)) with "home" in He, Hc.
  cbn [join_policy] in He, Hc. change (Policy.source_calendar (sample_policy Policy.active)) with "home" in He, Hc.
  rewrite Hlen in He, Hc. split; [reflexivity|]. split; [exact He|exact Hc].
Defined.
End Samples.
