(* ===== verification/Verification.v ===== *)
(** * Destination verification

    [server/src/sync/verification.ts]: a bounded batch of converged copies is
    read back, oldest verification first; an edited or deleted copy is repaired
    or held as its policy says, an event that is not ours is held. *)

From S2P Require Import Prelude Canonical DestinationEdits Types Evaluate Text Jobs Transaction Policies Store Effects Notices.
From stdpp Require Import options.
Open Scope Z_scope.

Definition DESTINATION_VERIFICATION_INTERVAL_MILLISECONDS : Z := 15 * 60000.
Definition MAX_DESTINATION_VERIFICATIONS_PER_JOB : Z := 100.

Record VerificationTarget := {
  verified_projection : string;
  verified_policy : string;
  verified_revision : Z;
  verified_basis : option string;
  verified_generation : Z;
  verified_intent : Z;
  verified_event : string;
  verified_etag : option string;
  verified_hash : string;
  verified_state : DesiredCopy;
  verified_calendar : string;
  verified_connection : string;
  verified_provider : string;
  verified_edits : DestinationEditPolicy;
}.

Inductive DestinationVerificationDecision :=
| current (observedRevision : string)
| is_missing_copy
| is_drifted (observedRevision : string)
| is_foreign (observedRevision : string).

Definition classifyDestinationVerification (target : VerificationTarget) (observed : option ProviderEventLookup)
    : DestinationVerificationDecision :=
  match observed with
  | None => is_missing_copy
  | Some event =>
      if negb (eventBelongsToProjection event (verified_policy target) (verified_projection target)
                 (verified_generation target))
      then is_foreign (found_revision event)
      else if bool_decide (Some (found_revision event) = verified_etag target) then current (found_revision event)
      else is_drifted (found_revision event)
  end.

(** The generation and the copy of a repair. *)
Definition destinationRepairGeneration (desired : DesiredCopy) (generation : Z) (kind : DestinationEditObservationKind)
    : Z * DesiredCopy :=
  match kind with
  | drifted => (generation, desired)
  | missing => (generation + 1, with_generation (generation + 1) desired)
  end.

Record DestinationVerificationSummary := {
  claimed : Z;
  found_current : Z;
  repairsScheduled : Z;
  copies_held : Z;
  deferred : Z;
}.

(** ** Claims *)

(** [last_verified_at asc nulls first], then [id]. *)
Definition verified_leb (left right : string * Projection.ProjectionRow) : bool :=
  match Projection.last_verified_at left.2, Projection.last_verified_at right.2 with
  | None, None => text_leb left.1 right.1
  | None, Some _ => true
  | Some _, None => false
  | Some l, Some r => (l <? r) || ((l =? r) && text_leb left.1 right.1)
  end.

(** A converged, attached copy of an active policy, with the facts a
    verification compares. *)
Definition verifiable (organization : string) (d : Db) (p : Projection.ProjectionRow) : bool :=
  bool_decide (Projection.organization p = organization)
  && match sync_policies d !! Projection.policy p with
     | Some policy => bool_decide (Policy.organization policy = organization)
                      && bool_decide (Policy.status policy = Policy.active)
     | None => false
     end
  && (Projection.status p =? "converged")%string && bool_decide (Projection.ownership p = Projection.attached)
  && bool_decide (is_Some (Projection.destination_event p)) && bool_decide (is_Some (Projection.desired_state p))
  && bool_decide (is_Some (Projection.desired_hash p)).

Definition overdue (cutoff : Z) (p : Projection.ProjectionRow) : bool :=
  match Projection.last_verified_at p with Some t => t <? cutoff | None => true end.

Definition verification_due (organization : string) (cutoff : Z) (d : Db) (p : Projection.ProjectionRow) : bool :=
  verifiable organization d p && overdue cutoff p.

Definition mark_verified (now : Z) (p : Projection.ProjectionRow) : Projection.ProjectionRow :=
  {| Projection.organization := Projection.organization p; Projection.policy := Projection.policy p;
     Projection.policy_revision := Projection.policy_revision p;
     Projection.source_observation := Projection.source_observation p;
     Projection.source_basis_hash := Projection.source_basis_hash p;
     Projection.recovery_operation := Projection.recovery_operation p;
     Projection.recurrence_identity := Projection.recurrence_identity p;
     Projection.destination_calendar := Projection.destination_calendar p;
     Projection.destination_event := Projection.destination_event p;
     Projection.destination_etag := Projection.destination_etag p; Projection.generation := Projection.generation p;
     Projection.intent_sequence := Projection.intent_sequence p; Projection.desired_hash := Projection.desired_hash p;
     Projection.desired_state := Projection.desired_state p; Projection.status := Projection.status p;
     Projection.ownership := Projection.ownership p; Projection.last_success_at := Projection.last_success_at p;
     Projection.last_verified_at := Some now; Projection.safe_error_code := Projection.safe_error_code p;
     Projection.updated_at := Projection.updated_at p |}.

(** The rows of the selection; [locked] are those other transactions hold. *)
Definition due_rows (organization : string) (cutoff : Z) (locked : gset string) (d : Db)
    : list (string * Projection.ProjectionRow) :=
  sort_by verified_leb (List.filter (λ '(id, p), verification_due organization cutoff d p
                                                 && negb (bool_decide (id ∈ locked))) (map_to_list (projections d))).

Definition claimDue (organization : string) (limit : nat) (now cutoff : Z) (locked : gset string) (d : Db)
    : list string * Db :=
  let ids := map fst (take limit (due_rows organization cutoff locked d)) in
  (ids, with_projections (map_imap (λ id p, Some (if includes ids id then mark_verified now p else p))) d).

(** ** Targets *)

Definition loadTarget (organization projectionId : string) (d : Db) : option VerificationTarget :=
  p ← projections d !! projectionId;
  policy ← sync_policies d !! Projection.policy p;
  calendar ← calendar_endpoints d !! Projection.destination_calendar p;
  connection ← provider_connections d !! Endpoint.connection calendar;
  if bool_decide (Projection.organization p = organization) && (Projection.status p =? "converged")%string
     && bool_decide (Projection.ownership p = Projection.attached) && bool_decide (Policy.status policy = Policy.active)
  then
    event ← non_empty (Projection.destination_event p);
    desiredHash ← non_empty (Projection.desired_hash p);
    desired ← Projection.desired_state p;
    if Endpoint.writable calendar && (Connection.status connection =? "active")%string
       && includes ["destination"; "both"] (Connection.intended_role connection)
    then Some {| verified_projection := projectionId; verified_policy := Projection.policy p;
                 verified_revision := Projection.policy_revision p; verified_basis := Projection.source_basis_hash p;
                 verified_generation := Projection.generation p; verified_intent := Projection.intent_sequence p;
                 verified_event := event; verified_etag := Projection.destination_etag p;
                 verified_hash := desiredHash; verified_state := desired;
                 verified_calendar := Endpoint.remote_id calendar; verified_connection := Endpoint.connection calendar;
                 verified_provider := Connection.provider connection;
                 verified_edits := normalizeDestinationEditPolicy (draft_destination_edits (Policy.document policy)) |}
    else None
  else None.

(** The policy is active in the revision of the target, the projection is what
    it was, and no effect of it is unfinished. *)
Definition target_current (organization : string) (target : VerificationTarget) (d : Db) : option Projection.ProjectionRow :=
  policy ← sync_policies d !! verified_policy target;
  p ← projections d !! verified_projection target;
  if bool_decide (Policy.organization policy = organization) && bool_decide (Policy.status policy = Policy.active)
     && (Policy.revision policy =? verified_revision target)
     && bool_decide (Projection.organization p = organization) && (Projection.status p =? "converged")%string
     && bool_decide (Projection.ownership p = Projection.attached)
     && (Projection.policy_revision p =? verified_revision target)
     && (Projection.generation p =? verified_generation target)
     && bool_decide (Projection.destination_event p = Some (verified_event target))
     && bool_decide (Projection.destination_etag p = verified_etag target)
     && bool_decide (Projection.desired_hash p = Some (verified_hash target))
     && negb (existsb (λ '(_, e), bool_decide (Effect.projection e = verified_projection target)
                                  && includes [pending; leased; retry] (Effect.state e)) (map_to_list (outbox_effects d)))
  then Some p else None.

(** ** Rows *)

Definition repair_projection (intentSequence generation : Z) (kind : DestinationEditObservationKind)
    (observedRevision : option string) (desiredHash : string) (desired : DesiredCopy) (now : Z)
    (p : Projection.ProjectionRow) : Projection.ProjectionRow :=
  {| Projection.organization := Projection.organization p; Projection.policy := Projection.policy p;
     Projection.policy_revision := Projection.policy_revision p;
     Projection.source_observation := Projection.source_observation p;
     Projection.source_basis_hash := Projection.source_basis_hash p; Projection.recovery_operation := None;
     Projection.recurrence_identity := Projection.recurrence_identity p;
     Projection.destination_calendar := Projection.destination_calendar p;
     Projection.destination_event := match kind with missing => None | drifted => Projection.destination_event p end;
     Projection.destination_etag := observedRevision; Projection.generation := generation;
     Projection.intent_sequence := intentSequence; Projection.desired_hash := Some desiredHash;
     Projection.desired_state := Some desired; Projection.status := "pending";
     Projection.ownership := Projection.ownership p; Projection.last_success_at := Projection.last_success_at p;
     Projection.last_verified_at := Projection.last_verified_at p;
     Projection.safe_error_code := Some (match kind with missing => "destination_missing" | drifted => "destination_drift" end);
     Projection.updated_at := now |}.

Definition hold_projection_row (ownership : Projection.ProjectionOwnership) (recovery : EffectOperation)
    (etag : option string) (code : string) (now : Z) (p : Projection.ProjectionRow) : Projection.ProjectionRow :=
  {| Projection.organization := Projection.organization p; Projection.policy := Projection.policy p;
     Projection.policy_revision := Projection.policy_revision p;
     Projection.source_observation := Projection.source_observation p;
     Projection.source_basis_hash := Projection.source_basis_hash p; Projection.recovery_operation := Some recovery;
     Projection.recurrence_identity := Projection.recurrence_identity p;
     Projection.destination_calendar := Projection.destination_calendar p;
     Projection.destination_event := Projection.destination_event p;
     Projection.destination_etag := etag; Projection.generation := Projection.generation p;
     Projection.intent_sequence := Projection.intent_sequence p; Projection.desired_hash := Projection.desired_hash p;
     Projection.desired_state := Projection.desired_state p; Projection.status := "held";
     Projection.ownership := ownership; Projection.last_success_at := Projection.last_success_at p;
     Projection.last_verified_at := Projection.last_verified_at p; Projection.safe_error_code := Some code;
     Projection.updated_at := now |}.

Definition repair_operation (kind : DestinationEditObservationKind) : EffectOperation :=
  match kind with missing => op_create | drifted => op_update end.

Definition repair_key_json (target : VerificationTarget) (generation intentSequence : Z)
    (kind : DestinationEditObservationKind) (desiredHash : string) : json :=
  JObject [("version", int 1); ("kind", JString "destination_verification_repair");
           ("policy_ref", JString (verified_policy target)); ("policy_revision", int (verified_revision target));
           ("projection_ref", JString (verified_projection target)); ("generation", int generation);
           ("intent_sequence", int intentSequence); ("operation", op_json (repair_operation kind));
           ("desired_fingerprint", JString desiredHash)].

Section verifier.
Context {R : Type} `{Provider R} `{NewId} `{Unicode} `{Digest}.
Local Notation M := (M R).

Definition verification_audit (organization : string) (target : VerificationTarget) (action reasonCode : string)
    (detail : list (string * json)) (afterHash : string) (now : Z) : M () :=
  _ ← fresh_id;
  write_db (with_audit
    {| Audit.organization := organization; Audit.principal := None; Audit.actor_kind := "recovery";
       Audit.action := action; Audit.target_type := "projection"; Audit.target := verified_projection target;
       Audit.reason_code := reasonCode; Audit.before_hash := Some (verified_hash target);
       Audit.after_hash := Some afterHash;
       Audit.detail := [("verification", JString "destination"); ("generation", int (verified_generation target))] ++ detail;
       Audit.created_at := now |}).

(** The copy on record is that of the target: its provenance and its hash. *)
Definition evidence_current (target : VerificationTarget) (desired : DesiredCopy) : res failure bool :=
  if negb (provenance_is (verified_policy target) (verified_projection target) (verified_generation target) desired)
  then Ok false
  else desiredHash ← hash (desired_json desired); Ok (desiredHash =? verified_hash target)%string.

Definition scheduleRepair (organization : string) (target : VerificationTarget) (kind : DestinationEditObservationKind)
    (observedRevision : option string) (notice : option DestinationEditNoticeKind) (code : DestinationEditSafeErrorCode)
    (now : Z) : M bool :=
  transaction (
    found ← read_db (target_current organization target);
    match found ≫= λ p, desired ← Projection.desired_state p; Some (p, desired) with
    | None => mret false
    | Some (p, desired) =>
        evidence ← lift (evidence_current target desired);
        if negb evidence then mret false
        else
          let intentSequence := Projection.intent_sequence p + 1 in
          let '(generation, repaired) := destinationRepairGeneration desired (Projection.generation p) kind in
          desiredHash ← lift (hash (desired_json repaired));
          idempotencyKey ← lift (hash (repair_key_json target generation intentSequence kind desiredHash));
          _ ← insert_effect (new_effect organization (verified_policy target) (verified_projection target)
                (verified_basis target) (verified_revision target) (repair_operation kind) idempotencyKey (Some repaired)
                false now);
          _ ← set_projection (verified_projection target)
                (repair_projection intentSequence generation kind observedRevision desiredHash repaired now);
          _ ← verification_audit organization target "copy.repair_scheduled" (edit_code_text code)
                [("operation", op_json (repair_operation kind));
                 ("previous_generation", int (verified_generation target)); ("repair_generation", int generation)]
                desiredHash now;
          _ ← match notice with
              | Some kind' => recordSyncNotice organization (verified_policy target) (verified_projection target) kind'
                                (noticeDetailForDesiredCopy kind repaired) now
              | None => mret ()
              end;
          mret true
    end).

Definition holdDestinationEdit (organization : string) (target : VerificationTarget) (kind : DestinationEditObservationKind)
    (observedRevision : option string) (notice : DestinationEditNoticeKind) (code : DestinationEditSafeErrorCode) (now : Z)
    : M bool :=
  transaction (
    found ← read_db (target_current organization target);
    match found ≫= λ p, desired ← Projection.desired_state p; Some (p, desired) with
    | None => mret false
    | Some (p, desired) =>
        evidence ← lift (evidence_current target desired);
        if negb evidence then mret false
        else
          _ ← set_projection (verified_projection target) (λ q,
                hold_projection_row (Projection.ownership q) (repair_operation kind)
                  (match kind with drifted => observedRevision | missing => Projection.destination_etag q end)
                  (edit_code_text code) now q);
          _ ← recordSyncNotice organization (verified_policy target) (verified_projection target) notice
                (noticeDetailForDesiredCopy kind desired) now;
          _ ← verification_audit organization target "copy.held" (edit_code_text code)
                [("operation", op_json (repair_operation kind))] (verified_hash target) now;
          mret true
    end).

Definition holdOwnershipMismatch (organization : string) (target : VerificationTarget) (observedRevision : string) (now : Z)
    : M bool :=
  transaction (
    found ← read_db (target_current organization target);
    match found with
    | None => mret false
    | Some p =>
        _ ← set_projection (verified_projection target)
              (hold_projection_row Projection.ambiguous op_update (Some observedRevision) "ownership_mismatch" now);
        _ ← verification_audit organization target "copy.held" "destination_ownership_mismatch" [] (verified_hash target) now;
        mret true
    end).

(** ** A batch *)

Inductive VerificationOutcome := was_current | was_repaired | was_held | was_deferred.

Definition outcome_of (done : bool) (outcome : VerificationOutcome) : VerificationOutcome :=
  if done then outcome else was_deferred.

(** The [switch] on the decision; [interfere] is what others do since the read. *)
Definition act_on (organization : string) (target : VerificationTarget) (decision : DestinationVerificationDecision)
    (interfere : Db → Db) (now : Z) : M VerificationOutcome :=
  _ ← write_db interfere;
  let respond kind observedRevision :=
    match planDestinationEditResponse (verified_edits target) kind with
    | hold notice code =>
        done ← holdDestinationEdit organization target kind observedRevision notice code now;
        mret (outcome_of done was_held)
    | repair notice code =>
        done ← scheduleRepair organization target kind observedRevision notice code now;
        mret (outcome_of done was_repaired)
    end in
  match decision with
  | current _ => mret was_current
  | is_foreign observedRevision =>
      done ← holdOwnershipMismatch organization target observedRevision now; mret (outcome_of done was_held)
  | is_missing_copy => respond missing None
  | is_drifted observedRevision => respond drifted (Some observedRevision)
  end.

(** The cache holds promises: a failed one fails again. *)
Notation TokenCache := (gmap string (res failure string)).

Definition cached_token (organization : string) (target : VerificationTarget) (cache : TokenCache)
    : M (res failure string * TokenCache) :=
  match cache !! verified_connection target with
  | Some token => mret (token, cache)
  | None =>
      token ← attempt (use_remote (provider_token organization (verified_connection target)));
      mret (token, <[verified_connection target := token]> cache)
  end.

Definition verify_target (organization : string) (target : VerificationTarget) (token : res failure string)
    (interfere : Db → Db) (now : Z) : M VerificationOutcome :=
  _ ← lift (provider_resolve (verified_provider target));
  token ← lift token;
  observed ← getEvent (verified_provider target) token (verified_calendar target) (verified_event target);
  act_on organization target (classifyDestinationVerification target observed) interfere now.

Definition action_required (organization : string) (code : string) (now : Z) (c : Connection.ConnectionRow)
    : Connection.ConnectionRow :=
  if bool_decide (Connection.organization c = organization)
  then {| Connection.organization := Connection.organization c; Connection.provider := Connection.provider c;
          Connection.account_label := Connection.account_label c;
          Connection.intended_role := Connection.intended_role c; Connection.status := "action_required";
          Connection.last_success_at := Connection.last_success_at c; Connection.safe_error_code := Some code;
          Connection.updated_at := now |}
  else c.

(** The [catch]: every error defers, and one of the credentials is marked. *)
Definition on_verification_error (organization : string) (target : VerificationTarget) (now : Z) (error : failure)
    : M VerificationOutcome :=
  match error with
  | provider_failure e =>
      if (code e =? "provider_auth")%string
      then _ ← write_db (with_connections (alter (action_required organization (code e) now) (verified_connection target)));
           mret was_deferred
      else mret was_deferred
  | _ => mret was_deferred
  end.

Definition add_outcome (outcome : VerificationOutcome) (s : DestinationVerificationSummary)
    : DestinationVerificationSummary :=
  match outcome with
  | was_current => {| claimed := claimed s; found_current := found_current s + 1; repairsScheduled := repairsScheduled s;
                      copies_held := copies_held s; deferred := deferred s |}
  | was_repaired => {| claimed := claimed s; found_current := found_current s; repairsScheduled := repairsScheduled s + 1;
                       copies_held := copies_held s; deferred := deferred s |}
  | was_held => {| claimed := claimed s; found_current := found_current s; repairsScheduled := repairsScheduled s;
                   copies_held := copies_held s + 1; deferred := deferred s |}
  | was_deferred => {| claimed := claimed s; found_current := found_current s; repairsScheduled := repairsScheduled s;
                       copies_held := copies_held s; deferred := deferred s + 1 |}
  end.

(** One iteration: before the target is loaded others may have run ([interfere n]). *)
Definition verify_projection (organization projectionId : string) (interfere : nat → Db → Db) (n : nat)
    (cache : TokenCache) (now : Z) : M (VerificationOutcome * TokenCache) :=
  _ ← write_db (interfere (2 * n)%nat);
  target ← read_db (loadTarget organization projectionId);
  match target with
  | None => mret (was_deferred, cache)
  | Some target =>
      '(token, cache) ← cached_token organization target cache;
      outcome ← try_catch (verify_target organization target token (interfere (2 * n + 1)%nat) now)
                  (on_verification_error organization target now);
      mret (outcome, cache)
  end.

Fixpoint verify_all (organization : string) (interfere : nat → Db → Db) (n : nat) (cache : TokenCache) (now : Z)
    (ids : list string) (s : DestinationVerificationSummary) : M DestinationVerificationSummary :=
  match ids with
  | [] => mret s
  | id :: ids =>
      '(outcome, cache) ← verify_projection organization id interfere n cache now;
      verify_all organization interfere (S n) cache now ids (add_outcome outcome s)
  end.

(** [Math.max(1, Math.min(limit, MAX))]. *)
Definition bounded_limit (limit : Z) : nat := Z.to_nat (Z.max 1 (Z.min limit MAX_DESTINATION_VERIFICATIONS_PER_JOB)).

Definition verifyBatch (organization : string) (limit : Z) (locked : gset string) (interfere : nat → Db → Db) (now : Z)
    : M DestinationVerificationSummary :=
  '(ids, d) ← read_db (claimDue organization (bounded_limit limit) now
                         (now - DESTINATION_VERIFICATION_INTERVAL_MILLISECONDS) locked);
  _ ← write_db (λ _, d);
  verify_all organization interfere 0 ∅ now ids
    {| claimed := Z.of_nat (length ids); found_current := 0; repairsScheduled := 0; copies_held := 0; deferred := 0 |}.
End verifier.

(** ** What a verification does *)

Section cases.
Context `{Unicode} `{Digest}.
Context (organization : string) (target : VerificationTarget) (now : Z).

(** The answer of the provider that calls for a response of the kind. *)
Definition observed_as (kind : DestinationEditObservationKind) (observed : option ProviderEventLookup) : Prop :=
  match kind with
  | missing => observed = None
  | drifted => ∃ event, observed = Some event ∧
      eventBelongsToProjection event (verified_policy target) (verified_projection target) (verified_generation target) = true ∧
      Some (found_revision event) ≠ verified_etag target
  end.

Definition observed_revision (kind : DestinationEditObservationKind) (observed : option ProviderEventLookup) : option string :=
  match kind with missing => None | drifted => found_revision <$> observed end.

(** The copy is still the one that was read. *)
Definition still_ours (d : Db) (p : Projection.ProjectionRow) (desired : DesiredCopy) : Prop :=
  target_current organization target d = Some p ∧ Projection.desired_state p = Some desired ∧
  evidence_current target desired = Ok true.

Inductive verification (observed : option ProviderEventLookup) (d : Db) : res failure VerificationOutcome → Db → Prop :=
| leaves outcome :
    outcome = was_current ∧ (∃ event, observed = Some event ∧ Some (found_revision event) = verified_etag target ∧
      eventBelongsToProjection event (verified_policy target) (verified_projection target) (verified_generation target) = true)
    ∨ outcome = was_deferred →
    verification observed d (Ok outcome) d
| fails e : verification observed d (Throw e) d
| repairs kind p desired generation repaired h key effectId d' :
    observed_as kind observed → mode_for (verified_edits target) kind ≠ hold_for_review → still_ours d p desired →
    destinationRepairGeneration desired (Projection.generation p) kind = (generation, repaired) →
    hash (desired_json repaired) = Ok h → idempotency_taken key (outbox_effects d) = false →
    projections d' = <[verified_projection target :=
      repair_projection (Projection.intent_sequence p + 1) generation kind (observed_revision kind observed) h repaired now p]>
      (projections d) →
    outbox_effects d' = <[effectId := new_effect organization (verified_policy target) (verified_projection target)
      (verified_basis target) (verified_revision target) (repair_operation kind) key (Some repaired) false now]>
      (outbox_effects d) →
    (mode_for (verified_edits target) kind = restore → sync_notices d' = sync_notices d) →
    verification observed d (Ok was_repaired) d'
| holds_edit kind p desired d' noticeId n :
    observed_as kind observed → mode_for (verified_edits target) kind = hold_for_review → still_ours d p desired →
    projections d' = <[verified_projection target :=
      hold_projection_row (Projection.ownership p) (repair_operation kind)
        (match kind with drifted => observed_revision kind observed | missing => Projection.destination_etag p end)
        (match kind with drifted => "destination_edit_held" | missing => "destination_delete_held" end) now p]> (projections d) →
    outbox_effects d' = outbox_effects d →
    sync_notices d' = <[noticeId := n]> (sync_notices d) → Notice.projection n = verified_projection target →
    Notice.status n = Notice.unread → Notice.kind n ∈ HELD_NOTICE_KINDS →
    verification observed d (Ok was_held) d'
| holds_foreign p event d' :
    observed = Some event →
    eventBelongsToProjection event (verified_policy target) (verified_projection target) (verified_generation target) = false →
    target_current organization target d = Some p →
    projections d' = <[verified_projection target :=
      hold_projection_row Projection.ambiguous op_update (Some (found_revision event)) "ownership_mismatch" now p]>
      (projections d) →
    outbox_effects d' = outbox_effects d → sync_notices d' = sync_notices d →
    verification observed d (Ok was_held) d'.

Lemma target_current_lookup d p :
  target_current organization target d = Some p →
  projections d !! verified_projection target = Some p ∧ Projection.status p = "converged" ∧
  Projection.ownership p = Projection.attached ∧ Projection.policy_revision p = verified_revision target ∧
  Projection.generation p = verified_generation target ∧ Projection.destination_event p = Some (verified_event target) ∧
  Projection.desired_hash p = Some (verified_hash target) ∧
  (∃ policy, sync_policies d !! verified_policy target = Some policy ∧ Policy.status policy = Policy.active ∧
     Policy.revision policy = verified_revision target) ∧
  (∀ id e, outbox_effects d !! id = Some e → Effect.projection e = verified_projection target →
     Effect.state e = succeeded ∨ Effect.state e = dead).
Proof using Type.
  unfold target_current. destruct (sync_policies d !! _) as [policy|]; [|done]. cbn [mbind option_bind].
  destruct (projections d !! _) as [q|]; [|done]. cbn [mbind option_bind]. destruct (_ && negb _) eqn:E; [|done].
  intros [= ->]. apply andb_true_iff in E as [E Hno]. bool_to_prop. split_and!; try done; [by exists policy|].
  intros id e He Hp. apply negb_true_iff in Hno.
  assert ((bool_decide (Effect.projection e = verified_projection target) && includes [pending; leased; retry] (Effect.state e)) = false)
    as Hb.
  { destruct (_ && _) eqn:Hc; [|done]. exfalso. rewrite (proj2 (existsb_exists _ _)) in Hno; [done|].
    exists (id, e). split; [by apply list_elem_of_In, elem_of_map_to_list|done]. }
  rewrite Hp, bool_decide_eq_true_2 in Hb by done. cbn [andb] in Hb.
  destruct (Effect.state e); vm_compute in Hb; naive_solver.
Qed.
End cases.

Section verifier_properties.
Context {R : Type} `{Provider R} `{NewId} `{Unicode} `{Digest}.
Context (organization : string) (target : VerificationTarget) (now : Z).
Implicit Types w : World R.

Lemma plan_mode kind :
  planDestinationEditResponse (verified_edits target) kind =
    match mode_for (verified_edits target) kind with
    | hold_for_review => match kind with drifted => hold copy_edit_held destination_edit_held
                                       | missing => hold copy_delete_held destination_delete_held end
    | restore => repair None (match kind with drifted => destination_drift | missing => destination_missing end)
    | restore_and_notify => repair (Some (match kind with drifted => copy_edit_reverted | missing => copy_delete_restored end))
                              (match kind with drifted => destination_drift | missing => destination_missing end)
    end.
Proof using Type. unfold planDestinationEditResponse, mode_for. by destruct (verified_edits target) as [[] []], kind. Qed.

Lemma verification_audit_wp action reasonCode detail afterHash w (Q : res failure () → World R → Prop) :
  (∀ fact, Q (Ok ()) {| db := with_audit fact (db w); remote := remote w; calls := calls w; issued := S (issued w) |}) →
  wp (verification_audit organization target action reasonCode detail afterHash now) w Q.
Proof using Type. intros HQ. unfold verification_audit. do 3 wp_step. apply HQ. Qed.

Lemma notice_wp (notice : option DestinationEditNoticeKind) detail w (Q : res failure () → World R → Prop) :
  (∀ notices n, (notice = None → notices = sync_notices (db w)) →
     Q (Ok ()) {| db := with_notices (λ _, notices) (db w); remote := remote w; calls := calls w; issued := n |}) →
  wp (match notice with
      | Some kind => recordSyncNotice organization (verified_policy target) (verified_projection target) kind detail now
      | None => mret ()
      end) w Q.
Proof using Type.
  intros HQ. destruct notice as [kind|].
  - unfold recordSyncNotice. do 3 wp_step. cbn [db issued]. by apply (HQ (<[newId (issued w):=_]> (sync_notices (db w)))).
  - wp_step. specialize (HQ (sync_notices (db w)) (issued w) (λ _, eq_refl)). by destruct w as [[] ? ? ?].
Qed.

Lemma scheduleRepair_wp kind observed w :
  observed_as target kind observed → mode_for (verified_edits target) kind ≠ hold_for_review →
  let notice := match mode_for (verified_edits target) kind with
    | restore_and_notify => Some (match kind with drifted => copy_edit_reverted | missing => copy_delete_restored end)
    | _ => None end in
  let code := match kind with drifted => destination_drift | missing => destination_missing end in
  wp (scheduleRepair organization target kind (observed_revision kind observed) notice code now) w (λ r w',
    calls w' = calls w ∧
    verification organization target now observed (db w) (done ← r; Ok (outcome_of done was_repaired)) (db w')).
Proof using Type.
  intros Hobs Hmode notice code. unfold scheduleRepair. do 3 wp_step.
  destruct (target_current organization target (db w)) as [p|] eqn:Hcur; cbn [mbind option_bind];
    [|wp_step; split; [done|by apply leaves; right]].
  destruct (Projection.desired_state p) as [desired|] eqn:Hdes; cbn [mbind option_bind];
    [|wp_step; split; [done|by apply leaves; right]].
  do 2 wp_step. destruct (evidence_current target desired) as [[]|e] eqn:Hev; cbn [negb];
    [|wp_step; split; [done|by apply leaves; right]|split; [done|apply fails]].
  destruct (destinationRepairGeneration desired (Projection.generation p) kind) as [generation repaired] eqn:Hgen.
  do 2 wp_step. destruct (hash (desired_json repaired)) as [h|e] eqn:Hh; [|split; [done|apply fails]].
  do 2 wp_step. destruct (hash (repair_key_json _ _ _ _ _)) as [key|e] eqn:Hkey; [|split; [done|apply fails]].
  wp_step. unfold insert_effect. do 4 wp_step. cbn [db Effect.idempotency_key new_effect].
  destruct (idempotency_taken _ _) eqn:Ht; [wp_step; split; [done|apply fails]|]. do 2 wp_step.
  apply set_projection_run. cbn [db with_effects projections]. destruct (target_current_lookup _ _ _ _ Hcur) as [Hlook _].
  rewrite Hlook. wp_step. apply verification_audit_wp. intros fact. wp_step. apply notice_wp. intros notices n Hnotices.
  wp_step. split; [done|]. cbn [mbind res_bind outcome_of].
  eapply (repairs _ _ _ _ _ kind p desired generation repaired h key); try done.
  intros Hr. apply Hnotices. unfold notice. by rewrite Hr.
Qed.

Lemma holdDestinationEdit_wp kind observed w :
  observed_as target kind observed → mode_for (verified_edits target) kind = hold_for_review →
  let notice := match kind with drifted => copy_edit_held | missing => copy_delete_held end in
  let code := match kind with drifted => destination_edit_held | missing => destination_delete_held end in
  wp (holdDestinationEdit organization target kind (observed_revision kind observed) notice code now) w (λ r w',
    calls w' = calls w ∧
    verification organization target now observed (db w) (done ← r; Ok (outcome_of done was_held)) (db w')).
Proof using Type.
  intros Hobs Hmode notice code. unfold holdDestinationEdit. do 3 wp_step.
  destruct (target_current organization target (db w)) as [p|] eqn:Hcur; cbn [mbind option_bind];
    [|wp_step; split; [done|by apply leaves; right]].
  destruct (Projection.desired_state p) as [desired|] eqn:Hdes; cbn [mbind option_bind];
    [|wp_step; split; [done|by apply leaves; right]].
  do 2 wp_step. destruct (evidence_current target desired) as [[]|e] eqn:Hev; cbn [negb];
    [|wp_step; split; [done|by apply leaves; right]|split; [done|apply fails]].
  destruct (target_current_lookup _ _ _ _ Hcur) as [Hlook _].
  wp_step. apply set_projection_run. rewrite Hlook. wp_step. unfold recordSyncNotice. do 3 wp_step. wp_step.
  apply verification_audit_wp. intros fact. wp_step. split; [done|]. cbn [mbind res_bind outcome_of].
  eapply (holds_edit _ _ _ _ _ kind p desired); try done; [by destruct kind|]. unfold notice. destruct kind; in_list.
Qed.

Lemma holdOwnershipMismatch_wp event w :
  eventBelongsToProjection event (verified_policy target) (verified_projection target) (verified_generation target) = false →
  wp (holdOwnershipMismatch organization target (found_revision event) now) w (λ r w',
    calls w' = calls w ∧
    verification organization target now (Some event) (db w) (done ← r; Ok (outcome_of done was_held)) (db w')).
Proof using Type.
  intros Hforeign. unfold holdOwnershipMismatch. do 3 wp_step.
  destruct (target_current organization target (db w)) as [p|] eqn:Hcur; [|wp_step; split; [done|by apply leaves; right]].
  destruct (target_current_lookup _ _ _ _ Hcur) as [Hlook _].
  wp_step. apply set_projection_run. rewrite Hlook. wp_step. apply verification_audit_wp. intros fact. wp_step.
  split; [done|]. cbn [mbind res_bind outcome_of]. by eapply (holds_foreign _ _ _ _ _ p event).
Qed.

Lemma act_on_wp observed interfere w :
  wp (act_on organization target (classifyDestinationVerification target observed) interfere now) w (λ r w',
    calls w' = calls w ∧ verification organization target now observed (interfere (db w)) r (db w')).
Proof using Type.
  unfold act_on. do 2 wp_step.
  set (w0 := {| db := interfere (db w); remote := remote w; calls := calls w; issued := issued w |}).
  assert (∀ (m : M R bool) outcome,
    wp m w0 (λ r w', calls w' = calls w0 ∧ verification organization target now observed (db w0)
      (done ← r; Ok (outcome_of done outcome)) (db w')) →
    wp (done ← m; mret (outcome_of done outcome)) w0 (λ r w', calls w' = calls w ∧
      verification organization target now observed (interfere (db w)) r (db w'))) as Hreport.
  { intros m outcome Hm. wp_step. eapply wp_mono; [exact Hm|]. cbn beta. intros [done|e] w' Hv; [|exact Hv]. by wp_step. }
  assert (∀ kind, observed_as target kind observed →
    wp (match planDestinationEditResponse (verified_edits target) kind with
        | hold notice code => done ← holdDestinationEdit organization target kind (observed_revision kind observed) notice code now;
                              mret (outcome_of done was_held)
        | repair notice code => done ← scheduleRepair organization target kind (observed_revision kind observed) notice code now;
                                mret (outcome_of done was_repaired)
        end) w0 (λ r w', calls w' = calls w ∧ verification organization target now observed (interfere (db w)) r (db w')))
    as Hrespond.
  { intros kind Hobs. rewrite plan_mode. destruct (mode_for (verified_edits target) kind) eqn:Hmode; [| |destruct kind].
    - apply Hreport. pose proof (scheduleRepair_wp kind observed w0 Hobs) as Hr. rewrite Hmode in Hr. by apply Hr.
    - apply Hreport. pose proof (scheduleRepair_wp kind observed w0 Hobs) as Hr. rewrite Hmode in Hr. by apply Hr.
    - apply Hreport. by apply (holdDestinationEdit_wp drifted).
    - apply Hreport. by apply (holdDestinationEdit_wp missing). }
  destruct observed as [event|]; cbn [classifyDestinationVerification]; [|by apply (Hrespond missing)].
  destruct (eventBelongsToProjection _ _ _ _) eqn:Howned; cbn [negb].
  - case_bool_decide as Hrev; [wp_step; split; [done|]; by apply leaves; left; eauto|].
    apply (Hrespond drifted). by exists event.
  - apply Hreport. by apply holdOwnershipMismatch_wp.
Qed.

(** C15. A verification reads before it acts, and acts only on what it read: its
    only call of the calendar is one read; what follows is decided by the answer
    and by the policy of the bridge, on a copy that is still the one that was
    verified, with no effect unfinished. An event of someone else is held and
    never written; a copy is repaired only where the policy does not hold it;
    an answer that did not arrive changes nothing. *)
Theorem verification_refines token interfere w r w' :
  verify_target organization target token interfere now w = (r, w') →
  (db w' = db w ∧ (∃ e, r = Throw e) ∧
    (calls w' = calls w ∨ ∃ e, calls w' = calls w ++ [GetEvent (verified_calendar target) (verified_event target) (Throw e)])) ∨
  ∃ observed, calls w' = calls w ++ [GetEvent (verified_calendar target) (verified_event target) (Ok observed)] ∧
    verification organization target now observed (interfere (db w)) r (db w').
Proof using Type.
  assert (wp (verify_target organization target token interfere now) w (λ r w',
    (db w' = db w ∧ (∃ e, r = Throw e) ∧
      (calls w' = calls w ∨ ∃ e, calls w' = calls w ++ [GetEvent (verified_calendar target) (verified_event target) (Throw e)])) ∨
    ∃ observed, calls w' = calls w ++ [GetEvent (verified_calendar target) (verified_event target) (Ok observed)] ∧
      verification organization target now observed (interfere (db w)) r (db w'))) as Hwp;
    [|intros Hrun; by apply (wp_run _ _ _ _ _ Hwp Hrun)].
  clear r w'. unfold verify_target. do 2 wp_step. destruct (provider_resolve _) as [u|e]; [|left; eauto].
  do 2 wp_step. destruct token as [t|e]; [|left; eauto]. wp_step. unfold getEvent. wp_step.
  destruct r as [observed|e]; cbn [db calls]; [|left; eauto 6]. right. exists observed.
  eapply wp_mono; [apply act_on_wp|]. cbn [db calls]. intros r w' [Hcalls Hv]. by rewrite Hcalls.
Qed.
End verifier_properties.

(** ** Fairness *)

Section claims.
Context (organization : string) (cutoff : Z).

Lemma verified_leb_total x y : verified_leb x y = true ∨ verified_leb y x = true.
Proof using Type.
  unfold verified_leb. destruct (Projection.last_verified_at x.2) as [l|], (Projection.last_verified_at y.2) as [r|];
    try (by left); try (by right); [|apply text_leb_total].
  destruct (Z.lt_total l r) as [|[->|]]; [left|destruct (text_leb_total x.1 y.1); [left|right]|right];
    apply orb_true_iff; rewrite andb_true_iff, Z.ltb_lt, Z.eqb_eq; auto.
Qed.

Lemma verified_leb_trans x y z : verified_leb x y = true → verified_leb y z = true → verified_leb x z = true.
Proof using Type.
  unfold verified_leb. destruct (Projection.last_verified_at x.2) as [l|], (Projection.last_verified_at y.2) as [m|],
    (Projection.last_verified_at z.2) as [r|]; try done; [|apply text_leb_trans].
  rewrite !orb_true_iff, !andb_true_iff, !Z.ltb_lt, !Z.eqb_eq.
  intros [?|[-> ?]] [?|[? ?]]; [left; lia|left; lia|left; lia|]. subst. right. split; [done|]. by eapply text_leb_trans.
Qed.

Lemma verified_leb_antisym x y : verified_leb x y = true → verified_leb y x = true → x.1 = y.1.
Proof using Type.
  unfold verified_leb. destruct (Projection.last_verified_at x.2) as [l|], (Projection.last_verified_at y.2) as [r|]; try done;
    [|apply text_leb_antisym].
  rewrite !orb_true_iff, !andb_true_iff, !Z.ltb_lt, !Z.eqb_eq. intros [?|[-> ?]] [?|[? ?]]; try lia. by apply text_leb_antisym.
Qed.

Notation due := (due_rows organization cutoff ∅).

Lemma elem_of_due c d id p :
  (id, p) ∈ due_rows organization c ∅ d ↔ projections d !! id = Some p ∧ verification_due organization c d p = true.
Proof using Type.
  unfold due_rows. rewrite elem_of_sort_by, list_elem_of_In, filter_In, <- list_elem_of_In, elem_of_map_to_list.
  rewrite bool_decide_eq_false_2 by set_solver. by rewrite andb_true_r.
Qed.

Lemma NoDup_due c d : NoDup (due_rows organization c ∅ d).*1.
Proof using Type. unfold due_rows. rewrite sort_by_perm. apply NoDup_fst_filter, NoDup_fst_map_to_list. Qed.

Lemma due_sorted c d : StronglySorted (λ x y, verified_leb x y = true) (due_rows organization c ∅ d).
Proof using Type. apply sort_by_sorted; [apply verified_leb_total|apply verified_leb_trans]. Qed.

Lemma due_antisym c d x y :
  x ∈ due_rows organization c ∅ d → y ∈ due_rows organization c ∅ d → verified_leb x y = true → verified_leb y x = true → x = y.
Proof using Type.
  destruct x as [i p], y as [k q]. intros [Hi _]%elem_of_due [Hk _]%elem_of_due Hik Hki.
  assert (i = k) as -> by exact (verified_leb_antisym _ _ Hik Hki). congruence.
Qed.

(** The copies due at the cutoff come before those that fall due later. *)
Lemma due_later later d :
  cutoff <= later →
  due_rows organization later ∅ d
  = due d ++ List.filter (λ x, negb (verification_due organization cutoff d x.2)) (due_rows organization later ∅ d).
Proof using Type.
  intros Hle. assert (∀ p, verification_due organization cutoff d p = true → verification_due organization later d p = true) as Hmono.
  { intros p. unfold verification_due, overdue. intros [-> Hlast]%andb_true_iff. apply andb_true_iff. split; [done|]. destruct (Projection.last_verified_at p); [|done]. apply Z.ltb_lt. apply Z.ltb_lt in Hlast. lia. }
  set (rest := List.filter _ _).
  assert (∀ x, x ∈ rest ↔ x ∈ due_rows organization later ∅ d ∧ verification_due organization cutoff d x.2 = false) as Hrest.
  { intros x. unfold rest. by rewrite list_elem_of_In, filter_In, <- list_elem_of_In, negb_true_iff. }
  rewrite <- (sort_by_id verified_leb (due_rows organization later ∅ d)) at 1 by apply due_sorted.
  rewrite <- (sort_by_id verified_leb (due d ++ rest)).
  2: { apply StronglySorted_app. split_and!; [|apply due_sorted|].
       - intros [i p] [k q] Hp Hq. apply Hrest in Hq as [Hq Hnot]. apply elem_of_due in Hp as [_ Hp]. apply elem_of_due in Hq as [_ Hq].
         revert Hp Hnot Hq. unfold verification_due, overdue, verified_leb. cbn [fst snd].
         intros [_ Hp]%andb_true_iff Hnot [Hq Hlast]%andb_true_iff. rewrite Hq in Hnot. cbn [andb] in Hnot. destruct (Projection.last_verified_at q); [|done].
         destruct (Projection.last_verified_at p); [|done]. apply Z.ltb_lt in Hp. apply Z.ltb_ge in Hnot.
         apply orb_true_iff. left. apply Z.ltb_lt. lia.
       - unfold rest, due_rows. rewrite <- sort_by_filter by (apply verified_leb_total || apply verified_leb_trans).
         apply sort_by_sorted; [apply verified_leb_total|apply verified_leb_trans]. }
  apply sort_by_unique; [apply verified_leb_total|apply verified_leb_trans| |].
  - apply due_antisym.
  - apply NoDup_Permutation.
    + apply (NoDup_fmap_1 fst), NoDup_due.
    + apply NoDup_app. split_and!; [apply (NoDup_fmap_1 fst), NoDup_due| |apply (NoDup_fmap_1 fst), NoDup_fst_filter, NoDup_due].
      intros [i p] Hp Hin. apply Hrest in Hin as [_ Hin]. apply elem_of_due in Hp as [_ Hp]. cbn in Hin. congruence.
    + intros [i p]. rewrite elem_of_app, Hrest, !elem_of_due. cbn.
      destruct (verification_due organization cutoff d p) eqn:E; [|naive_solver]. apply Hmono in E. naive_solver.
Qed.

(** A claim at a later time takes the first of the copies due at the cutoff, and
    leaves the rest due. *)
Lemma claim_takes_first limit now later d :
  cutoff <= now → cutoff <= later →
  let '(ids, d') := claimDue organization limit now later ∅ d in
  (∀ x, x ∈ take limit (due d) → x.1 ∈ ids) ∧ due d' = drop limit (due d).
Proof using Type.
  intros Hnow Hlater. unfold claimDue. set (ids := map fst (take limit (due_rows organization later ∅ d))).
  assert (∀ x, x ∈ take limit (due d) → x.1 ∈ ids) as Hfirst.
  { intros x Hx. unfold ids. apply list_elem_of_fmap_2. rewrite (due_later later) by done. rewrite take_app.
    apply elem_of_app. by left. }
  split; [done|]. set (d' := with_projections _ d).
  assert (∀ id, projections d' !! id = (λ p, if includes ids id then mark_verified now p else p) <$> projections d !! id) as Hlook.
  { intros id. cbn. rewrite map_lookup_imap. by destruct (projections d !! id). }
  assert (∀ x, x ∈ drop limit (due d) → x.1 ∉ ids) as Hlast.
  { intros x Hx Hin. pose proof (NoDup_due later d) as Hnd. rewrite (due_later later) in Hnd by done.
    unfold ids in Hin. rewrite (due_later later), take_app in Hin by done.
    rewrite <- (take_drop limit (due d)) in Hnd.
    assert (limit - length (due d) = 0)%nat as Hzero.
    { destruct (decide (limit < length (due d))%nat); [lia|]. rewrite drop_ge in Hx by lia. by apply not_elem_of_nil in Hx. }
    rewrite Hzero, take_0, app_nil_r in Hin. rewrite !fmap_app in Hnd. apply NoDup_app in Hnd as (Hnd & _ & _).
    apply NoDup_app in Hnd as (_ & Hdisj & _). apply (Hdisj x.1); [exact Hin|]. by apply list_elem_of_fmap_2. }
  assert (drop limit (due d) = List.filter (λ x, negb (includes ids x.1)) (due d)) as ->.
  { rewrite <- (take_drop limit (due d)) at 2. rewrite List.filter_app. rewrite filter_all_out, filter_all_in; [done| |].
    - intros x Hx. apply negb_true_iff. destruct (includes ids x.1) eqn:E; [|done]. apply includes_spec in E. by destruct (Hlast x).
    - intros x Hx. apply negb_false_iff, includes_spec. by apply Hfirst. }
  rewrite <- (sort_by_id verified_leb (due d')), <- (sort_by_id verified_leb (List.filter _ (due d))); [| |by apply due_sorted].
  2: { unfold due_rows. rewrite <- sort_by_filter by (apply verified_leb_total || apply verified_leb_trans).
       apply sort_by_sorted; [apply verified_leb_total|apply verified_leb_trans]. }
  apply sort_by_unique; [apply verified_leb_total|apply verified_leb_trans| |].
  - apply due_antisym.
  - apply NoDup_Permutation; [apply (NoDup_fmap_1 fst), NoDup_due|apply (NoDup_fmap_1 fst), NoDup_fst_filter, NoDup_due|].
    intros [i p]. rewrite elem_of_due, list_elem_of_In, filter_In, <- list_elem_of_In, elem_of_due, Hlook. cbn [fst].
    assert (∀ q, verification_due organization cutoff d' q = verification_due organization cutoff d q) as -> by done.
    destruct (includes ids i) eqn:E; cbn [negb].
    + split; [|by intros [_ ?]]. intros [(q & Hq & ->)%fmap_Some Hdue]. exfalso. unfold verification_due in Hdue.
      cbn in Hdue. apply andb_true_iff in Hdue as [_ Hlt]. apply Z.ltb_lt in Hlt. lia.
    + rewrite option_fmap_id. naive_solver.
Qed.
End claims.

(** Claims at the times of the list, each with the cutoff its time gives. *)
Fixpoint claims (organization : string) (limit : nat) (times : list Z) (d : Db) : list string :=
  match times with
  | [] => []
  | now :: times =>
      let '(ids, d') := claimDue organization limit now (now - DESTINATION_VERIFICATION_INTERVAL_MILLISECONDS) ∅ d in
      ids ++ claims organization limit times d'
  end.

(** No copy is left unverified: of the copies due at a time, later batches
    claim every one, within as many batches as their number divided by the
    limit - the copies that fall due in between never overtake them. *)
Theorem claims_reach_every_copy organization limit start times d :
  let cutoff := start - DESTINATION_VERIFICATION_INTERVAL_MILLISECONDS in
  Forall (λ now, start <= now) times →
  (length (due_rows organization cutoff ∅ d) <= length times * limit)%nat →
  ∀ id p, projections d !! id = Some p → verification_due organization cutoff d p = true →
    id ∈ claims organization limit times d.
Proof.
  intros cutoff Htimes Hn id p Hp Hdue. assert ((id, p) ∈ due_rows organization cutoff ∅ d) as Hin by by apply elem_of_due.
  clear Hp Hdue. revert d Hn Hin. induction Htimes as [|now times Hnow _ IH]; intros d Hn Hin; cbn [claims].
  - destruct (due_rows _ _ _ _); [by apply not_elem_of_nil in Hin|cbn in Hn; lia].
  - pose proof (claim_takes_first organization cutoff limit now (now - DESTINATION_VERIFICATION_INTERVAL_MILLISECONDS) d) as Hc.
    destruct (claimDue _ _ _ _ _ _) as [ids d'].
    destruct Hc as [Hfirst Hdrop]; [unfold cutoff, DESTINATION_VERIFICATION_INTERVAL_MILLISECONDS; lia|lia|].
    rewrite <- (take_drop limit (due_rows organization cutoff ∅ d)) in Hin. apply elem_of_app. apply elem_of_app in Hin as [Hin|Hin].
    + left. by apply (Hfirst (id, p)).
    + right. apply IH; rewrite Hdrop; [|done]. rewrite length_drop. cbn in Hn. lia.
Qed.

(** ** Examples *)

Module Samples.
#[local] Existing Instances Effects.sample_provider Effects.sample_ids.

(** The copy an execution of a creation leaves, and one verified before. *)
Definition verified_copy (last : option Z) : Projection.ProjectionRow :=
  {| Projection.organization := "o"; Projection.policy := "policy"; Projection.policy_revision := 1;
     Projection.source_observation := "source"; Projection.source_basis_hash := Some sample_basis;
     Projection.recovery_operation := None; Projection.recurrence_identity := "";
     Projection.destination_calendar := "work"; Projection.destination_event := Some "copy";
     Projection.destination_etag := Some "8"; Projection.generation := 1; Projection.intent_sequence := 3;
     Projection.desired_hash := Some (value (hash (desired_json (sample_desired 1))) "");
     Projection.desired_state := Some (sample_desired 1); Projection.status := "converged";
     Projection.ownership := Projection.attached; Projection.last_success_at := None;
     Projection.last_verified_at := last; Projection.safe_error_code := None; Projection.updated_at := 0 |}.

Definition verified_db (copies : gmap string Projection.ProjectionRow) : Db :=
  {| sync_policies := {[ "policy" := sample_policy Policy.active ]};
     calendar_endpoints := {[ "home" := sample_endpoint "c1"; "work" := sample_endpoint "c2" ]};
     provider_connections := {[ "c1" := sample_connection "source"; "c2" := sample_connection "destination" ]};
     hours_profiles := ∅; source_observations := {[ "source" := sample_observation ]}; sync_cursors := ∅;
     projections := copies; outbox_effects := ∅; sync_notices := ∅;
     conflict_rules := ∅; policy_previews := ∅; audit_facts := []; scheduled_jobs := ∅ |}.

Definition one_copy : Db := verified_db {[ sample_uuid := verified_copy None ]}.

Definition sample_target : VerificationTarget :=
  match loadTarget "o" sample_uuid one_copy with
  | Some target => target
  | None => {| verified_projection := ""; verified_policy := ""; verified_revision := 0; verified_basis := None;
               verified_generation := 0; verified_intent := 0; verified_event := ""; verified_etag := None;
               verified_hash := ""; verified_state := sample_desired 0; verified_calendar := ""; verified_connection := "";
               verified_provider := ""; verified_edits := DEFAULT_DESTINATION_EDIT_POLICY |}
  end.

(** The copy is gone from the calendar; a person changed it; it is as it was. *)
Definition verify_in (remote : Remote) : res failure VerificationOutcome * World Remote :=
  verify_target "o" sample_target (Ok "token") (λ d, d) 100
    {| db := one_copy; remote := remote; calls := []; issued := 0 |}.

Definition found (revision : string) : ProviderEventLookup :=
  {| found_id := "copy"; found_revision := revision;
     managedIdentity := Some {| policyRef := "policy"; projectionRef := sample_uuid; identity_generation := 1 |} |}.

Example verify_current : (verify_in {[ "copy" := found "8" ]}).1 = Ok was_current.
Proof. vm_compute. reflexivity. Qed.

Example verify_missing :
  (verify_in ∅).1 = Ok was_repaired ∧
  (Projection.generation <$> projections (db (verify_in ∅).2) !! sample_uuid) = Some 2.
Proof. vm_compute. split; reflexivity. Qed.

Definition drifted_run := verify_in {[ "copy" := found "9" ]}.

Lemma verification_refines_witness :
  (Projection.destination_etag <$> projections (db drifted_run.2) !! sample_uuid) = Some (Some "9") ∧
  ∃ observed, calls drifted_run.2 = [GetEvent "remote" "copy" (Ok observed)] ∧
    verification "o" sample_target 100 observed one_copy (Ok was_repaired) (db drifted_run.2).
Proof.
  split; [vm_compute; reflexivity|].
  assert (drifted_run = (Ok was_repaired, drifted_run.2)) as Hrun by (vm_compute; reflexivity).
  destruct (verification_refines "o" sample_target 100 (Ok "token") (λ d, d) _ _ _ Hrun)
    as [(_ & (e & He) & _)|(observed & Hcalls & Hv)]; [discriminate He|].
  exists observed. split; [exact Hcalls|exact Hv].
Defined.

Definition day : Z := 24 * 60 * 60000.

(** Three copies, of which one was verified a short while ago; batches of one. *)
Definition three_copies : Db :=
  verified_db {[ "a" := verified_copy (Some 7); "b" := verified_copy None; "c" := verified_copy (Some day) ]}.

Definition two_batches : list Z := [day; day + 1].

Lemma claims_reach_every_copy_witness :
  claims "o" 1 two_batches three_copies = ["b"; "a"] ∧ "a" ∈ claims "o" 1 two_batches three_copies.
Proof.
  split; [vm_compute; reflexivity|].
  assert (Forall (λ now, day <= now) two_batches) as Htimes by (repeat constructor; unfold day; lia).
  assert (length (due_rows "o" (day - DESTINATION_VERIFICATION_INTERVAL_MILLISECONDS) ∅ three_copies) <= length two_batches * 1)%nat
    as Hlen by (vm_compute; repeat constructor).
  refine (claims_reach_every_copy "o" 1 day two_batches three_copies Htimes Hlen "a" (verified_copy (Some 7)) _ _);
    vm_compute; reflexivity.
Defined.
End Samples.
