(* ===== verification/Ingestion.v ===== *)
(** * Calendar ingestion

    [server/src/sync/coordinator.ts]: the discovery of the calendars of a
    connection, the synchronisation of one calendar page by page, the absence
    that a complete scan implies, and the jobs that wake what depends on the
    calendar. What other transactions do before each statement is an argument,
    as is the clock. *)

From S2P Require Import Prelude Canonical Types Dates Temporal Text Evaluate Jobs Transaction Policies Store Effects Reconciliation Verification.
From stdpp Require Import options.
Open Scope Z_scope.

Definition MAX_PAGES_PER_SYNC : nat := 200.
Definition FULL_SYNC_REFRESH_MILLISECONDS : Z := 24 * 60 * 60000.
Definition MINIMUM_POLL_INTERVAL_MILLISECONDS : Z := 60000.

(** ** The provider *)

Record ProviderCalendar := {
  remoteId : string;
  calendar_name : string;
  calendar_timezone : string;
  accessRole : string;
  freeBusyReadable : option bool;
  remotely_readable : bool;
  remotely_writable : bool;
  primary : bool;
}.

Record ProviderEventPage := {
  page_observations : list SourceObservation;
  nextPageToken : option string;
  nextSyncToken : option string;
}.

Record ListRequest := {
  request_page : option string;
  request_sync : option string;
  request_min : option string;
  request_max : option string;
}.

(** The listing calls, by provider, token and calendar. *)
Class Listing (R : Type) := {
  list_calendars : string → string → R → res failure (list ProviderCalendar) * R;
  list_events : string → string → string → ListRequest → R → res failure ProviderEventPage * R;
}.

Inductive SyncCall :=
| ListCalendars (answer : res failure (list ProviderCalendar))
| ListEvents (calendar : string) (request : ListRequest) (answer : res failure ProviderEventPage)
| Verified (c : Call).

(** ** Observations as documents *)

Definition lifecycle_text (l : Lifecycle) : string :=
  match l with confirmed => "confirmed" | cancelled => "cancelled" | deleted => "deleted" end.
Definition origin_text (o : Origin) : string :=
  match o with provider_original => "provider_original" | planipus_managed => "planipus_managed" end.
Definition availability_text (a : Availability) : string := match a with busy => "busy" | free => "free" end.
Definition role_text (r : Role) : string :=
  match r with organizer_role => "organizer" | attendee_role => "attendee" | no_role => "none" end.
Definition response_text (r : Response) : string :=
  match r with accepted => "accepted" | tentative => "tentative" | declined => "declined"
             | needs_action => "needs_action" | not_applicable => "not_applicable" end.

Definition optional_json {A} (name : string) (f : A → json) (value : option A) : list (string * json) :=
  match value with Some v => [(name, f v)] | None => [] end.

Definition texts_json (texts : list string) : json := JArray (map JString texts).

Definition content_json (c : EventContent) : json :=
  JObject (optional_member "summary" (summary c) ++ optional_member "description" (description c)
           ++ optional_member "location" (location c) ++ optional_member "conference" (conference c)).

Definition recurrence_json (r : Recurrence) : json :=
  JObject [("mode", JString "materialized_occurrence"); ("series_ref", JString (series_ref r));
           ("original_start", JString (original_start r))].

(** [normalized_event], the document whose hash is [observation_hash]. *)
Definition observation_json (o : SourceObservation) : json :=
  JObject ([("source_event_ref", JString (source_event_ref o)); ("source_occurrence_ref", JString (source_occurrence_ref o));
            ("remote_revision", JString (remote_revision o)); ("lifecycle", JString (lifecycle_text (lifecycle o)));
            ("origin", JString (origin_text (origin o)))]
    ++ optional_json "timing" timing_json (timing o)
    ++ optional_json "recurrence" recurrence_json (recurrence o)
    ++ optional_json "availability" (λ a, JString (availability_text a)) (availability o)
    ++ [("relationship", JObject ([("role", JString (role_text (role (relationship o))));
                                   ("response", JString (response_text (response (relationship o))))]
                                  ++ optional_member "response_note" (response_note (relationship o))));
        ("destination_identity_invited", JBool (destination_identity_invited o)); ("content", content_json (content o))]
    ++ optional_json "attendees" texts_json (attendees o)
    ++ optional_member "organizer" (organizer o)
    ++ optional_json "attachments" texts_json (attachments o)
    ++ optional_member "source_url" (source_url o)
    ++ optional_json "provider_metadata" JObject (provider_metadata o)).

(** ** Roles *)

Definition roleCanSyncEventContent (role : string) : bool := (role =? "source")%string || (role =? "both")%string.

(** Readable and writable; the fourth parameter of the source is unused. *)
Definition policyCapabilitiesForRole (role : string) (remotelyReadable remotelyWritable : bool) : bool * bool :=
  (remotelyReadable && ((role =? "source")%string || (role =? "both")%string),
   remotelyWritable && ((role =? "destination")%string || (role =? "both")%string)).

Definition providerErrorCode (error : failure) : string :=
  match error with provider_failure e => code e | _ => "sync_failed" end.

Definition non_retryable (code : string) : failure := coded_failure code false.

Definition find_connection (organization connectionId : string) (d : Db) : option Connection.ConnectionRow :=
  c ← provider_connections d !! connectionId;
  if bool_decide (Connection.organization c = organization) then Some c else None.

Definition authorises_sync (c : option Connection.ConnectionRow) : bool :=
  match c with
  | Some c => (Connection.status c =? "active")%string && roleCanSyncEventContent (Connection.intended_role c)
  | None => false
  end.

(** ** Rows *)

Definition calendar_free_busy (calendar : ProviderCalendar) : bool := nullish (freeBusyReadable calendar) (remotely_readable calendar).

Definition discovered_endpoint (organization connection role : string) (calendar : ProviderCalendar) (now : Z)
    : Endpoint.EndpointRow :=
  let '(readable, writable) := policyCapabilitiesForRole role (remotely_readable calendar) (remotely_writable calendar) in
  {| Endpoint.organization := organization; Endpoint.connection := connection; Endpoint.remote_id := remoteId calendar;
     Endpoint.name := calendar_name calendar; Endpoint.timezone := calendar_timezone calendar;
     Endpoint.access_role := accessRole calendar; Endpoint.readable := readable; Endpoint.writable := writable;
     Endpoint.primary_calendar := primary calendar;
     Endpoint.capabilities := JObject [("private_visibility", JBool true); ("conference_copy", JBool false);
                                       ("color", JBool true); ("freebusy_readable", JBool (calendar_free_busy calendar))];
     Endpoint.updated_at := now |}.

Definition find_endpoint (connection remote : string) (d : Db) : option (string * Endpoint.EndpointRow) :=
  List.find (λ '(_, e), bool_decide (Endpoint.connection e = connection) && bool_decide (Endpoint.remote_id e = remote))
    (map_to_list (calendar_endpoints d)).

Definition connection_succeeded (now : Z) (c : Connection.ConnectionRow) : Connection.ConnectionRow :=
  {| Connection.organization := Connection.organization c; Connection.provider := Connection.provider c;
     Connection.account_label := Connection.account_label c; Connection.intended_role := Connection.intended_role c;
     Connection.status := Connection.status c; Connection.last_success_at := Some now;
     Connection.safe_error_code := None; Connection.updated_at := now |}.

Definition cursor_of (organization calendar fingerprint : string) (generation now : Z) : SyncCursor.CursorRow :=
  {| SyncCursor.organization := organization; SyncCursor.calendar := calendar;
     SyncCursor.query_fingerprint := fingerprint; SyncCursor.sync_token := None; SyncCursor.generation := generation;
     SyncCursor.state := SyncCursor.full_required; SyncCursor.last_started_at := None;
     SyncCursor.last_full_sync_at := None; SyncCursor.last_success_at := None; SyncCursor.safe_error_code := None;
     SyncCursor.updated_at := now |}.

(** The updates of a cursor: a reset, a start, a failure and a completion. *)
Definition reset_cursor (code : option string) (now : Z) (c : SyncCursor.CursorRow) : SyncCursor.CursorRow :=
  {| SyncCursor.organization := SyncCursor.organization c; SyncCursor.calendar := SyncCursor.calendar c;
     SyncCursor.query_fingerprint := SyncCursor.query_fingerprint c; SyncCursor.sync_token := None;
     SyncCursor.generation := SyncCursor.generation c + 1; SyncCursor.state := SyncCursor.full_required;
     SyncCursor.last_started_at := SyncCursor.last_started_at c;
     SyncCursor.last_full_sync_at := SyncCursor.last_full_sync_at c;
     SyncCursor.last_success_at := SyncCursor.last_success_at c; SyncCursor.safe_error_code := code;
     SyncCursor.updated_at := now |}.

Definition mark_cursor (state : SyncCursor.CursorState) (started : option Z) (code : option string) (now : Z)
    (c : SyncCursor.CursorRow) : SyncCursor.CursorRow :=
  {| SyncCursor.organization := SyncCursor.organization c; SyncCursor.calendar := SyncCursor.calendar c;
     SyncCursor.query_fingerprint := SyncCursor.query_fingerprint c; SyncCursor.sync_token := SyncCursor.sync_token c;
     SyncCursor.generation := SyncCursor.generation c; SyncCursor.state := state;
     SyncCursor.last_started_at := from_option Some (SyncCursor.last_started_at c) started;
     SyncCursor.last_full_sync_at := SyncCursor.last_full_sync_at c;
     SyncCursor.last_success_at := SyncCursor.last_success_at c; SyncCursor.safe_error_code := code;
     SyncCursor.updated_at := now |}.

Definition complete_cursor (token : string) (fullSync : bool) (now : Z) (c : SyncCursor.CursorRow)
    : SyncCursor.CursorRow :=
  {| SyncCursor.organization := SyncCursor.organization c; SyncCursor.calendar := SyncCursor.calendar c;
     SyncCursor.query_fingerprint := SyncCursor.query_fingerprint c; SyncCursor.sync_token := Some token;
     SyncCursor.generation := SyncCursor.generation c; SyncCursor.state := SyncCursor.ready;
     SyncCursor.last_started_at := SyncCursor.last_started_at c;
     SyncCursor.last_full_sync_at := if fullSync then Some now else SyncCursor.last_full_sync_at c;
     SyncCursor.last_success_at := Some now; SyncCursor.safe_error_code := None; SyncCursor.updated_at := now |}.

(** Every row of the calendar, as the table lists them. *)
Definition find_observation (calendar event occurrence : string) (d : Db) : option (string * Observation.ObservationRow) :=
  List.find (λ '(_, o), bool_decide (Observation.calendar o = calendar) && bool_decide (Observation.remote_event o = event)
                        && bool_decide (Observation.recurrence_identity o = occurrence)) (map_to_list (source_observations d)).

(** The row of an observation of a page, new or known. *)
Definition observed_row (organization calendar hash : string) (generation : Z) (o : SourceObservation) (now : Z)
    : Observation.ObservationRow :=
  {| Observation.organization := organization; Observation.calendar := calendar;
     Observation.remote_event := source_event_ref o; Observation.recurrence_identity := source_occurrence_ref o;
     Observation.remote_etag := non_empty (Some (remote_revision o)); Observation.event := o;
     Observation.observation_hash := hash; Observation.managed_copy := bool_decide (origin o = planipus_managed);
     Observation.tombstone := negb (bool_decide (lifecycle o = confirmed)); Observation.sync_generation := generation;
     Observation.observed_at := now; Observation.updated_at := now |}.

(** The tombstone of a row that a complete scan did not mention. *)
Definition absent_row (hash : string) (generation : Z) (now : Z) (o : Observation.ObservationRow) : Observation.ObservationRow :=
  {| Observation.organization := Observation.organization o; Observation.calendar := Observation.calendar o;
     Observation.remote_event := Observation.remote_event o;
     Observation.recurrence_identity := Observation.recurrence_identity o;
     Observation.remote_etag := Observation.remote_etag o; Observation.event := with_lifecycle deleted (Observation.event o);
     Observation.observation_hash := hash; Observation.managed_copy := Observation.managed_copy o;
     Observation.tombstone := true; Observation.sync_generation := generation; Observation.observed_at := now;
     Observation.updated_at := now |}.

Definition calendar_observations (organization calendar : string) (d : Db) : list (string * Observation.ObservationRow) :=
  List.filter (λ '(_, o), bool_decide (Observation.organization o = organization)
                          && bool_decide (Observation.calendar o = calendar)) (map_to_list (source_observations d)).

(** [max(generation)], [null] of no row. *)
Definition maximum (xs : list Z) : option Z :=
  foldr (λ x m, Some (match m with Some y => Z.max x y | None => x end)) None xs.

Definition next_generation (organization calendar : string) (d : Db) : Z :=
  Z.max (nullish (maximum (map SyncCursor.generation (map snd (List.filter (λ '(_, c),
           bool_decide (SyncCursor.organization c = organization) && bool_decide (SyncCursor.calendar c = calendar))
           (map_to_list (sync_cursors d)))))) 0)
        (nullish (maximum (map Observation.sync_generation (map snd (calendar_observations organization calendar d)))) 0) + 1.

Definition find_cursor (calendar fingerprint : string) (d : Db) : option (string * SyncCursor.CursorRow) :=
  List.find (λ '(_, c), bool_decide (SyncCursor.calendar c = calendar)
                        && bool_decide (SyncCursor.query_fingerprint c = fingerprint)) (map_to_list (sync_cursors d)).

Definition stale_rows (organization calendar : string) (generation : Z) (d : Db) : list (string * Observation.ObservationRow) :=
  List.filter (λ '(_, o), Observation.sync_generation o <? generation) (calendar_observations organization calendar d).

(** The active policies and rules that read the calendar. *)
Definition dependent_policies (organization calendar : string) (d : Db) : list (string * Z) :=
  map (λ '(id, p), (id, Policy.revision p))
    (List.filter (λ '(_, p), bool_decide (Policy.organization p = organization)
       && bool_decide (Policy.source_calendar p = calendar) && bool_decide (Policy.status p = Policy.active))
       (map_to_list (sync_policies d))).

Definition dependent_rules (organization calendar : string) (d : Db) : list (string * Z) :=
  map (λ '(id, r), (id, ConflictRule.revision r))
    (List.filter (λ '(_, r), bool_decide (ConflictRule.organization r = organization)
       && bool_decide (ConflictRule.response_calendar r = calendar) && ConflictRule.active r)
       (map_to_list (conflict_rules d))).

(** The provider of a calendar and the authority to read it. *)
Record CalendarJoin := {
  join_endpoint : Endpoint.EndpointRow;
  join_connection : Connection.ConnectionRow;
}.

Definition load_calendar (organization calendarId : string) (d : Db) : option CalendarJoin :=
  e ← calendar_endpoints d !! calendarId;
  c ← provider_connections d !! Endpoint.connection e;
  if bool_decide (Endpoint.organization e = organization) then Some {| join_endpoint := e; join_connection := c |} else None.

Definition calendar_available (j : option CalendarJoin) : bool :=
  match j with
  | Some j => Endpoint.readable (join_endpoint j) && (Connection.status (join_connection j) =? "active")%string
              && roleCanSyncEventContent (Connection.intended_role (join_connection j))
  | None => false
  end.

Section ingestion.
Context {R : Type} `{Provider R} `{Listing R} `{NewId} `{Unicode} `{Digest}.
Local Notation M := (Transaction.M Db R SyncCall).

(** ** Discovery *)

(** [insert into calendar_endpoints ... on conflict (connection_id, remote_id)
    do update ... returning id, readable]. *)
Definition upsert_calendar (organization connection role : string) (calendar : ProviderCalendar) (now : Z)
    : M (string * bool) :=
  calendarId ← fresh_id;
  known ← read_db (find_endpoint connection (remoteId calendar));
  match known with
  | Some (known, e) =>
      let row := discovered_endpoint (Endpoint.organization e) connection role calendar now in
      _ ← write_db (with_endpoints (λ t, <[known := row]> t));
      mret (known, Endpoint.readable row)
  | None =>
      taken ← read_db (λ d, bool_decide (is_Some (calendar_endpoints d !! calendarId)));
      if taken : bool then throw (unique_violation "calendar_endpoints_pkey")
      else
        let row := discovered_endpoint organization connection role calendar now in
        _ ← write_db (with_endpoints (λ t, <[calendarId := row]> t));
        mret (calendarId, Endpoint.readable row)
  end.

Definition enqueue_sync (organization calendarId : string) (now : Z) : M () :=
  enqueue_job organization "sync_calendar" ("calendar:" +:+ calendarId) [("calendar_id", JString calendarId)] now.

Definition discover_calendar (organization connection role : string) (now : Z) (calendar : ProviderCalendar) : M () :=
  '(calendarId, readable) ← upsert_calendar organization connection role calendar now;
  if readable && roleCanSyncEventContent role then enqueue_sync organization calendarId now else mret ().

Fixpoint for_each {A} (xs : list A) (f : A → M ()) : M () :=
  match xs with
  | [] => mret ()
  | x :: xs => _ ← f x; for_each xs f
  end.

Definition discoverCalendars (organization connectionId : string) (interfere : Db → Db) (now : Z) : M Z :=
  connection ← read_db (find_connection organization connectionId);
  match connection with
  | Some c =>
      if negb (Connection.status c =? "active")%string then throw (non_retryable "connection_unavailable")
      else
        _ ← lift (provider_resolve (Connection.provider c));
        token ← use_remote (provider_token organization connectionId);
        calendars ← call ListCalendars (list_calendars (Connection.provider c) token);
        _ ← write_db interfere;
        _ ← transaction (
          held ← read_db (find_connection organization connectionId);
          match held with
          | Some held =>
              if negb (Connection.status held =? "active")%string then throw (non_retryable "connection_unavailable")
              else
                _ ← for_each calendars (discover_calendar organization connectionId (Connection.intended_role held) now);
                write_db (with_connections (alter (connection_succeeded now) connectionId))
          | None => throw (non_retryable "connection_unavailable")
          end);
        mret (Z.of_nat (length calendars))
  | None => throw (non_retryable "connection_unavailable")
  end.

(** ** Pages *)

(** [insert into source_observations ... on conflict (calendar_endpoint_id,
    remote_event_id, recurrence_identity) do update]. *)
Definition upsert_observation (organization calendar : string) (generation now : Z) (o : SourceObservation) : M () :=
  observationHash ← lift (hash (observation_json o));
  observationId ← fresh_id;
  known ← read_db (find_observation calendar (source_event_ref o) (source_occurrence_ref o));
  match known with
  | Some (known, row) =>
      write_db (with_observations (λ t,
        <[known := observed_row (Observation.organization row) calendar observationHash generation o now]> t))
  | None =>
      taken ← read_db (λ d, bool_decide (is_Some (source_observations d !! observationId)));
      if taken : bool then throw (unique_violation "source_observations_pkey")
      else write_db (with_observations (λ t, <[observationId := observed_row organization calendar observationHash generation o now]> t))
  end.

Definition persistObservationPage (organization calendar : string) (generation : Z) (observations : list SourceObservation)
    (now : Z) : M () :=
  transaction (
    authority ← read_db (load_calendar organization calendar);
    if negb (authorises_sync (join_connection <$> authority)) then throw (non_retryable "connection_role_changed")
    else for_each observations (upsert_observation organization calendar generation now)).

(** The request of a page: the token of the cursor, or the window of the scan. *)
Definition page_request (syncToken : option string) (fullTimeMin fullTimeMax : string) (pageToken : option string)
    : ListRequest :=
  {| request_page := non_empty pageToken; request_sync := non_empty syncToken;
     request_min := if truthy syncToken then None else Some fullTimeMin;
     request_max := if truthy syncToken then None else Some fullTimeMax |}.

(** The [do ... while (pageToken)]; [remaining] pages may still be asked for,
    and [n] statements came before. *)
Fixpoint list_pages (remaining : nat) (organization calendar provider token remote : string) (generation : Z)
    (request : option string → ListRequest) (interfere : nat → Db → Db) (clock : nat → Z) (n : nat)
    (pageToken finalSyncToken : option string) (observed : Z) : M (nat * option string * Z) :=
  match remaining with
  | O => throw (provider_failure (provider_error "sync_page_limit" true))
  | S remaining =>
      page ← call (ListEvents remote (request pageToken)) (list_events provider token remote (request pageToken));
      _ ← write_db (interfere n);
      _ ← persistObservationPage organization calendar generation (page_observations page) (clock n);
      let observed := observed + Z.of_nat (length (page_observations page)) in
      let finalSyncToken := match nextSyncToken page with Some t => Some t | None => finalSyncToken end in
      if truthy (nextPageToken page)
      then list_pages remaining organization calendar provider token remote generation request interfere clock (S n)
             (nextPageToken page) finalSyncToken observed
      else mret (S n, finalSyncToken, observed)
  end.

(** ** The cursor *)

Definition open_cursor (organization calendar connection fingerprint : string) (now : Z) : M (string * SyncCursor.CursorRow) :=
  transaction (
    authority ← read_db (find_connection organization connection);
    if negb (authorises_sync authority) then throw (non_retryable "connection_role_changed")
    else
      generation ← read_db (next_generation organization calendar);
      cursorId ← fresh_id;
      known ← read_db (find_cursor calendar fingerprint);
      match known with
      | Some known => mret known
      | None =>
          taken ← read_db (λ d, bool_decide (is_Some (sync_cursors d !! cursorId)));
          if taken : bool then throw (unique_violation "sync_cursors_pkey")
          else
            let row := cursor_of organization calendar fingerprint generation now in
            _ ← write_db (with_cursors (λ t, <[cursorId := row]> t));
            mret (cursorId, row)
      end).

Definition set_cursor (cursorId : string) (f : SyncCursor.CursorRow → SyncCursor.CursorRow) : M () :=
  row ← read_db (λ d, sync_cursors d !! cursorId);
  match row with
  | Some c => write_db (with_cursors (λ t, <[cursorId := f c]> t))
  | None => throw no_result
  end.

(** The [catch] of the loop. *)
Definition on_sync_error (cursorId : string) (now : Z) (error : failure) : M (nat * option string * Z) :=
  let gone := match error with provider_failure e => bool_decide (http_status e = Some 410) | _ => false end in
  if gone then
    _ ← write_db (with_cursors (alter (reset_cursor (Some "cursor_reset") now) cursorId));
    throw (provider_failure (provider_error "cursor_reset" true))
  else
    _ ← write_db (with_cursors (alter (mark_cursor SyncCursor.action_required None (Some (providerErrorCode error)) now) cursorId));
    throw error.

(** ** Absence *)

Definition tombstone_row (generation now : Z) (row : string * Observation.ObservationRow) : M () :=
  let '(id, o) := row in
  absentHash ← lift (hash (observation_json (with_lifecycle deleted (Observation.event o))));
  held ← read_db (λ d, source_observations d !! id);
  match held with
  | Some held => write_db (with_observations (λ t, <[id := absent_row absentHash generation now held]> t))
  | None => throw no_result
  end.

(** ** Completion *)

Definition wake_policy (organization wakeup : string) (now : Z) (row : string * Z) : M () :=
  enqueue_job organization "reconcile_policy"
    ("policy:" +:+ row.1 +:+ ":revision:" +:+ pretty row.2 +:+ ":cursor:" +:+ wakeup) [("policy_id", JString row.1)] now.

Definition wake_rule (organization wakeup : string) (now : Z) (row : string * Z) : M () :=
  enqueue_job organization "reconcile_conflict_response_rule"
    ("conflict-response-rule:" +:+ row.1 +:+ ":revision:" +:+ pretty row.2 +:+ ":cursor:" +:+ wakeup)
    [("rule_id", JString row.1)] now.

Definition finish_sync (organization calendar connection cursorId : string) (generation : Z) (fullSync : bool)
    (finalSyncToken : string) (now : Z) : M () :=
  transaction (
    authority ← read_db (find_connection organization connection);
    if negb (authorises_sync authority) then throw (non_retryable "connection_role_changed")
    else
      _ ← (if fullSync then
             stale ← read_db (stale_rows organization calendar generation);
             for_each stale (tombstone_row generation now)
           else mret ());
      _ ← set_cursor cursorId (complete_cursor finalSyncToken fullSync now);
      policies ← read_db (dependent_policies organization calendar);
      rules ← read_db (dependent_rules organization calendar);
      wakeup ← lift (hash (JObject [("token", JString finalSyncToken); ("generation", int generation)]));
      _ ← for_each policies (wake_policy organization wakeup now);
      for_each rules (wake_rule organization wakeup now)).

(** A cursor whose scan is too old is reset; one polled less than a minute ago
    is left. *)
Definition refresh_due (now : Z) (c : SyncCursor.CursorRow) : bool :=
  truthy (SyncCursor.sync_token c)
  && match SyncCursor.last_full_sync_at c with Some t => FULL_SYNC_REFRESH_MILLISECONDS <=? now - t | None => true end.

Definition polled_recently (now : Z) (c : SyncCursor.CursorRow) : bool :=
  bool_decide (SyncCursor.state c = SyncCursor.ready)
  && match SyncCursor.last_started_at c with Some t => now - t <? MINIMUM_POLL_INTERVAL_MILLISECONDS | None => false end.

Definition day : Z := 86400000.

(** From the start of a scan to its end; statements are numbered from 2. *)
Definition run_sync (organization calendarId : string) (j : CalendarJoin) (cursorId : string) (c : SyncCursor.CursorRow)
    (interfere : nat → Db → Db) (clock : nat → Z) : M Z :=
  let e := join_endpoint j in
  let fullSync := bool_decide (SyncCursor.sync_token c = None) in
  let request := page_request (SyncCursor.sync_token c) (toISOString (clock 1%nat - FULL_SYNC_PAST_DAYS * day))
                   (toISOString (clock 1%nat + FULL_SYNC_FUTURE_DAYS * day)) in
  _ ← write_db (with_cursors (alter (mark_cursor SyncCursor.syncing (Some (clock 1%nat)) None (clock 1%nat)) cursorId));
  '(n, finalSyncToken, observed) ← try_catch (
      token ← use_remote (provider_token organization (Endpoint.connection e));
      _ ← lift (provider_resolve (Connection.provider (join_connection j)));
      list_pages MAX_PAGES_PER_SYNC organization calendarId (Connection.provider (join_connection j)) token
        (Endpoint.remote_id e) (SyncCursor.generation c) request interfere clock 2 None None 0)
    (on_sync_error cursorId (clock 1%nat));
  match non_empty finalSyncToken with
  | None => throw (provider_failure (provider_error "sync_token_missing" true))
  | Some finalSyncToken =>
      _ ← write_db (interfere n);
      _ ← finish_sync organization calendarId (Endpoint.connection e) cursorId (SyncCursor.generation c) fullSync
            finalSyncToken (clock n);
      mret observed
  end.

Definition syncCalendar (organization calendarId : string) (interfere : nat → Db → Db) (clock : nat → Z) : M Z :=
  joined ← read_db (load_calendar organization calendarId);
  match joined with
  | None => throw (non_retryable "calendar_unavailable")
  | Some j =>
      if negb (calendar_available (Some j)) then throw (non_retryable "calendar_unavailable")
      else
        queryFingerprint ← lift (calendarSyncQueryFingerprint (Connection.provider (join_connection j))
                                   (Endpoint.remote_id (join_endpoint j)));
        _ ← write_db (interfere 0%nat);
        '(cursorId, c) ← open_cursor organization calendarId (Endpoint.connection (join_endpoint j)) queryFingerprint (clock 0%nat);
        _ ← write_db (interfere 1%nat);
        if refresh_due (clock 1%nat) c then
          _ ← write_db (with_cursors (alter (λ row,
                if bool_decide (SyncCursor.sync_token row = SyncCursor.sync_token c)
                then reset_cursor None (clock 1%nat) row else row) cursorId));
          throw (provider_failure (provider_error "horizon_refresh" true))
        else if polled_recently (clock 1%nat) c then mret 0
        else run_sync organization calendarId j cursorId c interfere clock
  end.

(** ** The safety sync and the dispatch *)

Definition scheduleSafetySync (organization : string) (now : Z) : M () :=
  calendars ← read_db (λ d, map fst (List.filter (λ '(_, e), bool_decide (Endpoint.organization e = organization)
                                                            && Endpoint.readable e) (map_to_list (calendar_endpoints d))));
  _ ← for_each calendars (λ calendarId, enqueue_sync organization calendarId now);
  enqueue_job organization "verify_destinations"
    ("organization:" +:+ organization +:+ ":window:"
       +:+ pretty (now / Verification.DESTINATION_VERIFICATION_INTERVAL_MILLISECONDS)) [] now.

Definition requiredId (payload : json) (key : string) : res failure string :=
  match member (members_of payload) key with
  | JString s => if (String.length s <? 1)%nat then Throw (non_retryable "invalid_job_payload") else Ok s
  | _ => Throw (non_retryable "invalid_job_payload")
  end.

Definition enqueueSafetySweep (organization : string) (window now : Z) : M () :=
  enqueue_job organization "safety_sync" ("organization:" +:+ organization +:+ ":window:" +:+ pretty window) [] now.

(** A worker of another component, whose calls are recorded among these. *)
Definition as_sync {A} (m : Transaction.M Db R Call A) : M A := λ w,
  let '(r, w') := m {| db := db w; remote := remote w; calls := []; issued := issued w |} in
  (r, {| db := db w'; remote := remote w'; calls := calls w ++ map Verified (calls w'); issued := issued w' |}).

(** [dispatch]: whether the job ended; [fuel] is that of the pages of a
    reconciliation, [locked] the rows that other verifications hold. *)
Definition dispatch `{Temporal} (fuel : nat) (locked : gset string) (interfere : nat → Db → Db) (clock : nat → Z) (job : LeasedJob)
    : M bool :=
  let organization := organization_id (leased_key job) in
  let kind := job_kind (leased_key job) in
  if (kind =? "discover_calendars")%string then
    connectionId ← lift (requiredId (leased_payload job) "connection_id");
    _ ← discoverCalendars organization connectionId (interfere 0%nat) (clock 0%nat); mret true
  else if (kind =? "sync_calendar")%string then
    calendarId ← lift (requiredId (leased_payload job) "calendar_id");
    _ ← syncCalendar organization calendarId interfere clock; mret true
  else if (kind =? "reconcile_policy")%string then
    policyId ← lift (requiredId (leased_payload job) "policy_id");
    summary ← Reconciliation.reconcile fuel interfere clock organization policyId;
    mret (bool_decide (is_Some summary))
  else if (kind =? "verify_destinations")%string then
    _ ← as_sync (verifyBatch organization MAX_DESTINATION_VERIFICATIONS_PER_JOB locked interfere (clock 0%nat)); mret true
  else if (kind =? "safety_sync")%string then
    _ ← scheduleSafetySync organization (clock 0%nat); mret true
  else throw (non_retryable "unknown_job_kind").
End ingestion.

(** ** The mirror of a calendar *)

Section mirror.
Context `{Unicode} `{Digest}.
Context (organization calendar : string).
Implicit Types (d : Db) (o : SourceObservation) (row : Observation.ObservationRow).

Definition key_of row : string * string := (Observation.remote_event row, Observation.recurrence_identity row).
Definition source_key o : string * string := (source_event_ref o, source_occurrence_ref o).

Definition row_of (d : Db) (k : string * string) : option Observation.ObservationRow :=
  snd <$> find_observation calendar k.1 k.2 d.

(** What the calendar holds, as the observations tell: the live events by key. *)
Definition mirrored (d : Db) (k : string * string) : option SourceObservation :=
  row ← row_of d k; if Observation.tombstone row then None else Some (Observation.event row).

(** The rows of the calendar: one for each event and occurrence, of its
    organization, with the document that was hashed, a tombstone exactly when
    the event is not confirmed, and the key of the event. *)
Record row_kept (row : Observation.ObservationRow) : Prop := {
  kept_organization : Observation.organization row = organization;
  kept_hash : hash (observation_json (Observation.event row)) = Ok (Observation.observation_hash row);
  kept_tombstone : Observation.tombstone row = negb (bool_decide (lifecycle (Observation.event row) = confirmed));
  kept_managed : Observation.managed_copy row = bool_decide (origin (Observation.event row) = planipus_managed);
  kept_key : key_of row = source_key (Observation.event row);
}.

Record well_kept (d : Db) : Prop := {
  kept_once : ∀ i j x y, source_observations d !! i = Some x → source_observations d !! j = Some y →
    Observation.calendar x = calendar → Observation.calendar y = calendar → key_of x = key_of y → i = j;
  kept_rows : ∀ i x, source_observations d !! i = Some x → Observation.calendar x = calendar → row_kept x;
}.

(** Two databases that agree on the observations of the calendar. *)
Definition same_calendar (d d' : Db) : Prop :=
  ∀ i x, Observation.calendar x = calendar → source_observations d' !! i = Some x ↔ source_observations d !! i = Some x.

Lemma find_observation_Some k d i row :
  find_observation calendar k.1 k.2 d = Some (i, row) →
  source_observations d !! i = Some row ∧ Observation.calendar row = calendar ∧ key_of row = k.
Proof using Type.
  unfold find_observation. intros [Hin Heq]%List.find_some. bool_to_prop.
  apply list_elem_of_In, elem_of_map_to_list in Hin. split_and!; [done|done|]. unfold key_of. destruct k. cbn in *. congruence.
Qed.

Lemma find_observation_None k d i row :
  find_observation calendar k.1 k.2 d = None → source_observations d !! i = Some row →
  Observation.calendar row = calendar → key_of row ≠ k.
Proof using Type.
  unfold find_observation. intros Hnone Hi Hc Hk.
  assert ((i, row) ∈ map_to_list (source_observations d)) as Hin by by apply elem_of_map_to_list.
  apply list_elem_of_In in Hin. apply (List.find_none _ _ Hnone) in Hin. subst k. unfold key_of in Hin. cbn in Hin.
  by rewrite !bool_decide_eq_true_2 in Hin.
Qed.

Lemma row_of_Some k d row :
  well_kept d →
  row_of d k = Some row ↔ ∃ i, source_observations d !! i = Some row ∧ Observation.calendar row = calendar ∧ key_of row = k.
Proof using Type.
  intros Hkept. unfold row_of. split.
  - intros ([i x] & Hf & Hx)%fmap_Some. cbn in Hx. subst x. exists i. by apply find_observation_Some.
  - intros (i & Hi & Hc & Hk). destruct (find_observation calendar k.1 k.2 d) as [[j x]|] eqn:Hf.
    + apply find_observation_Some in Hf as (Hj & Hcx & Hkx).
      assert (i = j) as -> by (eapply (kept_once _ Hkept); [exact Hi|exact Hj|done|done|congruence]). cbn. congruence.
    + by destruct (find_observation_None _ _ _ _ Hf Hi Hc).
Qed.

Lemma option_ext_Some {A} (x y : option A) : (∀ a, x = Some a ↔ y = Some a) → x = y.
Proof using Type. intros Hxy. apply option_eq. exact Hxy. Qed.

Lemma same_calendar_kept d d' : same_calendar d d' → well_kept d → well_kept d'.
Proof using Type.
  intros Hsame [Honce Hrows]. split.
  - intros i j x y Hi Hj Hx Hy. apply Hsame in Hi, Hj; [|done..]. by apply Honce.
  - intros i x Hi Hx. apply Hsame in Hi; [|done]. by apply (Hrows i).
Qed.

Lemma same_calendar_row_of d d' k : same_calendar d d' → well_kept d → row_of d' k = row_of d k.
Proof using Type.
  intros Hsame Hkept. apply option_ext_Some. intros row.
  rewrite (row_of_Some k d') by by eapply same_calendar_kept. rewrite row_of_Some by done.
  split; intros (i & Hi & Hc & Hk); exists i; (split; [|done]); by apply (Hsame i row Hc).
Qed.

(** Writing a row at its key: a new row, or the row of the key again. *)
Lemma well_kept_insert d d' i row :
  well_kept d → source_observations d' = <[i := row]> (source_observations d) →
  Observation.calendar row = calendar → row_kept row →
  (row_of d (key_of row) = None ∧ source_observations d !! i = None ∨
   ∃ old, source_observations d !! i = Some old ∧ Observation.calendar old = calendar ∧ key_of old = key_of row) →
  well_kept d' ∧ row_of d' (key_of row) = Some row ∧ ∀ k, k ≠ key_of row → row_of d' k = row_of d k.
Proof using Type.
  intros Hkept Hd' Hc Hrow Hat.
  assert (∀ j x, source_observations d !! j = Some x → Observation.calendar x = calendar → key_of x = key_of row → i = j) as Hmine.
  { intros j x Hj Hx Hk. destruct Hat as [[Hnone _]|(old & Hold & Hoc & Hok)].
    - exfalso. assert (row_of d (key_of row) = Some x) by (apply row_of_Some; [done|]; eauto). congruence.
    - eapply (kept_once _ Hkept); [exact Hold|exact Hj|done|done|congruence]. }
  assert (well_kept d') as Hkept'.
  { split.
    - intros a b x y Ha Hb Hx Hy Hk. rewrite Hd' in Ha, Hb.
      destruct (decide (a = i)) as [->|Ha']; [|rewrite lookup_insert_ne in Ha by done];
        (destruct (decide (b = i)) as [->|Hb']; [|rewrite lookup_insert_ne in Hb by done]); try done.
      + rewrite lookup_insert_eq in Ha. injection Ha as <-. by apply (Hmine b y).
      + rewrite lookup_insert_eq in Hb. injection Hb as <-. symmetry. by apply (Hmine a x).
      + by eapply (kept_once _ Hkept); [exact Ha|exact Hb|..].
    - intros a x Ha Hx. rewrite Hd' in Ha. apply lookup_insert_Some in Ha as [[_ <-]|[_ Ha]]; [done|]. by apply (kept_rows _ Hkept a). }
  split; [done|]. split.
  - apply row_of_Some; [done|]. exists i. rewrite Hd', lookup_insert_eq. done.
  - intros k Hk. apply option_ext_Some. intros x. rewrite !row_of_Some by done. rewrite Hd'.
    split; intros (j & Hj & Hx & Hkx); exists j; (split; [|done]).
    + apply lookup_insert_Some in Hj as [[_ <-]|[_ Hj]]; [congruence|done].
    + rewrite lookup_insert_ne; [done|]. intros ->. destruct Hat as [[_ Hnone]|(old & Hold & _ & Hok)]; congruence.
Qed.

(** ** What a list of observations does to the mirror *)

(** The last observation of the list with the key. *)
Definition last_mention (k : string * string) (changes : list SourceObservation) : option SourceObservation :=
  List.find (λ o, bool_decide (source_key o = k)) (rev changes).

Definition live (o : SourceObservation) : option SourceObservation :=
  if bool_decide (lifecycle o = confirmed) then Some o else None.

Lemma last_mention_app k xs ys :
  last_mention k (xs ++ ys) = match last_mention k ys with Some o => Some o | None => last_mention k xs end.
Proof using Type.
  unfold last_mention. rewrite rev_app_distr. induction (rev ys) as [|y l IH]; [done|]. cbn. by destruct (bool_decide _).
Qed.

(** The rows after the observations were stored in the generation. *)
Definition absorbed (generation : Z) (changes : list SourceObservation) (d d' : Db) : Prop :=
  well_kept d' ∧ ∀ k,
    match last_mention k changes with
    | Some o => ∃ row, row_of d' k = Some row ∧ Observation.event row = o ∧ Observation.sync_generation row = generation
    | None => row_of d' k = row_of d k
    end.

Lemma absorbed_nil generation d d' : well_kept d → same_calendar d d' → absorbed generation [] d d'.
Proof using Type.
  intros Hkept Hsame. split; [by eapply same_calendar_kept|]. intros k. cbn. by apply same_calendar_row_of.
Qed.

Lemma absorbed_app generation xs ys d1 d2 d3 :
  absorbed generation xs d1 d2 → absorbed generation ys d2 d3 → absorbed generation (xs ++ ys) d1 d3.
Proof using Type.
  intros [_ Hx] [Hkept Hy]. split; [done|]. intros k. specialize (Hx k). specialize (Hy k). rewrite last_mention_app.
  destruct (last_mention k ys); [done|]. by rewrite Hy.
Qed.

Lemma absorbed_mirrored generation changes d d' k :
  absorbed generation changes d d' →
  mirrored d' k = match last_mention k changes with Some o => live o | None => mirrored d k end.
Proof using Type.
  intros [Hkept Hk]. specialize (Hk k). unfold mirrored. destruct (last_mention k changes) as [o|] eqn:Hm; [|by rewrite Hk].
  destruct Hk as (row & Hrow & Hev & _). rewrite Hrow. cbn. apply row_of_Some in Hrow as (i & Hi & Hc & _); [|done].
  destruct (kept_rows _ Hkept i row Hi Hc) as [_ _ -> _ _]. subst o. unfold live. by destruct (bool_decide _).
Qed.
End mirror.

Section storing.
Context {R : Type} `{Provider R} `{Listing R} `{NewId} `{Unicode} `{Digest}.
Context (organization calendar : string).
Implicit Types w : Transaction.World Db R SyncCall.

(** Ids still to be given out stay free. *)
Definition keeps_fresh w w' : Prop :=
  (issued w <= issued w')%nat ∧ (fresh_jobs (issued w) (db w) → fresh_jobs (issued w') (db w')).

Lemma keeps_fresh_trans w1 w2 w3 : keeps_fresh w1 w2 → keeps_fresh w2 w3 → keeps_fresh w1 w3.
Proof using Type. unfold keeps_fresh. intros [? ?] [? ?]. split; [lia|auto]. Qed.

Lemma keeps_fresh_jobs w w' : (issued w <= issued w')%nat → scheduled_jobs (db w') = scheduled_jobs (db w) → keeps_fresh w w'.
Proof using Type. intros Hle Hjobs. split; [done|]. intros Hfresh k Hk. rewrite Hjobs. apply Hfresh. lia. Qed.

Lemma observed_row_kept hash' generation o now :
  hash (observation_json o) = Ok hash' → row_kept organization (observed_row organization calendar hash' generation o now).
Proof using Type. intros Hh. by split. Qed.

Lemma upsert_observation_wp generation now o w :
  well_kept organization calendar (db w) →
  wp (upsert_observation organization calendar generation now o) w (λ r w', calls w' = calls w ∧ keeps_fresh w w' ∧
    (∀ u, r = Ok u → absorbed organization calendar generation [o] (db w) (db w'))).
Proof using Type.
  intros Hkept. unfold upsert_observation. do 2 wp_step. destruct (hash (observation_json o)) as [h|e] eqn:Hh; [|done].
  do 4 wp_step. cbn [db issued].
  assert (∀ i row, row = observed_row organization calendar h generation o now →
    (row_of calendar (db w) (key_of row) = None ∧ source_observations (db w) !! i = None ∨
     ∃ old, source_observations (db w) !! i = Some old ∧ Observation.calendar old = calendar ∧ key_of old = key_of row) →
    absorbed organization calendar generation [o] (db w) (with_observations (λ t, <[i := row]> t) (db w))) as Habs.
  { intros i row -> Hat. destruct (well_kept_insert organization calendar (db w)
      (with_observations (λ t, <[i := observed_row organization calendar h generation o now]> t) (db w)) i
      (observed_row organization calendar h generation o now)) as (Hkept' & Hat' & Helse); [done..|by apply observed_row_kept|done|].
    split; [done|]. intros k. unfold last_mention. cbn. case_bool_decide as Hk.
    - subst k. eexists. split; [exact Hat'|done].
    - by apply Helse. }
  destruct (find_observation _ _ _ _) as [[i old]|] eqn:Hf.
  - wp_step. cbn [db calls issued]. split_and!; [done|by apply keeps_fresh_jobs; cbn; [lia|]|]. intros _ _.
    apply (find_observation_Some calendar (source_key o)) in Hf as (Hi & Hc & Hk).
    rewrite (kept_organization _ _ (kept_rows _ _ _ Hkept i old Hi Hc)). apply Habs; [done|]. right. by exists old.
  - do 2 wp_step. case_bool_decide as Htaken; wp_step; cbn [db calls issued].
    + split_and!; [done|by apply keeps_fresh_jobs; cbn; [lia|]|done].
    + split_and!; [done|by apply keeps_fresh_jobs; cbn; [lia|]|]. intros _ _. apply Habs; [done|]. left. split.
      * unfold row_of, key_of. cbn. by rewrite Hf.
      * by apply eq_None_not_Some.
Qed.

Lemma for_each_upsert_wp generation now observations w :
  well_kept organization calendar (db w) →
  wp (for_each observations (upsert_observation organization calendar generation now)) w (λ r w',
    calls w' = calls w ∧ keeps_fresh w w' ∧
    (∀ u, r = Ok u → absorbed organization calendar generation observations (db w) (db w'))).
Proof using Type.
  revert w. induction observations as [|o observations IH]; intros w Hkept; cbn [for_each].
  - wp_step. split_and!; [done|done|]. intros _ _. by apply absorbed_nil.
  - wp_step. eapply wp_mono; [by apply upsert_observation_wp|]. cbn beta. intros [u|e] w1 (Hcalls & Hfresh & Habs); [|by split_and!].
    specialize (Habs u eq_refl). eapply wp_mono; [by apply IH, Habs|]. cbn beta. intros r w2 (Hcalls2 & Hfresh2 & Habs2).
    split_and!; [congruence|by eapply keeps_fresh_trans|]. intros u' ->.
    change (o :: observations) with ([o] ++ observations). eapply absorbed_app; [exact Habs|by eapply Habs2].
Qed.

Lemma persist_wp generation observations now w :
  well_kept organization calendar (db w) →
  wp (persistObservationPage organization calendar generation observations now) w (λ r w',
    calls w' = calls w ∧ keeps_fresh w w' ∧
    match r with
    | Ok _ => absorbed organization calendar generation observations (db w) (db w')
    | Throw _ => db w' = db w
    end).
Proof using Type.
  intros Hkept. unfold persistObservationPage. do 3 wp_step. destruct (negb _); [by wp_step|].
  eapply wp_mono; [by apply for_each_upsert_wp|]. cbn beta. intros [u|e] w' (Hcalls & Hfresh & Habs); cbn [db calls].
  - split_and!; [done|done|by eapply Habs].
  - split_and!; [done| |done]. destruct Hfresh as [Hle _]. by apply keeps_fresh_jobs.
Qed.

(** ** Pages *)

(** The calls that ask for the pages, from the first token on. *)
Fixpoint calls_of (remote : string) (request : option string → ListRequest) (pageToken : option string)
    (pages : list ProviderEventPage) : list SyncCall :=
  match pages with
  | [] => []
  | page :: pages => ListEvents remote (request pageToken) (Ok page) :: calls_of remote request (nextPageToken page) pages
  end.

(** Every page but the last names a next one. *)
Fixpoint complete (pages : list ProviderEventPage) : Prop :=
  match pages with
  | [] => False
  | [page] => truthy (nextPageToken page) = false
  | page :: pages => truthy (nextPageToken page) = true ∧ complete pages
  end.

Definition observations_of (pages : list ProviderEventPage) : list SourceObservation := concat (map page_observations pages).

Definition final_token (first : option string) (pages : list ProviderEventPage) : option string :=
  fold_left (λ token page, match nextSyncToken page with Some t => Some t | None => token end) pages first.

(** A cursor of the calendar keeps its token and its generation, or has no token. *)
Definition tokens_kept (d d' : Db) : Prop :=
  ∀ id c', sync_cursors d' !! id = Some c' → SyncCursor.calendar c' = calendar →
    SyncCursor.sync_token c' = None ∨
    ∃ c, sync_cursors d !! id = Some c ∧ SyncCursor.calendar c = calendar ∧
      SyncCursor.sync_token c' = SyncCursor.sync_token c ∧ SyncCursor.generation c' = SyncCursor.generation c.

(** Other transactions leave the observations and the tokens of the calendar,
    and the ids that are still to be given out. *)
Definition undisturbed (interfere : nat → Db → Db) : Prop :=
  ∀ n d, same_calendar calendar d (interfere n d) ∧ tokens_kept d (interfere n d) ∧
    ∀ k, fresh_jobs k d → fresh_jobs k (interfere n d).

Lemma tokens_kept_refl d d' : sync_cursors d' = sync_cursors d → tokens_kept d d'.
Proof using Type. intros Hd id c Hc Hcal. right. exists c. by rewrite <- Hd. Qed.

Lemma tokens_kept_trans d1 d2 d3 : tokens_kept d1 d2 → tokens_kept d2 d3 → tokens_kept d1 d3.
Proof using Type.
  intros H12 H23 id c3 Hc3 Hcal3. destruct (H23 id c3 Hc3 Hcal3) as [Hnone|(c2 & Hc2 & Hcal2 & Ht & Hg)]; [by left|].
  destruct (H12 id c2 Hc2 Hcal2) as [Hnone|(c1 & Hc1 & Hcal1 & Ht1 & Hg1)]; [left; congruence|].
  right. exists c1. split_and!; congruence.
Qed.

Lemma persist_cursors generation observations now w :
  wp (persistObservationPage organization calendar generation observations now) w (λ _ w',
    sync_cursors (db w') = sync_cursors (db w)).
Proof using Type.
  unfold persistObservationPage. do 3 wp_step. destruct (negb _); [by wp_step|].
  assert (∀ w1, wp (for_each observations (upsert_observation organization calendar generation now)) w1 (λ _ w',
    sync_cursors (db w') = sync_cursors (db w1))) as Hall.
  { induction observations as [|o observations IH]; intros w1; cbn [for_each]; [by wp_step|].
    wp_step. eapply (wp_mono _ _ (λ _ w', sync_cursors (db w') = sync_cursors (db w1))).
    - unfold upsert_observation. do 2 wp_step. destruct (hash _); [|done]. do 4 wp_step.
      destruct (find_observation _ _ _ _) as [[i old]|]; [by wp_step|]. do 2 wp_step. case_bool_decide; by wp_step.
    - cbn beta. intros [u|e] w2 Hw2; [|done]. eapply wp_mono; [apply IH|]. cbn beta. intros r w3 Hw3. congruence. }
  eapply wp_mono; [apply Hall|]. cbn beta. by intros [u|e] w' Hw'.
Qed.

Lemma list_pages_wp remaining provider token remote generation request interfere clock n pageToken final observed w :
  undisturbed interfere → well_kept organization calendar (db w) →
  wp (list_pages remaining organization calendar provider token remote generation request interfere clock n pageToken final observed)
    w (λ r w', keeps_fresh w w' ∧ ∃ pages,
      absorbed organization calendar generation (observations_of pages) (db w) (db w') ∧
      match r with
      | Ok (_, token', observed') =>
          calls w' = calls w ++ calls_of remote request pageToken pages ∧ complete pages ∧
          token' = final_token final pages ∧ observed' = observed + Z.of_nat (length (observations_of pages)) ∧
          (length pages <= remaining)%nat
      | Throw _ => True
      end).
Proof using Type.
  intros Hquiet. revert n pageToken final observed w. induction remaining as [|remaining IH]; intros n pageToken final observed w Hkept;
    cbn [list_pages].
  - wp_step. split; [done|]. exists []. split; [|done]. by apply absorbed_nil.
  - do 2 wp_step. destruct r as [page|e]; cbn [db calls].
    2: { split; [by apply keeps_fresh_jobs|]. exists []. split; [|done]. by apply absorbed_nil. }
    do 2 wp_step. destruct (Hquiet n (db w)) as (Hsame & _ & Hfree).
    set (w1 := {| db := interfere n (db w); remote := remote'; calls := calls w ++ [ListEvents remote (request pageToken) (Ok page)];
                  issued := issued w |}).
    assert (keeps_fresh w w1) as Hw1 by (split; [done|apply Hfree]).
    assert (well_kept organization calendar (db w1)) as Hkept1 by by eapply same_calendar_kept.
    assert (absorbed organization calendar generation [] (db w) (db w1)) as Habs1 by by apply absorbed_nil.
    wp_step. eapply wp_mono; [by apply persist_wp|]. cbn beta. intros [u|e] w2 (Hcalls & Hfresh & Habs).
    2: { split; [by eapply keeps_fresh_trans|]. exists []. by rewrite Habs. }
    assert (absorbed organization calendar generation (page_observations page) (db w) (db w2)) as Habs2
      by (change (page_observations page) with ([] ++ page_observations page); by eapply absorbed_app).
    destruct (truthy (nextPageToken page)) eqn:Hnext.
    + eapply wp_mono; [apply IH, Habs|]. cbn beta. intros r w3 (Hfresh3 & pages & Habs3 & Hr).
      split; [by do 2 (eapply keeps_fresh_trans; [eassumption|])|]. exists (page :: pages). split; [by eapply absorbed_app|].
      destruct r as [[[n' token'] observed']|e]; [|done]. destruct Hr as (Hc & Hcomplete & Htoken & Hobs & Hlen).
      split_and!.
      * rewrite Hc, Hcalls. cbn. by rewrite <- app_assoc.
      * cbn. destruct pages; [done|]. by split.
      * by rewrite Htoken.
      * rewrite Hobs. unfold observations_of. cbn. rewrite length_app. lia.
      * cbn. lia.
    + wp_step. split; [by do 2 (eapply keeps_fresh_trans; [eassumption|])|]. exists [page]. unfold observations_of. cbn. rewrite app_nil_r.
      split_and!; try done. lia.
Qed.

Lemma list_pages_tokens remaining provider token remote generation request interfere clock n pageToken final observed w :
  undisturbed interfere →
  wp (list_pages remaining organization calendar provider token remote generation request interfere clock n pageToken final observed)
    w (λ _ w', tokens_kept (db w) (db w')).
Proof using Type.
  intros Hquiet. revert n pageToken final observed w.
  induction remaining as [|remaining IH]; intros n pageToken final observed w; cbn [list_pages]; [wp_step; by apply tokens_kept_refl|].
  do 2 wp_step. destruct r as [page|e]; cbn [db]; [|by apply tokens_kept_refl]. do 3 wp_step.
  destruct (Hquiet n (db w)) as (_ & Hkeep & _).
  eapply wp_mono; [apply persist_cursors|]. cbn beta. intros r w1 Hw1. cbn [db] in Hw1.
  assert (tokens_kept (db w) (db w1)) as Ht by (eapply tokens_kept_trans; [exact Hkeep|by apply tokens_kept_refl]).
  destruct r as [u|e]; [|done]. destruct (truthy _); [|by wp_step].
  eapply wp_mono; [apply IH|]. cbn beta. intros r w2 Hw2. by eapply tokens_kept_trans.
Qed.

(** ** Absence *)

Definition outdated (generation : Z) (row : Observation.ObservationRow) : bool := Observation.sync_generation row <? generation.

(** The rows after the older ones became tombstones. *)
Definition swept (generation : Z) (d d' : Db) : Prop :=
  well_kept organization calendar d' ∧ ∀ k,
    match row_of calendar d k with
    | Some row =>
        if outdated generation row
        then ∃ row', row_of calendar d' k = Some row' ∧ Observation.tombstone row' = true ∧
               Observation.event row' = with_lifecycle deleted (Observation.event row)
        else row_of calendar d' k = Some row
    | None => row_of calendar d' k = None
    end.

Lemma tombstone_all_wp generation now todo w :
  NoDup todo.*1 → (∀ id row, (id, row) ∈ todo → source_observations (db w) !! id = Some row) →
  wp (for_each todo (tombstone_row generation now)) w (λ r w', calls w' = calls w ∧ keeps_fresh w w' ∧
    ∃ t', db w' = with_observations (λ _, t') (db w) ∧ ∀ u, r = Ok u →
      (∀ id row, (id, row) ∈ todo → ∃ h, hash (observation_json (with_lifecycle deleted (Observation.event row))) = Ok h ∧
         t' !! id = Some (absent_row h generation now row)) ∧
      (∀ id, id ∉ todo.*1 → t' !! id = source_observations (db w) !! id)).
Proof using Type.
  revert w. induction todo as [|[id row] todo IH]; intros w Hnd Hin; cbn [for_each].
  - wp_step. split_and!; [done|done|]. exists (source_observations (db w)). split; [by destruct (db w)|]. intros _ _.
    split; [|done]. intros id row Hrow. by apply not_elem_of_nil in Hrow.
  - rewrite fmap_cons in Hnd. apply NoDup_cons in Hnd as [Hnotin Hnd]. wp_step. unfold tombstone_row at 1. do 2 wp_step.
    destruct (hash _) as [h|e] eqn:Hh.
    2: { split_and!; [done|done|]. exists (source_observations (db w)). split; [by destruct (db w)|done]. }
    do 2 wp_step. rewrite (Hin id row) by by left. wp_step.
    set (w1 := {| db := with_observations (λ t, <[id := absent_row h generation now row]> t) (db w); remote := remote w;
                  calls := calls w; issued := issued w |}).
    eapply wp_mono; [apply (IH w1); [done|]|].
    + intros i r Hir. cbn. rewrite lookup_insert_ne; [apply Hin; by right|]. intros ->. apply Hnotin.
      apply list_elem_of_fmap. by exists (i, r).
    + cbn beta. intros r w2 (Hcalls & Hfresh & t' & Hdb & Hall). split; [done|]. split.
      { eapply keeps_fresh_trans; [|exact Hfresh]. by apply keeps_fresh_jobs. }
      exists t'. split; [by rewrite Hdb|]. intros u Hu. destruct (Hall u Hu) as [Hdone Hrest]. split.
      * intros i q [Heq|Hiq]%elem_of_cons; [|by apply Hdone]. injection Heq as -> ->. exists h. split; [done|].
        rewrite Hrest by done. cbn. by rewrite lookup_insert_eq.
      * rewrite fmap_cons. intros i [Hne Hi]%not_elem_of_cons. rewrite Hrest by done. cbn. by rewrite lookup_insert_ne by done.
Qed.

Lemma elem_of_stale generation d id row :
  (id, row) ∈ stale_rows organization calendar generation d ↔ source_observations d !! id = Some row ∧
    Observation.organization row = organization ∧ Observation.calendar row = calendar ∧ outdated generation row = true.
Proof using Type.
  unfold stale_rows, calendar_observations. rewrite !list_elem_of_In, !filter_In, <- list_elem_of_In, elem_of_map_to_list.
  rewrite andb_true_iff, !bool_decide_eq_true. tauto.
Qed.

Lemma absent_row_kept h generation now row :
  row_kept organization row → hash (observation_json (with_lifecycle deleted (Observation.event row))) = Ok h →
  row_kept organization (absent_row h generation now row).
Proof using Type. intros [Horg _ _ Hman Hkey] Hh. by split. Qed.

Lemma swept_of_tombstones generation now d t' :
  well_kept organization calendar d →
  (∀ id row, (id, row) ∈ stale_rows organization calendar generation d →
     ∃ h, hash (observation_json (with_lifecycle deleted (Observation.event row))) = Ok h ∧
       t' !! id = Some (absent_row h generation now row)) →
  (∀ id, id ∉ (stale_rows organization calendar generation d).*1 → t' !! id = source_observations d !! id) →
  swept generation d (with_observations (λ _, t') d).
Proof using Type.
  intros Hkept Hdone Hrest. set (d' := with_observations (λ _, t') d).
  assert (∀ id x, source_observations d !! id = Some x → Observation.calendar x = calendar →
    ∃ x', t' !! id = Some x' ∧ Observation.calendar x' = calendar ∧ key_of x' = key_of x ∧ row_kept organization x' ∧
      if outdated generation x
      then Observation.tombstone x' = true ∧ Observation.event x' = with_lifecycle deleted (Observation.event x) else x' = x)
    as Hafter.
  { intros id x Hx Hc. pose proof (kept_rows _ _ _ Hkept id x Hx Hc) as Hrow. destruct (outdated generation x) eqn:Hout.
    - destruct (Hdone id x) as (h & Hh & Ht); [apply elem_of_stale; by split_and!; [|apply Hrow|..]|].
      exists (absent_row h generation now x). split_and!; try done. by apply absent_row_kept.
    - exists x. split_and!; try done. rewrite Hrest; [done|]. intros ([i y] & Heq & Hy)%list_elem_of_fmap. cbn in Heq. subst i.
      apply elem_of_stale in Hy as (Hy & _ & _ & Hout'). congruence. }
  assert (∀ id x', t' !! id = Some x' → Observation.calendar x' = calendar →
    ∃ x, source_observations d !! id = Some x ∧ Observation.calendar x = calendar) as Hbefore.
  { intros id x' Ht Hc. destruct (decide (id ∈ (stale_rows organization calendar generation d).*1)) as [Hin|Hout].
    - apply list_elem_of_fmap in Hin as ([i y] & -> & Hy). apply elem_of_stale in Hy as (Hy & _ & Hyc & _). by exists y.
    - rewrite Hrest in Ht by done. by exists x'. }
  assert (well_kept organization calendar d') as Hkept'.
  { split.
    - intros i k x y Hi Hk Hx Hy Hkey. cbn in Hi, Hk.
      destruct (Hbefore i x Hi Hx) as (x0 & Hx0 & Hcx). destruct (Hbefore k y Hk Hy) as (y0 & Hy0 & Hcy).
      destruct (Hafter i x0 Hx0 Hcx) as (x1 & Hx1 & _ & Hkx & _). destruct (Hafter k y0 Hy0 Hcy) as (y1 & Hy1 & _ & Hky & _).
      assert (x1 = x) as -> by congruence. assert (y1 = y) as -> by congruence.
      eapply (kept_once _ _ _ Hkept); [exact Hx0|exact Hy0|done|done|congruence].
    - intros i x Hi Hx. cbn in Hi. destruct (Hbefore i x Hi Hx) as (x0 & Hx0 & Hcx).
      destruct (Hafter i x0 Hx0 Hcx) as (x1 & Hx1 & _ & _ & Hrow & _). by assert (x1 = x) as <- by congruence. }
  split; [done|]. intros k. destruct (row_of calendar d k) as [row|] eqn:Hr.
  - apply (row_of_Some organization) in Hr as (i & Hi & Hc & Hk); [|done].
    destruct (Hafter i row Hi Hc) as (x' & Hx' & Hc' & Hkey & _ & Hx). destruct (outdated generation row).
    + exists x'. split; [|done]. apply (row_of_Some organization); [done|]. exists i. split_and!; [done|done|congruence].
    + subst x'. apply (row_of_Some organization); [done|]. by exists i.
  - destruct (row_of calendar d' k) as [x'|] eqn:Hx'; [|done]. exfalso.
    apply (row_of_Some organization) in Hx' as (i & Hi & Hc & Hk); [|done]. cbn in Hi.
    destruct (Hbefore i x' Hi Hc) as (x & Hx & Hcx). destruct (Hafter i x Hx Hcx) as (x1 & Hx1 & _ & Hkx & _).
    assert (x1 = x') as -> by congruence.
    assert (row_of calendar d k = Some x); [|congruence]. apply (row_of_Some organization); [done|]. exists i. split_and!; congruence.
Qed.

Lemma swept_mirrored generation d d' k :
  swept generation d d' →
  mirrored calendar d' k = row ← row_of calendar d k; if outdated generation row then None else mirrored calendar d k.
Proof using Type.
  intros [_ Hk]. specialize (Hk k). unfold mirrored at 1. destruct (row_of calendar d k) as [row|] eqn:Hr; cbn.
  - destruct (outdated generation row).
    + destruct Hk as (row' & -> & Ht & _). cbn. by rewrite Ht.
    + unfold mirrored. by rewrite Hk, Hr.
  - by rewrite Hk.
Qed.
End storing.

Section completing.
Context {R : Type} `{Provider R} `{Listing R} `{NewId} `{Unicode} `{Digest}.
Context (newId_inj : Inj (=) (=) newId).
Context (organization calendar : string).
Implicit Types w : Transaction.World Db R SyncCall.

Lemma wake_all_wp {A} (rows : list A) kind dedupeKey payload now w :
  wp (for_each rows (λ x, enqueue_job organization kind (dedupeKey x) (payload x) now)) w (λ r w',
    r = Ok () ∧ calls w' = calls w ∧ keeps_fresh w w' ∧ ∃ jobs', db w' = with_jobs (λ _, jobs') (db w) ∧
      (∀ i j, scheduled_jobs (db w) !! i = Some j → jobs' !! i = Some j) ∧
      (fresh_jobs (issued w) (db w) → ∀ x, x ∈ rows → job_waits organization kind (dedupeKey x) (db w'))).
Proof using All.
  revert w. induction rows as [|x rows IH]; intros w; cbn [for_each].
  - wp_step. split_and!; [done|done|done|]. exists (scheduled_jobs (db w)). split_and!; [by destruct (db w)|done|].
    intros _ x Hx. by apply not_elem_of_nil in Hx.
  - wp_step. apply enqueue_job_wp. intros jobs1 Hkeep Hsame Hhas. eapply wp_mono; [apply IH|].
    cbn beta. intros r w2 (-> & Hcalls & Hfresh & jobs2 & Hdb & Hkeep2 & Hall). cbn [db calls issued] in *.
    assert (keeps_fresh w {| db := with_jobs (λ _, jobs1) (db w); remote := remote w; calls := calls w; issued := S (issued w) |})
      as Hf1.
    { split; [cbn; lia|]. cbn. intros Hf k Hk. cbn. rewrite Hsame; [apply Hf; lia|]. intros Heq. apply (inj newId) in Heq. lia. }
    split_and!; [done|done|by eapply keeps_fresh_trans|]. exists jobs2. split_and!; [by rewrite Hdb| |].
    + intros i j Hi. by apply Hkeep2, Hkeep.
    + intros Hf y [->|Hy]%elem_of_cons; [|by apply Hall; [apply Hf1|]].
      destruct (Hhas (Hf _ (le_n _))) as (i & j & Hi & Hact & Hkey). exists i, j. split; [|done]. rewrite Hdb. cbn. by apply Hkeep2.
Qed.

(** The active policies and rules that read the calendar have a job. *)
Definition dependents_wait (finalSyncToken : string) (generation : Z) (d : Db) : Prop :=
  ∃ wakeup, hash (JObject [("token", JString finalSyncToken); ("generation", int generation)]) = Ok wakeup ∧
    (∀ id revision, (id, revision) ∈ dependent_policies organization calendar d →
       job_waits organization "reconcile_policy"
         ("policy:" +:+ id +:+ ":revision:" +:+ pretty revision +:+ ":cursor:" +:+ wakeup) d) ∧
    (∀ id revision, (id, revision) ∈ dependent_rules organization calendar d →
       job_waits organization "reconcile_conflict_response_rule"
         ("conflict-response-rule:" +:+ id +:+ ":revision:" +:+ pretty revision +:+ ":cursor:" +:+ wakeup) d).

Lemma set_cursor_wp cursorId f w Q :
  (∀ e, Q (Throw e) w) →
  (∀ c, sync_cursors (db w) !! cursorId = Some c →
     Q (Ok ()) {| db := with_cursors (λ t, <[cursorId := f c]> t) (db w); remote := remote w; calls := calls w; issued := issued w |}) →
  wp (set_cursor cursorId f) w Q.
Proof using Type.
  intros Hthrow Hok. unfold set_cursor. do 2 wp_step. destruct (sync_cursors (db w) !! cursorId) as [c|]; wp_step; auto.
Qed.

Lemma same_observations_swept generation d d' :
  well_kept organization calendar d → source_observations d' = source_observations d →
  well_kept organization calendar d' ∧ (∀ k, row_of calendar d' k = row_of calendar d k) ∧
  (∀ d0, swept organization calendar generation d0 d → swept organization calendar generation d0 d').
Proof using Type.
  intros Hkept Hsame.
  assert (∀ k, row_of calendar d' k = row_of calendar d k) as Hrow
    by (intros k; unfold row_of, find_observation; by rewrite Hsame).
  assert (well_kept organization calendar d') as Hkept'
    by (eapply same_calendar_kept; [|exact Hkept]; intros i x _; by rewrite Hsame).
  split_and!; [done|done|]. intros d0 [_ Hk]. split; [done|]. intros k. specialize (Hk k). rewrite Hrow. exact Hk.
Qed.

Lemma finish_sync_wp connection cursorId generation fullSync finalSyncToken now w :
  well_kept organization calendar (db w) →
  wp (finish_sync organization calendar connection cursorId generation fullSync finalSyncToken now) w (λ r w',
    calls w' = calls w ∧ keeps_fresh w w' ∧
    match r with
    | Throw _ => db w' = db w
    | Ok _ => well_kept organization calendar (db w') ∧
        (if fullSync then swept organization calendar generation (db w) (db w')
         else ∀ k, row_of calendar (db w') k = row_of calendar (db w) k) ∧
        (∃ c, sync_cursors (db w') !! cursorId = Some (complete_cursor finalSyncToken fullSync now c)) ∧
        (fresh_jobs (issued w) (db w) → dependents_wait finalSyncToken generation (db w'))
    end).
Proof using All.
  intros Hkept. unfold finish_sync. do 3 wp_step. destruct (negb _); [by wp_step|]. wp_step.
  eapply (wp_mono _ _ (λ r w', calls w' = calls w ∧ keeps_fresh w w' ∧ ∃ t', db w' = with_observations (λ _, t') (db w) ∧ ∀ u, r = Ok u →
    if fullSync then swept organization calendar generation (db w) (db w') else t' = source_observations (db w))).
  { destruct fullSync.
    - do 2 wp_step. eapply wp_mono; [apply tombstone_all_wp|].
      + apply NoDup_fst_filter, NoDup_fst_filter, NoDup_fst_map_to_list.
      + intros id row Hrow. by apply elem_of_stale in Hrow as [Hrow _].
      + cbn beta. intros r w1 (Hcalls & Hfresh & t' & Hdb & Hall). split_and!; [done|done|]. exists t'. split; [done|].
        intros u Hu. rewrite Hdb. apply (swept_of_tombstones organization calendar generation now); [done|..]; by eapply Hall.
    - wp_step. split_and!; [done|done|]. exists (source_observations (db w)). split; [by destruct (db w)|done]. }
  cbn beta. intros [u|e] w1 (Hcalls & Hfresh & t' & Hdb & Hsw); cbn [db calls].
  2: { split_and!; [done| |done]. destruct Hfresh as [Hle _]. by apply keeps_fresh_jobs. }
  specialize (Hsw u eq_refl). wp_step. apply set_cursor_wp.
  { intros e. cbn [db calls]. split_and!; [done| |done]. destruct Hfresh as [Hle _]. by apply keeps_fresh_jobs. }
  intros c Hc. do 5 wp_step. cbn [db issued calls]. destruct (hash _) as [wakeup|e] eqn:Hwakeup; cbn [db calls].
  2: { split_and!; [done| |done]. destruct Hfresh as [Hle _]. by apply keeps_fresh_jobs. }
  set (w2 := {| db := with_cursors _ (db w1); remote := remote w1; calls := calls w1; issued := issued w1 |}).
  assert (keeps_fresh w w2) as Hf2 by (eapply keeps_fresh_trans; [exact Hfresh|by apply keeps_fresh_jobs]).
  do 2 wp_step. eapply wp_mono; [apply (wake_all_wp (dependent_policies organization calendar (db w2)) "reconcile_policy"
    (λ row, "policy:" +:+ row.1 +:+ ":revision:" +:+ pretty row.2 +:+ ":cursor:" +:+ wakeup)
    (λ row, [("policy_id", JString row.1)]) now)|].
  cbn beta. intros r w3 (-> & Hcalls3 & Hfresh3 & jobs3 & Hdb3 & Hkeep3 & Hwait3).
  eapply wp_mono; [apply (wake_all_wp (dependent_rules organization calendar (db w2)) "reconcile_conflict_response_rule"
    (λ row, "conflict-response-rule:" +:+ row.1 +:+ ":revision:" +:+ pretty row.2 +:+ ":cursor:" +:+ wakeup)
    (λ row, [("rule_id", JString row.1)]) now)|].
  cbn beta. intros r w4 (-> & Hcalls4 & Hfresh4 & jobs4 & Hdb4 & Hkeep4 & Hwait4).
  assert (keeps_fresh w w3) as Hf3 by by eapply keeps_fresh_trans.
  assert (well_kept organization calendar (db w1)) as Hkept1.
  { rewrite Hdb. destruct fullSync.
    - rewrite <- Hdb. apply Hsw.
    - subst t'. by apply (same_observations_swept 0 (db w)). }
  assert (source_observations (db w4) = source_observations (db w1)) as Hobs by by rewrite Hdb4, Hdb3.
  destruct (same_observations_swept generation (db w1) (db w4) Hkept1 Hobs) as (Hkept4 & Hrow4 & Hsw4).
  split_and!; [cbn in *; congruence|by eapply keeps_fresh_trans|done| | |].
  - destruct fullSync; [by apply Hsw4|]. intros k. rewrite Hrow4. subst t'.
    apply (same_observations_swept 0 (db w) (db w1) Hkept). by rewrite Hdb.
  - exists c. rewrite Hdb4, Hdb3. cbn. apply lookup_insert_eq.
  - intros Hf. exists wakeup. split; [done|].
    assert (dependent_policies organization calendar (db w4) = dependent_policies organization calendar (db w2)) as ->
      by (by rewrite Hdb4, Hdb3).
    assert (dependent_rules organization calendar (db w4) = dependent_rules organization calendar (db w2)) as ->
      by (by rewrite Hdb4, Hdb3).
    split.
    + intros id revision Hin. destruct (Hwait3 (proj2 Hf2 Hf) _ Hin) as (i & j & Hi & Hj). exists i, j. split; [|done].
      rewrite Hdb4. cbn. by apply Hkeep4.
    + intros id revision Hin. by apply (Hwait4 (proj2 Hf3 Hf) (id, revision)).
Qed.
End completing.

Section syncing.
Context {R : Type} `{Provider R} `{Listing R} `{NewId} `{Unicode} `{Digest}.
Context (newId_inj : Inj (=) (=) newId).
Context (organization calendar : string) (interfere : nat → Db → Db) (clock : nat → Z).
Context (quiet : undisturbed calendar interfere).
Implicit Types w : Transaction.World Db R SyncCall.

(** The row of the key is older than the scan. *)
Definition unseen (generation : Z) (d : Db) (k : string * string) : bool :=
  match row_of calendar d k with Some row => outdated generation row | None => false end.

(** What the mirror holds after a scan: what the pages say of the events they
    mention; nothing of the older events that a complete scan does not
    mention; and what it held otherwise. *)
Definition scanned (c : SyncCursor.CursorRow) (pages : list ProviderEventPage) (d d' : Db) : Prop :=
  ∀ k, mirrored calendar d' k =
    match last_mention k (observations_of pages) with
    | Some o => live o
    | None => if bool_decide (SyncCursor.sync_token c = None) && unseen (SyncCursor.generation c) d k
              then None else mirrored calendar d k
    end.

(** A scan that did not end: what the stored pages say, and nothing else. *)
Definition interrupted (d d' : Db) : Prop :=
  tokens_kept calendar d d' ∧
  ∃ pages, ∀ k, mirrored calendar d' k =
    match last_mention k (observations_of pages) with Some o => live o | None => mirrored calendar d k end.

(** A scan that ended. *)
Definition synchronised (cursorId : string) (c : SyncCursor.CursorRow) (observed : Z) w0 w w' : Prop :=
  ∃ remote request pages token now c',
    calls w' = calls w0 ++ calls_of remote request None pages ∧ complete pages ∧ final_token None pages = Some token ∧
    observed = Z.of_nat (length (observations_of pages)) ∧ scanned c pages (db w) (db w') ∧
    sync_cursors (db w') !! cursorId = Some (complete_cursor token (bool_decide (SyncCursor.sync_token c = None)) now c') ∧
    (fresh_jobs (issued w) (db w) → dependents_wait organization calendar token (SyncCursor.generation c) (db w')).

Lemma interrupted_of w w1 w2 generation pages :
  well_kept organization calendar (db w1) → source_observations (db w1) = source_observations (db w) →
  tokens_kept calendar (db w) (db w2) → absorbed organization calendar generation (observations_of pages) (db w1) (db w2) →
  interrupted (db w) (db w2).
Proof using Type.
  intros Hkept Hsame Htokens Habs. split; [done|]. exists pages. intros k. rewrite (absorbed_mirrored _ _ _ _ _ _ _ Habs).
  destruct (last_mention _ _); [done|]. unfold mirrored, row_of, find_observation. by rewrite Hsame.
Qed.

(** An update of the cursor that keeps its token or removes it. *)
Lemma tokens_kept_alter (f : SyncCursor.CursorRow → SyncCursor.CursorRow) cursorId (d : Db) :
  (∀ c, SyncCursor.calendar (f c) = SyncCursor.calendar c ∧
     (SyncCursor.sync_token (f c) = None ∨
      SyncCursor.sync_token (f c) = SyncCursor.sync_token c ∧ SyncCursor.generation (f c) = SyncCursor.generation c)) →
  tokens_kept calendar d (with_cursors (alter f cursorId) d).
Proof using Type.
  intros Hf id c' Hc' Hcal. cbn in Hc'. apply lookup_alter_Some in Hc' as [(-> & c & Hc & ->)|[_ Hc]]; [|right; by exists c'].
  destruct (Hf c) as [Hfc [Hnone|[Ht Hg]]]; [by left|]. right. exists c. split_and!; congruence.
Qed.

Lemma on_sync_error_wp cursorId now e w :
  wp (on_sync_error cursorId now e) w (λ r w', calls w' = calls w ∧ source_observations (db w') = source_observations (db w) ∧
    tokens_kept calendar (db w) (db w') ∧ ∃ e', r = Throw e').
Proof using Type.
  unfold on_sync_error. destruct (match e with provider_failure _ => _ | _ => _ end); do 3 wp_step; cbn [db calls];
    (split_and!; [done|done| |by eexists]); apply tokens_kept_alter; intros c; (split; [done|]); [by left|by right].
Qed.

(** The pages, stored. *)
Definition paged generation remaining remote request w w' (r : res failure (nat * option string * Z)) : Prop :=
  keeps_fresh w w' ∧ tokens_kept calendar (db w) (db w') ∧ ∃ pages,
    absorbed organization calendar generation (observations_of pages) (db w) (db w') ∧
    match r with
    | Ok (_, token', observed') =>
        calls w' = calls w ++ calls_of remote request None pages ∧ complete pages ∧
        token' = final_token None pages ∧ observed' = 0 + Z.of_nat (length (observations_of pages)) ∧
        (length pages <= remaining)%nat
    | Throw _ => True
    end.

Lemma paged_wp remaining (provider : res failure ()) generation (get : R → res failure string * R) name remote request w :
  well_kept organization calendar (db w) →
  wp (token ← use_remote get; _ ← lift provider;
      list_pages remaining organization calendar name token remote generation request interfere clock 2 None None 0) w
    (λ r w', paged generation remaining remote request w w' r).
Proof using quiet.
  intros Hkept. assert (∀ remote', paged generation remaining remote request w
    {| db := db w; remote := remote'; calls := calls w; issued := issued w |} (Throw no_result)) as Hnothing.
  { intros remote'. split; [by apply keeps_fresh_jobs|]. split; [by apply tokens_kept_refl|]. exists []. split; [|done].
    by apply absorbed_nil. }
  do 2 wp_step. destruct r as [token|e]; [|exact (Hnothing remote')]. do 2 wp_step. destruct provider; [|exact (Hnothing remote')].
  set (w1 := {| db := db w; remote := remote'; calls := calls w; issued := issued w |}).
  pose proof (list_pages_wp organization calendar remaining name token remote generation request interfere clock 2 None None 0 w1
    quiet Hkept) as Hpages.
  pose proof (list_pages_tokens organization calendar remaining name token remote generation request interfere clock 2 None None 0 w1
    quiet) as Htokens.
  unfold wp in *. destruct Hpages as (Hfresh & pages & Habs & Hr). split; [exact Hfresh|]. split; [exact Htokens|].
  exists pages. split; [exact Habs|exact Hr].
Qed.

Lemma run_sync_wp j cursorId c w :
  well_kept organization calendar (db w) →
  wp (run_sync organization calendar j cursorId c interfere clock) w (λ r w',
    well_kept organization calendar (db w') ∧
    match r with
    | Ok observed => synchronised cursorId c observed w w w'
    | Throw _ => interrupted (db w) (db w')
    end).
Proof using All.
  intros Hkept. unfold run_sync. do 2 wp_step.
  set (w0 := {| db := with_cursors _ (db w); remote := remote w; calls := calls w; issued := issued w |}).
  assert (well_kept organization calendar (db w0)) as Hkept0 by by apply (same_observations_swept organization calendar 0 (db w)).
  assert (tokens_kept calendar (db w) (db w0)) as Ht0 by (apply tokens_kept_alter; intros c0; split; [done|by right]).
  assert (keeps_fresh w w0) as Hf0 by by apply keeps_fresh_jobs.
  do 2 wp_step. eapply wp_mono; [by apply paged_wp|]. cbn beta. intros r w1 (Hf1 & Ht1 & pages & Habs & Hr).
  assert (well_kept organization calendar (db w1)) as Hkept1 by apply Habs.
  assert (interrupted (db w) (db w1)) as Hint
    by exact (interrupted_of w w0 w1 _ _ Hkept0 eq_refl (tokens_kept_trans _ _ _ _ Ht0 Ht1) Habs).
  destruct r as [[[n token'] observed]|e].
  2: { eapply wp_mono; [apply on_sync_error_wp|]. cbn beta. intros r w2 (_ & Hobs & Ht2 & e' & ->).
       destruct (same_observations_swept organization calendar 0 (db w1) (db w2) Hkept1 Hobs) as (Hkept2 & Hrow2 & _).
       split; [done|]. destruct Hint as (Ht & pages' & Hp). split; [by eapply tokens_kept_trans|]. exists pages'. intros k.
       rewrite <- Hp. unfold mirrored. by rewrite Hrow2. }
  destruct Hr as (Hcalls & Hcomplete & -> & -> & Hlen).
  destruct (non_empty (final_token None pages)) as [token|] eqn:Htoken; [|by wp_step].
  assert (final_token None pages = Some token) as Hfinal.
  { revert Htoken. unfold non_empty. destruct (final_token None pages) as [[]|]; by intros [= <-]. }
  do 3 wp_step. destruct (quiet n (db w1)) as (Hsame2 & Ht2 & Hfree2).
  set (w2 := {| db := interfere n (db w1); remote := remote w1; calls := calls w1; issued := issued w1 |}).
  assert (well_kept organization calendar (db w2)) as Hkept2 by by eapply same_calendar_kept.
  assert (∀ k, row_of calendar (db w2) k = row_of calendar (db w1) k) as Hrow2 by (intros k; by eapply same_calendar_row_of).
  assert (∀ k, mirrored calendar (db w2) k = mirrored calendar (db w1) k) as Hmir2 by (intros k; unfold mirrored; by rewrite Hrow2).
  eapply wp_mono; [by apply finish_sync_wp|]. cbn beta. intros [u|e] w3 (Hcalls3 & Hf3 & Hr); cbn [db calls] in *.
  2: { rewrite Hr. split; [exact Hkept2|]. destruct Hint as (Ht & pages' & Hp). split; [by eapply tokens_kept_trans|].
       exists pages'. intros k. by rewrite <- Hp, Hmir2. }
  destruct Hr as (Hkept3 & Hswept & (c' & Hc') & Hwait). wp_step. split; [done|].
  exists (Endpoint.remote_id (join_endpoint j)), (page_request (SyncCursor.sync_token c)
    (toISOString (clock 1%nat - FULL_SYNC_PAST_DAYS * day)) (toISOString (clock 1%nat + FULL_SYNC_FUTURE_DAYS * day))),
    pages, token, (clock n), c'.
  split_and!; [exact (eq_trans Hcalls3 Hcalls)|done|done|done| |done|].
  - intros k. pose proof (absorbed_mirrored _ _ _ _ _ _ k Habs) as Hk. destruct Habs as [_ Habs]. specialize (Habs k).
    assert (mirrored calendar (db w0) k = mirrored calendar (db w) k) as Hw0 by done. rewrite Hw0 in Hk.
    case_bool_decide as Hfull; cbn [andb].
    + rewrite (swept_mirrored _ _ _ _ _ _ Hswept), Hrow2, Hmir2, Hk. destruct (last_mention k _) as [o|].
      * destruct Habs as (row & -> & _ & Hgen). cbn. unfold outdated. by rewrite Hgen, Z.ltb_irrefl.
      * rewrite Habs. unfold unseen, mirrored. change (row_of calendar (db w0) k) with (row_of calendar (db w) k).
        by destruct (row_of calendar (db w) k).
    + unfold mirrored at 1. rewrite Hswept. rewrite Hrow2. fold (mirrored calendar (db w1) k). rewrite Hk. done.
  - intros Hf. apply Hwait, Hfree2, Hf1, Hf0, Hf.
Qed.

Lemma fold_maximum xs x : x ∈ xs → x <= nullish (maximum xs) 0.
Proof using Type.
  induction xs as [|y xs IH]; intros Hx; [by apply not_elem_of_nil in Hx|]. cbn [maximum foldr nullish].
  fold (maximum xs). apply elem_of_cons in Hx as [->|Hx]; destruct (maximum xs) as [m|] eqn:E; [lia|lia| |].
  - specialize (IH Hx). cbn in IH. lia.
  - destruct xs as [|z xs]; [by apply not_elem_of_nil in Hx|]. cbn in E. by destruct (foldr _ _ xs).
Qed.

(** A new cursor is of a generation after every row of the calendar. *)
Lemma next_generation_after d id row :
  source_observations d !! id = Some row → Observation.organization row = organization → Observation.calendar row = calendar →
  outdated (next_generation organization calendar d) row = true.
Proof using Type.
  intros Hrow Horg Hcal. unfold outdated, next_generation. apply Z.ltb_lt.
  set (xs := map Observation.sync_generation (map snd (calendar_observations organization calendar d))).
  assert (Observation.sync_generation row <= nullish (maximum xs) 0) as Hle; [|lia].
  apply fold_maximum. unfold xs. rewrite map_map. apply (list_elem_of_fmap_2' _ _ (id, row)); [|done].
  unfold calendar_observations. rewrite list_elem_of_In, filter_In, <- list_elem_of_In, elem_of_map_to_list.
  by rewrite Horg, Hcal, !bool_decide_eq_true_2.
Qed.

(** The cursor is the one of the query, as it was, or a new one. *)
Lemma open_cursor_wp connection fingerprint now w :
  wp (open_cursor organization calendar connection fingerprint now) w (λ r w', calls w' = calls w ∧ keeps_fresh w w' ∧
    source_observations (db w') = source_observations (db w) ∧ tokens_kept calendar (db w) (db w') ∧
    ∀ cursorId c, r = Ok (cursorId, c) →
      sync_cursors (db w') !! cursorId = Some c ∧ SyncCursor.calendar c = calendar ∧
      (sync_cursors (db w) !! cursorId = Some c ∨
       SyncCursor.sync_token c = None ∧ SyncCursor.generation c = next_generation organization calendar (db w))).
Proof using Type.
  unfold open_cursor. do 3 wp_step.
  assert (∀ w' e, db w' = db w → calls w' = calls w → (issued w <= issued w')%nat →
    calls w' = calls w ∧ keeps_fresh w w' ∧ source_observations (db w') = source_observations (db w) ∧
    tokens_kept calendar (db w) (db w') ∧ ∀ cursorId c, (Throw e : res failure (string * SyncCursor.CursorRow)) = Ok (cursorId, c) →
      sync_cursors (db w') !! cursorId = Some c ∧ SyncCursor.calendar c = calendar ∧
      (sync_cursors (db w) !! cursorId = Some c ∨
       SyncCursor.sync_token c = None ∧ SyncCursor.generation c = next_generation organization calendar (db w))) as Hthrow.
  { intros w' e Hdb Hcalls Hle. rewrite Hdb. split_and!; [done| |done|by apply tokens_kept_refl|done].
    apply keeps_fresh_jobs; [done|by rewrite Hdb]. }
  destruct (negb _); [wp_step; by apply Hthrow|]. do 6 wp_step. cbn [db calls issued].
  destruct (find_cursor calendar fingerprint (db w)) as [[i c]|] eqn:Hf.
  - wp_step. cbn [db calls issued]. split_and!; [done|by apply keeps_fresh_jobs; cbn; [lia|]|done|by apply tokens_kept_refl|].
    intros cursorId c' [= <- <-]. unfold find_cursor in Hf. apply List.find_some in Hf as [Hin Heq]. bool_to_prop.
    apply list_elem_of_In, elem_of_map_to_list in Hin. split_and!; [done|done|by left].
  - do 2 wp_step. case_bool_decide as Htaken.
    { wp_step. apply (Hthrow {| db := db w; remote := remote w; calls := calls w; issued := S (issued w) |}); cbn; [done|done|lia]. }
    do 3 wp_step. cbn [db calls issued].
    split_and!; [done|by apply keeps_fresh_jobs; cbn; [lia|]|done| |].
    + intros id c Hc Hcal. cbn in Hc. apply lookup_insert_Some in Hc as [[_ <-]|[_ Hc]]; [by left|]. right. by exists c.
    + intros cursorId c [= <- <-]. split_and!; [by cbn; rewrite lookup_insert_eq|done|by right].
Qed.

Definition mirrors w (r : res failure Z) w' : Prop :=
  well_kept organization calendar (db w') ∧
  match r with
  | Throw _ => interrupted (db w) (db w')
  | Ok observed =>
      calls w' = calls w ∧ observed = 0 ∧ (∀ k, mirrored calendar (db w') k = mirrored calendar (db w) k) ∨
      ∃ cursorId c w1, (∀ k, row_of calendar (db w1) k = row_of calendar (db w) k) ∧ calls w1 = calls w ∧
        (fresh_jobs (issued w) (db w) → fresh_jobs (issued w1) (db w1)) ∧ synchronised cursorId c observed w w1 w'
  end.

(** Statements that leave the observations of the calendar. *)
Definition prelude_step w w1 : Prop :=
  well_kept organization calendar (db w1) ∧ (∀ k, row_of calendar (db w1) k = row_of calendar (db w) k) ∧
  calls w1 = calls w ∧ keeps_fresh w w1 ∧ tokens_kept calendar (db w) (db w1).

Lemma prelude_step_trans w1 w2 w3 : prelude_step w1 w2 → prelude_step w2 w3 → prelude_step w1 w3.
Proof using Type.
  intros (K1 & R1 & C1 & F1 & T1) (K2 & R2 & C2 & F2 & T2). split_and!; [done| |congruence|by eapply keeps_fresh_trans|by eapply tokens_kept_trans].
  intros k. by rewrite R2.
Qed.

Lemma prelude_step_same w w1 :
  well_kept organization calendar (db w) → source_observations (db w1) = source_observations (db w) → calls w1 = calls w →
  keeps_fresh w w1 → tokens_kept calendar (db w) (db w1) → prelude_step w w1.
Proof using Type.
  intros Hkept Hobs Hcalls Hfresh Ht. destruct (same_observations_swept organization calendar 0 (db w) (db w1) Hkept Hobs) as (? & ? & _).
  by split_and!.
Qed.

Lemma prelude_step_interfere n w :
  well_kept organization calendar (db w) →
  prelude_step w {| db := interfere n (db w); remote := remote w; calls := calls w; issued := issued w |}.
Proof using quiet.
  intros Hkept. destruct (quiet n (db w)) as (Hsame & Ht & Hf).
  split_and!; [by eapply same_calendar_kept|intros k; by eapply same_calendar_row_of|done|split; [done|apply Hf]|done].
Qed.

Lemma interrupted_nothing w w1 : prelude_step w w1 → interrupted (db w) (db w1).
Proof using Type. intros (_ & Hrow & _ & _ & Ht). split; [done|]. exists []. intros k. cbn. unfold mirrored. by rewrite Hrow. Qed.

Lemma interrupted_after w w1 d : prelude_step w w1 → interrupted (db w1) d → interrupted (db w) d.
Proof using Type.
  intros (_ & Hrow & _ & _ & Ht) (Ht' & pages & Hp). split; [by eapply tokens_kept_trans|]. exists pages. intros k.
  rewrite Hp. unfold mirrored. by rewrite Hrow.
Qed.

Lemma syncCalendar_wp w :
  well_kept organization calendar (db w) → wp (syncCalendar organization calendar interfere clock) w (mirrors w).
Proof using All.
  intros Hkept. assert (prelude_step w w) as Hw by (apply prelude_step_same; [done..|by apply keeps_fresh_jobs|by apply tokens_kept_refl]).
  assert (∀ w1 e, prelude_step w w1 → mirrors w (Throw e) w1) as Hthrow
    by (intros w1 e Hp; split; [apply Hp|by apply interrupted_nothing]).
  unfold syncCalendar. do 2 wp_step. destruct (load_calendar _ _ _) as [j|]; [|wp_step; by apply Hthrow].
  destruct (negb _); [wp_step; by apply Hthrow|]. do 2 wp_step.
  destruct (calendarSyncQueryFingerprint _ _) as [fingerprint|e]; [|by apply Hthrow]. do 2 wp_step.
  pose proof (prelude_step_interfere 0 w Hkept) as H0w. set (w0 := {| db := interfere 0 (db w); remote := _; calls := _; issued := _ |}) in *.
  wp_step. eapply wp_mono; [apply open_cursor_wp|]. cbn beta. intros r w1 (Hcalls & Hfresh & Hobs & Ht & Hcursor).
  assert (prelude_step w w1) as Hw1 by (eapply prelude_step_trans; [exact H0w|apply prelude_step_same; [apply H0w|done..]]).
  destruct r as [[cursorId c]|e]; [|by apply Hthrow]. do 2 wp_step.
  pose proof (prelude_step_interfere 1 w1 (proj1 Hw1)) as H12. set (w2 := {| db := interfere 1 (db w1); remote := _; calls := _; issued := _ |}) in *.
  assert (prelude_step w w2) as Hw2 by by eapply prelude_step_trans.
  destruct (refresh_due _ _).
  { do 3 wp_step. apply Hthrow. eapply prelude_step_trans; [exact Hw2|]. apply prelude_step_same; [apply Hw2|done|done|by apply keeps_fresh_jobs|].
    cbn [db]. apply tokens_kept_alter. intros c0. case_bool_decide; (split; [done|]); [by left|by right]. }
  destruct (polled_recently _ _).
  { wp_step. split; [apply Hw2|]. left. split_and!; [apply Hw2|done|]. intros k. unfold mirrored. by rewrite (proj1 (proj2 Hw2)). }
  eapply wp_mono; [apply run_sync_wp, Hw2|]. cbn beta. intros r w3 [Hkept3 Hr]. split; [done|].
  destruct r as [observed|e]; [|by eapply interrupted_after]. right. exists cursorId, c, w2.
  destruct Hw2 as (_ & Hrow2 & Hcalls2 & Hf2 & _). split_and!; [done|done|apply Hf2|].
  destruct Hr as (remote & request & pages & token & now & c' & Hc & Hrest).
  exists remote, request, pages, token, now, c'. split; [|exact Hrest]. by rewrite Hc, Hcalls2.
Qed.

End syncing.

(** ** Examples *)

Module Samples.
#[local] Existing Instance Effects.sample_ids.

(** A calendar that answers by a script, a listing after the other. *)
Notation Script := (list (res failure ProviderEventPage)).

Definition unavailable : failure := provider_failure (provider_error "unavailable" true).

#[local] Instance scripted_provider : Provider Script := {
  provider_resolve _ := Ok ();
  provider_token _ connection r := (Ok connection, r);
  provider_get _ _ _ _ r := (Throw unavailable, r);
  provider_create _ _ _ _ _ r := (Throw unavailable, r);
  provider_update _ _ _ _ _ _ r := (Throw unavailable, r);
  provider_delete _ _ _ _ _ r := (Throw unavailable, r);
}.

#[local] Instance scripted_listing : Listing Script := {
  list_calendars _ _ r := (Ok [], r);
  list_events _ _ _ _ r := match r with answer :: r => (answer, r) | [] => (Throw unavailable, []) end;
}.

#[local] Instance sample_ids_inj : Inj (=) (=) newId.
Proof. intros n m Hn. cbn in Hn. injection Hn as Hn. apply (inj pretty) in Hn. lia. Qed.

Definition event (name : string) (l : Lifecycle) : SourceObservation :=
  {| source_event_ref := name; source_occurrence_ref := ""; remote_revision := "1"; lifecycle := l; origin := provider_original;
     timing := timing sample_source; recurrence := None; availability := Some busy; relationship := relationship sample_source;
     destination_identity_invited := false; content := content sample_source; attendees := None; organizer := None;
     attachments := None; source_url := None; provider_metadata := None |}.

Definition page (events : list SourceObservation) (next sync : option string) : res failure ProviderEventPage :=
  Ok {| page_observations := events; nextPageToken := next; nextSyncToken := sync |}.

Definition empty_office : Db :=
  {| sync_policies := {[ "policy" := sample_policy Policy.active ]};
     calendar_endpoints := {[ "home" := sample_endpoint "c1"; "work" := sample_endpoint "c2" ]};
     provider_connections := {[ "c1" := sample_connection "source"; "c2" := sample_connection "destination" ]};
     hours_profiles := ∅; source_observations := ∅; sync_cursors := ∅; projections := ∅; outbox_effects := ∅;
     sync_notices := ∅; conflict_rules := ∅; policy_previews := ∅; audit_facts := []; scheduled_jobs := ∅ |}.

Definition ask (script : Script) (w : Transaction.World Db Script SyncCall) : Transaction.World Db Script SyncCall :=
  {| db := db w; remote := script; calls := calls w; issued := issued w |}.

Definition sync_at (time : Z) (script : Script) (w : Transaction.World Db Script SyncCall)
    : res failure Z * Transaction.World Db Script SyncCall :=
  syncCalendar "o" "home" (λ _ d, d) (λ _, time) (ask script w).

Definition start : Transaction.World Db Script SyncCall := {| db := empty_office; remote := []; calls := []; issued := 0 |}.

(** Two pages; a change that deletes one event. *)
Definition two_pages : Script :=
  [page [event "x" confirmed; event "y" confirmed] (Some "p2") None; page [event "z" confirmed] None (Some "t1")].
Definition first_scan := sync_at 1000000 two_pages start.
Definition changes := sync_at 2000000 [page [event "x" cancelled] None (Some "t2")] first_scan.2.

Example scan_then_changes :
  first_scan.1 = Ok 3 ∧ mirrored "home" (db first_scan.2) ("x", "") = Some (event "x" confirmed) ∧
  changes.1 = Ok 1 ∧ mirrored "home" (db changes.2) ("x", "") = None ∧
  mirrored "home" (db changes.2) ("y", "") = Some (event "y" confirmed) ∧
  size (scheduled_jobs (db changes.2)) = 2%nat.
Proof. vm_compute. split_and!; reflexivity. Qed.

Lemma undisturbed_id : undisturbed "home" (λ _ (d : Db), d).
Proof. intros n d. split_and!; [done|by apply tokens_kept_refl|done]. Qed.

Lemma empty_office_kept : well_kept "o" "home" empty_office.
Proof. split; intros; exfalso; set_solver. Qed.


(** A scan is interrupted after its first page; an event of that page is gone
    when the scan is repeated. The repeated scan is complete and does not mention
    the event, which remains: its row is of the generation of both scans. *)
Definition broken_scan := sync_at 1000000 [page [event "x" confirmed] (Some "p2") None; Throw unavailable] start.
Definition repeated_scan := sync_at 2000000 [page [event "y" confirmed] None (Some "t1")] broken_scan.2.

Lemma interrupted_scan_keeps_absent :
  broken_scan.1 = Throw unavailable ∧ repeated_scan.1 = Ok 1 ∧
  last_mention ("x", "") (observations_of [{| page_observations := [event "y" confirmed]; nextPageToken := None; nextSyncToken := Some "t1" |}])
    = None ∧
  mirrored "home" (db repeated_scan.2) ("x", "") = Some (event "x" confirmed).
Proof. vm_compute. split_and!; reflexivity. Qed.
End Samples.
