(* ===== verification/ConflictResponse.v ===== *)
(** * Conflict response: rules and decisions

    [server/src/conflict-response/types.ts], [validation.ts] and [engine.ts]:
    the parser of a rule that declines invitations, the invitations that may be
    declined, their conflicts with opaque busy intervals, what a preview
    counts, and the documents that are hashed. Instants are milliseconds;
    [None] of [Date_parse] is [NaN]. *)

From S2P Require Import Prelude Canonical Types Dates Text PlanningDrafts.
From stdpp Require Import options.
Open Scope Z_scope.

(** ** Data *)

Definition MAX_AVAILABILITY_CALENDARS : nat := 32.
Definition MAX_AUTOMATIC_DECLINES_PER_24_HOURS : Z := 20.
Definition DEFAULT_CONFLICT_HORIZON_DAYS : Z := 60.
Definition DEFAULT_DECLINE_MESSAGE : string :=
  "I have a private conflict at that time. Please choose another time.".

Record ConflictResponseDraft := {
  rule_name : string;
  response_calendar_id : string;
  availability_calendars : list string;
  decline_message : string;
  rule_horizon_days : Z;
}.

Record WorkInvitationCandidate := {
  observation_id : string;
  remote_event_id : string;
  recurrence_identity : string;
  observation_hash : string;
  remote_revision : option string;
  start_at : string;
  end_at : string;
}.

(** A row of [source_observations]; [normalized_event] is [None] when it is not an object. *)
Record WorkObservationRow := {
  row_id : string;
  row_remote_event_id : string;
  row_recurrence_identity : string;
  remote_etag : option string;
  row_observation_hash : string;
  normalized_event : option SourceObservation;
}.

Record ConflictBusyInterval := { busy_calendar : string; busy_start : string; busy_end : string }.

Record ConflictCalendarBinding := {
  binding_id : string;
  binding_connection : string;
  binding_remote : string;
  binding_readable : bool;
  binding_writable : bool;
  binding_capabilities : json;
  binding_scopes : json;
  binding_provider : string;
  connection_status : string;
  intended_role : string;
}.

Record ConflictTimeExample := { example_start : string; example_end : string }.

Record ConflictResponsePreviewResult := {
  invitation_count : Z;
  conflict_count : Z;
  held_count : Z;
  budget_held_count : Z;
  examples : list ConflictTimeExample;
  preview_warnings : list string;
}.

#[export] Instance WorkInvitationCandidate_eq_dec : EqDecision WorkInvitationCandidate.
Proof. solve_decision. Defined.
#[export] Instance ConflictBusyInterval_eq_dec : EqDecision ConflictBusyInterval.
Proof. solve_decision. Defined.

(** ** Validation *)

(** [ConflictResponseInputError]. *)
Record conflict_input_error := {
  input_code : string;
  input_message : string;
  input_retryable : bool;
}.

(** [validate] of the package [uuid]. *)
Class Uuids := { validateUuid : string → bool }.

Section parse.
Context `{Unicode} `{Uuids}.

Notation Parse := (res conflict_input_error).

Definition invalid_rule (message : string) : conflict_input_error :=
  {| input_code := "invalid_conflict_response_rule"; input_message := message; input_retryable := false |}.

Definition reject_if (condition : bool) (message : string) : Parse () :=
  if condition then Throw (invalid_rule message) else Ok ().

(** The functions [text] and [integer] of this file are those of the planning
    drafts, but for the class of the error. *)
Definition as_rule_error {A} (r : res planning_input_error A) : Parse A :=
  match r with Ok a => Ok a | Throw (PlanningInputError message) => Throw (invalid_rule message) end.

Definition rule_text (value : json) (field : string) (max : nat) : Parse string :=
  as_rule_error (PlanningDrafts.text value field max).
Definition rule_integer (value : json) (field : string) (min max : Z) : Parse Z :=
  as_rule_error (PlanningDrafts.integer value field min max).

Definition isUuid (value : json) : option string :=
  match value with JString s => if validateUuid s then Some s else None | _ => None end.

Definition identifier (value : json) (field : string) : Parse string :=
  otherwise (isUuid value) (invalid_rule (field +:+ " is invalid")).

Definition identifiers (value : json) (field : string) (limit : nat) : Parse (list string) :=
  match value with
  | JArray items =>
      _ ← reject_if (limit <? length items)%nat (field +:+ " are invalid");
      result ← traverse (λ item, identifier item field) items;
      _ ← reject_if (negb (bool_decide (length (new_set result) = length result))) (field +:+ " must be unique");
      Ok result
  | _ => Throw (invalid_rule (field +:+ " are invalid"))
  end.

Definition ALLOWED_DRAFT_FIELDS : list string :=
  ["name"; "response_calendar_id"; "availability_calendar_ids"; "decline_message"; "horizon_days"].

(** The loop over [Object.keys]. *)
Fixpoint check_fields (members : list (string * json)) : Parse () :=
  match members with
  | [] => Ok ()
  | (key, _) :: members =>
      if includes ALLOWED_DRAFT_FIELDS key then check_fields members
      else Throw (invalid_rule ("unsupported conflict-response field: " +:+ key))
  end.

Definition parseConflictResponseDraft (value : json) : Parse ConflictResponseDraft :=
  match value with
  | JObject members =>
      _ ← check_fields members;
      let field := member members in
      responseCalendarId ← identifier (field "response_calendar_id") "response calendar";
      availabilityCalendarIds ← identifiers (field "availability_calendar_ids") "availability calendars"
                                  MAX_AVAILABILITY_CALENDARS;
      _ ← reject_if (length availabilityCalendarIds =? 0)%nat "at least one availability calendar is required";
      _ ← reject_if (includes availabilityCalendarIds responseCalendarId)
            "the response calendar cannot also be an availability calendar";
      name ← rule_text (field "name") "name" 160;
      message ← rule_text (or_default (field "decline_message") (JString DEFAULT_DECLINE_MESSAGE))
                  "decline message" 500;
      horizon ← rule_integer (or_default (field "horizon_days") (int DEFAULT_CONFLICT_HORIZON_DAYS))
                  "horizon days" 1 90;
      Ok {| rule_name := name; response_calendar_id := responseCalendarId;
            availability_calendars := sort_by text_leb availabilityCalendarIds;
            decline_message := message; rule_horizon_days := horizon |}
  | _ => Throw (invalid_rule "conflict-response rule must be an object")
  end.
End parse.

(** ** Invitations *)

Definition PREVIEW_EXAMPLE_LIMIT : nat := 3.
Definition MAX_DECLINABLE_INVITATION_MILLISECONDS : Z := 7 * 24 * 60 * 60000.

(** The first three conditions, and the finite instants of a timed event. *)
Definition awaits_answer (event : SourceObservation) : bool :=
  bool_decide (lifecycle event = confirmed) && bool_decide (origin event = provider_original)
  && bool_decide (availability event = Some busy)
  && match role (relationship event), response (relationship event) with
     | attendee_role, needs_action => true
     | _, _ => false
     end.

Definition isEligibleWorkInvitation (event : SourceObservation) (now horizonEnd : Z) : bool :=
  awaits_answer event &&
  match timing event with
  | Some (timed start_instant end_instant _ _) =>
      match Date_parse start_instant, Date_parse end_instant with
      | Some start, Some finish =>
          (start <? finish) && (now <? start) && (start <? horizonEnd) && (finish <=? horizonEnd)
          && (finish - start <=? MAX_DECLINABLE_INVITATION_MILLISECONDS)
      | _, _ => false
      end
  | _ => false
  end.

(** [new Date(value).toISOString()]; an invalid date, which eligibility
    excludes, would be a [RangeError]. *)
Definition canonicalInstant (value : string) : option string := toISOString <$> Date_parse value.

Definition workInvitationCandidate (row : WorkObservationRow) (now horizonEnd : Z) : option WorkInvitationCandidate :=
  match normalized_event row with
  | Some event =>
      if negb (isEligibleWorkInvitation event now horizonEnd) then None
      else if negb (source_event_ref event =? row_remote_event_id row)%string then None
      else
        match timing event with
        | Some (timed start_instant end_instant _ _) =>
            start ← canonicalInstant start_instant;
            finish ← canonicalInstant end_instant;
            Some {| observation_id := row_id row; remote_event_id := row_remote_event_id row;
                    recurrence_identity := row_recurrence_identity row;
                    observation_hash := row_observation_hash row; remote_revision := remote_etag row;
                    start_at := start; end_at := finish |}
        | _ => None
        end
  | None => None
  end.

(** ** Conflicts *)

Definition intervalsOverlap (leftStart leftEnd rightStart rightEnd : string) : bool :=
  match Date_parse leftStart, Date_parse leftEnd, Date_parse rightStart, Date_parse rightEnd with
  | Some ls, Some le, Some rs, Some re =>
      if (le <=? ls) || (re <=? rs) then false else (ls <? re) && (rs <? le)
  | _, _, _, _ => false
  end.

Definition overlappingBusyIntervals (invitation : WorkInvitationCandidate) (busy : list ConflictBusyInterval)
    : list ConflictBusyInterval :=
  List.filter (λ interval, intervalsOverlap (start_at invitation) (end_at invitation)
                             (busy_start interval) (busy_end interval)) busy.

(** The invitations that overlap a busy interval, with the intervals. *)
Definition conflicts_of (invitations : list WorkInvitationCandidate) (busy : list ConflictBusyInterval)
    : list (WorkInvitationCandidate * list ConflictBusyInterval) :=
  flat_map (λ invitation,
    let overlap := overlappingBusyIntervals invitation busy in
    if (0 <? length overlap)%nat then [(invitation, overlap)] else []) invitations.

(** [!invitation.remote_revision]: null or empty. *)
Definition unguarded (invitation : WorkInvitationCandidate) : bool :=
  match remote_revision invitation with None | Some "" => true | Some _ => false end.

Definition conflictPreviewResult (invitations : list WorkInvitationCandidate) (busy : list ConflictBusyInterval)
    (automaticDeclinesAppliedLast24Hours : Z) : ConflictResponsePreviewResult :=
  let conflicts := conflicts_of invitations busy in
  let revisionGuardHeldCount := Z.of_nat (length (List.filter (λ c, unguarded c.1) conflicts)) in
  let guardedConflictCount := Z.of_nat (length conflicts) - revisionGuardHeldCount in
  let remainingBudget := Z.max 0 (MAX_AUTOMATIC_DECLINES_PER_24_HOURS - automaticDeclinesAppliedLast24Hours) in
  let budgetHeldCount := Z.max 0 (guardedConflictCount - remainingBudget) in
  {| invitation_count := Z.of_nat (length invitations);
     conflict_count := Z.of_nat (length conflicts);
     held_count := revisionGuardHeldCount + budgetHeldCount;
     budget_held_count := budgetHeldCount;
     examples := map (λ c, {| example_start := start_at c.1; example_end := end_at c.1 |})
                   (take PREVIEW_EXAMPLE_LIMIT conflicts);
     preview_warnings :=
       ["This private-reply rule creates no event copies or event-detail copies; existing paused-bridge copies may remain.";
        "Only future invitations that are still awaiting your response can be declined."]
       ++ (if 0 <? budgetHeldCount then ["automatic_decline_budget_will_hold_excess"] else []) |}.

(** ** Documents *)

(** [compareText(a, b) || ...] on a list of keys. *)
Fixpoint texts_leb (ls rs : list string) : bool :=
  match ls, rs with
  | l :: ls, r :: rs => (l <? r)%string || ((l =? r)%string && texts_leb ls rs)
  | _, _ => true
  end.

Definition sort_on {A} (keys : A → list string) (xs : list A) : list A :=
  sort_by (λ x y, texts_leb (keys x) (keys y)) xs.

Definition busy_json (interval : ConflictBusyInterval) : json :=
  JObject [("calendar_id", JString (busy_calendar interval)); ("start", JString (busy_start interval));
           ("end", JString (busy_end interval))].

Definition busy_keys (interval : ConflictBusyInterval) : list string :=
  [busy_calendar interval; busy_start interval; busy_end interval].

Definition sorted_busy_json (busy : list ConflictBusyInterval) : json :=
  JArray (map busy_json (sort_on busy_keys busy)).

Definition capabilityDocument (calendar : ConflictCalendarBinding) : json :=
  JObject [("id", JString (binding_id calendar)); ("readable", JBool (binding_readable calendar));
           ("writable", JBool (binding_writable calendar)); ("provider", JString (binding_provider calendar));
           ("connection_status", JString (connection_status calendar));
           ("intended_role", JString (intended_role calendar))].

Definition draft_document (draft : ConflictResponseDraft) : json :=
  JObject [("name", JString (rule_name draft)); ("response_calendar_id", JString (response_calendar_id draft));
           ("availability_calendar_ids", JArray (map JString (availability_calendars draft)));
           ("decline_message", JString (decline_message draft)); ("horizon_days", int (rule_horizon_days draft))].

Definition invitation_json (invitation : WorkInvitationCandidate) : json :=
  JObject [("observation_hash", JString (observation_hash invitation));
           ("remote_revision_present", JBool (match remote_revision invitation with Some _ => true | None => false end));
           ("start_at", JString (start_at invitation)); ("end_at", JString (end_at invitation))].

Record SnapshotInput := {
  snapshot_draft : ConflictResponseDraft;
  reference_at : string;
  horizon_end : string;
  availability_end : string;
  response_calendar : ConflictCalendarBinding;
  snapshot_availability : list ConflictCalendarBinding;
  snapshot_invitations : list WorkInvitationCandidate;
  snapshot_busy : list ConflictBusyInterval;
  automatic_declines : Z;
}.

Definition conflictSnapshotDocument (input : SnapshotInput) : json :=
  JObject [("version", int 1); ("draft", draft_document (snapshot_draft input));
    ("reference_at", JString (reference_at input)); ("horizon_end", JString (horizon_end input));
    ("availability_end", JString (availability_end input));
    ("automatic_declines_applied_last_24_hours", int (automatic_declines input));
    ("response_calendar", capabilityDocument (response_calendar input));
    ("availability_calendars",
      JArray (map capabilityDocument (sort_on (λ c, [binding_id c]) (snapshot_availability input))));
    ("work_invitations",
      JArray (map invitation_json (sort_on (λ i, [start_at i; end_at i; observation_hash i]) (snapshot_invitations input))));
    ("busy", sorted_busy_json (snapshot_busy input))].

Definition conflictActionBasisDocument (rule_id : string) (rule_revision : Z) (invitation : WorkInvitationCandidate)
    (overlapping_busy : list ConflictBusyInterval) : json :=
  JObject [("version", int 1); ("rule_id", JString rule_id); ("rule_revision", int rule_revision);
    ("work_observation_hash", JString (observation_hash invitation));
    ("work_start_at", JString (start_at invitation)); ("work_end_at", JString (end_at invitation));
    ("busy", sorted_busy_json overlapping_busy)].

(** ** Valid rules *)

Section valid.
Context `{Unicode} `{Uuids}.

Definition valid_rule (d : ConflictResponseDraft) : Prop :=
  valid_text 160 (rule_name d) ∧ validateUuid (response_calendar_id d) = true ∧
  (1 <= length (availability_calendars d) <= MAX_AVAILABILITY_CALENDARS)%nat ∧
  Forall (λ c, validateUuid c = true) (availability_calendars d) ∧ NoDup (availability_calendars d) ∧
  response_calendar_id d ∉ availability_calendars d ∧
  StronglySorted (λ x y, text_leb x y = true) (availability_calendars d) ∧
  valid_text 500 (decline_message d) ∧ 1 <= rule_horizon_days d <= 90.

Lemma reject_if_Ok c m u : reject_if c m = Ok u ↔ c = false.
Proof. unfold reject_if. destruct c, u; naive_solver. Qed.

Lemma as_rule_error_Ok {A} (r : res planning_input_error A) a : as_rule_error r = Ok a ↔ r = Ok a.
Proof. unfold as_rule_error. destruct r as [|[]]; naive_solver. Qed.

Lemma identifier_Ok v field s : identifier v field = Ok s ↔ v = JString s ∧ validateUuid s = true.
Proof.
  unfold identifier, isUuid. destruct v as [| | | |t| |]; cbn; try (split; [done|by intros [? _]]).
  destruct (validateUuid t) eqn:Ht; cbn.
  - split; [by intros [= <-]|by intros [[= ->] _]].
  - split; [done|]. intros [[= ->] Hs]. congruence.
Qed.

Lemma identifiers_Ok v field limit xs :
  identifiers v field limit = Ok xs ↔
  v = JArray (map JString xs) ∧ (length xs <= limit)%nat ∧ Forall (λ c, validateUuid c = true) xs ∧ NoDup xs.
Proof.
  assert (∀ items, traverse (λ item, identifier item field) items = Ok xs ↔
    items = map JString xs ∧ Forall (λ c, validateUuid c = true) xs) as Htr.
  { intros items. rewrite traverse_Ok. split.
    - induction 1 as [|v' s vs ss [-> Hs]%identifier_Ok _ [-> IH]]; [done|]. cbn. auto.
    - intros [-> Hxs]. induction Hxs; cbn; constructor; [by apply identifier_Ok|done]. }
  destruct v as [| | | | |items|]; cbn [identifiers]; try (split; [done|by intros (? & _)]). split.
  - intros (u1 & Hlim%reject_if_Ok & H1)%bind_Ok_inv. apply bind_Ok_inv in H1 as (ys & Hys & H1).
    apply bind_Ok_inv in H1 as (u2 & Hnd%reject_if_Ok & [= ->]). apply Htr in Hys as [-> Hall].
    rewrite length_map in Hlim. apply Nat.ltb_ge in Hlim.
    apply negb_false_iff, bool_decide_eq_true_1, new_set_length_NoDup in Hnd. done.
  - intros ([= ->] & Hlim & Hall & Hnd). apply bind_Ok_inv. exists ().
    rewrite reject_if_Ok, length_map. split; [by apply Nat.ltb_ge|].
    apply bind_Ok_inv. exists xs. split; [by apply Htr|]. apply bind_Ok_inv. exists ().
    split; [|done]. apply reject_if_Ok. apply negb_false_iff, bool_decide_eq_true_2. by apply new_set_length_NoDup.
Qed.

Lemma check_fields_Ok members u :
  check_fields members = Ok u ↔ ∀ m, m ∈ members → m.1 ∈ ALLOWED_DRAFT_FIELDS.
Proof.
  destruct u. induction members as [|[k v] members IH]; cbn.
  - split; [|done]. intros _ m. by rewrite elem_of_nil.
  - destruct (includes ALLOWED_DRAFT_FIELDS k) eqn:Hk.
    + rewrite IH. apply includes_spec in Hk. split; [|set_solver].
      intros H1 m [->|Hm]%elem_of_cons; auto.
    + split; [done|]. intros H1. specialize (H1 (k, v) ltac:(set_solver)).
      apply includes_spec in H1. cbn in H1. congruence.
Qed.

Context `{!UnicodeLaws _}.

(** The parser of conflict-response rules admits exactly the valid rules: a
    document it accepts yields a valid rule without unknown fields, and the
    document of every valid rule is read back to it. *)
Theorem parseConflictResponseDraft_exact d :
  (∀ v, parseConflictResponseDraft v = Ok d →
     valid_rule d ∧ ∃ members, v = JObject members ∧ ∀ m, m ∈ members → m.1 ∈ ALLOWED_DRAFT_FIELDS) ∧
  (valid_rule d → parseConflictResponseDraft (draft_document d) = Ok d).
Proof using All.
  split.
  - intros v Hv. destruct v as [| | | | | |members]; try discriminate. cbn [parseConflictResponseDraft] in Hv.
    apply bind_Ok_inv in Hv as (u & Hfields & Hv). apply bind_Ok_inv in Hv as (response & Hr & Hv).
    apply bind_Ok_inv in Hv as (avail & Ha & Hv). apply bind_Ok_inv in Hv as (u1 & Hne & Hv).
    apply bind_Ok_inv in Hv as (u2 & Hin & Hv). apply bind_Ok_inv in Hv as (name & Hname & Hv).
    apply bind_Ok_inv in Hv as (message & Hmess & Hv). apply bind_Ok_inv in Hv as (horizon & Hhor & [= <-]).
    apply identifier_Ok in Hr as [_ Hr]. apply identifiers_Ok in Ha as (_ & Hlim & Hall & Hnd).
    apply reject_if_Ok in Hne, Hin. apply as_rule_error_Ok in Hname, Hmess, Hhor.
    apply PlanningDrafts.text_Ok in Hname, Hmess. apply integer_Ok in Hhor. split.
    + unfold valid_rule. cbn [rule_name response_calendar_id availability_calendars decline_message rule_horizon_days].
      pose proof (sort_by_perm text_leb avail) as Hperm.
      split; [exact Hname|]. split; [exact Hr|]. split; [|split; [|split; [|split; [|split; [|split; [exact Hmess|lia]]]]]].
      * rewrite Hperm. apply Nat.eqb_neq in Hne. lia.
      * by rewrite Hperm.
      * by rewrite Hperm.
      * intros Hin'%elem_of_sort_by%includes_spec. congruence.
      * apply sort_by_sorted; eauto with planipus.
    + exists members. split; [done|]. by apply (check_fields_Ok members u).
  - destruct d as [name response avail message horizon].
    intros (Hname & Hr & [Hlo Hhi] & Hall & Hnd & Hnin & Hsorted & Hmess & Hhor).
    cbn [rule_name response_calendar_id availability_calendars decline_message rule_horizon_days] in *.
    unfold draft_document, parseConflictResponseDraft. cbn [rule_name response_calendar_id availability_calendars
      decline_message rule_horizon_days].
    match goal with |- context [check_fields ?ms] => assert (check_fields ms = Ok ()) as -> end.
    { apply check_fields_Ok. unfold ALLOWED_DRAFT_FIELDS. intros m Hm.
      repeat (apply elem_of_cons in Hm as [->|Hm]; [cbn [fst]; in_list|]). by apply elem_of_nil in Hm. }
    cbn [mbind res_bind]. unfold member. cbn [List.find String.eqb Ascii.eqb Bool.eqb].
    rewrite (proj2 (identifier_Ok _ _ response)) by done. cbn [mbind res_bind].
    rewrite (proj2 (identifiers_Ok _ _ _ avail)) by done. cbn [mbind res_bind].
    rewrite (proj2 (reject_if_Ok (length avail =? 0)%nat _ ())) by (apply Nat.eqb_neq; lia). cbn [mbind res_bind].
    rewrite (proj2 (reject_if_Ok (includes avail response) _ ())).
    2: { apply not_true_iff_false. by rewrite includes_spec. }
    cbn [mbind res_bind or_default]. unfold rule_text, rule_integer.
    rewrite text_json by done. cbn [mbind res_bind as_rule_error]. rewrite text_json by done.
    cbn [mbind res_bind as_rule_error].
    match goal with |- context [PlanningDrafts.integer ?v ?f 1 90] =>
      assert (PlanningDrafts.integer v f 1 90 = Ok horizon) as -> by (apply (integer_json f); lia) end.
    cbn [mbind res_bind as_rule_error]. by rewrite sort_by_id.
Qed.
End valid.

(** ** Conflicts share an instant *)

#[local] Arguments Date_parse : simpl never.
#[local] Arguments toISOString : simpl never.

Lemma intervalsOverlap_spec ls le rs re a b c d :
  Date_parse ls = Some a → Date_parse le = Some b → Date_parse rs = Some c → Date_parse re = Some d →
  intervalsOverlap ls le rs re = true ↔ ∃ t, a <= t < b ∧ c <= t < d.
Proof.
  intros Ha Hb Hc Hd. unfold intervalsOverlap. rewrite Ha, Hb, Hc, Hd.
  destruct (b <=? a) eqn:E1; bool_to_prop; cbn [orb].
  { split; [done|]. intros (t & ? & ?). lia. }
  destruct (d <=? c) eqn:E2; bool_to_prop.
  { split; [done|]. intros (t & ? & ?). lia. }
  rewrite andb_true_iff, !Z.ltb_lt. split.
  - intros [? ?]. exists (Z.max a c). lia.
  - intros (t & ? & ?). lia.
Qed.

Lemma four_digit_between a b c :
  four_digit_instant a → four_digit_instant c → a <= b <= c → four_digit_instant b.
Proof.
  unfold four_digit_instant, four_digit_day, MILLISECONDS_PER_DAY. intros [H1 H2] [H3 H4] [H5 H6].
  assert (a / 86400000 <= b / 86400000) by (apply Z.div_le_mono; lia).
  assert (b / 86400000 <= c / 86400000) by (apply Z.div_le_mono; lia). lia.
Qed.

(** What may be declined, and when it conflicts: a candidate is a confirmed
    original busy invitation that still awaits the answer of an attendee, in
    the future, inside the horizon and of at most seven days; it conflicts
    with the busy intervals exactly when one of them shares an instant with it. *)
Theorem candidate_conflicts row now horizonEnd c :
  four_digit_instant now → four_digit_instant horizonEnd →
  workInvitationCandidate row now horizonEnd = Some c →
  ∃ event start finish,
    normalized_event row = Some event ∧ awaits_answer event = true ∧
    source_event_ref event = remote_event_id c ∧ remote_event_id c = row_remote_event_id row ∧
    Date_parse (start_at c) = Some start ∧ Date_parse (end_at c) = Some finish ∧
    now < start < finish ∧ finish <= horizonEnd ∧ finish - start <= 604800000 ∧
    ∀ intervals, (∃ b, b ∈ overlappingBusyIntervals c intervals) ↔
      ∃ b bs be t, b ∈ intervals ∧ Date_parse (busy_start b) = Some bs ∧ Date_parse (busy_end b) = Some be ∧
        bs <= t < be ∧ start <= t < finish.
Proof.
  intros Hnow Hhor. unfold workInvitationCandidate.
  destruct (normalized_event row) as [event|]; [|done].
  destruct (isEligibleWorkInvitation event now horizonEnd) eqn:He; cbn [negb]; [|done].
  destruct (source_event_ref event =? row_remote_event_id row)%string eqn:Href; cbn [negb]; [|done].
  unfold isEligibleWorkInvitation in He. apply andb_true_iff in He as [Haw He].
  destruct (timing event) as [[s f tz1 tz2|]|]; [|done..]. unfold canonicalInstant.
  destruct (Date_parse s) as [start|]; [|done]. destruct (Date_parse f) as [finish|]; [|done].
  cbn. intros [= <-]. bool_to_prop. unfold MAX_DECLINABLE_INVITATION_MILLISECONDS in *.
  assert (Date_parse (toISOString start) = Some start) as Hs.
  { apply Date_parse_toISOString. apply (four_digit_between now _ horizonEnd); [done..|lia]. }
  assert (Date_parse (toISOString finish) = Some finish) as Hf.
  { apply Date_parse_toISOString. apply (four_digit_between now _ horizonEnd); [done..|lia]. }
  exists event, start, finish. split_and!; try done; try lia. intros intervals.
  unfold overlappingBusyIntervals. cbn [start_at end_at]. setoid_rewrite list_elem_of_In. setoid_rewrite filter_In.
  split.
  - intros (b & Hb & Ho). assert (∃ bs be, Date_parse (busy_start b) = Some bs ∧ Date_parse (busy_end b) = Some be)
      as (bs & be & Hbs & Hbe).
    { unfold intervalsOverlap in Ho. rewrite Hs, Hf in Ho. repeat case_match; try done. eauto. }
    destruct (proj1 (intervalsOverlap_spec _ _ _ _ _ _ _ _ Hs Hf Hbs Hbe) Ho) as (t & Ht1 & Ht2).
    exists b, bs, be, t. split_and!; try done; lia.
  - intros (b & bs & be & t & Hb & Hbs & Hbe & Ht). exists b. split; [done|].
    apply (intervalsOverlap_spec _ _ _ _ _ _ _ _ Hs Hf Hbs Hbe). exists t. lia.
Qed.

(** ** What a preview counts *)

Lemma conflicts_of_length invitations busy :
  (length (conflicts_of invitations busy) <= length invitations)%nat.
Proof.
  unfold conflicts_of. induction invitations as [|i rest IH]; cbn [flat_map length]; [lia|].
  rewrite length_app. set (n := length (flat_map _ rest)) in *. case_match; cbn [length]; lia.
Qed.

Lemma filter_length_le {A} (p : A → bool) xs : (length (List.filter p xs) <= length xs)%nat.
Proof. induction xs as [|x xs IH]; cbn; [lia|]. destruct (p x); cbn; lia. Qed.

(** A preview never promises more declines than the rolling budget of twenty
    in a day leaves, and holds the rest: the conflicts that are not held are as
    many as the guarded ones and the remaining budget allow, whichever is
    less; the examples are at most three. *)
Theorem preview_within_budget invitations busy applied :
  0 <= applied →
  let r := conflictPreviewResult invitations busy applied in
  let guarded := Z.of_nat (length (List.filter (λ c, negb (unguarded c.1)) (conflicts_of invitations busy))) in
  conflict_count r - held_count r = Z.min guarded (Z.max 0 (20 - applied)) ∧
  applied + (conflict_count r - held_count r) <= Z.max 20 applied ∧
  0 <= budget_held_count r <= held_count r ∧ held_count r <= conflict_count r <= invitation_count r ∧
  (length (examples r) <= 3)%nat ∧
  ("automatic_decline_budget_will_hold_excess" ∈ preview_warnings r ↔ 0 < budget_held_count r).
Proof.
  intros Happ r guarded.
  assert (length (List.filter (λ c, unguarded c.1) (conflicts_of invitations busy)) +
    length (List.filter (λ c, negb (unguarded c.1)) (conflicts_of invitations busy)) =
    length (conflicts_of invitations busy))%nat as Hsum.
  { generalize (conflicts_of invitations busy). intros cs. induction cs as [|c cs IH]; cbn; [done|].
    destruct (unguarded c.1); cbn; lia. }
  pose proof (conflicts_of_length invitations busy) as Hlen.
  subst r guarded. unfold conflictPreviewResult.
  cbn [conflict_count held_count budget_held_count invitation_count examples preview_warnings].
  unfold MAX_AUTOMATIC_DECLINES_PER_24_HOURS, PREVIEW_EXAMPLE_LIMIT.
  split_and!; try lia.
  - rewrite length_map, length_take. lia.
  - case_match; bool_to_prop.
    + split; [done|]. intros _. in_list.
    + rewrite app_nil_r, !elem_of_cons, elem_of_nil. split; [|lia]. by intros [?|[?|[]]].
Qed.

(** ** The documents that are hashed *)

Lemma texts_leb_total ls rs : texts_leb ls rs = true ∨ texts_leb rs ls = true.
Proof.
  revert rs. induction ls as [|l ls IH]; intros [|r rs]; cbn; auto.
  destruct (ltb_total l r) as [->|[->| ->]]; [auto| |auto].
  rewrite !ltb_irrefl, !String.eqb_refl. cbn. apply IH.
Qed.

Lemma texts_leb_trans ks ls rs :
  length ks = length ls → length ls = length rs →
  texts_leb ks ls = true → texts_leb ls rs = true → texts_leb ks rs = true.
Proof.
  revert ls rs. induction ks as [|k ks IH]; intros [|l ls] [|r rs]; cbn; try done. intros [= H1] [= H2].
  rewrite !orb_true_iff, !andb_true_iff, !String.eqb_eq.
  intros [Hkl|[-> Hkl]] [Hlr|[-> Hlr]]; [left; by eapply ltb_trans|by left..|right]. split; [done|].
  by eapply IH.
Qed.

Lemma texts_leb_antisym ls rs :
  length ls = length rs → texts_leb ls rs = true → texts_leb rs ls = true → ls = rs.
Proof.
  revert rs. induction ls as [|l ls IH]; intros [|r rs]; cbn; try done. intros [= Hlen].
  rewrite !orb_true_iff, !andb_true_iff, !String.eqb_eq.
  intros [Hlr|[-> Hlr]] [Hrl|[Heq Hrl]].
  - by rewrite (ltb_asym _ _ Hlr) in Hrl.
  - subst. by rewrite ltb_irrefl in Hlr.
  - by rewrite ltb_irrefl in Hrl.
  - f_equal. by apply IH.
Qed.

Lemma sort_on_perm {A} (keys : A → list string) (n : nat) (xs ys : list A) :
  (∀ x, length (keys x) = n) → (∀ x y, keys x = keys y → x = y) → xs ≡ₚ ys → sort_on keys xs = sort_on keys ys.
Proof.
  intros Hlen Hinj Hperm. apply sort_by_unique; [|..|done].
  - intros x y. apply texts_leb_total.
  - intros x y z. apply texts_leb_trans; congruence.
  - intros x y _ _ H1 H2. apply Hinj. apply texts_leb_antisym; [congruence|done..].
Qed.

(** The document determines the intervals, in their canonical order. *)
Lemma busy_json_inj x y : busy_json x = busy_json y → x = y.
Proof. destruct x, y. cbn. by intros [= -> -> ->]. Qed.

#[export] Instance busy_json_Inj : Inj (=) (=) busy_json.
Proof. intros x y. apply busy_json_inj. Qed.

Lemma sorted_busy_json_perm xs ys : sorted_busy_json xs = sorted_busy_json ys ↔ xs ≡ₚ ys.
Proof.
  unfold sorted_busy_json. split.
  - intros [= Heq%(inj (map busy_json))].
    pose proof (sort_by_perm (λ x y, texts_leb (busy_keys x) (busy_keys y)) xs) as Hxs.
    pose proof (sort_by_perm (λ x y, texts_leb (busy_keys x) (busy_keys y)) ys) as Hys.
    unfold sort_on in Heq. by rewrite <-Hxs, Heq, Hys.
  - intros Hperm. rewrite (sort_on_perm busy_keys 3 xs ys); try done.
    intros [] []. cbn. by intros [= -> -> ->].
Qed.

(** The basis of an action says neither less nor more than what the decision
    rested on: two bases have the same document exactly when rule, revision,
    hash of the invitation and its times agree and the busy intervals are the
    same up to the order in which the provider lists them. Reordering never
    supersedes a pending decline, and a change of any of the rest does. *)
Theorem action_basis_canonical rule rule' revision revision' i i' busy busy' :
  conflictActionBasisDocument rule revision i busy = conflictActionBasisDocument rule' revision' i' busy' ↔
  rule = rule' ∧ revision = revision' ∧ observation_hash i = observation_hash i' ∧
  start_at i = start_at i' ∧ end_at i = end_at i' ∧ busy ≡ₚ busy'.
Proof.
  unfold conflictActionBasisDocument. rewrite <-sorted_busy_json_perm. split.
  - intros Heq. inversion Heq as [[Hrule Hrev Hhash Hstart Hend Hbusy]]. split_and!; [done..|]. unfold sorted_busy_json. by rewrite Hbusy.
  - intros (-> & -> & -> & -> & -> & ->). done.
Qed.

(** ** Examples *)

Module Examples.

#[local] Instance sample_uuids : Uuids := {| validateUuid s := (String.length s =? 4)%nat |}.

Definition rule : ConflictResponseDraft :=
  {| rule_name := "family first"; response_calendar_id := "work"; availability_calendars := ["home"; "kids"];
     decline_message := "Sorry"; rule_horizon_days := 60 |}.

Example parse_sorts : parseConflictResponseDraft (JObject
  [("name", JString "family first"); ("response_calendar_id", JString "work");
   ("availability_calendar_ids", JArray [JString "kids"; JString "home"]);
   ("decline_message", JString "Sorry")]) = Ok rule.
Proof. vm_compute. reflexivity. Qed.

Lemma parseConflictResponseDraft_exact_witness :
  valid_rule rule ∧ parseConflictResponseDraft (draft_document rule) = Ok rule.
Proof.
  destruct (parseConflictResponseDraft_exact rule) as [Hsound Hround].
  assert (valid_rule rule) as Hrule.
  { apply (Hsound (draft_document rule)). vm_compute. reflexivity. }
  split; [exact Hrule|]. apply Hround. exact Hrule.
Defined.

Definition meeting : SourceObservation := {|
  source_event_ref := "event"; source_occurrence_ref := "occurrence"; Types.remote_revision := "r1";
  lifecycle := confirmed; origin := provider_original;
  timing := Some (timed "2026-10-25T10:00:00+02:00" "2026-10-25T09:00:00Z" "UTC" "UTC");
  recurrence := None; availability := Some busy;
  relationship := {| role := attendee_role; response := needs_action; response_note := None |};
  destination_identity_invited := false;
  content := {| summary := None; description := None; location := None; conference := None |};
  attendees := None; organizer := None; attachments := None; source_url := None; provider_metadata := None |}.

Definition row : WorkObservationRow :=
  {| row_id := "o1"; row_remote_event_id := "event"; row_recurrence_identity := ""; remote_etag := Some "r1";
     row_observation_hash := "h1"; normalized_event := Some meeting |}.

Definition invitation : WorkInvitationCandidate :=
  {| observation_id := "o1"; remote_event_id := "event"; recurrence_identity := ""; observation_hash := "h1";
     remote_revision := Some "r1"; start_at := "2026-10-25T08:00:00.000Z"; end_at := "2026-10-25T09:00:00.000Z" |}.

Definition instant (s : string) : Z := match Date_parse s with Some t => t | None => 0 end.
Definition october : Z := instant "2026-10-01T00:00:00Z".
Definition december : Z := instant "2026-12-01T00:00:00Z".

Definition dentist : list ConflictBusyInterval :=
  [{| busy_calendar := "home"; busy_start := "2026-10-25T08:30:00Z"; busy_end := "2026-10-25T10:00:00Z" |}].

Lemma candidate_conflicts_witness :
  workInvitationCandidate row october december = Some invitation ∧
  overlappingBusyIntervals invitation dentist = dentist ∧
  ∃ event start finish,
    normalized_event row = Some event ∧ Date_parse (start_at invitation) = Some start ∧
    Date_parse (end_at invitation) = Some finish ∧ october < start < finish.
Proof.
  assert (workInvitationCandidate row october december = Some invitation) as Hc by (vm_compute; reflexivity).
  split; [exact Hc|]. split; [vm_compute; reflexivity|].
  destruct (candidate_conflicts row october december invitation) as (event & start & finish & He & _ & _ & _ & Hs & Hf & Hlt & _).
  - split; vm_compute; discriminate.
  - split; vm_compute; discriminate.
  - exact Hc.
  - exists event, start, finish. repeat split; try assumption; apply Hlt.
Defined.

Lemma preview_within_budget_witness :
  held_count (conflictPreviewResult [invitation] dentist 20) = 1 ∧
  let r := conflictPreviewResult [invitation] dentist 19 in
  19 + (conflict_count r - held_count r) <= Z.max 20 19.
Proof.
  split; [vm_compute; reflexivity|].
  refine (proj1 (proj2 (preview_within_budget [invitation] dentist 19 _))). vm_compute. discriminate.
Defined.
End Examples.
