(* ===== verification/ConflictInputs.v ===== *)
(** * Conflict response: what a decision reads

    [server/src/conflict-response/inputs.ts] and [providers/calendar-identity.ts],
    [conflict-response/privacy-hash.ts]: the tables of the
    conflict response, the selection of calendars, the guards of a rule, the
    invitations of the response calendar and the opaque busy intervals of the
    availability calendars, which four workers query.

    In a computation the groups of calendars are queried one after the other;
    [schedules_agree] shows that the order in which the provider answers does
    not matter. *)

From S2P Require Import Prelude Canonical Types Dates Text Jobs Transaction Store ConflictResponse.
From stdpp Require Import options.
Open Scope Z_scope.

(** ** Tables *)

Module Calendar.
Record CalendarRow := {
  organization : string;
  connection : string;
  remote_id : string;
  name : string;
  readable : bool;
  writable : bool;
  capabilities : json;
}.
End Calendar.

Module Account.
Record AccountRow := { provider : string; scopes : json; status : string; intended_role : string }.
End Account.

(** [source_observations], as the conflict response reads it. *)
Module Work.
Record WorkRow := {
  organization : string;
  calendar : string;
  remote_event : string;
  recurrence_identity : string;
  remote_etag : option string;
  observation_hash : string;
  event : option SourceObservation;
  managed_copy : bool;
  tombstone : bool;
}.
End Work.

(** [sync_policies]. *)
Module Bridge.
Record BridgeRow := {
  organization : string;
  status : Policy.PolicyStatus;
  source_identity : string;
  destination_identity : string;
}.
End Bridge.

Module Cursor.
Inductive CursorState := full_required | syncing | ready | action_required.
Record CursorRow := {
  organization : string;
  calendar : string;
  fingerprint : string;
  state : CursorState;
  last_success_at : option Z;
}.
End Cursor.
#[export] Instance CursorState_eq_dec : EqDecision Cursor.CursorState.
Proof. solve_decision. Defined.

(** [conflict_response_rules]. *)
Module Rule.
Inductive RuleStatus := active | paused | deleted.
Record RuleRow := {
  organization : string;
  owner : string;
  response_calendar : string;
  response_identity : string;
  status : RuleStatus;
  revision : Z;
  document : json;
  hash : string;
  last_evaluated_at : option Z;
  last_success_at : option Z;
  safe_error_code : option string;
  updated_at : Z;
}.
End Rule.
#[export] Instance RuleStatus_eq_dec : EqDecision Rule.RuleStatus.
Proof. solve_decision. Defined.

(** [invitation_response_actions]. *)
Module Action.
Inductive ActionStatus := pending | applied | superseded | held.
Record ActionRow := {
  organization : string;
  rule : string;
  rule_revision : Z;
  response_calendar : string;
  work_observation : string;
  remote_event : string;
  recurrence_identity : string;
  work_observation_hash : string;
  conflict_basis_hash : string;
  expected_remote_revision : option string;
  desired_comment : string;
  status : ActionStatus;
  remote_revision : option string;
  last_attempt_at : option Z;
  last_success_at : option Z;
  safe_error_code : option string;
  updated_at : Z;
}.
End Action.
#[export] Instance ActionStatus_eq_dec : EqDecision Action.ActionStatus.
Proof. solve_decision. Defined.

(** [conflict_response_previews]. *)
Module Preview.
Record PreviewRow := {
  organization : string;
  principal : string;
  draft : json;
  draft_hash : string;
  snapshot_hash : string;
  reference_at : Z;
  expires_at : Z;
  consumed_at : option Z;
}.
End Preview.

(** [conflict_response_availability_calendars]. *)
Module Availability.
Record AvailabilityRow := {
  organization : string;
  rule : string;
  calendar : string;
  identity : string;
}.
End Availability.

Record ConflictDb := {
  calendars : gmap string Calendar.CalendarRow;
  accounts : gmap string Account.AccountRow;
  observations : gmap string Work.WorkRow;
  bridges : gmap string Bridge.BridgeRow;
  cursors : gmap string Cursor.CursorRow;
  previews : gmap string Preview.PreviewRow;
  rules : gmap string Rule.RuleRow;
  rule_availability : list Availability.AvailabilityRow;
  actions : gmap string Action.ActionRow;
  facts : list Audit.AuditFact;
  conflict_jobs : gmap string Job;
}.

Definition with_previews (f : gmap string Preview.PreviewRow → gmap string Preview.PreviewRow) (d : ConflictDb)
    : ConflictDb :=
  {| calendars := calendars d; accounts := accounts d; observations := observations d; bridges := bridges d;
     cursors := cursors d; previews := f (previews d); rules := rules d; rule_availability := rule_availability d;
     actions := actions d; facts := facts d; conflict_jobs := conflict_jobs d |}.
Definition with_rules (f : gmap string Rule.RuleRow → gmap string Rule.RuleRow) (d : ConflictDb) : ConflictDb :=
  {| calendars := calendars d; accounts := accounts d; observations := observations d; bridges := bridges d;
     cursors := cursors d; previews := previews d; rules := f (rules d); rule_availability := rule_availability d;
     actions := actions d; facts := facts d; conflict_jobs := conflict_jobs d |}.
Definition with_availability (row : Availability.AvailabilityRow) (d : ConflictDb) : ConflictDb :=
  {| calendars := calendars d; accounts := accounts d; observations := observations d; bridges := bridges d;
     cursors := cursors d; previews := previews d; rules := rules d;
     rule_availability := rule_availability d ++ [row];
     actions := actions d; facts := facts d; conflict_jobs := conflict_jobs d |}.
Definition with_actions (f : gmap string Action.ActionRow → gmap string Action.ActionRow) (d : ConflictDb)
    : ConflictDb :=
  {| calendars := calendars d; accounts := accounts d; observations := observations d; bridges := bridges d;
     cursors := cursors d; previews := previews d; rules := rules d; rule_availability := rule_availability d;
     actions := f (actions d); facts := facts d; conflict_jobs := conflict_jobs d |}.
Definition with_fact (fact : Audit.AuditFact) (d : ConflictDb) : ConflictDb :=
  {| calendars := calendars d; accounts := accounts d; observations := observations d; bridges := bridges d;
     cursors := cursors d; previews := previews d; rules := rules d; rule_availability := rule_availability d;
     actions := actions d; facts := facts d ++ [fact]; conflict_jobs := conflict_jobs d |}.
Definition with_conflict_jobs (f : gmap string Job → gmap string Job) (d : ConflictDb) : ConflictDb :=
  {| calendars := calendars d; accounts := accounts d; observations := observations d; bridges := bridges d;
     cursors := cursors d; previews := previews d; rules := rules d; rule_availability := rule_availability d;
     actions := actions d; facts := facts d; conflict_jobs := f (conflict_jobs d) |}.

(** ** The provider *)

Record FreeBusyCalendar := { free_busy_calendar : string; free_busy : list (string * string) }.
Record FreeBusyResult := { time_min : string; time_max : string; free_busy_calendars : list FreeBusyCalendar }.
Record DeclineResult := { decline_revision : string; comment_retained : bool; decline_changed : bool }.

(** The calls of the provider, with their answers. *)
Inductive ConflictCall :=
| QueryFreeBusy (calendars : list string) (from until : string) (answer : res failure FreeBusyResult)
| DeclineInvitation (calendar event expectedRevision comment : string) (answer : res failure DeclineResult).

Class ConflictProvider (R : Type) := {
  conflict_resolve : string → res failure ();
  conflict_token : string → string → R → res failure string * R;
  provider_free_busy : string → string → list string → string → string → R → res failure FreeBusyResult * R;
  provider_decline : string → string → string → string → string → string → R → res failure DeclineResult * R;
}.

(** The HMAC of the installation: [createHmac(sha256, key)] in hexadecimal. *)
Class PrivateKey := { hmac_hex : string → string }.

(** [ConflictPrivacyHasher.hash]. *)
Definition private_hash `{Unicode} `{PrivateKey} (value : json) : res failure string :=
  match canonicalizeJson value with
  | Ok s => Ok ("hmac-sha256:" +:+ hmac_hex s)
  | Throw _ => Throw (other_failure "typeerror")
  end.

Definition rule_failure (e : conflict_input_error) : failure := coded_failure (input_code e) (input_retryable e).

Definition input_failure {A} (r : res conflict_input_error A) : res failure A :=
  match r with Ok a => Ok a | Throw e => Throw (rule_failure e) end.

(** [throw new ConflictResponseInputError(code, ...)], for a condition. *)
Definition guard_input (condition : bool) (code : string) (code_retryable : bool) : res failure () :=
  if condition then Throw (coded_failure code code_retryable) else Ok ().

(** ** Identities of calendars *)

(** [Buffer.byteLength(s, utf8)] of Latin-1 characters. *)
Fixpoint byteLength (s : string) : Z :=
  match s with
  | "" => 0
  | String c s => (if is_ascii c then 1 else 2) + byteLength s
  end.

Definition identity_component (s : string) : string := pretty (byteLength s) +:+ ":" +:+ s.

Definition providerCalendarIdentity (provider connection remote : string) : string :=
  let scope := if (provider =? "google")%string then "global" else connection in
  identity_component provider +:+ identity_component scope +:+ identity_component remote.

Definition binding_identity (c : ConflictCalendarBinding) : string :=
  providerCalendarIdentity (binding_provider c) (binding_connection c) (binding_remote c).

(** ** The selection of calendars *)

(** The join of a calendar with its connection. *)
Definition binding_row (organization : string) (d : ConflictDb) (id : string) : option ConflictCalendarBinding :=
  c ← calendars d !! id;
  a ← accounts d !! Calendar.connection c;
  if bool_decide (Calendar.organization c = organization)
  then Some {| binding_id := id; binding_connection := Calendar.connection c; binding_remote := Calendar.remote_id c;
               binding_readable := Calendar.readable c; binding_writable := Calendar.writable c;
               binding_capabilities := Calendar.capabilities c; binding_scopes := Account.scopes a;
               binding_provider := Account.provider a; connection_status := Account.status a;
               intended_role := Account.intended_role a |}
  else None.

Definition isFreeBusyReadable (c : ConflictCalendarBinding) : bool :=
  binding_readable c ||
  match binding_capabilities c with
  | JObject members => match member members "freebusy_readable" with JBool b => b | _ => false end
  | _ => false
  end.

Definition GOOGLE_FREEBUSY_SCOPES : list string :=
  ["https://www.googleapis.com/auth/calendar.freebusy"; "https://www.googleapis.com/auth/calendar.events.freebusy";
   "https://www.googleapis.com/auth/calendar.readonly"; "https://www.googleapis.com/auth/calendar"].

Definition hasGoogleFreeBusyScope (scopes : json) : bool :=
  match scopes with
  | JArray items => existsb (λ s, match s with JString s => includes GOOGLE_FREEBUSY_SCOPES s | _ => false end) items
  | _ => false
  end.

Definition requireDistinctProviderCalendars (response : ConflictCalendarBinding)
    (availability : list ConflictCalendarBinding) : res failure () :=
  let identities := map binding_identity availability in
  guard_input (includes identities (binding_identity response)
               || negb (length (new_set identities) =? length identities)%nat)
    "same_provider_calendar" false.

Definition loadConflictCalendarSelection (d : ConflictDb) (organization : string) (draft : ConflictResponseDraft)
    : res failure (ConflictCalendarBinding * list ConflictCalendarBinding) :=
  let selectedIds := response_calendar_id draft :: availability_calendars draft in
  let rows := omap (binding_row organization d) (new_set selectedIds) in
  _ ← guard_input (negb (length rows =? length selectedIds)%nat) "calendar_not_found" false;
  let unavailable := coded_failure "response_calendar_unavailable" false in
  response ← otherwise (List.find (λ c, (binding_id c =? response_calendar_id draft)%string) rows) unavailable;
  _ ← (if binding_readable response && binding_writable response
          && (connection_status response =? "active")%string && (intended_role response =? "both")%string
       then Ok () else Throw unavailable);
  availability ← traverse (λ id, otherwise (List.find (λ c, (binding_id c =? id)%string) rows)
                                   (coded_failure "calendar_not_found" false))
                   (availability_calendars draft);
  _ ← requireDistinctProviderCalendars response availability;
  _ ← guard_input (existsb (λ c, negb (isFreeBusyReadable c) || negb (connection_status c =? "active")%string
        || (negb (intended_role c =? "availability")%string && negb (intended_role c =? "source")%string
            && negb (intended_role c =? "both")%string)) availability)
        "availability_calendar_unavailable" false;
  _ ← guard_input (existsb (λ c, (binding_provider c =? "google")%string
        && negb (hasGoogleFreeBusyScope (binding_scopes c))) availability)
        "availability_scope_missing" false;
  Ok (response, sort_by (λ x y, text_leb (binding_id x) (binding_id y)) availability).

(** ** Guards of a rule *)

Definition requireResponseSync `{Unicode} `{Digest} (d : ConflictDb) (organization : string)
    (response : ConflictCalendarBinding) (referenceAt : Z) : res failure () :=
  queryFingerprint ← calendarSyncQueryFingerprint (binding_provider response) (binding_remote response);
  guard_input (negb (existsb (λ '(_, c),
      bool_decide (Cursor.organization c = organization) && bool_decide (Cursor.calendar c = binding_id response)
      && bool_decide (Cursor.fingerprint c = queryFingerprint) && bool_decide (Cursor.state c = Cursor.ready)
      && match Cursor.last_success_at c with Some t => referenceAt - 15 * 60000 <=? t | None => false end)
    (map_to_list (cursors d)))) "response_sync_incomplete" true.

(** The live policies that touch a protected calendar. *)
Definition copy_policies (d : ConflictDb) (organization : string) (protectedIdentities : list string)
    : list Bridge.BridgeRow :=
  List.filter (λ p, bool_decide (Bridge.organization p = organization)
      && (bool_decide (Bridge.status p = Policy.active) || bool_decide (Bridge.status p = Policy.paused))
      && (includes protectedIdentities (Bridge.source_identity p)
          || includes protectedIdentities (Bridge.destination_identity p)))
    (map_to_list (bridges d)).*2.

Definition requireNoCopyPolicies (d : ConflictDb) (organization : string)
    (availability : list ConflictCalendarBinding) : res failure bool :=
  let protectedIdentities := map binding_identity availability in
  let policies := copy_policies d organization protectedIdentities in
  let outbound (status : Policy.PolicyStatus) :=
    existsb (λ p, bool_decide (Bridge.status p = status) && includes protectedIdentities (Bridge.source_identity p))
      policies in
  _ ← guard_input (existsb (λ p, includes protectedIdentities (Bridge.destination_identity p)) policies)
        "availability_copy_feedback" false;
  _ ← guard_input (outbound Policy.active) "copy_policy_conflict" false;
  Ok (outbound Policy.paused).

(** The facts of declines under a rule of the same provider calendar. *)
Definition counts_as_decline (d : ConflictDb) (organization identity : string) (since : Z) (fact : Audit.AuditFact)
    : bool :=
  bool_decide (Audit.organization fact = organization)
  && bool_decide (Audit.action fact = "invitation_response.declined")
  && bool_decide (Audit.target_type fact = "invitation_response_action")
  && (since <=? Audit.created_at fact)
  && match actions d !! Audit.target fact with
     | Some a =>
         bool_decide (Action.organization a = organization) &&
         match rules d !! Action.rule a with
         | Some r => bool_decide (Rule.organization r = organization)
                     && bool_decide (Rule.response_identity r = identity)
         | None => false
         end
     | None => false
     end.

Definition countRecentAppliedDeclines (d : ConflictDb) (organization identity : string) (now : Z) : Z :=
  Z.of_nat (length (List.filter (counts_as_decline d organization identity (now - 24 * 60 * 60000)) (facts d))).

(** ** Invitations *)

Definition WORK_OBSERVATION_LIMIT : nat := Z.to_nat 5000.

Definition work_row (id : string) (w : Work.WorkRow) : WorkObservationRow :=
  {| row_id := id; row_remote_event_id := Work.remote_event w; row_recurrence_identity := Work.recurrence_identity w;
     remote_etag := Work.remote_etag w; row_observation_hash := Work.observation_hash w;
     normalized_event := Work.event w |}.

Definition start_instant_of (w : Work.WorkRow) : option string :=
  event ← Work.event w;
  match timing event with Some (timed start_instant _ _ _) => Some start_instant | _ => None end.

(** The conditions of the query; instants are compared as texts. *)
Definition selects_invitation (organization calendar from until : string) (w : Work.WorkRow) : bool :=
  bool_decide (Work.organization w = organization) && bool_decide (Work.calendar w = calendar)
  && negb (Work.managed_copy w) && negb (Work.tombstone w)
  && match Work.event w with Some event => awaits_answer event | None => false end
  && match start_instant_of w with
     | Some s => text_leb from s && (s <? until)%string
     | None => false
     end.

Definition invitation_leb (left right : string * Work.WorkRow) : bool :=
  let start w := nullish (start_instant_of w) "" in
  (start left.2 <? start right.2)%string
  || ((start left.2 =? start right.2)%string && text_leb left.1 right.1).

Definition invitation_keys (i : WorkInvitationCandidate) : list string := [start_at i; end_at i; observation_hash i].

Definition loadWorkInvitations (d : ConflictDb) (organization calendar : string) (referenceAt horizonEnd : Z)
    : res failure (list WorkInvitationCandidate) :=
  let rows := take (S WORK_OBSERVATION_LIMIT) (sort_by invitation_leb
    (List.filter (λ '(_, w), selects_invitation organization calendar (toISOString referenceAt)
                               (toISOString horizonEnd) w) (map_to_list (observations d)))) in
  _ ← guard_input (WORK_OBSERVATION_LIMIT <? length rows)%nat "work_observation_limit" false;
  Ok (sort_on invitation_keys
        (omap (λ '(id, w), workInvitationCandidate (work_row id w) referenceAt horizonEnd) rows)).

(** ** Busy intervals *)

Definition FREEBUSY_GROUP_CONCURRENCY : nat := 4.
Definition FREEBUSY_INTERVAL_LIMIT : Z := 50000.

Notation Group := (list ConflictCalendarBinding).

Definition group_key (c : ConflictCalendarBinding) : string := binding_provider c +:+ ":" +:+ binding_connection c.

(** [grouped.set(key, ...)]: a new key goes to the end. *)
Fixpoint add_to_group (c : ConflictCalendarBinding) (grouped : list (string * Group)) : list (string * Group) :=
  match grouped with
  | [] => [(group_key c, [c])]
  | (key, group) :: grouped =>
      if (key =? group_key c)%string then (key, group ++ [c]) :: grouped
      else (key, group) :: add_to_group c grouped
  end.

Definition group_calendars (cs : list ConflictCalendarBinding) : list Group :=
  (fold_left (λ grouped c, add_to_group c grouped) cs []).*2.

(** [localByRemote.get(remote)]: the last calendar of the group with the remote id. *)
Definition local_by_remote (group : Group) (remote : string) : option string :=
  binding_id <$> List.find (λ c, (binding_remote c =? remote)%string) (rev group).

Definition busy_total (result : FreeBusyResult) : Z :=
  sum_by (λ c, Z.of_nat (length (free_busy c))) (free_busy_calendars result).

Definition same_instant (left right : string) : bool :=
  match Date_parse left, Date_parse right with Some l, Some r => l =? r | _, _ => false end.

(** One interval of the answer, which must lie in the window. *)
Definition check_interval (timeMin timeMax local : string) (interval : string * string)
    : res failure ConflictBusyInterval :=
  let invalid := coded_failure "freebusy_invalid" true in
  start ← otherwise (Date_parse interval.1) invalid;
  finish ← otherwise (Date_parse interval.2) invalid;
  _ ← (if finish <=? start then Throw invalid else Ok ());
  _ ← guard_input (match Date_parse timeMin with Some t => start <? t | None => false end
                   || match Date_parse timeMax with Some t => t <? finish | None => false end)
        "freebusy_bounds_invalid" false;
  Ok {| busy_calendar := local; busy_start := toISOString start; busy_end := toISOString finish |}.

(** What [queryGroup] does with the answer of a group: [counted] is
    [intervalCount] before, and the second component is it afterwards. *)
Definition check_answer (group : Group) (timeMin timeMax : string) (counted : Z) (result : FreeBusyResult)
    : res failure (list ConflictBusyInterval) * Z :=
  let before :=
    _ ← guard_input (negb (same_instant (time_min result) timeMin && same_instant (time_max result) timeMax))
          "freebusy_bounds_invalid" false;
    let ids := map free_busy_calendar (free_busy_calendars result) in
    guard_input (negb (length ids =? length group)%nat || negb (length (new_set ids) =? length group)%nat
                 || existsb (λ id, match local_by_remote group id with Some _ => false | None => true end) ids)
      "freebusy_incomplete" true in
  match before with
  | Throw e => (Throw e, counted)
  | Ok _ =>
      let counted := counted + busy_total result in
      (_ ← guard_input (FREEBUSY_INTERVAL_LIMIT <? counted) "freebusy_too_large" false;
       intervals ← traverse (λ c, traverse (check_interval timeMin timeMax
                                (nullish (local_by_remote group (free_busy_calendar c)) ""))
                               (free_busy c)) (free_busy_calendars result);
       Ok (List.concat intervals), counted)
  end.

Section busy.
Context {R : Type} `{ConflictProvider R}.
Local Notation M := (Transaction.M ConflictDb R ConflictCall).

Definition queryFreeBusy (provider token : string) (calendars : list string) (from until : string)
    : M FreeBusyResult :=
  call (QueryFreeBusy calendars from until) (provider_free_busy provider token calendars from until).

Definition declineInvitation (provider token calendar event expectedRevision comment : string) : M DeclineResult :=
  call (DeclineInvitation calendar event expectedRevision comment)
    (provider_decline provider token calendar event expectedRevision comment).

Definition conflict_access (provider organization connection : string) : M string :=
  _ ← lift (conflict_resolve provider);
  use_remote (conflict_token organization connection).

(** The calls of [queryGroup]; [first] is [group[0]]. *)
Definition ask_group (organization timeMin timeMax : string) (first : ConflictCalendarBinding) (group : Group)
    : M FreeBusyResult :=
  token ← conflict_access (binding_provider first) organization (binding_connection first);
  queryFreeBusy (binding_provider first) token (map binding_remote group) timeMin timeMax.

(** [queryGroup], with [intervalCount] before and after. *)
Definition queryGroup (organization timeMin timeMax : string) (counted : Z) (group : Group)
    : M (list ConflictBusyInterval * Z) :=
  match group with
  | [] => mret ([], counted)
  | first :: _ =>
      result ← ask_group organization timeMin timeMax first group;
      let '(intervals, counted) := check_answer group timeMin timeMax counted result in
      intervals ← lift intervals;
      mret (intervals, counted)
  end.

Fixpoint query_groups (organization timeMin timeMax : string) (counted : Z) (groups : list Group)
    : M (list (list ConflictBusyInterval)) :=
  match groups with
  | [] => mret []
  | group :: groups =>
      answer ← queryGroup organization timeMin timeMax counted group;
      rest ← query_groups organization timeMin timeMax answer.2 groups;
      mret (answer.1 :: rest)
  end.

Definition queryOpaqueAvailability (organization : string) (calendars : list ConflictCalendarBinding)
    (timeMin timeMax : string) : M (list ConflictBusyInterval) :=
  results ← query_groups organization timeMin timeMax 0 (group_calendars calendars);
  mret (sort_on busy_keys (List.concat results)).

(** ** The prepared input *)

Record Prepared := {
  prepared_response : ConflictCalendarBinding;
  prepared_availability : list ConflictCalendarBinding;
  prepared_invitations : list WorkInvitationCandidate;
  prepared_busy : list ConflictBusyInterval;
  prepared_conflicts : list (WorkInvitationCandidate * list ConflictBusyInterval);
  prepared_snapshot : string;
  prepared_result : ConflictResponsePreviewResult;
}.

Definition DAY_MILLISECONDS : Z := 86400000.

(** The [reduce] over the invitations. *)
Definition availability_end_of (horizonEnd : Z) (invitations : list WorkInvitationCandidate) : Z :=
  fold_left (λ maximum i,
    match Date_parse (end_at i) with Some t => if maximum <? t then t else maximum | None => maximum end)
    invitations horizonEnd.

Definition add_warnings (more : list string) (r : ConflictResponsePreviewResult) : ConflictResponsePreviewResult :=
  {| invitation_count := invitation_count r; conflict_count := conflict_count r; held_count := held_count r;
     budget_held_count := budget_held_count r; examples := examples r; preview_warnings := preview_warnings r ++ more |}.

Definition retention_warnings (pausedOutboundBridgePresent : bool) (availability : list ConflictCalendarBinding)
    : list string :=
  (if pausedOutboundBridgePresent then ["paused_bridge_existing_copies_remain"] else [])
  ++ (if existsb (λ c, negb (intended_role c =? "availability")%string) availability
      then ["availability_role_may_retain_event_content"] else []).

Definition from_db {A} (f : ConflictDb → res failure A) : M A := d ← read_db (λ d, d); lift (f d).

Definition prepareConflictResponseInput `{Unicode} `{Digest} `{PrivateKey} (organization : string)
    (draft : ConflictResponseDraft) (referenceAt : Z) : M Prepared :=
  selection ← from_db (λ d, loadConflictCalendarSelection d organization draft);
  let '(response, availability) := selection in
  _ ← from_db (λ d, requireResponseSync d organization response referenceAt);
  pausedOutboundBridgePresent ← from_db (λ d, requireNoCopyPolicies d organization availability);
  applied ← read_db (λ d, countRecentAppliedDeclines d organization (binding_identity response) referenceAt);
  let horizonEnd := referenceAt + rule_horizon_days draft * DAY_MILLISECONDS in
  invitations ← from_db (λ d, loadWorkInvitations d organization (binding_id response) referenceAt horizonEnd);
  let availabilityEnd := availability_end_of horizonEnd invitations in
  intervals ← queryOpaqueAvailability organization availability (toISOString referenceAt) (toISOString availabilityEnd);
  let snapshot := conflictSnapshotDocument
    {| snapshot_draft := draft; reference_at := toISOString referenceAt; horizon_end := toISOString horizonEnd;
       availability_end := toISOString availabilityEnd; response_calendar := response;
       snapshot_availability := availability; snapshot_invitations := invitations; snapshot_busy := intervals;
       automatic_declines := applied |} in
  snapshot_hash ← lift (private_hash (JObject [("snapshot", snapshot);
    ("paused_outbound_bridge_present", JBool pausedOutboundBridgePresent)]));
  mret {| prepared_response := response; prepared_availability := availability; prepared_invitations := invitations;
          prepared_busy := intervals; prepared_conflicts := conflicts_of invitations intervals;
          prepared_snapshot := snapshot_hash;
          prepared_result := add_warnings
            (retention_warnings pausedOutboundBridgePresent availability)
            (conflictPreviewResult invitations intervals applied) |}.
End busy.

(** ** Workers

    [queryOpaqueAvailability] starts at most four workers; each takes the next
    group, waits for the provider, and stores what [queryGroup] returns. The
    continuation of a wait runs without interruption; the order of the answers
    is any. *)

Record Workers := {
  next_group : nat;
  waiting : list nat;
  interval_count : Z;
  results : gmap nat (list ConflictBusyInterval);
}.

(** [Promise.all]: the first rejection is the outcome. *)
Inductive Pool := Working (w : Workers) | Rejected (e : failure).

Section workers.
Context (groups : list Group) (answers : nat → res failure FreeBusyResult) (timeMin timeMax : string).

Definition no_workers : Workers := {| next_group := 0; waiting := []; interval_count := 0; results := ∅ |}.

Inductive work : Pool → Pool → Prop :=
| work_take w :
    (next_group w < length groups)%nat →
    (length (waiting w) < FREEBUSY_GROUP_CONCURRENCY `min` length groups)%nat →
    work (Working w)
      (Working {| next_group := S (next_group w); waiting := next_group w :: waiting w;
                  interval_count := interval_count w; results := results w |})
| work_answer w left i right group result intervals counted :
    waiting w = left ++ i :: right → groups !! i = Some group → answers i = Ok result →
    check_answer group timeMin timeMax (interval_count w) result = (Ok intervals, counted) →
    work (Working w)
      (Working {| next_group := next_group w; waiting := left ++ right; interval_count := counted;
                  results := <[i := intervals]> (results w) |})
| work_reject w i group result e counted :
    i ∈ waiting w → groups !! i = Some group → answers i = Ok result →
    check_answer group timeMin timeMax (interval_count w) result = (Throw e, counted) →
    work (Working w) (Rejected e)
| work_fail w i e : i ∈ waiting w → answers i = Throw e → work (Working w) (Rejected e).

(** The groups one after the other. *)
Fixpoint answer_all (i : nat) (counted : Z) (rest : list Group) : res failure (list (list ConflictBusyInterval)) :=
  match rest with
  | [] => Ok []
  | group :: rest =>
      result ← answers i;
      let '(intervals, counted) := check_answer group timeMin timeMax counted result in
      intervals ← intervals;
      more ← answer_all (S i) counted rest;
      Ok (intervals :: more)
  end.

(** All workers have returned. *)
Definition finished (w : Workers) : bool :=
  bool_decide (next_group w = length groups) && bool_decide (waiting w = []).

Definition collected (w : Workers) : list (list ConflictBusyInterval) :=
  map (λ i, nullish (results w !! i) []) (seq 0 (length groups)).

(** The number of intervals of an answer, and its intervals when they are accepted. *)
Definition total (i : nat) : Z := match answers i with Ok result => busy_total result | Throw _ => 0 end.

Definition answer_of (group : Group) (result : FreeBusyResult) : res failure (list ConflictBusyInterval) :=
  (check_answer group timeMin timeMax (- busy_total result) result).1.

Definition accepted (i : nat) (intervals : list ConflictBusyInterval) : Prop :=
  ∃ group result, groups !! i = Some group ∧ answers i = Ok result ∧ answer_of group result = Ok intervals.

Lemma busy_total_nonneg result : 0 <= busy_total result.
Proof.
  unfold busy_total. induction (free_busy_calendars result) as [|c cs IH]; [done|].
  rewrite sum_by_cons. lia.
Qed.

Lemma total_nonneg i : 0 <= total i.
Proof. unfold total. case_match; [apply busy_total_nonneg|done]. Qed.

Lemma total_answer i result : answers i = Ok result → total i = busy_total result.
Proof. unfold total. by intros ->. Qed.

Lemma check_answer_Ok group counted result intervals counted' :
  check_answer group timeMin timeMax counted result = (Ok intervals, counted') ↔
  answer_of group result = Ok intervals ∧ counted' = counted + busy_total result ∧
  counted' <= FREEBUSY_INTERVAL_LIMIT.
Proof.
  unfold answer_of, check_answer. case_match; [|naive_solver]. cbn [fst]. unfold guard_input.
  assert (FREEBUSY_INTERVAL_LIMIT <? - busy_total result + busy_total result = false) as ->
    by (apply Z.ltb_ge; unfold FREEBUSY_INTERVAL_LIMIT; lia).
  destruct (FREEBUSY_INTERVAL_LIMIT <? counted + busy_total result) eqn:E; bool_to_prop; cbn [mbind res_bind].
  - split; [done|]. intros (_ & -> & ?). lia.
  - split; [intros [= -> <-]|intros (-> & -> & _)]; auto.
Qed.

Lemma check_answer_Throw group counted result e counted' intervals :
  check_answer group timeMin timeMax counted result = (Throw e, counted') → answer_of group result = Ok intervals →
  FREEBUSY_INTERVAL_LIMIT < counted + busy_total result.
Proof.
  intros Hc Ha. destruct (Z.le_gt_cases (counted + busy_total result) FREEBUSY_INTERVAL_LIMIT); [|done].
  rewrite (proj2 (check_answer_Ok group counted result intervals (counted + busy_total result))) in Hc; [done|]. auto.
Qed.

Lemma answer_all_Ok rest i counted intervals :
  drop i groups = rest → counted <= FREEBUSY_INTERVAL_LIMIT →
  answer_all i counted rest = Ok intervals ↔
  Forall2 accepted (seq i (length rest)) intervals ∧
  counted + sum_by total (seq i (length rest)) <= FREEBUSY_INTERVAL_LIMIT.
Proof.
  revert i counted intervals. induction rest as [|group rest IH]; intros i counted intervals Hdrop Hle;
    cbn [answer_all length seq].
  { split; [intros [= <-]; split; [constructor|cbn; lia]|]. by intros [->%Forall2_nil_inv_l _]. }
  assert (groups !! i = Some group) as Hi.
  { rewrite <-(Nat.add_0_r i), <-lookup_drop, Hdrop. done. }
  assert (drop (S i) groups = rest) as Hdrop'.
  { replace (S i) with (i + 1)%nat by lia. by rewrite <-drop_drop, Hdrop. }
  rewrite sum_by_cons. unfold total at 1. split.
  - intros (result & Hr & H1)%bind_Ok_inv. rewrite Hr.
    destruct (check_answer group timeMin timeMax counted result) as [r counted'] eqn:Hc.
    apply bind_Ok_inv in H1 as (xs & -> & H1). apply bind_Ok_inv in H1 as (more & Hmore & [= <-]).
    apply check_answer_Ok in Hc as (Ha & -> & Hle'). apply IH in Hmore as [Hall Hsum]; [|done..].
    split; [|lia]. constructor; [|done]. exists group, result. done.
  - intros [Hall Hsum]. apply Forall2_cons_inv_l in Hall as (xs & more & (g & result & Hg & Hr & Ha) & Hall & ->).
    rewrite Hr in Hsum |- *. cbn [mbind res_bind]. simplify_eq.
    pose proof (busy_total_nonneg result).
    assert (0 <= sum_by total (seq (S i) (length (drop (S i) groups)))).
    { generalize (seq (S i) (length (drop (S i) groups))). intros is0. induction is0 as [|j js IHj]; [done|].
      rewrite sum_by_cons. pose proof (total_nonneg j). lia. }
    rewrite (proj2 (check_answer_Ok group counted result xs (counted + busy_total result))) by (split_and!; [done..|lia]).
    cbn [mbind res_bind]. rewrite (proj2 (IH (S i) (counted + busy_total result) more eq_refl ltac:(lia))).
    + done.
    + split; [done|lia].
Qed.

Lemma sum_by_total_nonneg is0 : 0 <= sum_by total is0.
Proof. induction is0 as [|j js IH]; [done|]. rewrite sum_by_cons. pose proof (total_nonneg j). lia. Qed.

Lemma sum_by_total_le is0 js : is0 ⊆+ js → sum_by total is0 <= sum_by total js.
Proof.
  intros [ks ->]%submseteq_Permutation. rewrite sum_by_app. pose proof (sum_by_total_nonneg ks). lia.
Qed.

(** What holds while the workers run: [done] are the answered groups. *)
Definition working_ok (w : Workers) : Prop :=
  ∃ answered : list nat,
    answered ++ waiting w ≡ₚ seq 0 (next_group w) ∧ (next_group w <= length groups)%nat ∧
    interval_count w = sum_by total answered ∧ interval_count w <= FREEBUSY_INTERVAL_LIMIT ∧
    (∀ i intervals, results w !! i = Some intervals → accepted i intervals) ∧
    (∀ i, i ∈ answered → is_Some (results w !! i)).

Definition pool_ok (p : Pool) : Prop :=
  match p with
  | Working w => working_ok w
  | Rejected _ => ∀ intervals, answer_all 0 0 groups ≠ Ok intervals
  end.

Lemma answer_all_accepts intervals i :
  answer_all 0 0 groups = Ok intervals → (i < length groups)%nat → ∃ xs, intervals !! i = Some xs ∧ accepted i xs.
Proof.
  intros [Hall _]%answer_all_Ok Hi; [|done|done].
  destruct (Forall2_lookup_l _ _ _ i i Hall) as (xs & Hxs & Hacc); [|eauto].
  by rewrite lookup_seq_lt.
Qed.

Lemma waiting_in_range w i : working_ok w → i ∈ waiting w → (i < length groups)%nat.
Proof.
  intros (answered & Hperm & Hle & _) Hi. assert (i ∈ seq 0 (next_group w)) as Hin by (rewrite <-Hperm; set_solver).
  apply elem_of_seq in Hin. lia.
Qed.

Lemma work_preserves p p' : work p p' → pool_ok p → pool_ok p'.
Proof.
  intros Hstep Hok. destruct Hstep as [w Hn Hf|w left i right group result xs counted Hw Hg Hr Hc
    |w i group result e counted Hw Hg Hr Hc|w i e Hw Hr];
    cbn [pool_ok] in *.
  - destruct Hok as (answered & Hperm & Hle & Hcount & Hlim & Hres & Hall). exists answered. cbn [next_group waiting interval_count results].
    split_and!; try done.
    rewrite seq_S, <-Permutation_cons_append, <-Hperm. by rewrite Permutation_middle.
  - apply check_answer_Ok in Hc as (Ha & -> & Hle').
    destruct Hok as (answered & Hperm & Hle & Hcount & Hlim & Hres & Hall). exists (i :: answered). cbn [next_group waiting interval_count results].
    split_and!; try done.
    + by rewrite <-Hperm, Hw, !app_assoc, <-(Permutation_middle (answered ++ left) right).
    + rewrite sum_by_cons, Hcount, (total_answer i result Hr). lia.
    + intros j ys. rewrite lookup_insert_Some. intros [[<- <-]|[_ Hj]]; [|by apply Hres]. exists group, result. done.
    + intros j [->|Hj]%elem_of_cons; [by rewrite lookup_insert_eq|].
      rewrite lookup_insert_is_Some. destruct (decide (i = j)); auto.
  - intros intervals Hi. pose proof (waiting_in_range w i Hok Hw) as Hlt.
    destruct (answer_all_accepts intervals i Hi Hlt) as (xs & _ & (g & r & Hg' & Hr' & Ha)).
    rewrite Hg in Hg'. rewrite Hr in Hr'. injection Hg' as <-. injection Hr' as <-.
    pose proof (check_answer_Throw _ _ _ _ _ _ Hc Ha) as Hbig.
    apply answer_all_Ok in Hi as [_ Hsum]; [|done|done].
    destruct Hok as (answered & Hperm & Hle & Hcount & _).
    assert (i :: answered ⊆+ seq 0 (length groups)) as Hsub.
    { transitivity (seq 0 (next_group w)).
      2: { replace (length groups) with (next_group w + (length groups - next_group w))%nat by lia.
           rewrite seq_app. by apply submseteq_inserts_r. }
      rewrite <-Hperm. apply list_elem_of_split in Hw as (l1 & l2 & ->).
      rewrite app_assoc, <-(Permutation_middle (answered ++ l1) l2), <-app_assoc.
      by apply submseteq_skip, submseteq_inserts_r. }
    apply sum_by_total_le in Hsub. rewrite sum_by_cons, (total_answer i result Hr) in Hsub. lia.
  - intros intervals Hi. pose proof (waiting_in_range w i Hok Hw) as Hlt.
    destruct (answer_all_accepts intervals i Hi Hlt) as (xs & _ & (g & r & Hg' & Hr' & Ha)). congruence.
Qed.

Lemma finished_collected w : working_ok w → finished w = true → answer_all 0 0 groups = Ok (collected w).
Proof.
  intros (answered & Hperm & _ & Hcount & Hlim & Hres & Hall) Hfin. unfold finished in Hfin. bool_to_prop.
  match goal with H : next_group w = _, H' : waiting w = [] |- _ => rewrite H, H', app_nil_r in Hperm end.
  apply answer_all_Ok; [done|done|]. split; [|rewrite <-Hperm; lia]. unfold collected.
  apply Forall2_fmap_r, Forall_Forall2_diag, Forall_forall. intros i Hi. rewrite <-Hperm in Hi.
  destruct (Hall i Hi) as [xs Hxs]. change (accepted i (nullish (results w !! i) [])). rewrite Hxs. by apply Hres.
Qed.

Lemma work_progress w : working_ok w → finished w = false → ∃ p, work (Working w) p.
Proof.
  intros Hok Hfin. destruct (waiting w) as [|i is0] eqn:Hw.
  - destruct Hok as (_ & _ & Hle & _). eexists. apply work_take.
    + apply Nat.le_neq. split; [done|]. intros Heq. unfold finished in Hfin.
      by rewrite Heq, Hw, !bool_decide_eq_true_2 in Hfin.
    + rewrite Hw. cbn [length]. unfold FREEBUSY_GROUP_CONCURRENCY. destruct (decide (length groups = 0)%nat) as [E|E].
      * unfold finished in Hfin. rewrite Hw, (bool_decide_eq_true_2 ([] = [])), andb_true_r in Hfin by done.
        apply bool_decide_eq_false_1 in Hfin. lia.
      * lia.
  - assert (i ∈ waiting w) as Hi by (rewrite Hw; set_solver).
    destruct (lookup_lt_is_Some_2 groups i) as [group Hg]; [by eapply waiting_in_range|].
    destruct (answers i) as [result|e] eqn:Ha; [|eexists; by eapply work_fail].
    destruct (check_answer group timeMin timeMax (interval_count w) result) as [[xs|e] counted] eqn:Hc.
    + eexists. by eapply (work_answer w [] i is0).
    + eexists. by eapply work_reject.
Qed.

Definition work_left (p : Pool) : nat :=
  match p with
  | Working w => S (2 * (length groups - next_group w) + length (waiting w))
  | Rejected _ => 0
  end.

Lemma work_decreases p p' : work p p' → (work_left p' < work_left p)%nat.
Proof.
  intros []; cbn [work_left next_group waiting]; [cbn [length]; lia| |lia..].
  match goal with H : waiting _ = _ |- _ => rewrite H end. rewrite !length_app. cbn [length]. lia.
Qed.

(** The pool ends, and as the sequence does. *)
Lemma pool_outcome k p :
  nsteps work k (Working no_workers) p →
  (k <= 2 * length groups + 1)%nat ∧
  match p with
  | Working w =>
      if finished w then answer_all 0 0 groups = Ok (collected w)
      else ∃ p', work (Working w) p'
  | Rejected _ => ∃ e, answer_all 0 0 groups = Throw e
  end.
Proof.
  intros Hrun. split.
  - assert (∀ p0, nsteps work k p0 p → (k <= work_left p0)%nat) as Hk.
    { clear Hrun. induction k as [|k IH]; intros p0 Hrun; [lia|]. inversion Hrun as [|? ? p1 ? Hstep Hrest]; subst.
      apply work_decreases in Hstep. apply IH in Hrest. lia. }
    apply Hk in Hrun. cbn [work_left next_group no_workers waiting length] in Hrun. lia.
  - assert (pool_ok p) as Hok.
    { apply rtc_nsteps_2 in Hrun. clear k. revert p Hrun. apply rtc_ind_r.
      - exists []. cbn. split_and!; try done; [lia|]. intros i. by rewrite elem_of_nil.
      - intros p p' _ Hstep Hok. by eapply work_preserves. }
    destruct p as [w|e]; cbn [pool_ok] in Hok.
    + destruct (finished w) eqn:E; [by apply finished_collected|by apply work_progress].
    + destruct (answer_all 0 0 groups) as [xs|e'] eqn:E; [by destruct (Hok xs)|eauto].
Qed.
End workers.

(** ** What an answer says *)

Lemma guard_input_Ok condition code r u : guard_input condition code r = Ok u ↔ condition = false.
Proof. unfold guard_input. destruct condition, u; naive_solver. Qed.

Lemma traverse_elem_of {E A B} (f : A → res E B) xs ys y :
  traverse f xs = Ok ys → y ∈ ys ↔ ∃ x, x ∈ xs ∧ f x = Ok y.
Proof.
  intros Hxs%traverse_Ok. split.
  - intros [i Hi]%list_elem_of_lookup. destruct (Forall2_lookup_r _ _ _ _ _ Hxs Hi) as (x & Hx & Hf).
    exists x. split; [by eapply list_elem_of_lookup_2|done].
  - intros (x & [i Hi]%list_elem_of_lookup & Hf). destruct (Forall2_lookup_l _ _ _ _ _ Hxs Hi) as (z & Hz & Hf').
    rewrite Hf in Hf'. injection Hf' as <-. by eapply list_elem_of_lookup_2.
Qed.

Lemma elem_of_concat {A} (x : A) (xss : list (list A)) : x ∈ List.concat xss ↔ ∃ xs, x ∈ xs ∧ xs ∈ xss.
Proof. rewrite list_elem_of_In, in_concat. setoid_rewrite list_elem_of_In. naive_solver. Qed.

(** What an accepted interval is. *)
Definition interval_of (from until : string) (iv : string * string) (x : ConflictBusyInterval) : Prop :=
  ∃ s e, Date_parse iv.1 = Some s ∧ Date_parse iv.2 = Some e ∧ s < e ∧
    busy_start x = toISOString s ∧ busy_end x = toISOString e ∧
    (∀ t, Date_parse from = Some t → t <= s) ∧ (∀ t, Date_parse until = Some t → e <= t).

Lemma check_interval_spec from until local iv x :
  check_interval from until local iv = Ok x → busy_calendar x = local ∧ interval_of from until iv x.
Proof.
  unfold check_interval. intros (s & Hs & H1)%bind_Ok_inv. apply bind_Ok_inv in H1 as (e & He & H1).
  apply bind_Ok_inv in H1 as (u1 & Hlt & H1). apply bind_Ok_inv in H1 as (u2 & Hwin%guard_input_Ok & [= <-]).
  split; [done|]. exists s, e. cbn [busy_start busy_end].
  assert (∀ (m : option Z) (err : failure) y, otherwise m err = Ok y → m = Some y) as Hoth.
  { intros [z|] err y; cbn; [by intros [= ->]|done]. }
  apply Hoth in Hs, He. destruct (e <=? s) eqn:Ele; [done|]. apply orb_false_iff in Hwin as [Hf Hu]. bool_to_prop.
  split_and!; try done.
  - intros t Ht. rewrite Ht in Hf. bool_to_prop. lia.
  - intros t Ht. rewrite Ht in Hu. bool_to_prop. lia.
Qed.

Lemma local_by_remote_spec group remote local :
  local_by_remote group remote = Some local → ∃ c, c ∈ group ∧ binding_remote c = remote ∧ binding_id c = local.
Proof.
  unfold local_by_remote. intros (c & Hc & ->)%fmap_Some. apply List.find_some in Hc as [Hin Heq].
  bool_to_prop. exists c. split; [|done]. by apply list_elem_of_In, in_rev.
Qed.

Lemma check_answer_spec group from until counted result xs counted' :
  check_answer group from until counted result = (Ok xs, counted') →
  map free_busy_calendar (free_busy_calendars result) ≡ₚ map binding_remote group ∧
  (∀ cal iv, cal ∈ free_busy_calendars result → iv ∈ free_busy cal →
     ∃ x, x ∈ xs ∧ interval_of from until iv x) ∧
  (∀ x, x ∈ xs → ∃ cal iv, cal ∈ free_busy_calendars result ∧ iv ∈ free_busy cal ∧ interval_of from until iv x ∧
     ∃ c, c ∈ group ∧ binding_remote c = free_busy_calendar cal ∧ busy_calendar x = binding_id c).
Proof.
  unfold check_answer. case_match eqn:Hb; [|done]. intros Hr. apply bind_Ok_inv in Hb as (u & _ & Hb).
  apply guard_input_Ok in Hb. apply orb_false_iff in Hb as [Hb Hloc]. apply orb_false_iff in Hb as [Hlen Hset].
  injection Hr as Hr _. apply bind_Ok_inv in Hr as (u' & _ & Hr). apply bind_Ok_inv in Hr as (xss & Hxss & [= <-]).
  set (ids := map free_busy_calendar (free_busy_calendars result)) in *.
  apply negb_false_iff, Nat.eqb_eq in Hlen, Hset.
  assert (∀ cal, cal ∈ free_busy_calendars result → ∃ local, local_by_remote group (free_busy_calendar cal) = Some local)
    as Hlocal.
  { intros cal Hcal. destruct (local_by_remote group (free_busy_calendar cal)) as [l|] eqn:El; [eauto|].
    assert (existsb (λ id, match local_by_remote group id with Some _ => false | None => true end) ids = true) as Hex.
    { apply existsb_exists. exists (free_busy_calendar cal). rewrite El. split; [|done].
      apply list_elem_of_In. unfold ids. by apply list_elem_of_fmap_2. }
    congruence. }
  split_and!.
  - apply submseteq_length_Permutation.
    + apply NoDup_submseteq; [apply new_set_length_NoDup; congruence|].
      intros id (cal & -> & Hcal)%list_elem_of_fmap. destruct (Hlocal cal Hcal) as [l Hl].
      apply local_by_remote_spec in Hl as (c & Hc & <- & _). by apply list_elem_of_fmap_2.
    + rewrite length_map. lia.
  - intros cal iv Hcal Hiv.
    destruct (proj1 (traverse_total _ _) (ex_intro _ _ Hxss) cal Hcal) as [ys Hys].
    destruct (proj1 (traverse_total _ _) (ex_intro _ _ Hys) iv Hiv) as [x Hx]. exists x. split.
    + apply elem_of_concat. exists ys. split; [by apply (traverse_elem_of _ _ _ _ Hys); eauto|].
      apply (traverse_elem_of _ _ _ _ Hxss). eauto.
    + by apply check_interval_spec in Hx as [_ ?].
  - intros x (ys & Hx & Hys)%elem_of_concat.
    destruct (proj1 (traverse_elem_of _ _ _ _ Hxss) Hys) as (cal & Hcal & Hcys).
    destruct (proj1 (traverse_elem_of _ _ _ _ Hcys) Hx) as (iv & Hiv & Hxiv).
    apply check_interval_spec in Hxiv as [Hb Hint].
    destruct (Hlocal cal Hcal) as [l Hl]. rewrite Hl in Hb.
    apply local_by_remote_spec in Hl as (c & Hc & Hrem & <-). exists cal, iv. split_and!; try done. eauto.
Qed.

Lemma check_answer_length group from until counted result xs counted' :
  check_answer group from until counted result = (Ok xs, counted') →
  Z.of_nat (length xs) = busy_total result ∧ counted' = counted + busy_total result ∧
  counted' <= FREEBUSY_INTERVAL_LIMIT.
Proof.
  intros Hc. pose proof Hc as Hcount. apply check_answer_Ok in Hcount as (_ & -> & Hle). split; [|done].
  unfold check_answer in Hc. case_match; [|done]. injection Hc as Hr.
  apply bind_Ok_inv in Hr as (u' & _ & Hr). apply bind_Ok_inv in Hr as (xss & Hxss & [= <-]).
  apply traverse_Ok in Hxss. unfold busy_total. clear -Hxss.
  induction Hxss as [|cal ys cals xss Hys _ IH]; [done|]. cbn [List.concat].
  apply traverse_length in Hys. rewrite sum_by_cons, length_app, <-IH, Hys. lia.
Qed.

(** ** What the query returns *)

Definition is_query (from until : string) (c : ConflictCall) : Prop := ∃ ids a, c = QueryFreeBusy ids from until a.

(** The provider has answered for the calendar, and its intervals are among [xs]. *)
Definition answered (from until : string) (tr : list ConflictCall) (xs : list ConflictBusyInterval)
    (c : ConflictCalendarBinding) : Prop :=
  ∃ ids answer cal, QueryFreeBusy ids from until (Ok answer) ∈ tr ∧ cal ∈ free_busy_calendars answer ∧
    free_busy_calendar cal = binding_remote c ∧
    ∀ iv, iv ∈ free_busy cal → ∃ x, x ∈ xs ∧ interval_of from until iv x.

(** The provider has reported the interval for a calendar of [cs]. *)
Definition reported (from until : string) (tr : list ConflictCall) (cs : list ConflictCalendarBinding)
    (x : ConflictBusyInterval) : Prop :=
  ∃ ids answer cal iv c, QueryFreeBusy ids from until (Ok answer) ∈ tr ∧ cal ∈ free_busy_calendars answer ∧
    iv ∈ free_busy cal ∧ interval_of from until iv x ∧ c ∈ cs ∧ binding_remote c = free_busy_calendar cal ∧
    busy_calendar x = binding_id c.

Lemma answered_mono from until tr tr' xs xs' c :
  tr ⊆ tr' → xs ⊆ xs' → answered from until tr xs c → answered from until tr' xs' c.
Proof.
  intros Htr Hxs (ids & answer & cal & Hc & Hcal & Hid & Hiv). exists ids, answer, cal. split_and!; auto.
  intros iv H1. destruct (Hiv iv H1) as (x & Hx & ?). eauto.
Qed.

Lemma reported_mono from until tr tr' cs cs' x :
  tr ⊆ tr' → cs ⊆ cs' → reported from until tr cs x → reported from until tr' cs' x.
Proof.
  intros Htr Hcs (ids & answer & cal & iv & c & Hc & Hcal & Hiv & Hint & Hin & ?).
  exists ids, answer, cal, iv, c. split_and!; auto; naive_solver.
Qed.

Lemma add_to_group_elem c grouped x :
  x ∈ List.concat (add_to_group c grouped).*2 ↔ x = c ∨ x ∈ List.concat grouped.*2.
Proof.
  induction grouped as [|[key group] grouped IH]; cbn; [set_solver|].
  destruct (key =? group_key c)%string; cbn; rewrite ?elem_of_app; [set_solver|]. rewrite IH. naive_solver.
Qed.

Lemma group_calendars_elem cs c : c ∈ List.concat (group_calendars cs) ↔ c ∈ cs.
Proof.
  unfold group_calendars.
  enough (∀ grouped, c ∈ List.concat (fold_left (λ g c, add_to_group c g) cs grouped).*2 ↔
    c ∈ cs ∨ c ∈ List.concat grouped.*2) as -> by (cbn; set_solver).
  induction cs as [|c' cs IH]; intros grouped; cbn [fold_left]; [set_solver|].
  rewrite IH, add_to_group_elem. set_solver.
Qed.

Lemma group_calendars_nonempty cs : Forall (λ g, g ≠ []) (group_calendars cs).
Proof.
  unfold group_calendars.
  enough (∀ grouped : list (string * Group), Forall (λ g, g ≠ []) grouped.*2 →
    Forall (λ g, g ≠ []) (fold_left (λ g c, add_to_group c g) cs grouped).*2) as Hall by (by apply Hall; constructor).
  induction cs as [|c cs IH]; intros grouped Hg; cbn [fold_left]; [done|]. apply IH. clear IH.
  induction grouped as [|[key group] grouped IH]; cbn; [by repeat constructor|].
  apply Forall_cons in Hg as [Hne Hg]. destruct (key =? group_key c)%string; cbn; constructor; auto.
  by intros [_ ?]%app_eq_nil.
Qed.

Section query.
Context {R : Type} `{ConflictProvider R}.
Implicit Types w : Transaction.World ConflictDb R ConflictCall.

(** Only the remote side and the trace of calls have changed. *)
Definition extends (tr : list ConflictCall) w w' : Prop :=
  db w' = db w ∧ issued w' = issued w ∧ calls w' = calls w ++ tr.

Lemma extends_refl w : extends [] w w.
Proof. unfold extends. by rewrite app_nil_r. Qed.

Lemma extends_trans tr1 tr2 w1 w2 w3 : extends tr1 w1 w2 → extends tr2 w2 w3 → extends (tr1 ++ tr2) w1 w3.
Proof. unfold extends. intros (? & ? & ?) (? & ? & Hc). rewrite Hc. split_and!; [congruence..|]. by rewrite app_assoc; f_equal. Qed.

Lemma conflict_access_wp provider organization connection w :
  wp (conflict_access provider organization connection) w (λ r w', extends [] w w').
Proof.
  unfold conflict_access. repeat wp_step. case_match; [|apply extends_refl].
  wp_step. unfold extends. cbn. by rewrite app_nil_r.
Qed.

Lemma ask_group_wp organization from until first group w :
  wp (ask_group organization from until first group) w (λ r w',
    ∃ tr, extends tr w w' ∧ Forall (is_query from until) tr ∧
      ∀ answer, r = Ok answer → QueryFreeBusy (map binding_remote group) from until (Ok answer) ∈ tr).
Proof.
  unfold ask_group. wp_step. eapply wp_mono; [apply conflict_access_wp|]. cbn beta. intros [token|e] w1 H1.
  - unfold queryFreeBusy. wp_step. eexists. split; [|split].
    + eapply extends_trans; [exact H1|]. unfold extends. cbn. done.
    + repeat constructor. by eexists _, _.
    + intros answer ->. set_solver.
  - exists []. by split_and!.
Qed.

Lemma query_groups_wp organization from until counted groups w :
  wp (query_groups organization from until counted groups) w (λ r w',
    ∃ tr, extends tr w w' ∧ Forall (is_query from until) tr ∧
      ∀ xss, r = Ok xss →
        (∀ c, c ∈ List.concat groups → answered from until tr (List.concat xss) c) ∧
        (∀ x, x ∈ List.concat xss → reported from until tr (List.concat groups) x) ∧
        (counted <= FREEBUSY_INTERVAL_LIMIT →
         counted + Z.of_nat (length (List.concat xss)) <= FREEBUSY_INTERVAL_LIMIT)).
Proof.
  revert counted w. induction groups as [|group groups IH]; intros counted w; cbn [query_groups].
  { wp_step. exists []. split; [apply extends_refl|]. split; [done|]. intros xss [= <-]. cbn. split_and!; [set_solver..|lia]. }
  wp_step. unfold queryGroup. destruct group as [|first rest].
  { wp_step. wp_step. eapply wp_mono; [apply IH|]. cbn beta. intros [more|e] w1 (tr & He & Hq & Hxss).
    - wp_step. exists tr. split; [done|]. split; [done|]. intros xss [= <-]. cbn. by apply Hxss.
    - exists tr. done. }
  wp_step. eapply wp_mono; [apply ask_group_wp|]. cbn beta. intros [answer|e] w1 (tr1 & He1 & Hq1 & Hans).
  2: { exists tr1. done. }
  destruct (check_answer (first :: rest) from until counted answer) as [[xs|e] counted'] eqn:Hc.
  2: { wp_step. wp_step. exists tr1. done. }
  do 3 wp_step. wp_step. eapply wp_mono; [apply IH|]. cbn beta. intros [more|e] w2 (tr2 & He2 & Hq2 & Hxss).
  2: { exists (tr1 ++ tr2). split; [by eapply extends_trans|]. split; [by apply Forall_app|done]. }
  wp_step. exists (tr1 ++ tr2). split; [by eapply extends_trans|]. split; [by apply Forall_app|].
  intros xss [= <-]. destruct (Hxss more eq_refl) as (Hcomplete & Hsound & Hcount). specialize (Hans answer eq_refl).
  apply check_answer_length in Hc as Hlen.
  apply check_answer_spec in Hc as (Hids & Hall & Hrep). cbn [List.concat]. split_and!.
  - intros c [Hc|Hc]%elem_of_app.
    + assert (binding_remote c ∈ map free_busy_calendar (free_busy_calendars answer)) as Hin.
      { rewrite Hids. by apply list_elem_of_fmap_2. }
      apply list_elem_of_fmap in Hin as (cal & Hid & Hcal).
      exists (map binding_remote (first :: rest)), answer, cal. split_and!; [apply elem_of_app; by left|done|done|].
      intros iv Hiv. destruct (Hall cal iv Hcal Hiv) as (x & Hx & Hi). exists x. split; [apply elem_of_app; by left|done].
    + eapply answered_mono; [..|by apply Hcomplete]; intros ? ?; apply elem_of_app; by right.
  - intros x [Hx|Hx]%elem_of_app.
    + destruct (Hrep x Hx) as (cal & iv & Hcal & Hiv & Hint & c & Hc & Hrem & Hid).
      exists (map binding_remote (first :: rest)), answer, cal, iv, c. split_and!; try done; apply elem_of_app; by left.
    + eapply reported_mono; [..|by apply Hsound]; intros ? ?; apply elem_of_app; by right.
  - intros Hlim. rewrite length_app. destruct Hlen as (? & ? & Hle). specialize (Hcount Hle).
    cbn [snd] in Hcount. lia.
Qed.

Lemma queryOpaqueAvailability_wp organization cs from until w :
  wp (queryOpaqueAvailability organization cs from until) w (λ r w',
    ∃ tr, extends tr w w' ∧ Forall (is_query from until) tr ∧
      ∀ xs, r = Ok xs →
        (∀ c, c ∈ cs → answered from until tr xs c) ∧ (∀ x, x ∈ xs → reported from until tr cs x) ∧
        Z.of_nat (length xs) <= FREEBUSY_INTERVAL_LIMIT).
Proof.
  unfold queryOpaqueAvailability. wp_step. eapply wp_mono; [apply query_groups_wp|]. cbn beta.
  intros [xss|e] w' (tr & He & Hq & Hxss); [|by exists tr]. wp_step. exists tr. split; [done|]. split; [done|].
  intros xs [= <-]. destruct (Hxss xss eq_refl) as (Hcomplete & Hsound & Hcount).
  pose proof (sort_by_perm (λ x y, texts_leb (busy_keys x) (busy_keys y)) (List.concat xss)) as Hperm.
  unfold sort_on. split_and!.
  - intros c Hc. eapply answered_mono; [done| |by apply Hcomplete, group_calendars_elem]. intros x. by rewrite Hperm.
  - intros x Hx. rewrite Hperm in Hx. eapply reported_mono; [done| |by apply Hsound].
    intros c. by rewrite group_calendars_elem.
  - rewrite Hperm. specialize (Hcount ltac:(unfold FREEBUSY_INTERVAL_LIMIT; lia)). lia.
Qed.

(** Opaque availability is complete and sound: a query that returns has asked
    only for free/busy data of the window, has an answer for every calendar,
    returns every interval of the answers and nothing else, each attributed to
    a selected calendar with that remote id, inside the window, and at most
    50,000 of them; the database is not touched. *)
Theorem availability_is_reported organization cs from until w xs w' :
  queryOpaqueAvailability organization cs from until w = (Ok xs, w') →
  ∃ tr, extends tr w w' ∧ Forall (is_query from until) tr ∧
    (∀ c, c ∈ cs → answered from until tr xs c) ∧ (∀ x, x ∈ xs → reported from until tr cs x) ∧
    Z.of_nat (length xs) <= 50000.
Proof.
  intros Hrun. destruct (wp_run _ _ _ _ _ (queryOpaqueAvailability_wp organization cs from until w) Hrun)
    as (tr & He & Hq & Hxs). exists tr. destruct (Hxs xs eq_refl) as (? & ? & ?). done.
Qed.

(** A provider whose answers do not depend on the order of the questions. *)
Definition order_independent (organization from until : string) (groups : list Group)
    (answers : nat → res failure FreeBusyResult) : Prop :=
  ∀ i first rest w, groups !! i = Some (first :: rest) →
    (ask_group organization from until first (first :: rest) w).1 = answers i.

Lemma query_groups_sequence organization from until answers counted groups rest i w :
  order_independent organization from until groups answers → Forall (λ g, g ≠ []) rest → drop i groups = rest →
  (query_groups organization from until counted rest w).1 = answer_all answers from until i counted rest.
Proof.
  intros Hind. revert i counted w. induction rest as [|group rest IH]; intros i counted w Hne Hdrop; [done|].
  apply Forall_cons in Hne as [Hg Hne]. destruct group as [|first group]; [done|].
  assert (groups !! i = Some (first :: group)) as Hi by (by rewrite <-(Nat.add_0_r i), <-lookup_drop, Hdrop).
  assert (drop (S i) groups = rest) as Hdrop'.
  { replace (S i) with (i + 1)%nat by lia. by rewrite <-drop_drop, Hdrop. }
  specialize (Hind i first group w Hi). cbn [query_groups answer_all queryGroup]. rewrite !bind_run.
  destruct (ask_group organization from until first (first :: group) w) as [[answer|e] w1];
    cbn [fst] in Hind; rewrite <-Hind; [|done].
  cbn [mbind res_bind]. destruct (check_answer _ _ _ _ answer) as [[xs|e] counted'] eqn:Hc; [|done].
  cbn [mbind res_bind]. rewrite bind_run. cbn [lift mret M_ret]. rewrite bind_run, <-(IH (S i) counted' w1 Hne Hdrop').
  by destruct (query_groups organization from until _ rest w1) as [[] ?].
Qed.

(** The workers agree with the sequence: however the answers of the provider
    are interleaved among the four workers, the pool ends after at most two
    steps for each group and one more and never waits for nothing; when all
    workers have returned, the sorted intervals are those that asking one group
    after the other returns; and when the pool is rejected, so is that. *)
Theorem schedules_agree organization from until cs answers k p w :
  order_independent organization from until (group_calendars cs) answers →
  nsteps (work (group_calendars cs) answers from until) k (Working no_workers) p →
  (k <= 2 * length (group_calendars cs) + 1)%nat ∧
  match p with
  | Working s =>
      if finished (group_calendars cs) s
      then (queryOpaqueAvailability organization cs from until w).1
           = Ok (sort_on busy_keys (List.concat (collected (group_calendars cs) s)))
      else ∃ p', work (group_calendars cs) answers from until (Working s) p'
  | Rejected _ => ∃ e, (queryOpaqueAvailability organization cs from until w).1 = Throw e
  end.
Proof.
  intros Hind Hrun. apply pool_outcome in Hrun as [Hk Hp]. split; [done|].
  pose proof (query_groups_sequence organization from until answers 0 (group_calendars cs) _ 0%nat w Hind
    (group_calendars_nonempty cs) eq_refl) as Hseq.
  unfold queryOpaqueAvailability. rewrite bind_run.
  destruct (query_groups _ _ _ _ _ w) as [[xss|e'] w1]; cbn [fst mret M_ret] in Hseq |- *;
    (destruct p as [s|e]; [destruct (finished (group_calendars cs) s); [|done]|]); rewrite <-Hseq in Hp.
  - by injection Hp as ->.
  - by destruct Hp.
  - done.
  - eauto.
Qed.
End query.

(** ** Preparing reads only *)

Lemma from_db_wp {R : Type} {A} (f : ConflictDb → res failure A) (w : Transaction.World ConflictDb R ConflictCall) Q :
  wp (from_db f) w Q ↔ Q (f (db w)) w.
Proof. unfold from_db. wp_step. wp_step. wp_step. done. Qed.

Lemma prepare_wp {R : Type} `{ConflictProvider R} `{Unicode} `{Digest} `{PrivateKey} organization draft referenceAt
    (w : Transaction.World ConflictDb R ConflictCall) :
  wp (prepareConflictResponseInput organization draft referenceAt) w (λ r w',
    (∃ tr from until, extends tr w w' ∧ Forall (is_query from until) tr) ∧
    ∀ prepared, r = Ok prepared →
      prepared_conflicts prepared = conflicts_of (prepared_invitations prepared) (prepared_busy prepared) ∧
      loadConflictCalendarSelection (db w) organization draft
        = Ok (prepared_response prepared, prepared_availability prepared) ∧
      requireResponseSync (db w) organization (prepared_response prepared) referenceAt = Ok () ∧
      (∃ paused, requireNoCopyPolicies (db w) organization (prepared_availability prepared) = Ok paused) ∧
      ∃ more, prepared_result prepared = add_warnings more
        (conflictPreviewResult (prepared_invitations prepared) (prepared_busy prepared)
           (countRecentAppliedDeclines (db w) organization (binding_identity (prepared_response prepared)) referenceAt))).
Proof.
  assert (∃ tr from until, extends tr w w ∧ Forall (is_query from until) tr) as Hnone.
  { exists [], "", "". split; [apply extends_refl|done]. }
  unfold prepareConflictResponseInput. wp_step. rewrite from_db_wp.
  destruct (loadConflictCalendarSelection (db w) organization draft) as [[response availability]|e]; [|done].
  wp_step. rewrite from_db_wp. destruct (requireResponseSync _ _ _ _) as [[]|e] eqn:Hsync; [|done].
  wp_step. rewrite from_db_wp. destruct (requireNoCopyPolicies _ _ _) as [paused|e] eqn:Hcopy; [|done].
  do 3 wp_step. rewrite from_db_wp. destruct (loadWorkInvitations _ _ _ _ _) as [invitations|e]; [|done].
  wp_step. eapply wp_mono; [apply queryOpaqueAvailability_wp|]. cbn beta. intros [xs|e] w1 (tr & He & Hq & _).
  2: { split; [by eexists _, _, _|done]. }
  do 2 wp_step. destruct (private_hash _) as [h|e]; wp_step || idtac.
  - split; [by eexists _, _, _|]. intros prepared [= <-]. cbn. split_and!; eauto.
  - split; [by eexists _, _, _|done].
Qed.

(** ** Identities are unambiguous *)

Lemma byteLength_nonneg s : 0 <= byteLength s.
Proof. induction s as [|c s IH]; cbn [byteLength]; [lia|]. destruct (is_ascii c); lia. Qed.

Lemma byteLength_prefix s t r1 r2 :
  byteLength s = byteLength t → s +:+ r1 = t +:+ r2 → s = t ∧ r1 = r2.
Proof.
  revert t. induction s as [|c s IH]; intros [|c' t]; cbn [byteLength String.append]; [done|..].
  - pose proof (byteLength_nonneg t). destruct (is_ascii c'); lia.
  - pose proof (byteLength_nonneg s). destruct (is_ascii c); lia.
  - intros Hlen [= -> Happ]. destruct (IH t) as [-> ->]; [destruct (is_ascii c'); lia|done|done].
Qed.

Lemma identity_component_prefix s t r1 r2 :
  identity_component s +:+ r1 = identity_component t +:+ r2 → s = t ∧ r1 = r2.
Proof.
  unfold identity_component. rewrite !string_app_assoc. intros Happ.
  apply pretty_Z_prefix in Happ as [Hlen Happ]; [|done..].
  cbn in Happ. injection Happ as Happ. by apply byteLength_prefix.
Qed.

(** The identity of a provider calendar is unambiguous: two calendars have
    the same identity exactly when provider and remote id agree and, except
    for Google, whose ids are global, the connection. *)
Theorem providerCalendarIdentity_injective provider connection remote provider' connection' remote' :
  providerCalendarIdentity provider connection remote = providerCalendarIdentity provider' connection' remote' ↔
  provider = provider' ∧ remote = remote' ∧ (provider = "google" ∨ connection = connection').
Proof.
  unfold providerCalendarIdentity. rewrite <-(string_app_nil_r (identity_component remote)),
    <-(string_app_nil_r (identity_component remote')). split.
  - intros [<- [Hscope [<- _]%identity_component_prefix]%identity_component_prefix]%identity_component_prefix.
    split_and!; try done. destruct (provider =? "google")%string eqn:E; bool_to_prop; auto.
  - intros (<- & <- & [->| ->]); done.
Qed.

(** ** The selection is authorised *)

(** The binding is the row of a calendar of the organisation with its connection. *)
Definition bound (d : ConflictDb) (organization : string) (c : ConflictCalendarBinding) : Prop :=
  binding_row organization d (binding_id c) = Some c.

Definition may_respond (c : ConflictCalendarBinding) : Prop :=
  binding_readable c = true ∧ binding_writable c = true ∧ connection_status c = "active" ∧ intended_role c = "both".

Definition may_be_queried (c : ConflictCalendarBinding) : Prop :=
  isFreeBusyReadable c = true ∧ connection_status c = "active" ∧
  intended_role c ∈ ["availability"; "source"; "both"] ∧
  (binding_provider c = "google" → hasGoogleFreeBusyScope (binding_scopes c) = true).

Lemma binding_row_id organization d id c : binding_row organization d id = Some c → binding_id c = id.
Proof.
  unfold binding_row. destruct (calendars d !! id) as [r|]; cbn; [|done].
  destruct (accounts d !! _) as [a|]; cbn; [|done]. case_bool_decide; [|done]. by intros [= <-].
Qed.

Lemma selected_rows_bound d organization ids c :
  c ∈ omap (binding_row organization d) (new_set ids) ↔ binding_id c ∈ ids ∧ bound d organization c.
Proof.
  rewrite list_elem_of_omap. unfold bound. split.
  - intros (id & Hid & Hc). rewrite elem_of_new_set in Hid. by rewrite (binding_row_id _ _ _ _ Hc).
  - intros [Hid Hc]. exists (binding_id c). by rewrite elem_of_new_set.
Qed.

Lemma find_binding (rows : list ConflictCalendarBinding) id c :
  List.find (λ c, (binding_id c =? id)%string) rows = Some c → c ∈ rows ∧ binding_id c = id.
Proof. intros [Hin Heq]%List.find_some. bool_to_prop. by apply list_elem_of_In in Hin. Qed.

Lemma existsb_false {A} (p : A → bool) xs : existsb p xs = false ↔ ∀ x, x ∈ xs → p x = false.
Proof.
  induction xs as [|x xs IH]; cbn; [set_solver|]. rewrite orb_false_iff, IH. set_solver.
Qed.

Lemma selection_spec d organization draft response availability :
  loadConflictCalendarSelection d organization draft = Ok (response, availability) →
  binding_id response = response_calendar_id draft ∧ bound d organization response ∧ may_respond response ∧
  map binding_id availability ≡ₚ availability_calendars draft ∧
  Forall (λ c, bound d organization c ∧ may_be_queried c) availability ∧
  NoDup (binding_identity response :: map binding_identity availability).
Proof.
  unfold loadConflictCalendarSelection. intros (u & _ & H1)%bind_Ok_inv.
  apply bind_Ok_inv in H1 as (response' & Hr%otherwise_Some & H1). apply bind_Ok_inv in H1 as (u2 & Hmay & H1).
  apply bind_Ok_inv in H1 as (avail & Ha & H1). apply bind_Ok_inv in H1 as (u3 & Hd & H1).
  apply bind_Ok_inv in H1 as (u4 & Hun%guard_input_Ok & H1). apply bind_Ok_inv in H1 as (u5 & Hsc%guard_input_Ok & [= <- <-]).
  apply find_binding in Hr as [Hr Hrid]. apply selected_rows_bound in Hr as [_ Hr].
  apply guard_input_Ok, orb_false_iff in Hd as [Hd1 Hd2]. apply negb_false_iff, Nat.eqb_eq, new_set_length_NoDup in Hd2.
  pose proof (sort_by_perm (λ x y, text_leb (binding_id x) (binding_id y)) avail) as Hperm.
  rewrite existsb_false in Hun, Hsc. split_and!; try done.
  - destruct (_ && _) eqn:E in Hmay; [|done]. bool_to_prop. done.
  - rewrite Hperm. apply traverse_Ok in Ha. clear -Ha. induction Ha as [|id c ids cs Hc _ IH]; [done|]. cbn.
    apply otherwise_Some, find_binding in Hc as [_ <-]. by f_equiv.
  - rewrite Hperm. apply Forall_forall. intros c Hc. split.
    + apply (traverse_elem_of _ _ _ _ Ha) in Hc as (id & _ & Hf).
      apply otherwise_Some, find_binding in Hf as [Hf _]. by apply selected_rows_bound in Hf as [_ ?].
    + specialize (Hun c Hc). specialize (Hsc c Hc). apply orb_false_iff in Hun as [Hun Hrole]. bool_to_prop.
      unfold may_be_queried. split_and!; try done.
      * apply andb_false_iff in Hrole as [Hrole|Hrole]; [apply andb_false_iff in Hrole as [Hrole|Hrole]|];
          bool_to_prop; rewrite Hrole; in_list.
      * intros Hg. rewrite Hg, String.eqb_refl in Hsc. by apply negb_false_iff.
  - rewrite Hperm. constructor; [|done]. intros Hin%includes_spec. congruence.
Qed.

(** Only calendars the owner authorised are read or answered: the selection of
    a rule binds exactly the calendars of its draft, of the organisation; the
    response calendar is readable, writable and on an active connection for
    both directions; the availability calendars are readable for free/busy on
    active connections, with a Google scope that grants it; and no two of all
    these are the same provider calendar. *)
Theorem selection_is_authorised d organization draft response availability :
  loadConflictCalendarSelection d organization draft = Ok (response, availability) →
  binding_id response = response_calendar_id draft ∧ bound d organization response ∧ may_respond response ∧
  map binding_id availability ≡ₚ availability_calendars draft ∧
  Forall (λ c, bound d organization c ∧ may_be_queried c) availability ∧
  NoDup (binding_identity response :: map binding_identity availability).
Proof. apply selection_spec. Qed.

(** ** Examples *)

Module Samples.

(** A provider that reports the same busy intervals for every calendar. *)
#[export] Instance reports (intervals : list (string * string)) : ConflictProvider () | 100 := {|
  conflict_resolve _ := Ok ();
  conflict_token _ _ r := (Ok "token", r);
  provider_free_busy _ _ ids from until r :=
    (Ok {| time_min := from; time_max := until;
           free_busy_calendars := map (λ id, {| free_busy_calendar := id; free_busy := intervals |}) ids |}, r);
  provider_decline _ _ _ _ _ _ r :=
    (Ok {| decline_revision := "r2"; comment_retained := true; decline_changed := true |}, r);
|}.

Definition from : string := "2026-10-25T08:00:00.000Z".
Definition until : string := "2026-10-25T12:00:00.000Z".
Definition dentist : list (string * string) := [("2026-10-25T09:30:00+01:00", "2026-10-25T10:00:00Z")].
#[local] Existing Instance reports.

Definition calendar (id account provider role : string) (writable : bool) : ConflictCalendarBinding :=
  {| binding_id := id; binding_connection := account; binding_remote := id; binding_readable := true;
     binding_writable := writable; binding_capabilities := JNull; binding_scopes := JNull;
     binding_provider := provider; connection_status := "active"; intended_role := role |}.

Definition homes : list ConflictCalendarBinding :=
  [calendar "home" "a1" "fake" "availability" false; calendar "kids" "a2" "fake" "availability" false].

Definition world (d : ConflictDb) : Transaction.World ConflictDb () ConflictCall :=
  {| db := d; remote := (); calls := []; issued := 0 |}.

Definition no_rows : ConflictDb :=
  {| calendars := ∅; accounts := ∅; observations := ∅; bridges := ∅; cursors := ∅; previews := ∅; rules := ∅;
     rule_availability := []; actions := ∅; facts := []; conflict_jobs := ∅ |}.

Definition answers (i : nat) : res failure FreeBusyResult :=
  Ok {| time_min := from; time_max := until;
        free_busy_calendars := [{| free_busy_calendar := match i with 0%nat => "home" | _ => "kids" end;
                                   free_busy := dentist |}] |}.

Definition at_dentist (id : string) : list ConflictBusyInterval :=
  [{| busy_calendar := id; busy_start := "2026-10-25T08:30:00.000Z"; busy_end := "2026-10-25T10:00:00.000Z" |}].

(** The answer for the second group comes first. *)
Definition returned : Workers :=
  {| next_group := 2; waiting := []; interval_count := 2;
     results := <[0%nat := at_dentist "home"]> (<[1%nat := at_dentist "kids"]> ∅) |}.

Lemma independent : order_independent (H := reports dentist) "org" from until (group_calendars homes) answers.
Proof.
  intros i first rest w Hi. change (group_calendars homes) with
    [[calendar "home" "a1" "fake" "availability" false]; [calendar "kids" "a2" "fake" "availability" false]] in Hi.
  destruct i as [|[|i]]; cbn in Hi; [injection Hi as <- <-..|done]; reflexivity.
Qed.

Lemma out_of_order : nsteps (work (group_calendars homes) answers from until) 4 (Working no_workers) (Working returned).
Proof.
  eapply nsteps_l; [apply work_take; cbn; lia|]. eapply nsteps_l; [apply work_take; cbn; lia|].
  eapply nsteps_l.
  { apply (work_answer _ _ _ _ _ [] 1%nat [0%nat] [calendar "kids" "a2" "fake" "availability" false]
      {| time_min := from; time_max := until;
         free_busy_calendars := [{| free_busy_calendar := "kids"; free_busy := dentist |}] |}
      (at_dentist "kids") 1); vm_compute; reflexivity. }
  eapply nsteps_l.
  { apply (work_answer _ _ _ _ _ [] 0%nat [] [calendar "home" "a1" "fake" "availability" false]
      {| time_min := from; time_max := until;
         free_busy_calendars := [{| free_busy_calendar := "home"; free_busy := dentist |}] |}
      (at_dentist "home") 2); vm_compute; reflexivity. }
  apply nsteps_O.
Qed.

Lemma schedules_agree_witness :
  (queryOpaqueAvailability (H := reports dentist) "org" homes from until (world no_rows)).1 = Ok (at_dentist "home" ++ at_dentist "kids").
Proof.
  pose proof (schedules_agree (H := reports dentist) "org" from until homes answers 4 (Working returned) (world no_rows)
    independent out_of_order) as [_ Hagree].
  change (finished (group_calendars homes) returned) with true in Hagree. cbn beta iota in Hagree.
  refine (eq_trans Hagree _). vm_compute. reflexivity.
Defined.

Lemma availability_is_reported_witness :
  ∃ w', queryOpaqueAvailability (H := reports dentist) "org" homes from until (world no_rows)
          = (Ok (at_dentist "home" ++ at_dentist "kids"), w') ∧
    ∃ tr, extends tr (world no_rows) w' ∧ Forall (is_query from until) tr.
Proof.
  eexists. split; [vm_compute; reflexivity|].
  edestruct (availability_is_reported (H := reports dentist) "org" homes from until (world no_rows)
    (at_dentist "home" ++ at_dentist "kids")) as (tr & He & Hq & _); [vm_compute; reflexivity|].
  exists tr. split; [exact He|exact Hq].
Defined.
End Samples.
