(* ===== verification/ConflictCoordinator.v ===== *)
(** * Conflict response: reconciliation and application

    [server/src/conflict-response/coordinator.ts]: the reconciliation of a rule,
    which turns the conflicts of the moment into actions and jobs within the
    budget of automatic declines, and the application of one action, which
    checks everything again, asks the provider for opaque availability and
    declines the invitation. *)

From S2P Require Import Prelude Canonical Types Dates Text Jobs Transaction Store ConflictResponse ConflictInputs.
From stdpp Require Import options.
Open Scope Z_scope.

(** ** Rows *)

Definition mark_action (status : Action.ActionStatus) (attempt : option Z → option Z) (code : string) (now : Z)
    (a : Action.ActionRow) : Action.ActionRow :=
  {| Action.organization := Action.organization a; Action.rule := Action.rule a;
     Action.rule_revision := Action.rule_revision a; Action.response_calendar := Action.response_calendar a;
     Action.work_observation := Action.work_observation a; Action.remote_event := Action.remote_event a;
     Action.recurrence_identity := Action.recurrence_identity a;
     Action.work_observation_hash := Action.work_observation_hash a;
     Action.conflict_basis_hash := Action.conflict_basis_hash a;
     Action.expected_remote_revision := Action.expected_remote_revision a;
     Action.desired_comment := Action.desired_comment a; Action.status := status;
     Action.remote_revision := Action.remote_revision a;
     Action.last_attempt_at := attempt (Action.last_attempt_at a);
     Action.last_success_at := Action.last_success_at a; Action.safe_error_code := Some code;
     Action.updated_at := now |}.

(** The columns a verified decline sets. *)
Definition mark_applied (revision : string) (warning : option string) (now : Z) (a : Action.ActionRow)
    : Action.ActionRow :=
  {| Action.organization := Action.organization a; Action.rule := Action.rule a;
     Action.rule_revision := Action.rule_revision a; Action.response_calendar := Action.response_calendar a;
     Action.work_observation := Action.work_observation a; Action.remote_event := Action.remote_event a;
     Action.recurrence_identity := Action.recurrence_identity a;
     Action.work_observation_hash := Action.work_observation_hash a;
     Action.conflict_basis_hash := Action.conflict_basis_hash a;
     Action.expected_remote_revision := Action.expected_remote_revision a;
     Action.desired_comment := Action.desired_comment a; Action.status := Action.applied;
     Action.remote_revision := Some revision; Action.last_attempt_at := Some now;
     Action.last_success_at := Some now; Action.safe_error_code := warning; Action.updated_at := now |}.

(** The columns a rule gets: each [None] keeps the value. *)
Definition mark_rule (status : option Rule.RuleStatus) (evaluated success : option Z) (code : option string) (now : Z)
    (r : Rule.RuleRow) : Rule.RuleRow :=
  {| Rule.organization := Rule.organization r; Rule.owner := Rule.owner r;
     Rule.response_calendar := Rule.response_calendar r; Rule.response_identity := Rule.response_identity r;
     Rule.status := nullish status (Rule.status r); Rule.revision := Rule.revision r;
     Rule.document := Rule.document r; Rule.hash := Rule.hash r;
     Rule.last_evaluated_at := match evaluated with Some t => Some t | None => Rule.last_evaluated_at r end;
     Rule.last_success_at := match success with Some t => Some t | None => Rule.last_success_at r end;
     Rule.safe_error_code := code; Rule.updated_at := now |}.

(** The action a conflict asks for, but for its id. *)
Definition desired_action (organization ruleId : string) (rule : Rule.RuleRow) (draft : ConflictResponseDraft)
    (invitation : WorkInvitationCandidate) (basisHash : string) (status : Action.ActionStatus)
    (code : option string) (now : Z) : Action.ActionRow :=
  {| Action.organization := organization; Action.rule := ruleId; Action.rule_revision := Rule.revision rule;
     Action.response_calendar := response_calendar_id draft; Action.work_observation := observation_id invitation;
     Action.remote_event := remote_event_id invitation;
     Action.recurrence_identity := recurrence_identity invitation;
     Action.work_observation_hash := observation_hash invitation; Action.conflict_basis_hash := basisHash;
     Action.expected_remote_revision := remote_revision invitation; Action.desired_comment := decline_message draft;
     Action.status := status; Action.remote_revision := None; Action.last_attempt_at := None;
     Action.last_success_at := None; Action.safe_error_code := code; Action.updated_at := now |}.

Definition APPLY_KIND : string := "apply_invitation_response".
Definition RECONCILE_KIND : string := "reconcile_conflict_response_rule".

Definition apply_key (organization actionId basisHash : string) : JobKey :=
  {| organization_id := organization; job_kind := APPLY_KIND;
     dedupe_key := "invitation-response:" +:+ actionId +:+ ":basis:" +:+ basisHash |}.

Section coordinator.
Context {R : Type} `{ConflictProvider R} `{NewId} `{Unicode} `{Digest} `{PrivateKey} `{Uuids}.
Local Notation M := (Transaction.M ConflictDb R ConflictCall).

(** ** Updates *)

(** [update ... where organization_id and id], [executeTakeFirstOrThrow]. *)
Definition update_action (organization id : string) (f : Action.ActionRow → Action.ActionRow) : M () :=
  row ← read_db (λ d, actions d !! id);
  match row with
  | Some a => if bool_decide (Action.organization a = organization)
              then write_db (with_actions (λ t, <[id := f a]> t)) else throw no_result
  | None => throw no_result
  end.

Definition update_rule (organization id : string) (f : Rule.RuleRow → Rule.RuleRow) : M () :=
  row ← read_db (λ d, rules d !! id);
  match row with
  | Some r => if bool_decide (Rule.organization r = organization)
              then write_db (with_rules (λ t, <[id := f r]> t)) else throw no_result
  | None => throw no_result
  end.

Definition holdAction (organization id code : string) (now : Z) : M () :=
  update_action organization id (mark_action Action.held (λ _, Some now) code now).
Definition supersedeAction (organization id code : string) (now : Z) : M () :=
  update_action organization id (mark_action Action.superseded (λ _, Some now) code now).
Definition markRuleError (organization id code : string) (now : Z) : M () :=
  update_rule organization id (mark_rule None None None (Some code) now).

(** [update invitation_response_actions ... where rule_id and status in ...]. *)
Definition update_actions_of (organization ruleId : string) (selects : string → Action.ActionRow → bool)
    (f : Action.ActionRow → Action.ActionRow) : M () :=
  write_db (with_actions (map_imap (λ id a, Some
    (if bool_decide (Action.organization a = organization) && bool_decide (Action.rule a = ruleId) && selects id a
     then f a else a)))).

Definition record_fact (fact : Audit.AuditFact) : M () := _ ← fresh_id; write_db (with_fact fact).

(** [jobs.enqueue(organization, kind, key, payload, now, transaction)]. *)
Definition enqueue_conflict_job (key : JobKey) (payload : list (string * json)) (now : Z) : M (option string) :=
  id ← fresh_id;
  jobs ← read_db conflict_jobs;
  match Jobs.enqueue key (JObject payload) now id now jobs with
  | Ok (job, jobs') => _ ← write_db (with_conflict_jobs (λ _, jobs')); mret job
  | Throw _ => throw (other_failure "typeerror")
  end.

Definition recordRuleFailure (organization ruleId : string) (error : failure) (now : Z) : M () :=
  transaction (
    row ← read_db (λ d, rules d !! ruleId);
    match row with
    | Some rule =>
        if bool_decide (Rule.organization rule = organization) && bool_decide (Rule.status rule = Rule.active)
        then
          _ ← markRuleError organization ruleId (safeErrorCode error) now;
          update_actions_of organization ruleId (λ _ a, bool_decide (Action.status a = Action.pending))
            (mark_action Action.held (λ t, t) (safeErrorCode error) now)
        else mret ()
    | None => mret ()
    end).

(** ** Reconciliation *)

(** The variables of the loop over the conflicts. *)
Record Tally := {
  current_ids : list string;
  pending_tally : Z;
  held_tally : Z;
  budget_held_tally : Z;
  reserved : Z;
}.

(** [existingByObservation.get(...)]. *)
Definition prior_of (existing : list (string * Action.ActionRow)) (observation : string)
    : option (string * Action.ActionRow) :=
  List.find (λ '(_, a), (Action.work_observation a =? observation)%string) (rev existing).

Definition is_settled (rule : Rule.RuleRow) (draft : ConflictResponseDraft) (invitation : WorkInvitationCandidate)
    (basisHash : string) (a : Action.ActionRow) : bool :=
  bool_decide (Action.status a = Action.applied) && (Action.rule_revision a =? Rule.revision rule)
  && (Action.work_observation_hash a =? observation_hash invitation)%string
  && (Action.conflict_basis_hash a =? basisHash)%string
  && (Action.desired_comment a =? decline_message draft)%string.

(** [insert into invitation_response_actions]: its keys are unique. *)
Definition insert_action (id : string) (a : Action.ActionRow) : M () :=
  taken ← read_db (λ d, bool_decide (is_Some (actions d !! id)));
  same ← read_db (λ d, existsb (λ '(_, b), bool_decide (Action.rule b = Action.rule a)
    && bool_decide (Action.work_observation b = Action.work_observation a)) (map_to_list (actions d)));
  if taken : bool then throw (unique_violation "invitation_response_actions_pkey")
  else if same : bool then throw (unique_violation "invitation_response_actions_rule_id_work_observation_id_key")
  else write_db (with_actions (λ t, <[id := a]> t)).

(** [update invitation_response_actions set ... where id = prior.id]. *)
Definition replan_action (id : string) (row : Action.ActionRow) : M () :=
  prior ← read_db (λ d, actions d !! id);
  match prior with
  | Some a => write_db (with_actions (λ t, <[id :=
      {| Action.organization := Action.organization a; Action.rule := Action.rule a;
         Action.rule_revision := Action.rule_revision row; Action.response_calendar := Action.response_calendar row;
         Action.work_observation := Action.work_observation a; Action.remote_event := Action.remote_event row;
         Action.recurrence_identity := Action.recurrence_identity row;
         Action.work_observation_hash := Action.work_observation_hash row;
         Action.conflict_basis_hash := Action.conflict_basis_hash row;
         Action.expected_remote_revision := Action.expected_remote_revision row;
         Action.desired_comment := Action.desired_comment row; Action.status := Action.status row;
         Action.remote_revision := Action.remote_revision row; Action.last_attempt_at := Action.last_attempt_at row;
         Action.last_success_at := Action.last_success_at row; Action.safe_error_code := Action.safe_error_code row;
         Action.updated_at := Action.updated_at row |}]> t))
  | None => throw no_result
  end.

Section loop.
Context (organization ruleId : string) (rule : Rule.RuleRow) (draft : ConflictResponseDraft) (now : Z).

(** A conflict that is not settled: within the budget it is pending, with a job. *)
Definition plan_with_id (t : Tally) (basisHash : string) (invitation : WorkInvitationCandidate)
    (prior : option string) (actionId : string) : M Tally :=
  let budgetAvailable := reserved t <? MAX_AUTOMATIC_DECLINES_PER_24_HOURS in
  let is_pending := negb (unguarded invitation) && budgetAvailable in
  let over_budget := negb (unguarded invitation) in
  let heldReason := if unguarded invitation then "work_revision_missing" else "automatic_decline_budget_exceeded" in
  let row := desired_action organization ruleId rule draft invitation basisHash
               (if is_pending then Action.pending else Action.held)
               (if is_pending then None else Some heldReason) now in
  _ ← match prior with Some id => replan_action id row | None => insert_action actionId row end;
  _ ← (if is_pending
       then enqueue_conflict_job (apply_key organization actionId basisHash)
              [("action_id", JString actionId); ("conflict_basis_hash", JString basisHash)] now
       else mret None);
  mret (if is_pending
        then {| current_ids := current_ids t ++ [actionId]; pending_tally := pending_tally t + 1;
                held_tally := held_tally t; budget_held_tally := budget_held_tally t; reserved := reserved t + 1 |}
        else {| current_ids := current_ids t ++ [actionId]; pending_tally := pending_tally t;
                held_tally := held_tally t + 1;
                budget_held_tally := budget_held_tally t + (if over_budget then 1 else 0);
                reserved := reserved t |}).

Definition plan_action (t : Tally) (basisHash : string) (invitation : WorkInvitationCandidate)
    (prior : option string) : M Tally :=
  actionId ← match prior with Some id => mret id | None => fresh_id end;
  plan_with_id t basisHash invitation prior actionId.

(** The body of the loop. *)
Definition reconcile_conflict (existing : list (string * Action.ActionRow)) (t : Tally)
    (conflict : WorkInvitationCandidate * list ConflictBusyInterval) : M Tally :=
  let '(invitation, overlapping_busy) := conflict in
  basisHash ← lift (private_hash (conflictActionBasisDocument ruleId (Rule.revision rule) invitation overlapping_busy));
  match prior_of existing (observation_id invitation) with
  | Some (id, a) =>
      if is_settled rule draft invitation basisHash a
      then mret {| current_ids := current_ids t ++ [id]; pending_tally := pending_tally t; held_tally := held_tally t;
                   budget_held_tally := budget_held_tally t; reserved := reserved t |}
      else plan_action t basisHash invitation (Some id)
  | None => plan_action t basisHash invitation None
  end.

Fixpoint reconcile_conflicts (existing : list (string * Action.ActionRow)) (t : Tally)
    (conflicts : list (WorkInvitationCandidate * list ConflictBusyInterval)) : M Tally :=
  match conflicts with
  | [] => mret t
  | conflict :: conflicts =>
      t ← reconcile_conflict existing t conflict;
      reconcile_conflicts existing t conflicts
  end.
End loop.

Definition no_tally (reserved : Z) : Tally :=
  {| current_ids := []; pending_tally := 0; held_tally := 0; budget_held_tally := 0; reserved := reserved |}.

Definition actions_of (organization ruleId : string) (d : ConflictDb) : list (string * Action.ActionRow) :=
  List.filter (λ '(_, a), bool_decide (Action.organization a = organization) && bool_decide (Action.rule a = ruleId))
    (map_to_list (actions d)).

Definition rule_code (t : Tally) (commentRetentionWarningPresent : bool) : option string :=
  if 0 <? budget_held_tally t then Some "automatic_decline_budget_exceeded"
  else if 0 <? held_tally t then Some "work_revision_missing"
  else if commentRetentionWarningPresent then Some "decline_comment_not_retained" else None.

Definition reconciled_fact (organization ruleId ruleHash : string) (t : Tally) (now : Z) : Audit.AuditFact :=
  {| Audit.organization := organization; Audit.principal := None; Audit.actor_kind := "sync";
     Audit.action := "conflict_response_rule.reconciled"; Audit.target_type := "conflict_response_rule";
     Audit.target := ruleId; Audit.reason_code := "private_availability_evaluated";
     Audit.before_hash := Some ruleHash; Audit.after_hash := Some ruleHash;
     Audit.detail := [("pending_count", int (pending_tally t)); ("held_count", int (held_tally t));
       ("budget_held_count", int (budget_held_tally t));
       ("automatic_decline_budget_per_24_hours", int MAX_AUTOMATIC_DECLINES_PER_24_HOURS); ("no_copy", JBool true)];
     Audit.created_at := now |}.

(** The transaction of [reconcile]. *)
Definition commit_conflicts (organization ruleId : string) (rule : Rule.RuleRow) (draft : ConflictResponseDraft)
    (conflicts : list (WorkInvitationCandidate * list ConflictBusyInterval)) (now : Z) : M () :=
  transaction (
    current ← read_db (λ d, rules d !! ruleId);
    match current with
    | Some currentRule =>
        if bool_decide (Rule.organization currentRule = organization)
           && bool_decide (Rule.status currentRule = Rule.active)
           && (Rule.revision currentRule =? Rule.revision rule)
        then
          existing ← read_db (actions_of organization ruleId);
          let commentRetentionWarningPresent := existsb (λ '(_, a), bool_decide (Action.status a = Action.applied)
            && bool_decide (Action.safe_error_code a = Some "decline_comment_not_retained")) existing in
          applied ← read_db (λ d, countRecentAppliedDeclines d organization (Rule.response_identity rule) now);
          t ← reconcile_conflicts organization ruleId rule draft now existing (no_tally applied) conflicts;
          _ ← update_actions_of organization ruleId
                (λ id a, (bool_decide (Action.status a = Action.pending) || bool_decide (Action.status a = Action.held))
                         && negb (includes (current_ids t) id))
                (mark_action Action.superseded (λ t, t) "conflict_no_longer_present" now);
          _ ← update_rule organization ruleId
                (mark_rule None (Some now) None (rule_code t commentRetentionWarningPresent) now);
          if (0 <? pending_tally t) || (0 <? held_tally t)
          then record_fact (reconciled_fact organization ruleId (Rule.hash currentRule) t now)
          else mret ()
        else mret ()
    | None => mret ()
    end).

(** [reconcile]: [interleave] is what other transactions do to the database
    between the reading of the input and the transaction that commits. *)
Definition reconcile (interleave : ConflictDb → ConflictDb) (organization ruleId : string) (now : Z) : M () :=
  row ← read_db (λ d, rules d !! ruleId);
  match row with
  | Some rule =>
      if bool_decide (Rule.organization rule = organization) && bool_decide (Rule.status rule = Rule.active)
      then
        match parseConflictResponseDraft (Rule.document rule) with
        | Throw e => recordRuleFailure organization ruleId (rule_failure e) now
        | Ok draft =>
            prepared ← attempt (prepareConflictResponseInput organization draft now);
            _ ← write_db interleave;
            match prepared with
            | Throw e =>
                _ ← recordRuleFailure organization ruleId e now;
                if isRetryable e then throw e else mret ()
            | Ok prepared => commit_conflicts organization ruleId rule draft (prepared_conflicts prepared) now
            end
        end
      else mret ()
  | None => mret ()
  end.

(** ** Application *)

(** The join of the action with its rule. *)
Definition load_action (organization actionId : string) (d : ConflictDb) : option (Action.ActionRow * Rule.RuleRow) :=
  a ← actions d !! actionId;
  r ← rules d !! Action.rule a;
  if bool_decide (Action.organization a = organization) then Some (a, r) else None.

Definition is_due (expectedConflictBasisHash : string) (a : Action.ActionRow) (r : Rule.RuleRow) : bool :=
  bool_decide (Action.status a = Action.pending) && bool_decide (Rule.status r = Rule.active)
  && (Action.rule_revision a =? Rule.revision r)
  && (Action.conflict_basis_hash a =? expectedConflictBasisHash)%string.

(** The observation of the action, when it is still the invitation that was decided on. *)
Definition current_invitation (organization : string) (a : Action.ActionRow) (now horizonEnd : Z) (d : ConflictDb)
    : option WorkInvitationCandidate :=
  w ← observations d !! Action.work_observation a;
  if negb (bool_decide (Work.organization w = organization)) then None
  else
    i ← workInvitationCandidate (work_row (Action.work_observation a) w) now horizonEnd;
    if Work.managed_copy w || Work.tombstone w
       || negb (observation_hash i =? Action.work_observation_hash a)%string
       || negb (remote_event_id i =? Action.remote_event a)%string
       || negb (recurrence_identity i =? Action.recurrence_identity a)%string
    then None else Some i.

(** [invitation.remote_revision], when it is present and the one expected. *)
Definition expected_revision (a : Action.ActionRow) (i : WorkInvitationCandidate) : option string :=
  if unguarded i then None
  else revision ← remote_revision i;
       if bool_decide (Action.expected_remote_revision a = Some revision) then Some revision else None.

Definition declined_fact (organization actionId : string) (a : Action.ActionRow) (r : Rule.RuleRow)
    (result : DeclineResult) (after : option string) (finished : Z) : Audit.AuditFact :=
  {| Audit.organization := organization; Audit.principal := Some (Rule.owner r); Audit.actor_kind := "sync";
     Audit.action := "invitation_response.declined"; Audit.target_type := "invitation_response_action";
     Audit.target := actionId; Audit.reason_code := "private_availability_conflict";
     Audit.before_hash := Some (Action.work_observation_hash a); Audit.after_hash := after;
     Audit.detail := [("provider_changed", JBool (decline_changed result)); ("no_copy", JBool true);
       ("comment_configured", JBool (0 <? Z.of_nat (String.length (Action.desired_comment a))));
       ("comment_retained", JBool (comment_retained result))];
     Audit.created_at := finished |}.

(** [holdAction] and [markRuleError] with the same code. *)
Definition hold_and_mark (organization actionId ruleId code : string) (now : Z) : M () :=
  _ ← holdAction organization actionId code now;
  markRuleError organization ruleId code now.

(** The end of [apply], after the decline has succeeded. *)
Definition record_decline (organization actionId expectedConflictBasisHash : string) (a : Action.ActionRow)
    (r : Rule.RuleRow) (result : DeclineResult) (now finished : Z) : M () :=
  let applyWarning := if comment_retained result then None else Some "decline_comment_not_retained" in
  row ← read_db (λ d, actions d !! actionId);
  _ ← match row with
      | Some b =>
          if bool_decide (Action.organization b = organization) && bool_decide (Action.status b = Action.pending)
             && (Action.conflict_basis_hash b =? expectedConflictBasisHash)%string
          then write_db (with_actions (λ t, <[actionId := mark_applied (decline_revision result) applyWarning now b]> t))
          else throw no_result
      | None => throw no_result
      end;
  _ ← update_rule organization (Action.rule a) (mark_rule None None (Some now) applyWarning now);
  after ← (if (decline_revision result =? "")%string then mret None
           else (h ← lift (hash (JString (decline_revision result))); mret (Some h)));
  record_fact (declined_fact organization actionId a r result after finished).

(** [apply] from the point where the invitation and its revision are known. *)
Definition apply_to_provider (organization actionId expectedConflictBasisHash : string) (a : Action.ActionRow)
    (r : Rule.RuleRow) (draft : ConflictResponseDraft) (invitation : WorkInvitationCandidate) (revision : string)
    (now finished : Z) : M () :=
  selection ← attempt (from_db (λ d,
    selection ← loadConflictCalendarSelection d organization draft;
    _ ← requireNoCopyPolicies d organization selection.2;
    Ok selection));
  match selection with
  | Throw e => hold_and_mark organization actionId (Action.rule a) (safeErrorCode e) now
  | Ok (response, availability) =>
      intervals ← attempt (queryOpaqueAvailability organization availability (start_at invitation) (end_at invitation));
      match intervals with
      | Throw e =>
          if isRetryable e then throw e
          else hold_and_mark organization actionId (Action.rule a) (safeErrorCode e) now
      | Ok intervals =>
          if (length (overlappingBusyIntervals invitation intervals) =? 0)%nat
          then supersedeAction organization actionId "conflict_no_longer_present" now
          else
            result ← attempt (
              token ← conflict_access (binding_provider response) organization (binding_connection response);
              declineInvitation (binding_provider response) token (binding_remote response) (Action.remote_event a)
                revision (Action.desired_comment a));
            match result with
            | Throw (provider_failure e) =>
                if negb (retryable e) && negb (error_ambiguous e)
                then hold_and_mark organization actionId (Action.rule a) (code e) now
                else throw (provider_failure e)
            | Throw e => throw e
            | Ok result => record_decline organization actionId expectedConflictBasisHash a r result now finished
            end
      end
  end.

(** [apply]: [finished] is [clock_timestamp()], the time of completion. *)
Definition apply (providerWritesEnabled : bool) (organization actionId expectedConflictBasisHash : string)
    (now finished : Z) : M () :=
  transaction (
    row ← read_db (load_action organization actionId);
    match row with
    | Some (a, r) =>
        if negb (is_due expectedConflictBasisHash a r) then mret ()
        else if negb providerWritesEnabled then holdAction organization actionId "invitation_writes_disabled" now
        else
          match parseConflictResponseDraft (Rule.document r) with
          | Throw e => hold_and_mark organization actionId (Action.rule a) (input_code e) now
          | Ok draft =>
              if negb (response_calendar_id draft =? Action.response_calendar a)%string
              then holdAction organization actionId "response_calendar_changed" now
              else
                let horizonEnd := now + rule_horizon_days draft * DAY_MILLISECONDS in
                invitation ← read_db (current_invitation organization a now horizonEnd);
                match invitation with
                | None => supersedeAction organization actionId "work_invitation_no_longer_eligible" now
                | Some invitation =>
                    match expected_revision a invitation with
                    | None => holdAction organization actionId "work_invitation_changed" now
                    | Some revision =>
                        apply_to_provider organization actionId expectedConflictBasisHash a r draft invitation revision
                          now finished
                    end
                end
          end
    | None => mret ()
    end).

(** ** Dispatch *)

Definition requiredString (payload : json) (key : string) : res failure string :=
  let invalid := coded_failure "invalid_job_payload" false in
  match payload with
  | JObject members =>
      match member members key with
      | JString s => if (1 <=? String.length s)%nat && (String.length s <=? 300)%nat then Ok s else Throw invalid
      | _ => Throw invalid
      end
  | _ => Throw invalid
  end.

Definition handles (kind : string) : bool := (kind =? RECONCILE_KIND)%string || (kind =? APPLY_KIND)%string.

Definition dispatch (providerWritesEnabled : bool) (interleave : ConflictDb → ConflictDb) (now finished : Z)
    (organization kind : string) (payload : json) : M () :=
  if (kind =? RECONCILE_KIND)%string then
    ruleId ← lift (requiredString payload "rule_id");
    reconcile interleave organization ruleId now
  else if (kind =? APPLY_KIND)%string then
    actionId ← lift (requiredString payload "action_id");
    basisHash ← lift (requiredString payload "conflict_basis_hash");
    apply providerWritesEnabled organization actionId basisHash now finished
  else throw (coded_failure "unknown_conflict_response_job" false).
End coordinator.

(** ** Application: what it does *)

(** An action belongs to the organisation of its rule (the foreign key
    [(organization_id, rule_id)]). *)
Definition owned (d : ConflictDb) : Prop :=
  ∀ id a r, actions d !! id = Some a → rules d !! Action.rule a = Some r → Rule.organization r = Action.organization a.

(** The database after an action has been held or superseded. *)
Definition stopped (actionId : string) (a : Action.ActionRow) (status : Action.ActionStatus) (code : string) (now : Z)
    (d : ConflictDb) : ConflictDb :=
  with_actions (λ t, <[actionId := mark_action status (λ _, Some now) code now a]> t) d.

Definition marked (a : Action.ActionRow) (r : Rule.RuleRow) (code : option string) (success : option Z) (now : Z)
    (d : ConflictDb) : ConflictDb :=
  with_rules (λ t, <[Action.rule a := mark_rule None None success code now r]> t) d.

(** The database after a confirmed decline. *)
Definition declined (organization actionId : string) (a : Action.ActionRow) (r : Rule.RuleRow)
    (result : DeclineResult) (after : option string) (now finished : Z) (d : ConflictDb) : ConflictDb :=
  let warning := if comment_retained result then None else Some "decline_comment_not_retained" in
  with_fact (declined_fact organization actionId a r result after finished)
    (marked a r warning (Some now) now
      (with_actions (λ t, <[actionId := mark_applied (decline_revision result) warning now a]> t) d)).

Section apply.
Context {R : Type} `{ConflictProvider R} `{NewId} `{Unicode} `{Digest} `{PrivateKey} `{Uuids}.
Implicit Types w : Transaction.World ConflictDb R ConflictCall.
Context (organization actionId : string) (now finished : Z).

(** Everything that justifies a decline. *)
Record justified (d : ConflictDb) (basis : string) (a : Action.ActionRow) (r : Rule.RuleRow)
    (draft : ConflictResponseDraft) (response : ConflictCalendarBinding)
    (availability : list ConflictCalendarBinding) (i : WorkInvitationCandidate) (revision : string)
    (tr : list ConflictCall) : Prop := {
  just_action : actions d !! actionId = Some a ∧ Action.organization a = organization ∧
    Action.status a = Action.pending ∧ Action.conflict_basis_hash a = basis;
  just_rule : rules d !! Action.rule a = Some r ∧ Rule.status r = Rule.active ∧
    Action.rule_revision a = Rule.revision r;
  just_draft : parseConflictResponseDraft (Rule.document r) = Ok draft ∧
    response_calendar_id draft = Action.response_calendar a;
  just_invitation : ∃ row, observations d !! Action.work_observation a = Some row ∧
    Work.organization row = organization ∧ Work.managed_copy row = false ∧ Work.tombstone row = false ∧
    workInvitationCandidate (work_row (Action.work_observation a) row) now
      (now + rule_horizon_days draft * DAY_MILLISECONDS) = Some i ∧
    observation_hash i = Action.work_observation_hash a ∧ remote_event_id i = Action.remote_event a;
  just_revision : revision ≠ "" ∧ remote_revision i = Some revision ∧
    Action.expected_remote_revision a = Some revision;
  just_selection : loadConflictCalendarSelection d organization draft = Ok (response, availability) ∧
    ∃ paused, requireNoCopyPolicies d organization availability = Ok paused;
  just_conflict : ∃ x, reported (start_at i) (end_at i) tr availability x ∧
    intervalsOverlap (start_at i) (end_at i) (busy_start x) (busy_end x) = true;
}.

(** The end of an application that asked at most for availability. *)
Definition quiet (d : ConflictDb) (a : Action.ActionRow) (r : Rule.RuleRow) (d' : ConflictDb) : Prop :=
  ∃ status code, status ∈ [Action.held; Action.superseded] ∧
    (d' = stopped actionId a status code now d ∨
     d' = marked a r (Some code) None now (stopped actionId a status code now d)).

(** What an application that found its action due does, with the trace [tr]. *)
Definition acted (d : ConflictDb) (basis : string) (a : Action.ActionRow) (r : Rule.RuleRow)
    (tr : list ConflictCall) (result : res failure ()) (d' : ConflictDb) : Prop :=
  (∃ from until, Forall (is_query from until) tr ∧
     match result with Ok _ => quiet d a r d' | Throw _ => True end) ∨
  (∃ draft response availability i revision tr0 answer,
     tr = tr0 ++ [DeclineInvitation (binding_remote response) (Action.remote_event a) revision
                    (Action.desired_comment a) answer] ∧
     Forall (is_query (start_at i) (end_at i)) tr0 ∧
     justified d basis a r draft response availability i revision tr0 ∧
     match answer, result with
     | Ok decline, Ok _ => ∃ after, d' = declined organization actionId a r decline after now finished d
     | Ok decline, Throw _ => False
     | Throw (provider_failure e), Ok _ =>
         retryable e = false ∧ error_ambiguous e = false ∧
         d' = marked a r (Some (code e)) None now (stopped actionId a Action.held (code e) now d)
     | Throw _, Ok _ => False
     | Throw e, Throw e' => e = e'
     end).

Lemma update_action_wp id f w a Q :
  actions (db w) !! id = Some a → Action.organization a = organization →
  Q (Ok ()) {| db := with_actions (λ t, <[id := f a]> t) (db w); remote := remote w; calls := calls w; issued := issued w |} →
  wp (update_action organization id f) w Q.
Proof.
  intros Ha Ho HQ. unfold update_action. do 2 wp_step. rewrite Ha, bool_decide_eq_true_2 by done. by wp_step.
Qed.

Lemma update_rule_wp id f w r Q :
  rules (db w) !! id = Some r → Rule.organization r = organization →
  Q (Ok ()) {| db := with_rules (λ t, <[id := f r]> t) (db w); remote := remote w; calls := calls w; issued := issued w |} →
  wp (update_rule organization id f) w Q.
Proof.
  intros Hr Ho HQ. unfold update_rule. do 2 wp_step. rewrite Hr, bool_decide_eq_true_2 by done. by wp_step.
Qed.

(** The world after an update of the database. *)
Definition in_db (d : ConflictDb) w : Transaction.World ConflictDb R ConflictCall :=
  {| db := d; remote := remote w; calls := calls w; issued := issued w |}.

Section due.
Context (basis : string) (a : Action.ActionRow) (r : Rule.RuleRow).
Context (Horg : Action.organization a = organization) (Hrule_org : Rule.organization r = organization).

(** The rows of the action and its rule. *)
Definition holds_rows (d : ConflictDb) : Prop := actions d !! actionId = Some a ∧ rules d !! Action.rule a = Some r.

Lemma hold_wp code w Q :
  holds_rows (db w) → Q (Ok ()) (in_db (stopped actionId a Action.held code now (db w)) w) →
  wp (holdAction organization actionId code now) w Q.
Proof using Horg. intros [Ha _] HQ. by apply (update_action_wp _ _ _ a). Qed.

Lemma supersede_wp code w Q :
  holds_rows (db w) → Q (Ok ()) (in_db (stopped actionId a Action.superseded code now (db w)) w) →
  wp (supersedeAction organization actionId code now) w Q.
Proof using Horg. intros [Ha _] HQ. by apply (update_action_wp _ _ _ a). Qed.

Lemma hold_and_mark_wp code w Q :
  holds_rows (db w) →
  Q (Ok ()) (in_db (marked a r (Some code) None now (stopped actionId a Action.held code now (db w))) w) →
  wp (hold_and_mark organization actionId (Action.rule a) code now) w Q.
Proof using Horg Hrule_org.
  intros Hrows HQ. unfold hold_and_mark. wp_step. apply hold_wp; [done|]. cbn beta iota.
  by apply (update_rule_wp _ _ _ r); [apply Hrows|..].
Qed.

(** [acted], with the calls since [w]. *)
Definition acted_from w (result : res failure ()) w' : Prop :=
  ∃ tr, calls w' = calls w ++ tr ∧ acted (db w) basis a r tr result (db w').

Lemma acted_quiet w0 w tr from until result (w' : Transaction.World ConflictDb R ConflictCall) :
  extends tr w0 w → Forall (is_query from until) tr → calls w' = calls w →
  match result with Ok _ => quiet (db w0) a r (db w') | Throw _ => True end →
  acted_from w0 result w'.
Proof using Type.
  intros (_ & _ & Hc) Hq Hc' Hres. exists tr. split; [congruence|]. left. by exists from, until.
Qed.

Lemma acted_hold_mark w0 w tr from until code :
  extends tr w0 w → Forall (is_query from until) tr → holds_rows (db w0) →
  wp (hold_and_mark organization actionId (Action.rule a) code now) w (acted_from w0).
Proof using Horg Hrule_org.
  intros He Hq Hrows. apply hold_and_mark_wp; [by destruct He as (-> & _)|].
  eapply acted_quiet; [done..|]. exists Action.held, code. split; [in_list|]. right. cbn.
  by destruct He as (-> & _).
Qed.

Lemma record_decline_wp result w Q :
  holds_rows (db w) → Action.status a = Action.pending → Action.conflict_basis_hash a = basis →
  (∃ h, hash (JString (decline_revision result)) = Ok h) →
  (∀ after w', db w' = declined organization actionId a r result after now finished (db w) → calls w' = calls w →
     Q (Ok ()) w') →
  wp (record_decline organization actionId basis a r result now finished) w Q.
Proof using Horg Hrule_org.
  intros [Ha Hr] Hs Hb [h Hh] HQ. unfold record_decline. do 3 wp_step. rewrite Ha, Hs, Hb, Horg.
  rewrite !bool_decide_eq_true_2, String.eqb_refl by done. cbn [andb]. wp_step. wp_step.
  apply (update_rule_wp _ _ _ r); [done..|]. wp_step.
  destruct (decline_revision result =? "")%string.
  - wp_step. unfold record_fact. repeat wp_step. by apply (HQ None).
  - wp_step. wp_step. rewrite Hh. wp_step. unfold record_fact. repeat wp_step. by apply (HQ (Some h)).
Qed.

Lemma hash_text s : ∃ h, hash (JString s) = Ok h.
Proof using Type. by eexists. Qed.

(** The last call, with its answer. *)
Lemma decline_wp provider organization' connection calendar event revision comment w Q :
  (∀ e w', extends [] w w' → Q (Throw e) w') →
  (∀ answer w', extends [DeclineInvitation calendar event revision comment answer] w w' → Q answer w') →
  wp (token ← conflict_access provider organization' connection;
      declineInvitation provider token calendar event revision comment) w Q.
Proof using Type.
  intros Hno Hyes. wp_step. eapply wp_mono; [apply conflict_access_wp|]. cbn beta. intros [token|e] w1 Hext; [|by apply Hno].
  unfold declineInvitation. wp_step. apply Hyes. eapply (extends_trans [] _ _ _ _ Hext). unfold extends. done.
Qed.

Lemma apply_to_provider_wp draft i revision w :
  holds_rows (db w) → is_due basis a r = true → parseConflictResponseDraft (Rule.document r) = Ok draft →
  response_calendar_id draft = Action.response_calendar a →
  current_invitation organization a now (now + rule_horizon_days draft * DAY_MILLISECONDS) (db w) = Some i →
  expected_revision a i = Some revision →
  wp (apply_to_provider organization actionId basis a r draft i revision now finished) w (acted_from w).
Proof using Horg Hrule_org.
  intros Hrows Hdue Hdraft Hcal Hinv Hrev. unfold apply_to_provider. do 2 wp_step. apply from_db_wp.
  destruct (loadConflictCalendarSelection (db w) organization draft) as [[response availability]|e] eqn:Hsel;
    cbn [mbind res_bind snd].
  2: { eapply (acted_hold_mark w w [] "" ""); [apply extends_refl|done|done]. }
  destruct (requireNoCopyPolicies (db w) organization availability) as [paused|e] eqn:Hcopy; cbn [mbind res_bind].
  2: { eapply (acted_hold_mark w w [] "" ""); [apply extends_refl|done|done]. }
  do 2 wp_step. eapply wp_mono; [apply queryOpaqueAvailability_wp|]. cbn beta.
  intros [intervals|e] w1 (tr & He & Hq & Hxs).
  2: { destruct (isRetryable e); [wp_step; by eapply acted_quiet|]. by eapply acted_hold_mark. }
  destruct (Hxs intervals eq_refl) as (_ & Hsound & _). assert (db w1 = db w) as Hdb by apply He.
  destruct (length (overlappingBusyIntervals i intervals) =? 0)%nat eqn:Hlen.
  { apply supersede_wp; [by rewrite Hdb|]. eapply acted_quiet; [done..|]. exists Action.superseded, "conflict_no_longer_present".
    split; [in_list|]. left. cbn. by rewrite Hdb. }
  assert (justified (db w) basis a r draft response availability i revision tr) as Hjust.
  { unfold is_due in Hdue. bool_to_prop. destruct Hrows. split; try done; eauto.
    - unfold current_invitation in Hinv. destruct (observations (db w) !! _) as [row|] eqn:Hrow; cbn in Hinv; [|done].
      destruct (negb _) eqn:Ho in Hinv; [done|].
      destruct (workInvitationCandidate _ _ _) as [i'|] eqn:Hc; cbn in Hinv; [|done].
      destruct (_ || _) eqn:Hbad in Hinv; [done|]. injection Hinv as ->. bool_to_prop. exists row. split_and!; done.
    - unfold expected_revision in Hrev. destruct (unguarded i) eqn:Hu; [done|]. unfold unguarded in Hu.
      destruct (remote_revision i) as [rev|]; cbn in Hrev; [|done]. case_bool_decide; [|done].
      injection Hrev as ->. split_and!; try done. by intros ->.
    - destruct (overlappingBusyIntervals i intervals) as [|x xs] eqn:Hov; [done|].
      assert (x ∈ overlappingBusyIntervals i intervals) as Hx by (rewrite Hov; set_solver).
      apply list_elem_of_In, filter_In in Hx as [Hx Ho]. exists x. split; [|done].
      apply Hsound. by apply list_elem_of_In. }
  do 2 wp_step. apply decline_wp.
  { intros e w2 He2. assert (extends tr w w2) as Hext.
    { rewrite <-(app_nil_r tr). by eapply extends_trans. }
    destruct e; try (wp_step; by eapply acted_quiet).
    destruct (negb (retryable e) && negb (error_ambiguous e)); [by eapply acted_hold_mark|wp_step; by eapply acted_quiet]. }
  intros answer w2 He2. pose proof (extends_trans _ _ _ _ _ He He2) as Hext.
  assert (∀ result w', calls w' = calls w2 →
    match answer, result with
    | Ok decline, Ok _ => ∃ after, db w' = declined organization actionId a r decline after now finished (db w)
    | Ok decline, Throw _ => False
    | Throw (provider_failure e), Ok _ => retryable e = false ∧ error_ambiguous e = false ∧
         db w' = marked a r (Some (code e)) None now (stopped actionId a Action.held (code e) now (db w))
    | Throw _, Ok _ => False
    | Throw e, Throw e' => e = e'
    end → acted_from w result w') as Hacted.
  { intros result w' Hc Hm. destruct Hext as (_ & _ & Hc2). eexists. split; [rewrite Hc; exact Hc2|]. right.
    exists draft, response, availability, i, revision, tr, answer. done. }
  assert (db w2 = db w) as Hdb2 by apply Hext.
  destruct answer as [decline|e].
  - unfold is_due in Hdue. bool_to_prop. apply record_decline_wp; [by rewrite Hdb2|done|done|apply hash_text|].
    intros after w' Hd Hc. apply Hacted; [done|]. exists after. by rewrite Hd, Hdb2.
  - destruct e as [e| | | |]; try (wp_step; by apply Hacted).
    destruct (retryable e) eqn:E1, (error_ambiguous e) eqn:E2; cbn [negb andb]; try (wp_step; by apply Hacted).
    apply hold_and_mark_wp; [by rewrite Hdb2|]. apply Hacted; [done|]. cbn. by rewrite Hdb2.
Qed.
End due.

(** What an application does, whole. *)
Definition applied (writes : bool) (basis : string) w (result : res failure ()) w' : Prop :=
  ∃ tr, calls w' = calls w ++ tr ∧ (writes = false → tr = []) ∧
    match result with Throw _ => db w' = db w | Ok _ => True end ∧
    ((tr = [] ∧ result = Ok () ∧ db w' = db w ∧
      ∀ a r, load_action organization actionId (db w) = Some (a, r) → is_due basis a r = false) ∨
     ∃ a r, load_action organization actionId (db w) = Some (a, r) ∧ is_due basis a r = true ∧
       acted (db w) basis a r tr result (db w')).

Lemma apply_wp writes basis w :
  owned (db w) → wp (apply writes organization actionId basis now finished) w (applied writes basis w).
Proof.
  intros Howned. unfold apply. do 3 wp_step.
  destruct (load_action organization actionId (db w)) as [[a r]|] eqn:Hload.
  2: { wp_step. exists []. rewrite app_nil_r. split_and!; try done. left. split_and!; try done. by rewrite Hload. }
  destruct (is_due basis a r) eqn:Hdue; cbn [negb].
  2: { wp_step. exists []. rewrite app_nil_r. split_and!; try done. left. split_and!; try done.
       rewrite Hload. by intros ? ? [= <- <-]. }
  assert (holds_rows a r (db w) ∧ Action.organization a = organization) as [Hrows Ho].
  { unfold load_action in Hload. destruct (actions (db w) !! actionId) as [a'|] eqn:Ha; cbn in Hload; [|done].
    destruct (rules (db w) !! Action.rule a') as [r'|] eqn:Hr; cbn in Hload; [|done].
    case_bool_decide; [|done]. injection Hload as -> ->. done. }
  assert (Rule.organization r = organization) as Hro.
  { rewrite (Howned actionId a r); [done|apply Hrows..]. }
  assert (∀ w', calls w' = calls w → quiet (db w) a r (db w') → applied writes basis w (Ok ()) w') as Hquiet.
  { intros w' Hc Hq. exists []. rewrite app_nil_r. split_and!; try done. right. exists a, r. split_and!; try done.
    left. by exists "", "". }
  assert (∀ code, quiet (db w) a r (stopped actionId a Action.held code now (db w))) as Hheld.
  { intros code. exists Action.held, code. split; [in_list|by left]. }
  destruct writes; cbn [negb].
  2: { apply (hold_wp a r); [done..|]. apply Hquiet; [done|apply Hheld]. }
  destruct (parseConflictResponseDraft (Rule.document r)) as [draft|e] eqn:Hdraft.
  2: { apply (hold_and_mark_wp a r); [done..|]. apply Hquiet; [done|]. exists Action.held, (input_code e).
       split; [in_list|by right]. }
  destruct (response_calendar_id draft =? Action.response_calendar a)%string eqn:Hcal; cbn [negb].
  2: { apply (hold_wp a r); [done..|]. apply Hquiet; [done|apply Hheld]. }
  wp_step. wp_step.
  destruct (current_invitation organization a now (now + rule_horizon_days draft * DAY_MILLISECONDS) (db w)) as [i|] eqn:Hi.
  2: { apply (supersede_wp a r); [done..|]. apply Hquiet; [done|]. eexists Action.superseded, _. split; [in_list|by left]. }
  destruct (expected_revision a i) as [revision|] eqn:Hrev.
  2: { apply (hold_wp a r); [done..|]. apply Hquiet; [done|apply Hheld]. }
  bool_to_prop. eapply wp_mono; [by apply (apply_to_provider_wp basis a r Ho Hro)|]. cbn beta.
  intros result w' (tr & Hc & Hacted).
  destruct result as [[]|e]; exists tr; (split_and!; [done..|]); right; exists a, r; (split_and!; [done..|]).
  - done.
  - destruct Hacted as [(from & until & Hq & _)|(d' & re & av & i' & rev & tr0 & ans & -> & Hrest)]; [left|right].
    + by exists from, until.
    + by exists d', re, av, i', rev, tr0, ans.
Qed.

(** C21. An invitation is declined only when everything the owner agreed to still
    holds: a call that declines is the last call of an application, is made
    only where provider writes are enabled, and everything has been checked
    in the same transaction - the action is pending, its rule active at the same
    revision, its basis the one of the job; the rule's draft still selects
    that calendar and only authorised, uncopied ones; the observation still is
    the same eligible invitation, with the revision the call carries as its
    guard; and the provider, asked before in this very application, reports a
    busy interval that overlaps the invitation. *)
Theorem declines_are_justified writes basis w result w' calendar event revision comment answer :
  owned (db w) → apply writes organization actionId basis now finished w = (result, w') →
  DeclineInvitation calendar event revision comment answer ∈ drop (length (calls w)) (calls w') →
  writes = true ∧ ∃ a r draft response availability i tr,
    calls w' = calls w ++ tr ++ [DeclineInvitation calendar event revision comment answer] ∧
    Forall (is_query (start_at i) (end_at i)) tr ∧
    justified (db w) basis a r draft response availability i revision tr ∧
    calendar = binding_remote response ∧ event = Action.remote_event a ∧ comment = Action.desired_comment a.
Proof.
  intros Howned Hrun. destruct (wp_run _ _ _ _ _ (apply_wp writes basis w Howned) Hrun)
    as (tr & Hc & Hw & _ & Hout). rewrite Hc, drop_app_length. intros Hin.
  assert (writes = true) as -> by (destruct writes; [done|]; rewrite Hw in Hin by done; set_solver).
  split; [done|]. destruct Hout as [(-> & _)|(a & r & _ & _ & Hacted)]; [set_solver|].
  destruct Hacted as [(from & until & Hq & _)|(draft & response & availability & i & rev & tr0 & ans & -> & Hq & Hj & _)].
  { rewrite Forall_forall in Hq. destruct (Hq _ Hin) as (? & ? & [=]). }
  apply elem_of_app in Hin as [Hin|Hin%list_elem_of_singleton].
  { rewrite Forall_forall in Hq. destruct (Hq _ Hin) as (? & ? & [=]). }
  injection Hin as -> -> -> -> ->. exists a, r, draft, response, availability, i, tr0. done.
Qed.

(** C22. What the provider confirms is recorded, and nothing else is: an application
    that throws leaves the database as it was; one that returns either found
    nothing due and changes nothing, or stopped the action (held or
    superseded, with at most the error of the rule), or, when and only when
    the provider confirmed the decline, marks the action applied, the rule
    successful and appends the fact the budget counts. A confirmed decline is
    never lost to a later error, and a definite refusal holds the action. *)
Theorem confirmed_declines_are_recorded writes basis w result w' :
  owned (db w) → apply writes organization actionId basis now finished w = (result, w') →
  match result with
  | Throw _ => db w' = db w ∧ ∀ calendar event revision comment decline,
      DeclineInvitation calendar event revision comment (Ok decline) ∉ drop (length (calls w)) (calls w')
  | Ok _ =>
      db w' = db w ∨
      ∃ a r, load_action organization actionId (db w) = Some (a, r) ∧ is_due basis a r = true ∧
        (quiet (db w) a r (db w') ∧ (∀ calendar event revision comment decline,
           DeclineInvitation calendar event revision comment (Ok decline) ∉ drop (length (calls w)) (calls w')) ∨
         ∃ calendar revision decline after,
           DeclineInvitation calendar (Action.remote_event a) revision (Action.desired_comment a) (Ok decline)
             ∈ drop (length (calls w)) (calls w') ∧
           db w' = declined organization actionId a r decline after now finished (db w))
  end.
Proof.
  intros Howned Hrun. destruct (wp_run _ _ _ _ _ (apply_wp writes basis w Howned) Hrun)
    as (tr & Hc & _ & Hdb & Hout). rewrite Hc, drop_app_length.
  assert (∀ from until calls', Forall (is_query from until) calls' → ∀ calendar event revision comment answer,
    DeclineInvitation calendar event revision comment answer ∉ calls') as Hno.
  { intros from until calls' Hq calendar event revision comment answer Hin. rewrite Forall_forall in Hq.
    destruct (Hq _ Hin) as (? & ? & [=]). }
  destruct Hout as [(-> & -> & Hsame & _)|(a & r & Hload & Hdue & Hacted)]; [by left|].
  destruct Hacted as [(from & until & Hq & Hquiet)|(draft & response & availability & i & rev & tr0 & ans & -> & Hq & Hj & Hans)].
  - destruct result as [[]|e]; [|split; [done|by eauto]]. right. exists a, r. split_and!; [done..|]. left. eauto.
  - destruct result as [[]|e].
    + right. exists a, r. split_and!; [done..|]. destruct ans as [decline|[e| | | |]]; try done.
      * right. destruct Hans as [after Hans]. exists (binding_remote response), rev, decline, after.
        split; [|done]. apply elem_of_app. right. by apply list_elem_of_singleton.
      * left. destruct Hans as (_ & _ & ->). split.
        { exists Action.held, (code e). split; [in_list|by right]. }
        intros calendar event revision comment decline [Hin|[=]%list_elem_of_singleton]%elem_of_app. by eapply Hno.
    + split; [done|]. destruct ans as [decline|e']; [done|].
      intros calendar event revision comment decline [Hin|[=]%list_elem_of_singleton]%elem_of_app. by eapply Hno.
Qed.
End apply.

(** ** Reconciliation: what it does *)

(** The ids of the actions of the rule that are pending. *)
Definition pending_of (organization ruleId : string) (d : ConflictDb) : list string :=
  (List.filter (λ '(_, a), bool_decide (Action.status a = Action.pending)) (actions_of organization ruleId d)).*1.

(** A job will apply the action. *)
Definition has_job (organization id : string) (a : Action.ActionRow) (d : ConflictDb) : Prop :=
  ∃ job j, conflict_jobs d !! job = Some j ∧ active (state j) = true ∧
    key j = apply_key organization id (Action.conflict_basis_hash a).

(** The ids that [newId] will give are new to the table of jobs. *)
Definition fresh_job_ids `{NewId} (n : nat) (d : ConflictDb) : Prop :=
  ∀ m, (n <= m)%nat → conflict_jobs d !! newId m = None.

Lemma elem_of_actions_of organization ruleId d id a :
  (id, a) ∈ actions_of organization ruleId d ↔
  actions d !! id = Some a ∧ Action.organization a = organization ∧ Action.rule a = ruleId.
Proof.
  unfold actions_of. rewrite list_elem_of_In, filter_In, <-list_elem_of_In, elem_of_map_to_list, andb_true_iff.
  by rewrite !bool_decide_eq_true.
Qed.

Lemma elem_of_pending_of organization ruleId d id :
  id ∈ pending_of organization ruleId d ↔
  ∃ a, actions d !! id = Some a ∧ Action.organization a = organization ∧ Action.rule a = ruleId ∧
    Action.status a = Action.pending.
Proof.
  unfold pending_of. rewrite list_elem_of_fmap. split.
  - intros ([id' a] & -> & Hin). rewrite list_elem_of_In, filter_In, <-list_elem_of_In, elem_of_actions_of in Hin.
    destruct Hin as [(Ha & Ho & Hr) Hs]. exists a. bool_to_prop. done.
  - intros (a & Ha & Ho & Hr & Hs). exists (id, a). split; [done|].
    rewrite list_elem_of_In, filter_In, <-list_elem_of_In, elem_of_actions_of. split; [done|].
    by apply bool_decide_eq_true.
Qed.

Lemma NoDup_filter_fst {A} (p : string * A → bool) (xs : list (string * A)) :
  NoDup xs.*1 → NoDup (List.filter p xs).*1.
Proof.
  induction xs as [|x xs IH]; [done|]. cbn. intros [Hx Hxs]%NoDup_cons. destruct (p x); cbn; [|auto].
  constructor; [|auto]. intros (y & Heq & Hy)%list_elem_of_fmap. apply Hx.
  rewrite list_elem_of_In, filter_In, <-list_elem_of_In in Hy. rewrite Heq. by apply list_elem_of_fmap_2, Hy.
Qed.

Lemma NoDup_pending_of organization ruleId d : NoDup (pending_of organization ruleId d).
Proof. unfold pending_of, actions_of. do 2 apply NoDup_filter_fst. apply NoDup_fst_map_to_list. Qed.

Section reconcile.
Context {R : Type} `{ConflictProvider R} `{NewId} `{Unicode} `{Digest} `{PrivateKey}.
Context (organization ruleId : string) (rule : Rule.RuleRow) (draft : ConflictResponseDraft) (now : Z).
Implicit Types w : Transaction.World ConflictDb R ConflictCall.

(** What holds in the loop, from the database [d0] with [reserved0] declines in
    the window; [planned] are the ids that were made pending. *)
Record loop_inv (d0 : ConflictDb) (reserved0 : Z) (n0 : nat) (planned : list string) (t : Tally) w : Prop := {
  inv_count : Z.of_nat (length planned) = pending_tally t;
  inv_reserved : reserved t = reserved0 + pending_tally t;
  inv_budget : pending_tally t <= Z.max 0 (MAX_AUTOMATIC_DECLINES_PER_24_HOURS - reserved0);
  inv_held : 0 <= budget_held_tally t <= held_tally t;
  inv_planned : ∀ id a, actions (db w) !! id = Some a → id ∈ current_ids t → Action.status a = Action.pending →
    id ∈ planned ∧ Action.rule_revision a = Rule.revision rule ∧
    (∃ revision, Action.expected_remote_revision a = Some revision ∧ revision ≠ "") ∧
    (fresh_job_ids n0 d0 → Inj (=) (=) newId → has_job organization id a (db w));
  inv_other : ∀ id, id ∉ current_ids t → actions (db w) !! id = actions d0 !! id;
  inv_tables : rules (db w) = rules d0 ∧ facts (db w) = facts d0;
  inv_issued : (n0 <= issued w)%nat;
  inv_fresh : fresh_job_ids n0 d0 → Inj (=) (=) newId → fresh_job_ids (issued w) (db w);
}.

Lemma prior_of_elem existing observation id a :
  prior_of existing observation = Some (id, a) → (id, a) ∈ existing ∧ Action.work_observation a = observation.
Proof using Type.
  unfold prior_of. intros [Hin Heq]%List.find_some. bool_to_prop. split; [|done].
  by apply list_elem_of_In, in_rev.
Qed.

(** The counters, and what one conflict that is not settled does to them. *)
Definition counts (t : Tally) : Z * Z * Z * Z := (pending_tally t, held_tally t, budget_held_tally t, reserved t).

Definition count_step (missing_revision : bool) (c : Z * Z * Z * Z) : Z * Z * Z * Z :=
  let '(planned, kept, over_budget, taken) := c in
  if negb missing_revision && (taken <? MAX_AUTOMATIC_DECLINES_PER_24_HOURS)
  then (planned + 1, kept, over_budget, taken + 1)
  else (planned, kept + 1, over_budget + (if negb missing_revision then 1 else 0), taken).

Lemma enqueue_conflict_job_wp k payload w Q :
  (∀ e w', Q (Throw e) w') →
  (∀ out w', (∀ i j, conflict_jobs (db w) !! i = Some j → conflict_jobs (db w') !! i = Some j) →
     (∀ i, i ≠ newId (issued w) → conflict_jobs (db w') !! i = conflict_jobs (db w) !! i) →
     (conflict_jobs (db w) !! newId (issued w) = None →
        ∃ i j, conflict_jobs (db w') !! i = Some j ∧ active (state j) = true ∧ key j = k) →
     actions (db w') = actions (db w) → rules (db w') = rules (db w) → facts (db w') = facts (db w) →
     issued w' = S (issued w) → Q (Ok out) w') →
  wp (enqueue_conflict_job k payload now) w Q.
Proof using Type.
  intros Hthrow Hok. unfold enqueue_conflict_job. do 4 wp_step. cbn [db issued].
  destruct (Jobs.enqueue k (JObject payload) now _ now (conflict_jobs (db w))) as [[out t']|e] eqn:Hen.
  - apply enqueue_adds in Hen as (Hkeep & Hsame & Hhas). do 3 wp_step. by apply Hok.
  - wp_step. apply Hthrow.
Qed.

(** One row of an action was written, with the status [s]. *)
Definition written (id : string) (row : Action.ActionRow) w w' : Prop :=
  (∃ b, actions (db w') = <[id := b]> (actions (db w)) ∧ Action.status b = Action.status row ∧
     Action.rule_revision b = Action.rule_revision row ∧
     Action.conflict_basis_hash b = Action.conflict_basis_hash row ∧
     Action.expected_remote_revision b = Action.expected_remote_revision row) ∧
  rules (db w') = rules (db w) ∧ facts (db w') = facts (db w) ∧ conflict_jobs (db w') = conflict_jobs (db w) ∧
  issued w' = issued w.

Lemma replan_action_wp id row w Q :
  (∀ e w', Q (Throw e) w') → (∀ w', written id row w w' → Q (Ok ()) w') → wp (replan_action id row) w Q.
Proof using Type.
  intros Hthrow Hok. unfold replan_action. do 2 wp_step. destruct (actions (db w) !! id) as [a|]; wp_step; [|apply Hthrow].
  apply Hok. split; [|done]. by eexists.
Qed.

Lemma insert_action_wp id row w Q :
  (∀ e w', Q (Throw e) w') → (∀ w', written id row w w' → Q (Ok ()) w') → wp (insert_action id row) w Q.
Proof using Type.
  intros Hthrow Hok. unfold insert_action. do 4 wp_step. case_match; [wp_step; apply Hthrow|].
  case_match; [wp_step; apply Hthrow|]. wp_step. apply Hok. split; [|done]. by exists row.
Qed.

Lemma has_job_mono id a d d' :
  (∀ i j, conflict_jobs d !! i = Some j → conflict_jobs d' !! i = Some j) →
  has_job organization id a d → has_job organization id a d'.
Proof using Type. intros Hkeep (i & j & Hj & ? & ?). exists i, j. auto. Qed.

(** The row of a planned action: the invariant after it is written, and its job enqueued. *)
Lemma loop_inv_written d0 reserved0 n0 planned t t' id row w w' w1 :
  loop_inv d0 reserved0 n0 planned t w → written id row w w1 → Action.rule_revision row = Rule.revision rule →
  (n0 <= issued w')%nat → actions (db w') = actions (db w1) → rules (db w') = rules (db w1) → facts (db w') = facts (db w1) →
  (∀ i j, conflict_jobs (db w1) !! i = Some j → conflict_jobs (db w') !! i = Some j) →
  (fresh_job_ids n0 d0 → Inj (=) (=) newId → fresh_job_ids (issued w') (db w')) →
  current_ids t' = current_ids t ++ [id] → 0 <= budget_held_tally t' <= held_tally t' →
  match Action.status row with
  | Action.pending =>
      reserved t < MAX_AUTOMATIC_DECLINES_PER_24_HOURS ∧ pending_tally t' = pending_tally t + 1 ∧
      reserved t' = reserved t + 1 ∧
      (∃ revision, Action.expected_remote_revision row = Some revision ∧ revision ≠ "") ∧
      (fresh_job_ids n0 d0 → Inj (=) (=) newId → has_job organization id row (db w'))
  | _ => pending_tally t' = pending_tally t ∧ reserved t' = reserved t
  end →
  ∃ planned', loop_inv d0 reserved0 n0 planned' t' w'.
Proof using Type.
  intros [Hcount Hres Hbud Hheld Hplan Hother [Hru Hfa] Hiss Hfresh] [(b & Hact & Hs & Hrev & Hb & Hexp) (Hru1 & Hfa1 & Hj1 & Hi1)]
    Hrow Hiss' Ha' Hr' Hf' Hkeep Hfr' Hids Hheld' Hstatus.
  assert (∀ planned' : list string, (∀ x, x ∈ planned → x ∈ planned') →
    (Action.status row = Action.pending → id ∈ planned' ∧
       (∃ revision, Action.expected_remote_revision row = Some revision ∧ revision ≠ "") ∧
       (fresh_job_ids n0 d0 → Inj (=) (=) newId → has_job organization id row (db w'))) →
    ∀ id' a, actions (db w') !! id' = Some a → id' ∈ current_ids t' → Action.status a = Action.pending →
      id' ∈ planned' ∧ Action.rule_revision a = Rule.revision rule ∧
      (∃ revision, Action.expected_remote_revision a = Some revision ∧ revision ≠ "") ∧
      (fresh_job_ids n0 d0 → Inj (=) (=) newId → has_job organization id' a (db w'))) as Hpl.
  { intros planned' Hsub Hnew id' a Ha Hin Hpend. rewrite Ha', Hact in Ha. rewrite Hids in Hin.
    apply lookup_insert_Some in Ha as [[<- <-]|[Hne Ha]].
    - rewrite Hs in Hpend. destruct (Hnew Hpend) as (? & ? & Hjob). rewrite Hrev, Hexp. split_and!; try done.
      intros Hf Hinj. destruct (Hjob Hf Hinj) as (i & j & ? & ? & Hk). exists i, j. by rewrite Hb.
    - apply elem_of_app in Hin as [Hin|Hin%list_elem_of_singleton]; [|congruence].
      destruct (Hplan id' a Ha Hin Hpend) as (? & ? & ? & Hjob). split_and!; try done; [auto|].
      intros Hf Hinj. eapply has_job_mono; [|by apply Hjob]. intros i j Hij. apply Hkeep. by rewrite Hj1. }
  assert (∀ id', id' ∉ current_ids t' → actions (db w') !! id' = actions d0 !! id') as Hot.
  { intros id' Hid. rewrite Hids in Hid. rewrite Ha', Hact, lookup_insert_ne by set_solver. apply Hother. set_solver. }
  destruct (Action.status row) eqn:Est.
  - destruct Hstatus as (Hlt & Hp & Hr & Hguard & Hjob). exists (id :: planned). split; try done.
    + rewrite Hp. cbn [length]. lia.
    + lia.
    + unfold MAX_AUTOMATIC_DECLINES_PER_24_HOURS in *. lia.
    + apply Hpl; [set_solver|]. intros _. split_and!; [set_solver|done..].
    + split; congruence.
  - destruct Hstatus as (Hp & Hr). exists planned. split; rewrite ?Hp, ?Hr; try done; [by apply Hpl|split; congruence].
  - destruct Hstatus as (Hp & Hr). exists planned. split; rewrite ?Hp, ?Hr; try done; [by apply Hpl|split; congruence].
  - destruct Hstatus as (Hp & Hr). exists planned. split; rewrite ?Hp, ?Hr; try done; [by apply Hpl|split; congruence].
Qed.

(** Only the counter of ids has moved. *)
Lemma loop_inv_issued d0 reserved0 n0 planned t w w' :
  loop_inv d0 reserved0 n0 planned t w → db w' = db w → (issued w <= issued w')%nat →
  loop_inv d0 reserved0 n0 planned t w'.
Proof using Type.
  intros [Hcount Hres Hbud Hheld Hplan Hother Htab Hiss Hfresh] Hdb Hle.
  split; rewrite ?Hdb; try done; [lia|]. intros Hf Hinj m Hm. apply (Hfresh Hf Hinj). lia.
Qed.

(** What the loop does for one conflict that is not settled. *)
Definition step_post (d0 : ConflictDb) (reserved0 : Z) (n0 : nat) (t : Tally) (missing_revision : bool)
    (r : res failure Tally) w : Prop :=
  match r with
  | Ok t' => counts t' = count_step missing_revision (counts t) ∧ ∃ planned, loop_inv d0 reserved0 n0 planned t' w
  | Throw _ => True
  end.

Lemma plan_with_id_wp d0 reserved0 n0 planned t basis i prior id w :
  loop_inv d0 reserved0 n0 planned t w → (prior = Some id ∨ prior = None) →
  wp (plan_with_id organization ruleId rule draft now t basis i prior id) w (step_post d0 reserved0 n0 t (unguarded i)).
Proof using Type.
  intros Hinv Hprior. unfold plan_with_id, step_post, counts, count_step.
  set (is_pending := negb (unguarded i) && (reserved t <? MAX_AUTOMATIC_DECLINES_PER_24_HOURS)).
  set (row := desired_action organization ruleId rule draft i basis _ _ now).
  assert (is_pending = true → ∃ revision, Action.expected_remote_revision row = Some revision ∧ revision ≠ "") as Hguard.
  { unfold is_pending, unguarded. cbn. intros Hp. apply andb_true_iff in Hp as [Hp _].
    destruct (remote_revision i) as [[|c rev]|]; try done. eauto. }
  assert (0 <= budget_held_tally t <= held_tally t) as Hheld by apply Hinv.
  assert (∀ Q, (∀ e w', Q (Throw e) w') → (∀ w1, written id row w w1 → Q (Ok ()) w1) →
    wp (match prior with Some id => replan_action id row | None => insert_action id row end) w Q) as Hwrite.
  { intros Q Hthrow Hok. destruct Hprior as [->| ->]; [by apply replan_action_wp|by apply insert_action_wp]. }
  wp_step. apply Hwrite; [done|]. clear Hwrite. intros w1 Hw. pose proof Hw as (_ & Hru1 & Hfa1 & Hj1 & Hi1).
  pose proof (inv_issued _ _ _ _ _ _ Hinv) as Hiss. wp_step. destruct is_pending eqn:Ep.
  - apply enqueue_conflict_job_wp; [done|]. intros out w2 Hkeep Hsame Hhas Ha Hr Hf Hi. wp_step. split; [done|].
    eapply (loop_inv_written d0 reserved0 n0 planned t _ id row w w2 w1); try done.
    + lia.
    + intros Hf0 Hinj m Hm. pose proof (inv_fresh _ _ _ _ _ _ Hinv Hf0 Hinj) as Hfr.
      rewrite Hsame by (intros Heq%(inj newId); lia). rewrite Hj1. apply Hfr. lia.
    + cbn. split_and!; try done; [|by apply Hguard|].
      * unfold is_pending in Ep. bool_to_prop. done.
      * intros Hf0 Hinj. pose proof (inv_fresh _ _ _ _ _ _ Hinv Hf0 Hinj) as Hfr.
        destruct Hhas as (j & jb & Hj & Hact & Hk); [rewrite Hj1, Hi1; by apply Hfr|]. by exists j, jb.
  - wp_step. wp_step. split; [done|].
    eapply (loop_inv_written d0 reserved0 n0 planned t _ id row w w1 w1); try done.
    + lia.
    + intros Hf0 Hinj m Hm. rewrite Hj1. apply (inv_fresh _ _ _ _ _ _ Hinv Hf0 Hinj). lia.
    + cbn. destruct (negb (unguarded i)); lia.
Qed.

Lemma plan_action_wp d0 reserved0 n0 planned t basis i prior w :
  loop_inv d0 reserved0 n0 planned t w →
  wp (plan_action organization ruleId rule draft now t basis i prior) w (step_post d0 reserved0 n0 t (unguarded i)).
Proof using Type.
  intros Hinv. unfold plan_action. wp_step. destruct prior as [id|].
  - wp_step. eapply plan_with_id_wp; [done|by left].
  - wp_step. eapply plan_with_id_wp; [|by right]. eapply loop_inv_issued; [done|done|cbn; lia].
Qed.

(** A conflict that is settled is only remembered. *)
Lemma loop_inv_settled d0 reserved0 n0 planned t id a w :
  loop_inv d0 reserved0 n0 planned t w → actions d0 !! id = Some a → Action.status a = Action.applied →
  loop_inv d0 reserved0 n0 planned
    {| current_ids := current_ids t ++ [id]; pending_tally := pending_tally t; held_tally := held_tally t;
       budget_held_tally := budget_held_tally t; reserved := reserved t |} w.
Proof using Type.
  intros [Hcount Hres Hbud Hheld Hplan Hother Htab Hiss Hfresh] Ha Hs. split; try done.
  - cbn [current_ids]. intros id' a' Ha' Hin Hp. destruct (decide (id' ∈ current_ids t)) as [Hold|Hnew]; [by apply Hplan|].
    apply elem_of_app in Hin as [Hin|Hin%list_elem_of_singleton]; [done|]. subst id'.
    rewrite Hother in Ha' by done. rewrite Ha in Ha'. injection Ha' as <-. congruence.
  - cbn [current_ids]. intros id' Hid. apply Hother. set_solver.
Qed.

(** The loop, when nothing is settled: the counters. *)
Definition unsettled (existing : list (string * Action.ActionRow)) (c : WorkInvitationCandidate * list ConflictBusyInterval)
    : Prop :=
  ∀ id a, prior_of existing (observation_id c.1) = Some (id, a) → Action.status a ≠ Action.applied.

Definition counts_after (c : Z * Z * Z * Z) (conflicts : list (WorkInvitationCandidate * list ConflictBusyInterval))
    : Z * Z * Z * Z :=
  fold_left (λ c conflict, count_step (unguarded conflict.1) c) conflicts c.

Definition loop_post (d0 : ConflictDb) (reserved0 : Z) (n0 : nat) (t : Tally)
    (conflicts : list (WorkInvitationCandidate * list ConflictBusyInterval)) (r : res failure Tally) w : Prop :=
  match r with
  | Ok t' => (Forall (unsettled (actions_of organization ruleId d0)) conflicts →
                counts t' = counts_after (counts t) conflicts) ∧
             ∃ planned, loop_inv d0 reserved0 n0 planned t' w
  | Throw _ => True
  end.

Lemma reconcile_conflicts_wp d0 reserved0 n0 planned t conflicts w :
  loop_inv d0 reserved0 n0 planned t w →
  wp (reconcile_conflicts organization ruleId rule draft now (actions_of organization ruleId d0) t conflicts) w
    (loop_post d0 reserved0 n0 t conflicts).
Proof using Type.
  revert planned t w. induction conflicts as [|[i intervals] conflicts IH]; intros planned t w Hinv; cbn [reconcile_conflicts].
  { wp_step. split; [done|eauto]. }
  wp_step. unfold reconcile_conflict. do 2 wp_step. destruct (private_hash _) as [basis|e]; [|done].
  assert (∀ m : Transaction.M ConflictDb R ConflictCall Tally, wp m w (step_post d0 reserved0 n0 t (unguarded i)) →
    wp m w (λ r w', match r with
      | Ok t1 => wp (reconcile_conflicts organization ruleId rule draft now (actions_of organization ruleId d0) t1
                       conflicts) w' (loop_post d0 reserved0 n0 t ((i, intervals) :: conflicts))
      | Throw e => loop_post d0 reserved0 n0 t ((i, intervals) :: conflicts) (Throw e) w'
      end)) as Hnext.
  { intros m Hm. eapply wp_mono; [exact Hm|]. cbn beta. intros [t1|e] w1; [|done]. intros (Hc & planned1 & Hinv1).
    eapply wp_mono; [by eapply IH|]. intros [t2|e] w2; [|done]. intros [Hcounts Hex]. split; [|done].
    intros [_ Hun]%Forall_cons. rewrite Hcounts by done. cbn. by rewrite Hc. }
  destruct (prior_of (actions_of organization ruleId d0) (observation_id i)) as [[id a]|] eqn:Hprior;
    [|apply Hnext; by eapply plan_action_wp].
  destruct (is_settled rule draft i basis a) eqn:Hset; [|apply Hnext; by eapply plan_action_wp].
  wp_step. pose proof Hprior as [[Ha _]%elem_of_actions_of _]%prior_of_elem. unfold is_settled in Hset. bool_to_prop.
  eapply wp_mono; [by eapply IH, loop_inv_settled|]. intros [t2|e] w2; [|done].
  intros [Hcounts Hex]. split; [|done]. intros [Hun _]%Forall_cons. by destruct (Hun id a Hprior).
Qed.

(** The counters in closed form. *)
Lemma counts_after_spec p h b r conflicts :
  let guarded := Z.of_nat (length (List.filter (λ c, negb (unguarded c.1)) conflicts)) in
  let planned := Z.min guarded (Z.max 0 (MAX_AUTOMATIC_DECLINES_PER_24_HOURS - r)) in
  counts_after (p, h, b, r) conflicts =
    (p + planned, h + (Z.of_nat (length conflicts) - planned), b + (guarded - planned), r + planned).
Proof using Type.
  unfold counts_after, MAX_AUTOMATIC_DECLINES_PER_24_HOURS.
  revert p h b r. induction conflicts as [|[i intervals] cs IH]; intros p h b r; cbn [fold_left List.filter length fst].
  { cbn. rewrite !pair_eq. lia. }
  assert (count_step (unguarded i) (p, h, b, r) = if negb (unguarded i) && (r <? 20) then (p + 1, h, b, r + 1)
    else (p, h + 1, b + (if negb (unguarded i) then 1 else 0), r)) as -> by done.
  destruct (negb (unguarded i)); cbn [andb length]; [destruct (r <? 20) eqn:E; bool_to_prop|];
    rewrite IH; cbn zeta; rewrite !pair_eq; lia.
Qed.

(** The transaction has found the rule as the reconciliation had read it. *)
Definition unmoved (d : ConflictDb) (current : Rule.RuleRow) : Prop :=
  rules d !! ruleId = Some current ∧ Rule.organization current = organization ∧
  Rule.status current = Rule.active ∧ Rule.revision current = Rule.revision rule.

(** What the transaction commits, with the final counters [t]. *)
Record committed (d : ConflictDb) (n : nat) (conflicts : list (WorkInvitationCandidate * list ConflictBusyInterval))
    (current : Rule.RuleRow) (t : Tally) (d' : ConflictDb) : Prop := {
  commit_counts : Forall (unsettled (actions_of organization ruleId d)) conflicts →
    counts t = counts_after (0, 0, 0, countRecentAppliedDeclines d organization (Rule.response_identity rule) now) conflicts;
  commit_budget : Z.of_nat (length (pending_of organization ruleId d')) <=
    Z.max 0 (MAX_AUTOMATIC_DECLINES_PER_24_HOURS
             - countRecentAppliedDeclines d organization (Rule.response_identity rule) now);
  commit_pending : ∀ id a, actions d' !! id = Some a → Action.organization a = organization → Action.rule a = ruleId →
    Action.status a = Action.pending → Action.rule_revision a = Rule.revision rule ∧
    (∃ revision, Action.expected_remote_revision a = Some revision ∧ revision ≠ "") ∧
    (fresh_job_ids n d → Inj (=) (=) newId → has_job organization id a d');
  commit_facts : facts d' = facts d ++
    (if (0 <? pending_tally t) || (0 <? held_tally t)
     then [reconciled_fact organization ruleId (Rule.hash current) t now] else []);
}.

Lemma no_tally_inv w :
  loop_inv (db w) (countRecentAppliedDeclines (db w) organization (Rule.response_identity rule) now) (issued w) []
    (no_tally (countRecentAppliedDeclines (db w) organization (Rule.response_identity rule) now)) w.
Proof using Type.
  split; cbn; try done; try lia.
  intros id a _ []%elem_of_nil.
Qed.

(** Superseding what is not current. *)
Lemma stale_lookup selects f d id :
  actions (with_actions (map_imap (λ id a, Some
    (if bool_decide (Action.organization a = organization) && bool_decide (Action.rule a = ruleId) && selects id a
     then f a else a))) d) !! id =
  (λ a : Action.ActionRow, if bool_decide (Action.organization a = organization) && bool_decide (Action.rule a = ruleId)
     && selects id a then f a else a) <$> actions d !! id.
Proof using Type. cbn. rewrite map_lookup_imap. by destruct (actions d !! id). Qed.

Lemma commit_conflicts_wp conflicts w :
  wp (commit_conflicts organization ruleId rule draft conflicts now) w (λ r w',
    match r with
    | Throw _ => db w' = db w
    | Ok _ => (db w' = db w ∧ ∀ current, ¬ unmoved (db w) current) ∨
              ∃ current t, unmoved (db w) current ∧ committed (db w) (issued w) conflicts current t (db w')
    end).
Proof using Type.
  unfold commit_conflicts. do 3 wp_step. destruct (rules (db w) !! ruleId) as [current|] eqn:Hcur.
  2: { wp_step. left. split; [done|]. intros current [? _]. congruence. }
  destruct (_ && _ && _) eqn:Hun.
  2: { wp_step. left. split; [done|]. intros current' (Hc & Ho & Hs & Hr). rewrite Hcur in Hc. injection Hc as <-.
       by rewrite Ho, Hs, Hr, !bool_decide_eq_true_2, Z.eqb_refl in Hun. }
  bool_to_prop. assert (unmoved (db w) current) as Hunmoved by done.
  do 4 wp_step. wp_step. eapply wp_mono; [eapply reconcile_conflicts_wp, no_tally_inv|].
  intros [t|e] w1; [|done]. intros (Hcounts & planned & Hinv). destruct Hinv as [Hlen Hres Hbud Hheld Hplan Hother [Hru Hfa] Hiss Hfr].
  unfold update_actions_of. wp_step. wp_step. wp_step.
  eapply update_rule_wp; [cbn; by rewrite Hru|done|].
  set (stale := λ id a, (bool_decide (Action.status a = Action.pending) || bool_decide (Action.status a = Action.held))
                  && negb (includes (current_ids t) id)).
  assert (∀ id a d2, actions d2 = actions (with_actions (map_imap (λ id a, Some
    (if bool_decide (Action.organization a = organization) && bool_decide (Action.rule a = ruleId) && stale id a
     then mark_action Action.superseded (λ t, t) "conflict_no_longer_present" now a else a))) (db w1)) →
    actions d2 !! id = Some a → Action.organization a = organization → Action.rule a = ruleId →
    Action.status a = Action.pending → actions (db w1) !! id = Some a ∧ id ∈ current_ids t) as Hstale.
  { intros id a d2 -> Ha Ho Hr Hs. rewrite stale_lookup in Ha. apply fmap_Some in Ha as (b & Hb & ->).
    destruct (bool_decide (Action.organization b = organization) && bool_decide (Action.rule b = ruleId)) eqn:E;
      cbn [andb] in *; [|bool_to_prop; by rewrite Ho, Hr, !bool_decide_eq_true_2 in E].
    destruct (stale id b) eqn:Est; [done|]. split; [done|]. unfold stale in Est.
    rewrite Hs, bool_decide_eq_true_2 in Est by done. cbn [orb andb] in Est.
    by apply negb_false_iff, includes_spec in Est. }
  assert (∀ d2 w2, db w2 = d2 → actions d2 = actions (with_actions (map_imap (λ id a, Some
    (if bool_decide (Action.organization a = organization) && bool_decide (Action.rule a = ruleId) && stale id a
     then mark_action Action.superseded (λ t, t) "conflict_no_longer_present" now a else a))) (db w1)) →
    conflict_jobs d2 = conflict_jobs (db w1) →
    facts d2 = facts (db w) ++ (if (0 <? pending_tally t) || (0 <? held_tally t)
      then [reconciled_fact organization ruleId (Rule.hash current) t now] else []) →
    committed (db w) (issued w) conflicts current t d2) as Hcommit.
  { intros d2 w2 Hdb Hact Hjobs Hfacts. split; [done| | |done].
    - assert (pending_of organization ruleId d2 ⊆+ planned) as Hsub.
      { apply NoDup_submseteq; [apply NoDup_pending_of|]. intros id (a & Ha & Ho & Hr & Hs)%elem_of_pending_of.
        destruct (Hstale id a d2 Hact Ha Ho Hr Hs) as [Ha1 Hid]. by destruct (Hplan id a Ha1 Hid Hs). }
      apply submseteq_length in Hsub. lia.
    - intros id a Ha Ho Hr Hs. destruct (Hstale id a d2 Hact Ha Ho Hr Hs) as [Ha1 Hid].
      destruct (Hplan id a Ha1 Hid Hs) as (_ & ? & ? & Hjob). split_and!; [done..|].
      intros Hf Hinj. destruct (Hjob Hf Hinj) as (j & jb & ? & ? & ?). exists j, jb. by rewrite Hjobs. }
  destruct ((0 <? pending_tally t) || (0 <? held_tally t)) eqn:Ef.
  - unfold record_fact. repeat wp_step. right. exists current, t. split; [done|]. eapply (Hcommit _ _ eq_refl); try done.
    cbn. by rewrite Hfa.
  - wp_step. right. exists current, t. split; [done|]. eapply (Hcommit _ _ eq_refl); try done.
    cbn. by rewrite Hfa, app_nil_r.
Qed.
End reconcile.

Section whole.
Context {R : Type} `{ConflictProvider R} `{NewId} `{Unicode} `{Digest} `{PrivateKey} `{Uuids}.
Context (organization ruleId : string) (now : Z).
Implicit Types w : Transaction.World ConflictDb R ConflictCall.

Lemma recordRuleFailure_wp error w :
  wp (recordRuleFailure organization ruleId error now) w (λ r w',
    db w' = db w ∨ pending_of organization ruleId (db w') = []).
Proof using Type.
  unfold recordRuleFailure. do 3 wp_step. destruct (rules (db w) !! ruleId) as [rule|] eqn:Hrule; [|wp_step; by left].
  destruct (_ && _) eqn:Hact; [|wp_step; by left]. bool_to_prop. wp_step.
  unfold markRuleError. eapply update_rule_wp; [done..|]. unfold update_actions_of. wp_step. right.
  apply elem_of_nil_inv. intros id (a & Ha & Ho & Hr & Hs)%elem_of_pending_of. cbn [db] in Ha.
  rewrite (stale_lookup organization ruleId (λ _ a, bool_decide (Action.status a = Action.pending))) in Ha.
  apply fmap_Some in Ha as (b & _ & ->).
  destruct (bool_decide (Action.organization b = organization) && bool_decide (Action.rule b = ruleId)) eqn:E;
    cbn [andb] in *; [|bool_to_prop; by rewrite Ho, Hr, !bool_decide_eq_true_2 in E].
  destruct (bool_decide (Action.status b = Action.pending)) eqn:Eb; [done|]. by bool_to_prop.
Qed.

Definition within_budget (rule : Rule.RuleRow) (d d' : ConflictDb) : Prop :=
  d' = d ∨ Z.of_nat (length (pending_of organization ruleId d')) <=
             Z.max 0 (20 - countRecentAppliedDeclines d organization (Rule.response_identity rule) now).

Lemma reconcile_wp interleave rule w :
  rules (db w) !! ruleId = Some rule →
  wp (reconcile interleave organization ruleId now) w (λ _ w',
    ∃ d, d ∈ [db w; interleave (db w)] ∧ within_budget rule d (db w')).
Proof using Type.
  intros Hrule. unfold reconcile. do 2 wp_step. rewrite Hrule.
  assert (∀ e w1 d, db w1 = d → d ∈ [db w; interleave (db w)] → wp (recordRuleFailure organization ruleId e now) w1
    (λ _ w', ∃ d, d ∈ [db w; interleave (db w)] ∧ within_budget rule d (db w'))) as Hfail.
  { intros e w1 d Hd Hin. eapply wp_mono; [apply recordRuleFailure_wp|]. cbn beta. intros r w2 Hor. exists d.
    split; [done|]. destruct Hor as [Hd2|Hnil]; [left; by rewrite Hd2|right; rewrite Hnil; cbn; lia]. }
  destruct (_ && _); [|wp_step; exists (db w); split; [in_list|by left]].
  destruct (parseConflictResponseDraft (Rule.document rule)) as [draft|e]; [|apply (Hfail _ _ (db w)); [done|in_list]].
  do 2 wp_step. eapply wp_mono; [apply prepare_wp|]. cbn beta. intros prepared w1 ((tr & from & until & [Hdb _] & _) & _).
  do 2 wp_step. rewrite Hdb. destruct prepared as [prepared|e].
  - eapply wp_mono; [apply commit_conflicts_wp|]. cbn [db]. intros [u|e] w2 Hcommit; exists (interleave (db w));
      (split; [in_list|]); [|by left].
    destruct Hcommit as [[-> _]|(current & t & _ & Hc)]; [by left|right]. apply Hc.
  - wp_step. eapply wp_mono; [by apply (Hfail _ _ (interleave (db w))); [done|in_list]|]. cbn beta.
    intros [u|e'] w2 Hd; [|done]. by destruct (isRetryable e); wp_step.
Qed.
(** C24. A reconciliation keeps the rule within the budget: whatever other
    transactions did meanwhile and whether or not it fails, it either changes
    nothing, or leaves at most as many pending actions of the rule as the
    twenty automatic declines of a day allow after those the provider
    confirmed in the last twenty-four hours. *)
Theorem reconcile_within_budget interleave w result w' rule :
  rules (db w) !! ruleId = Some rule → reconcile interleave organization ruleId now w = (result, w') →
  ∃ d, d ∈ [db w; interleave (db w)] ∧
    (db w' = d ∨
     Z.of_nat (length (pending_of organization ruleId (db w'))) <=
       Z.max 0 (20 - countRecentAppliedDeclines d organization (Rule.response_identity rule) now)).
Proof using Type. intros Hrule Hrun. exact (wp_run _ _ _ _ _ (reconcile_wp interleave rule w Hrule) Hrun). Qed.
End whole.

Section commit.
Context {R : Type} `{ConflictProvider R} `{NewId} `{Unicode} `{Digest} `{PrivateKey}.
Context (organization ruleId : string) (rule : Rule.RuleRow) (draft : ConflictResponseDraft) (now : Z).
Implicit Types w : Transaction.World ConflictDb R ConflictCall.


End commit.

(** ** Examples *)

Module Samples.
Import ConflictInputs.Samples ConflictResponse.Examples.
#[local] Existing Instance ConflictResponse.Examples.sample_uuids.

Definition overlap : list (string * string) := [("2026-10-25T08:30:00Z", "2026-10-25T09:00:00Z")].
#[export] Instance busy_morning : ConflictProvider () := reports overlap.
#[export] Instance ids : NewId := {| newId n := "id-" +:+ pretty (N.of_nat n) |}.
#[export] Instance text_digest : Digest := {| sha256_hex s := s |}.
#[export] Instance key : PrivateKey := {| hmac_hex s := s |}.

Definition calendar_row (connection remote : string) (writable : bool) : Calendar.CalendarRow :=
  {| Calendar.organization := "org"; Calendar.connection := connection; Calendar.remote_id := remote;
     Calendar.name := remote; Calendar.readable := true; Calendar.writable := writable;
     Calendar.capabilities := JNull |}.
Definition account (role : string) : Account.AccountRow :=
  {| Account.provider := "fake"; Account.scopes := JNull; Account.status := "active"; Account.intended_role := role |}.

Definition rule_row : Rule.RuleRow :=
  {| Rule.organization := "org"; Rule.owner := "me"; Rule.response_calendar := "work";
     Rule.response_identity := providerCalendarIdentity "fake" "a0" "work"; Rule.status := Rule.active;
     Rule.revision := 1; Rule.document := draft_document rule; Rule.hash := "rule-hash";
     Rule.last_evaluated_at := None; Rule.last_success_at := None; Rule.safe_error_code := None;
     Rule.updated_at := 0 |}.

Definition action_row : Action.ActionRow :=
  {| Action.organization := "org"; Action.rule := "rule"; Action.rule_revision := 1;
     Action.response_calendar := "work"; Action.work_observation := "o1"; Action.remote_event := "event";
     Action.recurrence_identity := ""; Action.work_observation_hash := "h1"; Action.conflict_basis_hash := "basis";
     Action.expected_remote_revision := Some "r1"; Action.desired_comment := "Sorry";
     Action.status := Action.pending; Action.remote_revision := None; Action.last_attempt_at := None;
     Action.last_success_at := None; Action.safe_error_code := None; Action.updated_at := 0 |}.

Definition work_row : Work.WorkRow :=
  {| Work.organization := "org"; Work.calendar := "work"; Work.remote_event := "event";
     Work.recurrence_identity := ""; Work.remote_etag := Some "r1"; Work.observation_hash := "h1";
     Work.event := Some meeting; Work.managed_copy := false; Work.tombstone := false |}.

Definition cursor_row : Cursor.CursorRow :=
  {| Cursor.organization := "org"; Cursor.calendar := "work";
     Cursor.fingerprint := match calendarSyncQueryFingerprint "fake" "work" with Ok h => h | Throw _ => "" end;
     Cursor.state := Cursor.ready; Cursor.last_success_at := Some october |}.

Definition office (waiting : gmap string Action.ActionRow) : ConflictDb :=
  {| calendars := list_to_map [("work", calendar_row "a0" "work" true); ("home", calendar_row "a1" "home" false);
                               ("kids", calendar_row "a2" "kids" false)];
     accounts := list_to_map [("a0", account "both"); ("a1", account "availability"); ("a2", account "availability")];
     observations := {["o1" := work_row]}; bridges := ∅; cursors := {["c1" := cursor_row]}; previews := ∅;
     rules := {["rule" := rule_row]}; rule_availability := []; actions := waiting; facts := []; conflict_jobs := ∅ |}.

Definition due : ConflictDb := office {["act" := action_row]}.

Lemma owned_due : owned due.
Proof.
  intros id a r Ha Hr. cbn [due office actions rules] in Ha, Hr.
  apply lookup_singleton_Some in Ha as [<- <-]. by apply lookup_singleton_Some in Hr as [_ <-].
Qed.

Definition after_apply : res failure () * Transaction.World ConflictDb () ConflictCall :=
  apply true "org" "act" "basis" october october (world due).

Definition decline_call : ConflictCall :=
  DeclineInvitation "work" "event" "r1" "Sorry"
    (Ok {| decline_revision := "r2"; comment_retained := true; decline_changed := true |}).

Lemma declines_are_justified_witness :
  after_apply.1 = Ok () ∧
  ∃ a r draft response availability i tr,
    calls after_apply.2 = tr ++ [decline_call] ∧
    justified "org" "act" october due "basis" a r draft response availability i "r1" tr.
Proof.
  split; [vm_compute; reflexivity|].
  destruct (declines_are_justified "org" "act" october october true "basis" (world due) (Ok ()) after_apply.2
    "work" "event" "r1" "Sorry" (Ok {| decline_revision := "r2"; comment_retained := true; decline_changed := true |}))
    as (_ & a & r & draft & response & availability & i & tr & Hc & _ & Hj & _).
  - exact owned_due.
  - vm_compute. reflexivity.
  - vm_compute. repeat first [apply list_elem_of_here | apply list_elem_of_further].
  - exists a, r, draft, response, availability, i, tr. split; [exact Hc|exact Hj].
Defined.

Lemma confirmed_declines_are_recorded_witness :
  (Action.status <$> actions (db after_apply.2) !! "act") = Some Action.applied ∧
  (db after_apply.2 = due ∨
   ∃ a r, load_action "org" "act" due = Some (a, r) ∧ is_due "basis" a r = true).
Proof.
  split; [vm_compute; reflexivity|].
  assert (apply true "org" "act" "basis" october october (world due) = (Ok (), after_apply.2)) as Hrun
    by (vm_compute; reflexivity).
  destruct (confirmed_declines_are_recorded "org" "act" october october true "basis" (world due) (Ok ()) after_apply.2
    owned_due Hrun) as [Hrec|(a & r & Hload & Hdue & _)].
  - left. exact Hrec.
  - right. exists a, r. split; [exact Hload|exact Hdue].
Defined.

Lemma selection_is_authorised_witness :
  ∃ response availability,
    loadConflictCalendarSelection due "org" rule = Ok (response, availability) ∧ may_respond response ∧
    map binding_id availability ≡ₚ ["home"; "kids"].
Proof.
  eexists _, _. split; [vm_compute; reflexivity|].
  edestruct (selection_is_authorised due "org" rule) as (_ & _ & Hmay & Hids & _); [vm_compute; reflexivity|].
  split; [exact Hmay|exact Hids].
Defined.

Lemma ids_differ : Inj (=) (=) newId.
Proof. intros n m Heq. cbn in Heq. by apply (inj (String.append "id-")), (inj pretty), (inj N.of_nat) in Heq. Qed.

Definition reconciled : res failure () * Transaction.World ConflictDb () ConflictCall :=
  reconcile (λ d, d) "org" "rule" october (world (office ∅)).

Lemma reconcile_within_budget_witness :
  pending_of "org" "rule" (db reconciled.2) = ["id-0"] ∧
  (db reconciled.2 = office ∅ ∨ Z.of_nat (length (pending_of "org" "rule" (db reconciled.2))) <= 20).
Proof.
  split; [vm_compute; reflexivity|].
  destruct (reconcile_within_budget "org" "rule" october (λ d, d) (world (office ∅)) reconciled.1 reconciled.2 rule_row)
    as (d & Hd & Hbudget); [reflexivity|vm_compute; reflexivity|].
  assert (d = office ∅) as ->.
  { apply elem_of_cons in Hd as [Hd|Hd]; [exact Hd|]. apply list_elem_of_singleton in Hd. exact Hd. }
  destruct Hbudget as [Hsame|Hless]; [left; exact Hsame|right]. revert Hless. vm_compute. intros Hless. exact Hless.
Defined.

Definition taken : list ConflictBusyInterval :=
  [{| busy_calendar := "home"; busy_start := "2026-10-25T08:30:00.000Z"; busy_end := "2026-10-25T09:00:00.000Z" |}].

Definition committed_run : res failure () * Transaction.World ConflictDb () ConflictCall :=
  commit_conflicts "org" "rule" rule_row rule (conflicts_of [invitation] taken) october (world (office ∅)).

Lemma unmoved_office : unmoved "org" "rule" rule_row (office ∅) rule_row.
Proof. split_and!; vm_compute; reflexivity. Qed.

Lemma committed_Ok : committed_run = (Ok (), committed_run.2).
Proof. vm_compute. reflexivity. Qed.


End Samples.
