(* ===== verification/ConflictService.v ===== *)
(** * Conflict response: the commands of the owner

    [server/src/conflict-response/service.ts]: the preview of a rule, its
    activation, pause, resumption and removal, and the request of a
    reconciliation. The listing of rules for the user interface is not
    modelled.

    Activation, resumption and removal select the calendars of the rule, wait
    for the locks of [Locks] and then decide; what the database was before the
    wait is the argument [seen]. *)

From S2P Require Import Prelude Canonical Locks Types Dates Text Jobs Transaction Policies Store NoCopy ConflictResponse ConflictInputs ConflictCoordinator.
From stdpp Require Import options.
Open Scope Z_scope.

Definition PREVIEW_LIFETIME_MILLISECONDS : Z := 10 * 60000.
Definition MAX_ACTIVE_PREVIEWS_PER_PRINCIPAL : nat := 10.

Record ConflictResponseCapabilities := { providerWritesEnabled : bool; messageDelivery : string }.

Record ConflictResponsePreviewDocument := {
  preview_result : ConflictResponsePreviewResult;
  preview_token : string;
  preview_expires_at : string;
  provider_writes_enabled : bool;
  message_delivery : string;
}.

(** What [activate] and [setPaused] lock. *)
Definition selection_locks (response : ConflictCalendarBinding) (availability : list ConflictCalendarBinding)
    (draft : ConflictResponseDraft) : list string :=
  ("response-provider:" +:+ binding_identity response) :: response_calendar_id draft :: availability_calendars draft
  ++ map (λ c, providerCalendarProtectionKey (binding_identity c)) availability.

(** What [remove] locks. *)
Definition rule_locks (rule : Rule.RuleRow) (availability : list Availability.AvailabilityRow) : list string :=
  ("response-provider:" +:+ Rule.response_identity rule) :: Rule.response_calendar rule
  :: map Availability.calendar availability
  ++ map (λ row, providerCalendarProtectionKey (Availability.identity row)) availability.

Definition rule_key (organization ruleId : string) (revision : Z) : JobKey :=
  {| organization_id := organization; job_kind := RECONCILE_KIND;
     dedupe_key := "conflict-response-rule:" +:+ ruleId +:+ ":revision:" +:+ pretty revision |}.

Definition rule_fact (organization : string) (actor : Actor) (action ruleId reasonCode : string)
    (before after : option string) (detail : list (string * json)) (now : Z) : Audit.AuditFact :=
  {| Audit.organization := organization; Audit.principal := Some (principal actor); Audit.actor_kind := actor_kind actor;
     Audit.action := action; Audit.target_type := "conflict_response_rule"; Audit.target := ruleId;
     Audit.reason_code := reasonCode; Audit.before_hash := before; Audit.after_hash := after;
     Audit.detail := auditActorDetail detail actor; Audit.created_at := now |}.

Definition rule_status_text (status : Rule.RuleStatus) : string :=
  match status with Rule.active => "active" | Rule.paused => "paused" | Rule.deleted => "deleted" end.

Definition is_live (r : Rule.RuleRow) : bool := negb (bool_decide (Rule.status r = Rule.deleted)).

(** The row [id] of the organisation, unless it is deleted. *)
Definition live_rule (organization id : string) (d : ConflictDb) : option Rule.RuleRow :=
  r ← rules d !! id;
  if bool_decide (Rule.organization r = organization) && is_live r then Some r else None.

Definition input_error (code : string) : failure := coded_failure code false.

Section service.
Context {R : Type} `{ConflictProvider R} `{NewId} `{Unicode} `{Digest} `{PrivateKey} `{Uuids}.
Local Notation M := (Transaction.M ConflictDb R ConflictCall).

Definition requireLocalId (value : string) : res failure () := guard_input (negb (validateUuid value)) "invalid_request" false.

(** ** Preview *)

Definition active_previews (organization principal : string) (now : Z) (d : ConflictDb) : nat :=
  length (List.filter (λ row, bool_decide (Preview.organization row.2 = organization)
    && bool_decide (Preview.principal row.2 = principal) && bool_decide (Preview.consumed_at row.2 = None)
    && (now <? Preview.expires_at row.2)) (map_to_list (previews d))).

Definition insert_preview (id : string) (row : Preview.PreviewRow) : M () :=
  taken ← read_db (λ d, bool_decide (is_Some (previews d !! id)));
  if taken : bool then throw (unique_violation "conflict_response_previews_pkey")
  else write_db (with_previews (λ t, <[id := row]> t)).

Definition capability_warnings (capabilities : ConflictResponseCapabilities) : list string :=
  (if negb (providerWritesEnabled capabilities) then ["invitation_writes_disabled"] else [])
  ++ (if (messageDelivery capabilities =? "unverified_google")%string then ["decline_message_delivery_unverified"] else []).

(** [interleave] is what other transactions do while the provider is asked. The
    result document of the row is not read again, and is left out. *)
Definition preview (capabilities : ConflictResponseCapabilities) (interleave : ConflictDb → ConflictDb)
    (organization principal : string) (input : json) (now : Z) : M ConflictResponsePreviewDocument :=
  count ← read_db (active_previews organization principal now);
  _ ← lift (guard_input (MAX_ACTIVE_PREVIEWS_PER_PRINCIPAL <=? count)%nat "preview_rate_limited" false);
  draft ← lift (input_failure (parseConflictResponseDraft input));
  prepared ← prepareConflictResponseInput organization draft now;
  _ ← write_db interleave;
  id ← fresh_id;
  draftHash ← lift (hash (draft_document draft));
  let expiresAt := now + PREVIEW_LIFETIME_MILLISECONDS in
  _ ← insert_preview id
    {| Preview.organization := organization; Preview.principal := principal; Preview.draft := draft_document draft;
       Preview.draft_hash := draftHash; Preview.snapshot_hash := prepared_snapshot prepared;
       Preview.reference_at := now; Preview.expires_at := expiresAt; Preview.consumed_at := None |};
  mret {| preview_result := add_warnings (capability_warnings capabilities) (prepared_result prepared);
          preview_token := id; preview_expires_at := toISOString expiresAt;
          provider_writes_enabled := providerWritesEnabled capabilities;
          message_delivery := messageDelivery capabilities |}.

(** ** Activation *)

Definition own_preview (organization principal id : string) (d : ConflictDb) : option Preview.PreviewRow :=
  p ← previews d !! id;
  if bool_decide (Preview.organization p = organization) && bool_decide (Preview.principal p = principal)
  then Some p else None.

Definition has_response_rule (organization identity : string) (d : ConflictDb) : bool :=
  existsb (λ row, bool_decide (Rule.organization row.2 = organization)
    && bool_decide (Rule.response_identity row.2 = identity) && is_live row.2) (map_to_list (rules d)).

(** [insert into conflict_response_rules], with its unique indexes. *)
Definition insert_rule (id : string) (row : Rule.RuleRow) : M () :=
  taken ← read_db (λ d, bool_decide (is_Some (rules d !! id)));
  same_identity ← read_db (has_response_rule (Rule.organization row) (Rule.response_identity row));
  same_calendar ← read_db (λ d, existsb (λ row', bool_decide (Rule.organization row'.2 = Rule.organization row)
    && bool_decide (Rule.response_calendar row'.2 = Rule.response_calendar row) && is_live row'.2) (map_to_list (rules d)));
  if taken : bool then throw (unique_violation "conflict_response_rules_pkey")
  else if same_calendar : bool then throw (unique_violation "conflict_response_rules_one_live_response_idx")
  else if same_identity : bool then throw (unique_violation "conflict_response_rules_one_live_provider_idx")
  else write_db (with_rules (λ t, <[id := row]> t)).

Definition isLiveResponseRuleUniquenessError (error : failure) : bool :=
  match error with
  | unique_violation constraint =>
      (constraint =? "conflict_response_rules_one_live_response_idx")%string
      || (constraint =? "conflict_response_rules_one_live_provider_idx")%string
  | _ => false
  end.

(** [insert into conflict_response_availability_calendars]: a calendar, and a
    provider calendar, at most once for a rule. *)
Definition insert_availability (row : Availability.AvailabilityRow) : M () :=
  taken ← read_db (λ d, existsb (λ row', bool_decide (Availability.rule row' = Availability.rule row)
    && (bool_decide (Availability.calendar row' = Availability.calendar row)
        || bool_decide (Availability.identity row' = Availability.identity row))) (rule_availability d));
  if taken : bool then throw (unique_violation "conflict_response_availability_calendars_pkey")
  else write_db (with_availability row).

Definition availability_row (organization ruleId : string) (c : ConflictCalendarBinding) : Availability.AvailabilityRow :=
  {| Availability.organization := organization; Availability.rule := ruleId; Availability.calendar := binding_id c;
     Availability.identity := binding_identity c |}.

Fixpoint insert_availabilities (organization ruleId : string) (cs : list ConflictCalendarBinding) : M () :=
  match cs with
  | [] => mret ()
  | c :: cs => _ ← insert_availability (availability_row organization ruleId c); insert_availabilities organization ruleId cs
  end.

Definition consume_preview (id : string) (now : Z) : M () :=
  row ← read_db (λ d, previews d !! id);
  match row with
  | Some p => write_db (with_previews (λ t, <[id :=
      {| Preview.organization := Preview.organization p; Preview.principal := Preview.principal p;
         Preview.draft := Preview.draft p; Preview.draft_hash := Preview.draft_hash p;
         Preview.snapshot_hash := Preview.snapshot_hash p; Preview.reference_at := Preview.reference_at p;
         Preview.expires_at := Preview.expires_at p; Preview.consumed_at := Some now |}]> t))
  | None => throw no_result
  end.

Definition has_started (now : Z) (conflict : WorkInvitationCandidate * list ConflictBusyInterval) : bool :=
  match Date_parse (start_at conflict.1) with Some t => t <=? now | None => false end.

Definition new_rule (organization principal : string) (draft : ConflictResponseDraft) (identity ruleHash : string) (now : Z)
    : Rule.RuleRow :=
  {| Rule.organization := organization; Rule.owner := principal; Rule.response_calendar := response_calendar_id draft;
     Rule.response_identity := identity; Rule.status := Rule.active; Rule.revision := 1;
     Rule.document := draft_document draft; Rule.hash := ruleHash; Rule.last_evaluated_at := None;
     Rule.last_success_at := None; Rule.safe_error_code := None; Rule.updated_at := now |}.

(** The preview, when it may still be confirmed, and its draft. *)
Definition confirmable (organization principal previewId : string) (now : Z) (d : ConflictDb)
    : res failure (Preview.PreviewRow * ConflictResponseDraft) :=
  let stale := input_error "preview_stale" in
  p ← otherwise (own_preview organization principal previewId d) stale;
  _ ← guard_input (bool_decide (is_Some (Preview.consumed_at p)) || (Preview.expires_at p <=? now)) "preview_stale" false;
  draft ← input_failure (parseConflictResponseDraft (Preview.draft p));
  draftHash ← hash (draft_document draft);
  _ ← guard_input (negb (draftHash =? Preview.draft_hash p)%string) "preview_stale" false;
  Ok (p, draft).

(** The rows of a new rule. *)
Definition create_rule (organization : string) (actor : Actor) (previewId ruleId ruleHash : string)
    (draft : ConflictResponseDraft) (response : ConflictCalendarBinding) (availability : list ConflictCalendarBinding)
    (prepared : Prepared) (now : Z) : M () :=
  _ ← insert_rule ruleId (new_rule organization (principal actor) draft (binding_identity response) ruleHash now);
  _ ← insert_availabilities organization ruleId availability;
  _ ← consume_preview previewId now;
  _ ← enqueue_conflict_job (rule_key organization ruleId 1) [("rule_id", JString ruleId)] now;
  record_fact (rule_fact organization actor "conflict_response_rule.activated" ruleId "preview_confirmed" None
    (Some ruleHash) [("invitation_count", int (invitation_count (prepared_result prepared)));
      ("conflict_count", int (conflict_count (prepared_result prepared)));
      ("availability_calendar_count", int (Z.of_nat (length (availability_calendars draft)))); ("no_copy", JBool true)] now).

Definition activate (capabilities : ConflictResponseCapabilities) (seen : ConflictDb) (organization : string)
    (actor : Actor) (previewId : string) (now : Z) : M string :=
  _ ← lift (requireLocalId previewId);
  _ ← lift (guard_input (negb (providerWritesEnabled capabilities)) "invitation_writes_disabled" false);
  try_catch (transaction (
    confirmed ← from_db (confirmable organization (principal actor) previewId now);
    let '(p, draft) := confirmed in
    selection ← lift (loadConflictCalendarSelection seen organization draft);
    let '(response, availability) := selection in
    existing ← read_db (has_response_rule organization (binding_identity response));
    _ ← lift (guard_input existing "response_rule_conflict" false);
    prepared ← prepareConflictResponseInput organization draft (Preview.reference_at p);
    _ ← lift (guard_input (negb (prepared_snapshot prepared =? Preview.snapshot_hash p)%string) "preview_stale" false);
    _ ← lift (guard_input (existsb (has_started now) (prepared_conflicts prepared)) "preview_stale" false);
    ruleId ← fresh_id;
    ruleHash ← lift (hash (draft_document draft));
    _ ← create_rule organization actor previewId ruleId ruleHash draft response availability prepared now;
    mret ruleId))
  (λ error, if isLiveResponseRuleUniquenessError error then throw (input_error "response_rule_conflict") else throw error).

(** ** Commands on a rule *)

(** [seen] is read before the locks, the bridges after. *)
Definition check_resumption (seen : ConflictDb) (organization : string) (rule : Rule.RuleRow) : M () :=
  draft ← lift (input_failure (parseConflictResponseDraft (Rule.document rule)));
  selection ← lift (loadConflictCalendarSelection seen organization draft);
  _ ← from_db (λ d, requireNoCopyPolicies d organization selection.2);
  mret ().

Definition setPaused (capabilities : ConflictResponseCapabilities) (seen : ConflictDb) (organization : string)
    (actor : Actor) (id : string) (paused : bool) (now : Z) : M () :=
  _ ← lift (requireLocalId id);
  _ ← lift (guard_input (negb paused && negb (providerWritesEnabled capabilities)) "invitation_writes_disabled" false);
  transaction (
    row ← read_db (live_rule organization id);
    rule ← lift (otherwise row (input_error "not_found"));
    _ ← (if paused then mret () else check_resumption seen organization rule);
    let nextStatus := if paused then Rule.paused else Rule.active in
    _ ← update_rule organization id (mark_rule (Some nextStatus) None None None now);
    _ ← (if paused
         then update_actions_of organization id (λ _ a, bool_decide (Action.status a = Action.pending))
                (mark_action Action.held (λ t, t) "rule_paused" now)
         else _ ← enqueue_conflict_job (rule_key organization id (Rule.revision rule)) [("rule_id", JString id)] now;
              mret ());
    record_fact (rule_fact organization actor
      (if paused then "conflict_response_rule.paused" else "conflict_response_rule.resumed") id "user_command"
      (Some (Rule.hash rule)) (Some (Rule.hash rule))
      [("previous_status", JString (rule_status_text (Rule.status rule))); ("status", JString (rule_status_text nextStatus))]
      now)).

Definition requestReconcile (organization id : string) (actor : Actor) (now : Z) : M (option string) :=
  _ ← lift (requireLocalId id);
  transaction (
    row ← read_db (live_rule organization id);
    rule ← lift (otherwise row (input_error "not_found"));
    _ ← lift (guard_input (negb (bool_decide (Rule.status rule = Rule.active))) "rule_paused" false);
    job ← enqueue_conflict_job (rule_key organization id (Rule.revision rule)) [("rule_id", JString id)] now;
    _ ← record_fact (rule_fact organization actor "conflict_response_rule.reconcile_requested" id "user_command"
          (Some (Rule.hash rule)) (Some (Rule.hash rule))
          [("enqueued", JBool (match job with Some _ => true | None => false end))] now);
    mret job).

(** The rows read before the locks of [rule_locks] decide nothing else. *)
Definition remove (organization : string) (actor : Actor) (id : string) (now : Z) : M () :=
  _ ← lift (requireLocalId id);
  transaction (
    row ← read_db (λ d, r ← rules d !! id; if bool_decide (Rule.organization r = organization) then Some r else None);
    rule ← lift (otherwise row (input_error "not_found"));
    if negb (is_live rule) then mret ()
    else
      _ ← update_actions_of organization id
            (λ _ a, bool_decide (Action.status a = Action.pending) || bool_decide (Action.status a = Action.held))
            (mark_action Action.superseded (λ t, t) "rule_deleted" now);
      _ ← update_rule organization id (mark_rule (Some Rule.deleted) None None None now);
      record_fact (rule_fact organization actor "conflict_response_rule.deleted" id "user_command" (Some (Rule.hash rule))
        None [("pending_actions_superseded", JBool true)] now)).
End service.

(** ** What bridges and rules share *)

Definition identities_of (ruleId : string) (d : ConflictDb) : list string :=
  map Availability.identity (List.filter (λ row, bool_decide (Availability.rule row = ruleId)) (rule_availability d)).

Definition protection_of (d : ConflictDb) (id : string) (r : Rule.RuleRow) : option Protection :=
  if is_live r
  then Some {| protected_organization := Rule.organization r; protected_identities := identities_of id d |} else None.

(** The state of [NoCopy], as the tables hold it. *)
Definition copies_of (d : ConflictDb) : Copies :=
  {| bridge_views := (λ b, {| view_organization := Bridge.organization b; view_status := Bridge.status b;
                              view_source := Bridge.source_identity b; view_destination := Bridge.destination_identity b |})
                       <$> bridges d;
     live_rules := map_imap (protection_of d) (rules d) |}.

(** The rows of the availability calendars are of rules that exist (a foreign key). *)
Definition availability_of_rules (d : ConflictDb) : Prop :=
  ∀ row, row ∈ rule_availability d → is_Some (rules d !! Availability.rule row).

(** The calendars of a selection keep their provider identity; ingestion never
    moves a calendar to another connection or remote calendar. *)
Definition same_identities (organization : string) (seen d : ConflictDb) : Prop := ∀ id c c',
  binding_row organization seen id = Some c → binding_row organization d id = Some c' →
  binding_identity c = binding_identity c'.

Lemma same_identities_refl organization d : same_identities organization d d.
Proof. intros id c c' Hc Hc'. rewrite Hc in Hc'. by injection Hc' as <-. Qed.

Lemma live_rules_lookup d r p :
  live_rules (copies_of d) !! r = Some p ↔ ∃ row, rules d !! r = Some row ∧ is_live row = true ∧
    p = {| protected_organization := Rule.organization row; protected_identities := identities_of r d |}.
Proof.
  cbn. rewrite map_lookup_imap. destruct (rules d !! r) as [row|]; cbn; [|split; [done|by intros (? & ? & _)]].
  unfold protection_of. destruct (is_live row) eqn:Hl; split.
  - intros [= <-]. by exists row.
  - by intros (row' & [= <-] & _ & ->).
  - done.
  - intros (row' & [= <-] & Hl' & _). congruence.
Qed.

(** A rule whose organisation and liveness stay keeps its protection. *)
Lemma copies_of_update d id r r' :
  rules d !! id = Some r → Rule.organization r' = Rule.organization r → is_live r' = is_live r →
  copies_of (with_rules (λ t, <[id := r']> t) d) = copies_of d.
Proof.
  intros Hr Ho Hl. unfold copies_of. cbn. f_equal. apply map_eq. intros i. rewrite !map_lookup_imap.
  destruct (decide (i = id)) as [->|Hne].
  - rewrite lookup_insert_eq, Hr. cbn. unfold protection_of. by rewrite Ho, Hl.
  - by rewrite lookup_insert_ne.
Qed.

Lemma copies_of_delete d id r' :
  is_live r' = false →
  copies_of (with_rules (λ t, <[id := r']> t) d)
    = {| bridge_views := bridge_views (copies_of d); live_rules := delete id (live_rules (copies_of d)) |}.
Proof.
  intros Hl. unfold copies_of. cbn. f_equal. apply map_eq. intros i. destruct (decide (i = id)) as [->|Hne].
  - rewrite lookup_delete_eq, map_lookup_imap, lookup_insert_eq. cbn. unfold protection_of. by rewrite Hl.
  - rewrite lookup_delete_ne, !map_lookup_imap, lookup_insert_ne by done. done.
Qed.

(** The rows of a new rule. *)
Definition add_availability (rows : list Availability.AvailabilityRow) (d : ConflictDb) : ConflictDb :=
  {| calendars := calendars d; accounts := accounts d; observations := observations d; bridges := bridges d;
     cursors := cursors d; previews := previews d; rules := rules d; rule_availability := rule_availability d ++ rows;
     actions := actions d; facts := facts d; conflict_jobs := conflict_jobs d |}.

Lemma identities_of_new organization ruleId cs d :
  availability_of_rules d → rules d !! ruleId = None →
  identities_of ruleId (add_availability (map (availability_row organization ruleId) cs) d) = map binding_identity cs.
Proof.
  intros Hfk Hnew. unfold identities_of. cbn. rewrite List.filter_app, map_app.
  rewrite filter_all_out, filter_all_in.
  - cbn. by rewrite map_map.
  - intros row (c & -> & _)%list_elem_of_fmap. by apply bool_decide_eq_true_2.
  - intros row [r Hr]%Hfk. apply bool_decide_eq_false_2. intros Heq. rewrite Heq in Hr. congruence.
Qed.

Lemma identities_of_other organization ruleId cs d i :
  i ≠ ruleId → identities_of i (add_availability (map (availability_row organization ruleId) cs) d) = identities_of i d.
Proof.
  intros Hne. unfold identities_of. cbn. rewrite List.filter_app, map_app, (filter_all_out _ (map _ cs)); [by rewrite app_nil_r|].
  intros row (c & -> & _)%list_elem_of_fmap. by apply bool_decide_eq_false_2.
Qed.

Lemma copies_of_create organization ruleId row cs d :
  availability_of_rules d → rules d !! ruleId = None → Rule.organization row = organization → is_live row = true →
  copies_of (add_availability (map (availability_row organization ruleId) cs) (with_rules (λ t, <[ruleId := row]> t) d))
    = perform (protect ruleId organization (map binding_identity cs)) (copies_of d).
Proof.
  intros Hfk Hnew Ho Hl. unfold copies_of at 1. cbn. f_equal. apply map_eq. intros i.
  destruct (decide (i = ruleId)) as [->|Hne].
  - rewrite map_lookup_imap, !lookup_insert_eq. cbn. unfold protection_of. rewrite Hl, Ho. do 2 f_equal.
    by rewrite <-(identities_of_new organization ruleId cs d).
  - rewrite map_lookup_imap, !lookup_insert_ne by done. rewrite map_lookup_imap.
    destruct (rules d !! i) as [r|]; [|done]. cbn. unfold protection_of. destruct (is_live r); [|done].
    do 2 f_equal. by rewrite <-(identities_of_other organization ruleId cs d i).
Qed.

(** The guard of a rule is the condition of the specification. *)
Lemma requireNoCopyPolicies_admits d organization availability paused :
  requireNoCopyPolicies d organization availability = Ok paused →
  may_protect organization (map binding_identity availability) (copies_of d).
Proof.
  unfold requireNoCopyPolicies. intros (u & Hdst%guard_input_Ok & H1)%bind_Ok_inv.
  apply bind_Ok_inv in H1 as (u' & Hsrc%guard_input_Ok & _). rewrite existsb_false in Hdst. rewrite existsb_false in Hsrc.
  intros b v Hv Horg Hst. cbn in Hv. rewrite lookup_fmap in Hv. apply fmap_Some in Hv as (row & Hrow & ->). cbn in *.
  assert (∀ x, x ∈ [Bridge.source_identity row; Bridge.destination_identity row] →
    x ∈ map binding_identity availability → row ∈ copy_policies d organization (map binding_identity availability)) as Hin.
  { intros x Hx Hin. apply list_elem_of_In, filter_In. split.
    - apply list_elem_of_In, list_elem_of_fmap. exists (b, row). split; [done|]. by apply elem_of_map_to_list.
    - rewrite bool_decide_eq_true_2 by done. cbn [andb]. apply andb_true_iff. split.
      + destruct (Bridge.status row); [done|done|by destruct Hst].
      + apply orb_true_iff. rewrite !includes_spec. set_solver. }
  split.
  - intros Hbad. assert (row ∈ copy_policies d organization (map binding_identity availability)) as Hcp by (eapply Hin; [|exact Hbad]; in_list).
    apply Hdst in Hcp. apply not_true_iff_false in Hcp. apply Hcp. by apply includes_spec.
  - intros Hact Hbad. assert (row ∈ copy_policies d organization (map binding_identity availability)) as Hcp by (eapply Hin; [|exact Hbad]; in_list).
    apply Hsrc in Hcp. rewrite bool_decide_eq_true_2 in Hcp by done. apply not_true_iff_false in Hcp. apply Hcp.
    by apply includes_spec.
Qed.

(** The locks of an activation cover what it protects. *)
Lemma selection_locks_cover ruleId organization response availability draft :
  required_locks (protect ruleId organization (map binding_identity availability))
    ⊆ selection_locks response availability draft.
Proof. unfold selection_locks. cbn. rewrite map_map. set_solver. Qed.

(** ** What the commands did *)

Section runs.
Context {R : Type} `{ConflictProvider R} `{NewId} `{Unicode} `{Digest} `{PrivateKey} `{Uuids}.
Implicit Types w : Transaction.World ConflictDb R ConflictCall.

(** The job with the key waits for a worker. *)
Definition rule_job_waits (k : JobKey) (d : ConflictDb) : Prop :=
  ∃ i j, conflict_jobs d !! i = Some j ∧ Jobs.active (Jobs.state j) = true ∧ Jobs.key j = k.

Lemma run_from_db {A} (f : ConflictDb → res failure A) w a w' :
  from_db f w = (Ok a, w') → f (db w) = Ok a ∧ w' = w.
Proof using Type. unfold from_db. intros (d & w1 & [-> ->]%run_read & Hf)%run_bind. by apply run_lift in Hf. Qed.

Lemma run_prepare organization draft at_time w prepared w' :
  prepareConflictResponseInput organization draft at_time w = (Ok prepared, w') →
  db w' = db w ∧ issued w' = issued w ∧
  prepared_conflicts prepared = conflicts_of (prepared_invitations prepared) (prepared_busy prepared) ∧
  loadConflictCalendarSelection (db w) organization draft
    = Ok (prepared_response prepared, prepared_availability prepared) ∧
  requireResponseSync (db w) organization (prepared_response prepared) at_time = Ok () ∧
  ∃ paused, requireNoCopyPolicies (db w) organization (prepared_availability prepared) = Ok paused.
Proof using Type.
  intros Hrun. destruct (wp_run _ _ _ _ _ (prepare_wp organization draft at_time w) Hrun)
    as ((tr & from & until & (Hdb & Hissued & _) & _) & Hok).
  destruct (Hok prepared eq_refl) as (Hc & Hsel & Hsync & Hcopy & _). done.
Qed.

Lemma run_enqueue k payload now w out w' :
  enqueue_conflict_job k payload now w = (Ok out, w') →
  ∃ jobs', db w' = with_conflict_jobs (λ _, jobs') (db w) ∧ issued w' = S (issued w) ∧
    (∀ i j, conflict_jobs (db w) !! i = Some j → jobs' !! i = Some j) ∧
    (conflict_jobs (db w) !! newId (issued w) = None → rule_job_waits k (db w')).
Proof using Type.
  unfold enqueue_conflict_job. intros (i & w1 & [-> ->]%run_fresh & Hrun)%run_bind.
  run_step Hrun as jobs w2 Hr. apply run_read in Hr as [-> ->]. cbn [db] in Hrun.
  destruct (Jobs.enqueue _ _ _ _ _ _) as [[job jobs']|e] eqn:Hen; [|done].
  run_step Hrun as u w3 Hw. apply run_write in Hw as ->. injection Hrun as _ <-. cbn.
  apply enqueue_adds in Hen as (Hkeep & _ & Hhas). exists jobs'. split_and!; [done..|exact Hhas].
Qed.

Lemma run_fact fact w u w' : record_fact fact w = (Ok u, w') → db w' = with_fact fact (db w).
Proof using Type. unfold record_fact. intros (i & w1 & [_ ->]%run_fresh & ->%run_write)%run_bind. done. Qed.

Lemma run_update_rule organization id f w u w' :
  update_rule organization id f w = (Ok u, w') →
  ∃ r, rules (db w) !! id = Some r ∧ Rule.organization r = organization ∧
    db w' = with_rules (λ t, <[id := f r]> t) (db w) ∧ issued w' = issued w.
Proof using Type.
  unfold update_rule. intros (row & w1 & [-> ->]%run_read & Hrun)%run_bind.
  destruct (rules (db w) !! id) as [r|] eqn:Hr; [|done]. case_bool_decide as Ho; [|done].
  apply run_write in Hrun as ->. by exists r.
Qed.

Lemma run_insert_availabilities organization ruleId cs w u w' :
  insert_availabilities organization ruleId cs w = (Ok u, w') →
  db w' = add_availability (map (availability_row organization ruleId) cs) (db w) ∧ issued w' = issued w.
Proof using Type.
  revert w. induction cs as [|c cs IH]; intros w Hrun; cbn [insert_availabilities] in Hrun.
  - injection Hrun as _ <-. split; [|done]. unfold add_availability. cbn. rewrite app_nil_r. by destruct (db w).
  - run_step Hrun as u1 w1 Hi. apply IH in Hrun as [-> ->]. unfold insert_availability in Hi.
    apply run_bind in Hi as (taken & w2 & [-> ->]%run_read & Hi). destruct (existsb _ _); [done|].
    apply run_write in Hi as ->. split; [|done]. unfold add_availability. cbn. by rewrite <-app_assoc.
Qed.

Lemma run_consume id now w u w' :
  consume_preview id now w = (Ok u, w') → ∃ p p', previews (db w) !! id = Some p ∧
    Preview.consumed_at p' = Some now ∧ db w' = with_previews (λ t, <[id := p']> t) (db w) ∧ issued w' = issued w.
Proof using Type.
  unfold consume_preview. intros (row & w1 & [-> ->]%run_read & Hrun)%run_bind.
  destruct (previews (db w) !! id) as [p|]; [|done]. apply run_write in Hrun as ->.
  eexists p, _. split_and!; [done| |reflexivity|done]; done.
Qed.

Lemma run_insert_rule id row w u w' :
  insert_rule id row w = (Ok u, w') →
  rules (db w) !! id = None ∧ has_response_rule (Rule.organization row) (Rule.response_identity row) (db w) = false ∧
  db w' = with_rules (λ t, <[id := row]> t) (db w) ∧ issued w' = issued w.
Proof using Type.
  unfold insert_rule. intros (taken & w1 & [-> ->]%run_read & Hrun)%run_bind.
  run_step Hrun as b w2 Hr. apply run_read in Hr as [-> ->]. run_step Hrun as b w2 Hr. apply run_read in Hr as [-> ->].
  case_bool_decide as Hnew; [done|]. destruct (existsb _ _); [done|].
  destruct (has_response_rule _ _ _) eqn:Hhas; [done|]. apply run_write in Hrun as ->.
  split_and!; [by apply eq_None_not_Some|done..].
Qed.

(** What [create_rule] leaves: the rule, its calendars, the preview consumed,
    a job and a fact. *)
Record rule_created (organization : string) (actor : Actor) (previewId ruleId : string) (draft : ConflictResponseDraft)
    (response : ConflictCalendarBinding) (availability : list ConflictCalendarBinding) (now : Z) (d : ConflictDb) (n : nat) (d' : ConflictDb) : Prop := {
  created_fresh : rules d !! ruleId = None;
  created_unique : has_response_rule organization (binding_identity response) d = false;
  created_rule : ∃ ruleHash, rules d' = <[ruleId := new_rule organization (principal actor) draft (binding_identity response)
    ruleHash now]> (rules d);
  created_availability :
    rule_availability d' = rule_availability d ++ map (availability_row organization ruleId) availability;
  created_consumed : ∃ p p', previews d !! previewId = Some p ∧ Preview.consumed_at p' = Some now ∧
    previews d' = <[previewId := p']> (previews d);
  created_job : conflict_jobs d !! newId n = None → rule_job_waits (rule_key organization ruleId 1) d';
  created_rest : bridges d' = bridges d ∧ actions d' = actions d ∧ observations d' = observations d ∧
    calendars d' = calendars d ∧ accounts d' = accounts d ∧ cursors d' = cursors d;
}.

Lemma run_create_rule organization actor previewId ruleId ruleHash draft response availability prepared now w u w' :
  create_rule organization actor previewId ruleId ruleHash draft response availability prepared now w = (Ok u, w') →
  rule_created organization actor previewId ruleId draft response availability now (db w) (issued w) (db w') ∧
  (availability_of_rules (db w) →
   copies_of (db w') = perform (protect ruleId organization (map binding_identity availability)) (copies_of (db w))).
Proof using Type.
  unfold create_rule. intros (u1 & w1 & (Hnew & Huniq & Hdb1 & Hi1)%run_insert_rule & Hrun)%run_bind.
  run_step Hrun as u2 w2 Ha. apply run_insert_availabilities in Ha as [Hdb2 Hi2].
  run_step Hrun as u3 w3 Hc. apply run_consume in Hc as (p & p' & Hp & Hcons & Hdb3 & Hi3).
  run_step Hrun as out w4 He. apply run_enqueue in He as (jobs' & Hdb4 & _ & Hkeep & Hwaits).
  apply run_fact in Hrun as Hdb5. rewrite Hdb2, Hdb1 in Hp, Hdb3. rewrite Hdb3 in Hwaits, Hdb4. rewrite Hi3, Hi2, Hi1 in Hwaits.
  rewrite Hdb5, Hdb4. split.
  - split; cbn; [done|done|by eexists|done| | |done].
    + by exists p, p'.
    + rewrite Hdb4 in Hwaits. exact Hwaits.
  - intros Hfk. by rewrite <-(copies_of_create organization ruleId
      (new_rule organization (principal actor) draft (binding_identity response) ruleHash now) availability (db w)).
Qed.

Lemma confirmable_spec organization principal previewId now d p draft :
  confirmable organization principal previewId now d = Ok (p, draft) →
  previews d !! previewId = Some p ∧ Preview.organization p = organization ∧ Preview.principal p = principal ∧
  Preview.consumed_at p = None ∧ now < Preview.expires_at p ∧ parseConflictResponseDraft (Preview.draft p) = Ok draft ∧
  hash (draft_document draft) = Ok (Preview.draft_hash p).
Proof using Type.
  unfold confirmable, own_preview. intros (p' & Hp%otherwise_Some & H5)%bind_Ok_inv.
  destruct (previews d !! previewId) as [p0|] eqn:Hrow; cbn in Hp; [|done]. destruct (_ && _) eqn:Hown; [|done].
  injection Hp as ->. bool_to_prop. apply bind_Ok_inv in H5 as (u & Hst%guard_input_Ok & H5). bool_to_prop.
  apply bind_Ok_inv in H5 as (draft' & Hparse & H5). apply bind_Ok_inv in H5 as (h & Hh & H5).
  apply bind_Ok_inv in H5 as (u' & Heq%guard_input_Ok & [= -> ->]). bool_to_prop. subst h.
  split_and!; try done; [by apply eq_None_not_Some|]. unfold input_failure in Hparse. case_match; [congruence|done].
Qed.

(** The decision that precedes [create_rule]. *)
Record activation_checked (capabilities : ConflictResponseCapabilities) (seen : ConflictDb) (organization : string)
    (actor : Actor) (previewId : string) (now : Z) (d : ConflictDb) (p : Preview.PreviewRow)
    (draft : ConflictResponseDraft) (response : ConflictCalendarBinding) (availability : list ConflictCalendarBinding)
    (prepared : Prepared) : Prop := {
  checked_writes : providerWritesEnabled capabilities = true;
  checked_preview : confirmable organization (principal actor) previewId now d = Ok (p, draft);
  checked_seen : loadConflictCalendarSelection seen organization draft = Ok (response, availability);
  checked_now : loadConflictCalendarSelection d organization draft
    = Ok (prepared_response prepared, prepared_availability prepared);
  checked_sync : requireResponseSync d organization (prepared_response prepared) (Preview.reference_at p) = Ok ();
  checked_no_copy : ∃ paused, requireNoCopyPolicies d organization (prepared_availability prepared) = Ok paused;
  checked_conflicts : prepared_conflicts prepared = conflicts_of (prepared_invitations prepared) (prepared_busy prepared);
  checked_snapshot : prepared_snapshot prepared = Preview.snapshot_hash p;
  checked_future : existsb (has_started now) (prepared_conflicts prepared) = false;
}.

Lemma run_activate capabilities seen organization actor previewId now w ruleId w' :
  activate capabilities seen organization actor previewId now w = (Ok ruleId, w') →
  ∃ p draft response availability prepared,
    activation_checked capabilities seen organization actor previewId now (db w) p draft response availability prepared ∧
    ruleId = newId (issued w) ∧
    rule_created organization actor previewId ruleId draft response availability now (db w) (S (issued w)) (db w') ∧
    (availability_of_rules (db w) →
     copies_of (db w') = perform (protect ruleId organization (map binding_identity availability)) (copies_of (db w))).
Proof using Type.
  unfold activate. intros (u1 & w1 & [_ ->]%run_lift & Hrun)%run_bind.
  run_step Hrun as u2 w2 Hw. apply run_lift in Hw as [Hw%guard_input_Ok ->]. apply negb_false_iff in Hw.
  unfold try_catch in Hrun. destruct (transaction _ w) as [[id|e] w3] eqn:Htx in Hrun.
  2: { by destruct (isLiveResponseRuleUniquenessError e). }
  injection Hrun as -> ->. apply run_transaction in Htx as Hrun.
  run_step Hrun as [p draft] w1 Hc. apply run_from_db in Hc as [Hconf ->].
  run_step Hrun as [response availability] w1 Hs. apply run_lift in Hs as [Hseen ->].
  run_step Hrun as existing w1 He. apply run_read in He as [-> ->].
  run_step Hrun as u3 w1 Hg. apply run_lift in Hg as [_ ->].
  run_step Hrun as prepared w1 Hp. apply run_prepare in Hp as (Hdb & Hissued & Hconf' & Hsel & Hsync & Hcopy).
  run_step Hrun as u4 w2 Hsnap. apply run_lift in Hsnap as [Hsnap%guard_input_Ok ->].
  run_step Hrun as u5 w2 Hfut. apply run_lift in Hfut as [Hfut%guard_input_Ok ->].
  run_step Hrun as i w2 Hf. apply run_fresh in Hf as [-> ->].
  run_step Hrun as h w2 Hh. apply run_lift in Hh as [_ ->].
  run_step Hrun as u6 w2 Hcr. injection Hrun as <- ->. apply run_create_rule in Hcr as [Hcr Hcopies]. cbn in Hcr, Hcopies.
  rewrite Hdb, Hissued in *. bool_to_prop. exists p, draft, response, availability, prepared. by split_and!.
Qed.

Lemma activate_throws capabilities seen organization actor previewId now w e w' :
  activate capabilities seen organization actor previewId now w = (Throw e, w') → db w' = db w.
Proof using Type.
  intros Hrun. assert (wp (activate capabilities seen organization actor previewId now) w
    (λ r w', ∀ e, r = Throw e → db w' = db w)) as Hwp; [|exact (wp_run _ _ _ _ _ Hwp Hrun e eq_refl)].
  unfold activate. do 2 wp_step. destruct (requireLocalId previewId); [|done]. do 2 wp_step.
  destruct (guard_input _ _ _); [|done]. wp_step. unfold wp at 1. destruct (transaction _ w) as [[id|e'] w1] eqn:Htx; [done|].
  apply transaction_throws in Htx. cbn. destruct (isLiveResponseRuleUniquenessError e'); by wp_step.
Qed.

(** A selection read before the locks protects the calendars that are checked. *)
Lemma selected_identities organization seen d draft response availability response' availability' x :
  same_identities organization seen d →
  loadConflictCalendarSelection seen organization draft = Ok (response, availability) →
  loadConflictCalendarSelection d organization draft = Ok (response', availability') →
  x ∈ map binding_identity availability → x ∈ map binding_identity availability'.
Proof using Type.
  intros Hsame (_ & _ & _ & Hids & Hall & _)%selection_spec (_ & _ & _ & Hids' & Hall' & _)%selection_spec.
  rewrite !list_elem_of_fmap. intros (c & -> & Hc). rewrite Forall_forall in Hall, Hall'.
  assert (binding_id c ∈ map binding_id availability') as (c' & Heq & Hc')%list_elem_of_fmap.
  { rewrite Hids', <-Hids. apply list_elem_of_fmap. by exists c. }
  exists c'. split; [|done]. destruct (Hall c Hc) as [Hb _], (Hall' c' Hc') as [Hb' _]. unfold bound in *.
  rewrite <-Heq in Hb'. by eapply Hsame.
Qed.

Lemma activation_admitted capabilities seen organization actor previewId now d p draft response availability prepared ruleId :
  activation_checked capabilities seen organization actor previewId now d p draft response availability prepared →
  same_identities organization seen d →
  admitted (protect ruleId organization (map binding_identity availability)) (copies_of d).
Proof using Type.
  intros [] Hsame. destruct checked_no_copy0 as [paused Hcopy]. apply requireNoCopyPolicies_admits in Hcopy.
  cbn. intros b v Hv Ho Hst. destruct (Hcopy b v Hv Ho Hst) as [Hd Hs]. split.
  - intros Hin. apply Hd. by eapply selected_identities.
  - intros Hact Hin. apply (Hs Hact). by eapply selected_identities.
Qed.
End runs.

(** ** The service *)

Inductive Command :=
| preview_rule (input : json)
| activate_rule (seen : ConflictDb) (previewId : string)
| pause_rule (seen : ConflictDb) (id : string) (paused : bool)
| reconcile_rule (id : string)
| remove_rule (id : string).

Section service_theorems.
Context {R : Type} `{ConflictProvider R} `{NewId} `{Unicode} `{Digest} `{PrivateKey} `{Uuids}.
Context (capabilities : ConflictResponseCapabilities) (organization : string) (actor : Actor) (now : Z).
Implicit Types w : Transaction.World ConflictDb R ConflictCall.
Local Notation M := (Transaction.M ConflictDb R ConflictCall).

Definition run_command (c : Command) : M () :=
  match c with
  | preview_rule input => _ ← preview capabilities (λ d, d) organization (principal actor) input now; mret ()
  | activate_rule seen previewId => _ ← activate capabilities seen organization actor previewId now; mret ()
  | pause_rule seen id is_pause => setPaused capabilities seen organization actor id is_pause now
  | reconcile_rule id => _ ← requestReconcile organization id actor now; mret ()
  | remove_rule id => remove organization actor id now
  end.

Lemma live_rule_spec id d r :
  live_rule organization id d = Some r ↔ rules d !! id = Some r ∧ Rule.organization r = organization ∧ is_live r = true.
Proof using Type.
  unfold live_rule. destruct (rules d !! id) as [r'|]; cbn; [|naive_solver].
  destruct (_ && _) eqn:E; [|split; [done|]].
  - bool_to_prop. naive_solver.
  - intros ([= ->] & Ho & Hl). by rewrite bool_decide_eq_true_2, Hl in E.
Qed.

(** A command that reads and then runs a transaction, and throws. *)
Lemma checked_transaction_throws {A} (r : res failure ()) (m : M A) w e w' :
  (_ ← lift r; transaction m) w = (Throw e, w') → db w' = db w.
Proof using Type.
  rewrite bind_run. destruct r as [u|e']; cbn; [|by intros [= _ <-]]. apply transaction_throws.
Qed.

Lemma run_update_actions ruleId selects f w u w' :
  update_actions_of organization ruleId selects f w = (Ok u, w') →
  issued w' = issued w ∧ ∃ g, db w' = with_actions g (db w) ∧ ∀ i, g (actions (db w)) !! i =
    (λ a, if bool_decide (Action.organization a = organization) && bool_decide (Action.rule a = ruleId) && selects i a
          then f a else a) <$> actions (db w) !! i.
Proof using Type.
  unfold update_actions_of. intros ->%run_write. split; [done|]. eexists. split; [reflexivity|]. intros i. cbn.
  rewrite map_lookup_imap. by destruct (actions (db w) !! i).
Qed.

(** Nothing of the rule waits to be sent. *)
Definition nothing_pending (id : string) (d : ConflictDb) : Prop := ∀ i a, actions d !! i = Some a →
  Action.organization a = organization → Action.rule a = id → Action.status a ≠ Action.pending.

Lemma marked_not_pending ruleId selects status attempt code g d :
  (∀ i, g (actions d) !! i = (λ a, if bool_decide (Action.organization a = organization)
     && bool_decide (Action.rule a = ruleId) && selects i a then mark_action status attempt code now a else a) <$> actions d !! i) →
  (∀ i a, Action.status a = Action.pending → selects i a = true) → status ≠ Action.pending →
  nothing_pending ruleId (with_actions g d).
Proof using Type.
  intros Hg Hsel Hst i a Ha Ho Hr Hp. cbn in Ha. rewrite Hg in Ha. destruct (actions d !! i) as [b|]; cbn in Ha; [|done].
  destruct (_ && _) eqn:E; injection Ha as <-; [done|]. rewrite !bool_decide_eq_true_2 in E by done. cbn in E.
  by rewrite (Hsel i b Hp) in E.
Qed.

Lemma run_setPaused seen id is_pause w u w' :
  setPaused capabilities seen organization actor id is_pause now w = (Ok u, w') →
  ∃ r r', live_rule organization id (db w) = Some r ∧ Rule.organization r' = organization ∧
    Rule.status r' = (if is_pause then Rule.paused else Rule.active) ∧
    rules (db w') = <[id := r']> (rules (db w)) ∧ copies_of (db w') = copies_of (db w) ∧
    (if is_pause then nothing_pending id (db w')
     else providerWritesEnabled capabilities = true ∧
          (conflict_jobs (db w) !! newId (issued w) = None → rule_job_waits (rule_key organization id (Rule.revision r)) (db w'))).
Proof using Type.
  unfold setPaused. intros (u1 & w1 & [_ ->]%run_lift & Hrun)%run_bind.
  run_step Hrun as u2 w1 Hg. apply run_lift in Hg as [Hwrites%guard_input_Ok ->].
  apply run_transaction in Hrun. run_step Hrun as row w1 Hr. apply run_read in Hr as [-> ->].
  run_step Hrun as r w1 Hl. apply run_lift in Hl as [Hl%otherwise_Some ->].
  pose proof Hl as (Hrow & Ho & Hlive)%live_rule_spec.
  run_step Hrun as u3 w1 Hcheck. assert (w1 = w) as ->.
  { destruct is_pause; [by injection Hcheck as _ <-|]. unfold check_resumption in Hcheck.
    run_step Hcheck as draft w2 Hd. apply run_lift in Hd as [_ ->]. run_step Hcheck as sel w2 Hs. apply run_lift in Hs as [_ ->].
    run_step Hcheck as pb w2 Hf. apply run_from_db in Hf as [_ ->]. by injection Hcheck as _ <-. }
  run_step Hrun as u4 w2 Hu. apply run_update_rule in Hu as (r0 & Hr0 & _ & Hdb2 & Hi2).
  rewrite Hrow in Hr0. injection Hr0 as <-. set (r' := mark_rule _ _ _ _ _ r) in Hdb2.
  assert (copies_of (db w2) = copies_of (db w)) as Hcopies.
  { rewrite Hdb2. apply (copies_of_update _ _ r); [done..|]. rewrite Hlive. by destruct is_pause. }
  run_step Hrun as u5 w3 Hrest. apply run_fact in Hrun as Hdb4. exists r, r'. destruct is_pause.
  - apply run_update_actions in Hrest as (_ & g & Hdb3 & Hg). rewrite Hdb4, Hdb3. split_and!; try done; [by rewrite Hdb2|].
    refine (marked_not_pending id _ Action.held _ _ g (db w2) Hg _ _); [|done].
    intros i a Hp. by apply bool_decide_eq_true_2.
  - run_step Hrest as out w4 He. injection Hrest as _ ->. apply run_enqueue in He as (jobs' & Hdb3 & _ & _ & Hwaits).
    rewrite Hdb4, Hdb3. split_and!; try done; [by rewrite Hdb2|by apply negb_false_iff|].
    rewrite Hi2, Hdb3, Hdb2 in Hwaits. rewrite Hdb2. exact Hwaits.
Qed.

Lemma run_remove id w u w' :
  remove organization actor id now w = (Ok u, w') →
  ∃ r, rules (db w) !! id = Some r ∧ Rule.organization r = organization ∧
    (is_live r = false ∧ db w' = db w ∨
     is_live r = true ∧ nothing_pending id (db w') ∧
     ∃ r', Rule.status r' = Rule.deleted ∧ Rule.organization r' = organization ∧ rules (db w') = <[id := r']> (rules (db w)) ∧
       copies_of (db w') = {| bridge_views := bridge_views (copies_of (db w));
                              live_rules := delete id (live_rules (copies_of (db w))) |}).
Proof using Type.
  unfold remove. intros (u1 & w1 & [_ ->]%run_lift & Hrun)%run_bind.
  apply run_transaction in Hrun. run_step Hrun as row w1 Hr. apply run_read in Hr as [-> ->].
  run_step Hrun as r w1 Hl. apply run_lift in Hl as [Hl%otherwise_Some ->].
  destruct (rules (db w) !! id) as [r0|] eqn:Hrow; cbn in Hl; [|done]. case_bool_decide as Ho; [|done]. injection Hl as ->.
  exists r. split_and!; [done..|]. destruct (is_live r) eqn:Hlive; cbn [negb] in Hrun; [right|left; by injection Hrun as _ <-].
  run_step Hrun as u2 w2 Ha. apply run_update_actions in Ha as (_ & g & Hdb2 & Hg).
  run_step Hrun as u3 w3 Hu. apply run_update_rule in Hu as (r0 & Hr0 & _ & Hdb3 & _).
  rewrite Hdb2 in Hr0. cbn in Hr0. rewrite Hrow in Hr0. injection Hr0 as <-.
  apply run_fact in Hrun as Hdb4. rewrite Hdb4, Hdb3, Hdb2. split; [done|]. split.
  - refine (marked_not_pending id _ Action.superseded _ _ g (db w) Hg _ _); [|done].
    intros i a Hp. by rewrite (bool_decide_eq_true_2 _ Hp).
  - exists (mark_rule (Some Rule.deleted) None None None now r). split_and!; [done|exact Ho|done|exact (copies_of_delete (with_actions g (db w)) id (mark_rule (Some Rule.deleted) None None None now r) eq_refl)].
Qed.

Lemma preview_wp interleave principal input w :
  wp (preview capabilities interleave organization principal input now) w (λ r w',
    match r with
    | Throw _ => db w' = db w ∨ db w' = interleave (db w)
    | Ok document => ∃ draft prepared w1 draftHash,
        parseConflictResponseDraft input = Ok draft ∧
        (active_previews organization principal now (db w) < MAX_ACTIVE_PREVIEWS_PER_PRINCIPAL)%nat ∧
        prepareConflictResponseInput organization draft now w = (Ok prepared, w1) ∧
        hash (draft_document draft) = Ok draftHash ∧ preview_token document = newId (issued w) ∧
        preview_result document = add_warnings (capability_warnings capabilities) (prepared_result prepared) ∧
        previews (interleave (db w)) !! preview_token document = None ∧
        db w' = with_previews (λ t, <[preview_token document :=
          {| Preview.organization := organization; Preview.principal := principal; Preview.draft := draft_document draft;
             Preview.draft_hash := draftHash; Preview.snapshot_hash := prepared_snapshot prepared;
             Preview.reference_at := now; Preview.expires_at := now + PREVIEW_LIFETIME_MILLISECONDS;
             Preview.consumed_at := None |}]> t) (interleave (db w))
    end).
Proof using Type.
  unfold preview. do 4 wp_step. destruct (guard_input _ _ _) as [u|e] eqn:Hlimit; [|by left]. apply guard_input_Ok in Hlimit.
  do 2 wp_step. destruct (parseConflictResponseDraft input) as [draft|e]; cbn [input_failure]; [|by left].
  wp_step. pose proof (prepare_wp organization draft now w) as Hwp. unfold wp in Hwp. unfold wp at 1.
  destruct (prepareConflictResponseInput organization draft now w) as [[prepared|e] w1] eqn:Hprep; cbn [fst snd] in *;
    destruct Hwp as ((tr & from & until & (Hdb & Hissued & _) & _) & _); [|by left].
  do 6 wp_step. cbn [db issued]. destruct (hash (draft_document draft)) as [h|e] eqn:Hh; [|right; by rewrite Hdb].
  wp_step. unfold insert_preview. do 2 wp_step. rewrite Hdb, Hissued. cbn [db].
  case_bool_decide as Htaken; [wp_step; by right|]. do 2 wp_step. cbn. exists draft, prepared, w1, h. split_and!; try done.
  - apply Nat.leb_gt in Hlimit. done.
  - by apply eq_None_not_Some.
Qed.

Lemma preview_copies interleave principal input w r w' :
  preview capabilities interleave organization principal input now w = (r, w') →
  copies_of (interleave (db w)) = copies_of (db w) → copies_of (db w') = copies_of (db w).
Proof using Type.
  intros Hrun Hi. pose proof (wp_run _ _ _ _ _ (preview_wp interleave principal input w) Hrun) as Hpost.
  destruct r as [document|e].
  - by destruct Hpost as (draft & prepared & w1 & h & _ & _ & _ & _ & _ & _ & _ & ->).
  - by destruct Hpost as [->| ->].
Qed.

Lemma run_reconcile id w job w' :
  requestReconcile organization id actor now w = (Ok job, w') →
  copies_of (db w') = copies_of (db w) ∧ rules (db w') = rules (db w).
Proof using Type.
  unfold requestReconcile. intros (u1 & w1 & [_ ->]%run_lift & Hrun)%run_bind. apply run_transaction in Hrun.
  run_step Hrun as row w1 Hr. apply run_read in Hr as [-> ->]. run_step Hrun as r w1 Hl. apply run_lift in Hl as [_ ->].
  run_step Hrun as u2 w1 Hg. apply run_lift in Hg as [_ ->].
  run_step Hrun as out w1 He. apply run_enqueue in He as (jobs' & Hdb1 & _).
  run_step Hrun as u3 w2 Hf. apply run_fact in Hf as Hdb2. injection Hrun as _ <-. by rewrite Hdb2, Hdb1.
Qed.

(** What a command saw of the calendars before it waited for its locks. *)
Definition saw (c : Command) : option ConflictDb :=
  match c with activate_rule seen _ | pause_rule seen _ _ => Some seen | _ => None end.

(** Every command of the owner keeps the contract with the bridges: whatever
    it returns or throws, it does nothing to the shared state, or removes a
    protection, or activates a rule whose calendars no bridge may copy. *)
Theorem commands_respect_copies c w r w' :
  availability_of_rules (db w) →
  match saw c with Some seen => same_identities organization seen (db w) | None => True end →
  run_command c w = (r, w') → copy_step (copies_of (db w)) (copies_of (db w')).
Proof using Type.
  intros Hfk Hsame Hrun.
  assert (copies_of (db w') = copies_of (db w) → copy_step (copies_of (db w)) (copies_of (db w'))) as Hstay.
  { intros ->. apply step_relax, relax_nothing. }
  destruct c as [input|seen previewId|seen id is_pause|id|id]; cbn [run_command] in Hrun.
  - apply Hstay. rewrite bind_run in Hrun. destruct (preview _ _ _ _ _ _ w) as [[doc|e] w1] eqn:Hp;
      injection Hrun as _ <-; by eapply preview_copies.
  - rewrite bind_run in Hrun. destruct (activate _ _ _ _ _ _ w) as [[ruleId|e] w1] eqn:Ha; injection Hrun as _ <-.
    + apply run_activate in Ha as (p & draft & response & availability & prepared & Hchecked & _ & _ & Hcopies).
      rewrite Hcopies by done. apply step_request. eapply activation_admitted; [exact Hchecked|exact Hsame].
    + apply Hstay. by rewrite (activate_throws _ _ _ _ _ _ _ _ _ Ha).
  - apply Hstay. destruct r as [u|e].
    + by apply run_setPaused in Hrun as (r & r' & _ & _ & _ & _ & ? & _).
    + unfold setPaused in Hrun. rewrite bind_run in Hrun. destruct (requireLocalId id) as [u|e']; cbn in Hrun;
        [by rewrite (checked_transaction_throws _ _ _ _ _ Hrun)|by injection Hrun as _ <-].
  - apply Hstay. rewrite bind_run in Hrun. destruct (requestReconcile _ _ _ _ w) as [[job|e] w1] eqn:Hq; injection Hrun as _ <-.
    + by apply run_reconcile in Hq as [? _].
    + by rewrite (checked_transaction_throws _ _ _ _ _ Hq).
  - destruct r as [u|e]; [|apply Hstay; by rewrite (checked_transaction_throws _ _ _ _ _ Hrun)].
    apply run_remove in Hrun as (r & _ & _ & [[_ Hdb]|(_ & _ & r' & _ & _ & _ & ->)]); [apply Hstay; by rewrite Hdb|].
    apply step_relax, relax_release.
Qed.

(** C26. A rule that was paused or removed declines nothing: no action of it is
    pending any more, and as long as it is not resumed, applying one of its
    actions - a job may still be queued - changes nothing and calls nobody. *)
Theorem stopped_rules_never_decline c id w u w' :
  run_command c w = (Ok u, w') → c = remove_rule id ∨ (∃ seen, c = pause_rule seen id true) →
  (is_Some (live_rule organization id (db w)) → nothing_pending id (db w')) ∧
  ∀ w2 actionId a basis writes start finish,
    rules (db w2) !! id = rules (db w') !! id → actions (db w2) !! actionId = Some a → Action.rule a = id →
    ConflictCoordinator.apply writes organization actionId basis start finish w2 = (Ok (), w2).
Proof using Type.
  intros Hrun Hc.
  assert ((is_Some (live_rule organization id (db w)) → nothing_pending id (db w')) ∧
    ∃ r, rules (db w') !! id = Some r ∧ Rule.status r ≠ Rule.active) as (Hpending & r & Hr & Hstopped).
  { destruct Hc as [->|[seen ->]]; cbn [run_command] in Hrun.
    - apply run_remove in Hrun as (r & Hr & Ho & [[Hdead ->]|(_ & Hnone & r' & Hst & _ & Hrules & _)]).
      + split; [|exists r; split; [done|]].
        * intros [r0 (Hr0 & _ & Hlive)%live_rule_spec]. congruence.
        * unfold is_live in Hdead. by destruct (Rule.status r).
      + split; [done|]. exists r'. rewrite Hrules, lookup_insert_eq, Hst. done.
    - apply run_setPaused in Hrun as (r & r' & _ & _ & Hst & Hrules & _ & Hnone).
      split; [done|]. exists r'. rewrite Hrules, lookup_insert_eq, Hst. done. }
  split; [exact Hpending|]. intros w2 actionId a basis writes start finish Hsame Ha Hrule.
  unfold ConflictCoordinator.apply, transaction, mbind, M_bind, read_db, load_action. rewrite Ha. cbn [mbind option_bind].
  rewrite Hrule, Hsame, Hr. cbn [mbind option_bind]. case_bool_decide; [|by destruct w2].
  assert (is_due basis a r = false) as ->; [|by destruct w2].
  unfold is_due. rewrite (bool_decide_eq_false_2 (Rule.status r = Rule.active)) by done. by rewrite andb_false_r.
Qed.

(** A rule starts only as its owner confirmed it: an activation that throws
    changes nothing. One that succeeds was made where writes are enabled, with
    the owner's own preview, unused, unexpired and intact; the selection,
    synchronisation, bridges and availability, checked again, give the snapshot
    of the preview, and no conflicting invitation has started. It creates one
    rule with the draft that was shown and the calendars it selects, leaves a
    job for it, and consumes the preview: it cannot be used again. *)
Theorem activation_is_confirmed seen previewId w r w' :
  activate capabilities seen organization actor previewId now w = (r, w') →
  match r with
  | Throw _ => db w' = db w
  | Ok ruleId =>
      providerWritesEnabled capabilities = true ∧
      ∃ p draft response availability prepared,
        previews (db w) !! previewId = Some p ∧ Preview.organization p = organization ∧
        Preview.principal p = principal actor ∧ Preview.consumed_at p = None ∧ now < Preview.expires_at p ∧
        parseConflictResponseDraft (Preview.draft p) = Ok draft ∧
        activation_checked capabilities seen organization actor previewId now (db w) p draft response availability prepared ∧
        rule_created organization actor previewId ruleId draft response availability now (db w) (S (issued w)) (db w') ∧
        ∀ w2 later, previews (db w2) !! previewId = previews (db w') !! previewId →
          ∃ e, (activate capabilities seen organization actor previewId later w2).1 = Throw e
  end.
Proof using Type.
  intros Hrun. destruct r as [ruleId|e]; [|by apply activate_throws in Hrun].
  apply run_activate in Hrun as (p & draft & response & availability & prepared & Hchecked & _ & Hcreated & _).
  split; [by apply checked_writes in Hchecked|]. exists p, draft, response, availability, prepared.
  pose proof (checked_preview _ _ _ _ _ _ _ _ _ _ _ _ Hchecked)
    as (Hp & Ho & Hpr & Hcons & Hexp & Hparse & _)%confirmable_spec. split_and!; try done.
  intros w2 later Hsame. destruct (activate _ _ _ _ _ later w2) as [[id|e] w3] eqn:Hagain; [|by eexists]. exfalso.
  apply run_activate in Hagain as (p2 & draft2 & response2 & availability2 & prepared2 & Hchecked2 & _).
  pose proof (checked_preview _ _ _ _ _ _ _ _ _ _ _ _ Hchecked2) as (Hp2 & _ & _ & Hunused & _)%confirmable_spec.
  destruct (created_consumed _ _ _ _ _ _ _ _ _ _ _ Hcreated) as (p0 & p' & _ & Hused & Hpreviews).
  rewrite Hsame, Hpreviews, lookup_insert_eq in Hp2. injection Hp2 as <-. congruence.
Qed.
End service_theorems.

(** ** An unchanged preview activates *)

Section activates.
Context {R : Type} `{ConflictProvider R} `{NewId} `{Unicode} `{Digest} `{PrivateKey} `{Uuids}.
Context (organization : string) (actor : Actor).
Implicit Types w : Transaction.World ConflictDb R ConflictCall.

Lemma insert_availabilities_wp ruleId cs w (Q : res failure () → Transaction.World ConflictDb R ConflictCall → Prop) :
  (∀ row, row ∈ rule_availability (db w) → Availability.rule row = ruleId →
     Availability.calendar row ∉ map binding_id cs ∧ Availability.identity row ∉ map binding_identity cs) →
  NoDup (map binding_id cs) → NoDup (map binding_identity cs) →
  Q (Ok ()) (at_db (add_availability (map (availability_row organization ruleId) cs) (db w)) w) →
  wp (insert_availabilities organization ruleId cs) w Q.
Proof using Type.
  revert w. induction cs as [|c cs IH]; intros w Hnew Hids Hidentities HQ; cbn [insert_availabilities].
  - wp_step. unfold at_db, add_availability in HQ. cbn in HQ. rewrite app_nil_r in HQ. by destruct w as [[]].
  - cbn in Hids, Hidentities. apply NoDup_cons in Hids as [Hid Hids], Hidentities as [Hidentity Hidentities].
    wp_step. unfold insert_availability. do 2 wp_step.
    match goal with |- wp (if ?b then _ else _) _ _ => assert (b = false) as -> end.
    { apply existsb_false. intros row Hrow. case_bool_decide as Hrule; [|done]. cbn in Hrule.
      destruct (Hnew row Hrow Hrule) as [Hc Hi]. cbn in Hc, Hi.
      rewrite !bool_decide_eq_false_2; [done|..]; intros Heq; rewrite Heq in *; set_solver. }
    wp_step. apply IH; [|done..|].
    + cbn. intros row [Hrow| ->%list_elem_of_singleton]%elem_of_app Hrule; [|done].
      destruct (Hnew row Hrow Hrule) as [Hc Hi]. cbn in Hc, Hi. split; set_solver.
    + unfold at_db, add_availability in *. cbn in *. by rewrite <-app_assoc.
Qed.

Lemma enqueue_conflict_job_Ok k payload now w (Q : res failure (option string) → Transaction.World ConflictDb R ConflictCall → Prop) :
  (∀ out jobs', Q (Ok out) {| db := with_conflict_jobs (λ _, jobs') (db w); remote := remote w; calls := calls w;
                              issued := S (issued w) |}) →
  wp (enqueue_conflict_job k (payload) now) w Q.
Proof using Type.
  intros HQ. unfold enqueue_conflict_job. do 4 wp_step. cbn [db].
  destruct (Jobs.enqueue _ _ _ _ _ _) as [[out jobs']|e] eqn:Hen.
  - do 3 wp_step. apply HQ.
  - exfalso. unfold Jobs.enqueue in Hen. cbn in Hen. by case_match.
Qed.

#[local] Arguments parseConflictResponseDraft : simpl never.
#[local] Arguments draft_document : simpl never.

(** No live rule answers for the response calendar. *)
Definition no_response_rule (response : ConflictCalendarBinding) (d : ConflictDb) : Prop := ∀ id r, rules d !! id = Some r →
  Rule.organization r = organization → is_live r = true →
  Rule.response_identity r ≠ binding_identity response ∧ Rule.response_calendar r ≠ binding_id response.

Lemma create_rule_wp previewId ruleId ruleHash draft response availability prepared now w :
  rules (db w) !! ruleId = None → availability_of_rules (db w) → is_Some (previews (db w) !! previewId) →
  no_response_rule response (db w) → binding_id response = response_calendar_id draft →
  NoDup (map binding_id availability) → NoDup (map binding_identity availability) →
  wp (create_rule organization actor previewId ruleId ruleHash draft response availability prepared now) w (λ r _, r = Ok ()).
Proof using Type.
  intros Hnew Hfk [p Hp] Hnone Hid Hids Hidentities. unfold create_rule. wp_step. unfold insert_rule. do 6 wp_step.
  rewrite bool_decide_eq_false_2 by (rewrite Hnew; by intros [? ?]).
  match goal with |- wp (if ?b then _ else _) _ _ => assert (b = false) as -> end.
  { apply existsb_false. intros [id r] Hr. apply elem_of_map_to_list in Hr. cbn.
    destruct (bool_decide _) eqn:Ho; [|done]. bool_to_prop. destruct (is_live r) eqn:Hl; [|by rewrite andb_false_r].
    destruct (Hnone id r Hr Ho Hl) as [_ Hc]. rewrite bool_decide_eq_false_2; [done|congruence]. }
  match goal with |- wp (if ?b then _ else _) _ _ => assert (b = false) as -> end.
  { apply existsb_false. intros [id r] Hr. apply elem_of_map_to_list in Hr. cbn.
    destruct (bool_decide _) eqn:Ho; [|done]. bool_to_prop. destruct (is_live r) eqn:Hl; [|by rewrite andb_false_r].
    destruct (Hnone id r Hr Ho Hl) as [Hc _]. rewrite bool_decide_eq_false_2; [done|congruence]. }
  do 2 wp_step. apply insert_availabilities_wp; [|done..|].
  { cbn. intros row Hrow Hrule. destruct (Hfk row Hrow) as [r Hr]. rewrite Hrule in Hr. congruence. }
  wp_step. unfold consume_preview. do 2 wp_step. cbn. rewrite Hp. do 2 wp_step. apply enqueue_conflict_job_Ok. intros out jobs'.
  unfold record_fact. by do 3 wp_step.
Qed.

Context `{!UnicodeLaws _}.

(** A preview that is confirmed in time starts the rule, unless something
    has changed: if the database still holds what the preview read, the
    providers still answer what it was told, no conflicting invitation has
    started and no rule answers for the calendar, the activation succeeds. *)
Theorem unchanged_previews_activate capabilities interleave input now later document w w1 w2 seen draft prepared w3 :
  preview capabilities interleave organization (principal actor) input now w = (Ok document, w1) →
  providerWritesEnabled capabilities = true → validateUuid (preview_token document) = true →
  db w2 = db w1 → later < now + PREVIEW_LIFETIME_MILLISECONDS →
  parseConflictResponseDraft input = Ok draft →
  loadConflictCalendarSelection seen organization draft = loadConflictCalendarSelection (db w2) organization draft →
  prepareConflictResponseInput organization draft now w2 = (Ok prepared, w3) →
  (∀ prepared0 w0, prepareConflictResponseInput organization draft now w = (Ok prepared0, w0) →
     prepared_snapshot prepared = prepared_snapshot prepared0) →
  (∀ conflict, conflict ∈ prepared_conflicts prepared → has_started later conflict = false) →
  no_response_rule (prepared_response prepared) (db w2) →
  availability_of_rules (db w2) → rules (db w2) !! newId (issued w2) = None →
  ∃ ruleId w4, activate capabilities seen organization actor (preview_token document) later w2 = (Ok ruleId, w4).
Proof using All.
  intros Hpreview Hwrites Huuid Hdb Htime Hparse Hseen Hprepare Hsame Hfuture Hnone Hfk Hfresh.
  pose proof (wp_run _ _ _ _ _ (preview_wp capabilities organization now interleave (principal actor) input w) Hpreview)
    as (draft' & prepared0 & w0 & h & Hparse' & _ & Hprep0 & Hh & _ & _ & _ & Hdb1).
  rewrite Hparse in Hparse'. injection Hparse' as <-.
  pose proof (parseConflictResponseDraft_exact draft) as [Hvalid Hagain].
  destruct (Hvalid input Hparse) as [Hrule _]. specialize (Hagain Hrule).
  destruct Hrule as (_ & _ & _ & _ & Hnodup & _).
  apply run_prepare in Hprepare as Hread. destruct Hread as (Hdb3 & Hissued & _ & Hsel & _ & _).
  pose proof (selection_spec _ _ _ _ _ Hsel) as (Hid & _ & _ & Hids & _ & [_ Hidentities]%NoDup_cons).
  set (document_id := preview_token document) in *.
  assert (∃ p, previews (db w2) !! document_id = Some p ∧ confirmable organization (principal actor) document_id later (db w2)
    = Ok (p, draft) ∧ Preview.reference_at p = now ∧ Preview.snapshot_hash p = prepared_snapshot prepared0)
    as (p & Hp & Hconf & Href & Hsnap).
  { rewrite Hdb, Hdb1. cbn. rewrite lookup_insert_eq. eexists. split; [done|]. unfold confirmable, own_preview. cbn.
    rewrite lookup_insert_eq. cbn. rewrite !bool_decide_eq_true_2 by done. cbn.
    assert (now + PREVIEW_LIFETIME_MILLISECONDS <=? later = false) as -> by (apply Z.leb_gt; lia). cbn.
    rewrite Hagain. cbn. rewrite Hh. cbn. by rewrite String.eqb_refl. }
  cut (wp (activate capabilities seen organization actor document_id later) w2 (λ r _, ∃ ruleId, r = Ok ruleId)).
  { unfold wp. destruct (activate _ _ _ _ _ _ w2) as [r w4]. cbn. intros [ruleId ->]. by exists ruleId, w4. }
  unfold activate, requireLocalId, guard_input. rewrite Huuid, Hwrites. cbn [negb]. do 7 wp_step. apply from_db_wp. rewrite Hconf. cbn beta iota.
  do 2 wp_step. rewrite Hseen, Hsel. cbn beta iota. do 3 wp_step.
  assert (has_response_rule organization (binding_identity (prepared_response prepared)) (db w2) = false) as ->.
  { apply existsb_false. intros [id r] Hr. apply elem_of_map_to_list in Hr. cbn.
    destruct (bool_decide _) eqn:Ho; [|done]. bool_to_prop. destruct (is_live r) eqn:Hl; [|by rewrite andb_false_r].
    destruct (Hnone id r Hr Ho Hl) as [Hc _]. by rewrite bool_decide_eq_false_2. }
  do 2 wp_step. rewrite Href. unfold wp at 1. rewrite Hprepare. cbn [fst snd]. do 2 wp_step.
  rewrite Hsnap, (Hsame _ _ Hprep0), String.eqb_refl. cbn [negb]. do 2 wp_step.
  assert (existsb (has_started later) (prepared_conflicts prepared) = false) as -> by (by apply existsb_false).
  do 4 wp_step. rewrite Hh. wp_step. eapply wp_mono.
  { apply create_rule_wp; cbn [db]; rewrite ?Hdb3, ?Hissued; [done|done|by exists p|done|done|by rewrite Hids|done]. }
  cbn beta. intros r w4 ->. wp_step. by eexists.
Qed.
End activates.

(** ** Examples *)

Module Samples.
Import ConflictInputs.Samples ConflictResponse.Examples ConflictCoordinator.Samples.
#[local] Existing Instance ConflictResponse.Examples.sample_uuids.

Definition enabled : ConflictResponseCapabilities := {| providerWritesEnabled := true; messageDelivery := "simulated" |}.
Definition me : Actor := {| principal := "me"; actor_kind := "user"; actor_token := None |}.
Definition later : Z := october + 60000.

Definition no_rule : ConflictDb := with_rules (λ _, ∅) (office ∅).

Definition previewed : res failure ConflictResponsePreviewDocument * Transaction.World ConflictDb () ConflictCall :=
  preview enabled (λ d, d) "org" "me" (draft_document rule) october (world no_rule).
Definition previewed_db : ConflictDb := db previewed.2.
Definition activated : res failure string * Transaction.World ConflictDb () ConflictCall :=
  activate enabled previewed_db "org" me "id-0" later previewed.2.

Definition paused_again : res failure () * Transaction.World ConflictDb () ConflictCall :=
  run_command enabled "org" me later (pause_rule previewed_db "id-1" true) activated.2.

Lemma no_availability : availability_of_rules previewed_db.
Proof.
  intros row Hrow. assert (rule_availability previewed_db = []) as Hnone by (vm_compute; reflexivity).
  rewrite Hnone in Hrow. exfalso. exact (not_elem_of_nil _ Hrow).
Qed.

Lemma seen_same : same_identities "org" previewed_db previewed_db.
Proof. apply same_identities_refl. Qed.

Lemma rule_activated : activated = (Ok "id-1", activated.2).
Proof. vm_compute. reflexivity. Qed.

Lemma rule_previewed : ∃ document, previewed = (Ok document, previewed.2) ∧ preview_token document = "id-0".
Proof. eexists. split; [vm_compute; reflexivity|reflexivity]. Qed.

Lemma commands_respect_copies_witness :
  (protected_identities <$> live_rules (copies_of (db activated.2)) !! "id-1")
    = Some [providerCalendarIdentity "fake" "a1" "home"; providerCalendarIdentity "fake" "a2" "kids"] ∧
  copy_step (copies_of previewed_db) (copies_of (db activated.2)).
Proof.
  split; [vm_compute; reflexivity|].
  assert (run_command enabled "org" me later (activate_rule previewed_db "id-0") previewed.2 = (Ok (), activated.2)) as Hrun
    by (vm_compute; reflexivity).
  apply (commands_respect_copies enabled "org" me later (activate_rule previewed_db "id-0") previewed.2 (Ok ()) activated.2
    no_availability seen_same Hrun).
Defined.

Lemma stopped_rules_never_decline_witness :
  nothing_pending "org" "id-1" (db paused_again.2) ∧ Rule.status <$> rules (db paused_again.2) !! "id-1" = Some Rule.paused.
Proof.
  assert (paused_again = (Ok (), paused_again.2)) as Hrun by (vm_compute; reflexivity).
  destruct (stopped_rules_never_decline enabled "org" me later _ "id-1" activated.2 () paused_again.2 Hrun) as [Hpending _].
  - right. exists previewed_db. reflexivity.
  - split; [|vm_compute; reflexivity]. apply Hpending. vm_compute. eexists. reflexivity.
Defined.

Lemma activation_is_confirmed_witness :
  ∃ draft response availability, rule_created "org" me "id-0" "id-1" draft response availability later previewed_db 2 (db activated.2) ∧
    map binding_id availability = ["home"; "kids"].
Proof.
  destruct (activation_is_confirmed enabled "org" me later previewed_db "id-0" previewed.2 (Ok "id-1") activated.2 rule_activated)
    as (_ & p & draft & response & availability & prepared & _ & _ & _ & _ & _ & _ & Hchecked & Hcreated & _).
  exists draft, response, availability. split; [exact Hcreated|].
  pose proof (created_availability _ _ _ _ _ _ _ _ _ _ _ Hcreated) as Hrows.
  apply (f_equal (map Availability.calendar)) in Hrows. rewrite map_app, map_map in Hrows. vm_compute in Hrows.
  symmetry. exact Hrows.
Defined.

Lemma unchanged_previews_activate_witness :
  ∃ w, activate enabled previewed_db "org" me "id-0" later previewed.2 = (Ok "id-1", w).
Proof.
  destruct rule_previewed as (document & Hpreview & Htoken).
  assert (∃ prepared w, prepareConflictResponseInput "org" rule october previewed.2 = (Ok prepared, w) ∧
    (∀ prepared0 w0, prepareConflictResponseInput "org" rule october (world no_rule) = (Ok prepared0, w0) →
       prepared_snapshot prepared = prepared_snapshot prepared0) ∧
    (∀ conflict, conflict ∈ prepared_conflicts prepared → has_started later conflict = false))
    as (prepared & w3 & Hprepare & Hsame & Hfuture).
  { eexists _, _. split; [vm_compute; reflexivity|]. split.
    - intros prepared0 w0 Hrun. apply (f_equal (λ x, match x.1 with Ok p => Some (prepared_snapshot p) | Throw _ => None end)) in Hrun.
      vm_compute in Hrun. injection Hrun as Hrun. exact Hrun.
    - cbn [prepared_conflicts]. intros conflict ->%list_elem_of_singleton. vm_compute. reflexivity. }
  assert (no_response_rule "org" (prepared_response prepared) (db previewed.2)) as Hnone.
  { intros id r Hr. assert (rules (db previewed.2) = ∅) as Hempty by (vm_compute; reflexivity).
    rewrite Hempty, lookup_empty in Hr. discriminate Hr. }
  destruct (unchanged_previews_activate "org" me enabled (λ d, d) (draft_document rule) october later document (world no_rule)
    previewed.2 previewed.2 previewed_db rule prepared w3 Hpreview eq_refl) as (ruleId & w4 & Hrun);
    try reflexivity; try assumption.
  - rewrite Htoken. reflexivity.
  - exact no_availability.
  - rewrite Htoken in Hrun. exists w4. rewrite Hrun. apply (f_equal fst) in Hrun. vm_compute in Hrun. injection Hrun as <-. reflexivity.
Defined.
End Samples.
