(* ===== verification/PolicyService.v ===== *)
(** * Bridges: the commands of the owner

    [server/src/policy/service.ts]: the preview of a bridge, its activation,
    pause and resumption, and the request of a reconciliation. The drafts are in
    [Policies], the inline hours in [HoursDrafts], the recovery of blocked copies
    in [PolicyRecovery]; the listing of bridges is not modelled.

    Activation reads the calendars once before it waits for the locks of
    [Locks]; what the database was then is the argument [seen]. *)

From S2P Require Import Prelude Canonical Locks DestinationEdits Types Dates Text Evaluate PlanningDrafts Temporal Hours Jobs Transaction Policies HoursDrafts ConflictResponse ConflictInputs Store NoCopy Effects Notices Reconciliation.
From stdpp Require Import options.
Open Scope Z_scope.

Definition PREVIEW_OBSERVATION_LIMIT : nat := Z.to_nat 5000.
Definition PREVIEW_LIFETIME_MILLISECONDS : Z := 15 * 60000.

Record PreviewSummary := { summary_token : string; summary_expires_at : string; summary_result : PreviewResult }.

Definition absent {A} (value : option A) : bool := match value with None => true | Some _ => false end.

(** [throw new PolicyInputError(code)] when the condition holds. *)
Definition refuse (condition : bool) (code : string) : res failure () :=
  if condition then Throw (input_error code) else Ok ().

(** ** Documents

    A draft has members this model does not name, which are stored and hashed
    with it and read nowhere. *)

Definition preset_text (p : PrivacyPreset) : string :=
  match p with
  | busy_only => "busy_only" | commitment => "commitment" | private_details => "private_details"
  | shared_details => "shared_details"
  end.
Definition hours_mode_text (m : HoursMode) : string :=
  match m with
  | all_times => "all_times" | overlaps_profile => "overlaps_profile" | contained_in_profile => "contained_in_profile"
  end.
Definition rsvp_text (r : RsvpSelection) : string :=
  match r with rsvp_busy => "busy" | rsvp_free => "free" | rsvp_omit => "omit" end.

Definition privacy_document (p : PrivacyPolicy) : json :=
  JObject [("preset", JString (preset_text (preset p))); ("preset_version", int 1);
    ("generic_summary", JString (generic_summary p)); ("copy_summary", JBool (copy_summary p));
    ("copy_description", JBool (copy_description p)); ("copy_location", JBool (copy_location p));
    ("copy_conference", JBool (copy_conference p)); ("copy_attendees", JBool (copy_attendees p));
    ("copy_organizer", JBool (copy_organizer p))].

Definition selection_document (s : SelectionPolicy) : json :=
  JObject [("timed", JString (match timed_selection s with timed_include => "include" | timed_skip => "skip" end));
    ("all_day", JString (match all_day_selection s with
                         | all_day_skip => "skip" | all_day_busy_only => "busy_only" | all_day_all => "all" end));
    ("free_events", JString (match free_events s with
       | skip_when_redacted => "skip_when_redacted" | preserve_free => "preserve_free" | force_busy => "force_busy" end));
    ("tentative", JString (rsvp_text (tentative_selection s)));
    ("unanswered", JString (rsvp_text (unanswered_selection s)));
    ("skip_when_destination_identity_invited", JBool (skip_when_destination_identity_invited s));
    ("source_exclusion_marker", JString (source_exclusion_marker s));
    ("manual_exclusions", JArray (map JString (manual_exclusions s)))].

Definition hours_document (h : HoursMode * option string) : json :=
  JObject [("mode", JString (hours_mode_text h.1));
           ("profile_ref", match h.2 with Some ref => JString ref | None => JUndefined end)].

Definition optional {A} (f : A → json) (value : option A) : json := match value with Some a => f a | None => JUndefined end.

(** The draft with [hours_profile_id] as it is in the document: absent or [null]. *)
Definition draft_json (hoursProfileId : json) (d : PolicyDraft) : json :=
  JObject [("name", JString (draft_name d)); ("source_calendar_id", JString (source_calendar_id d));
    ("destination_calendar_id", JString (destination_calendar_id d)); ("hours_profile_id", hoursProfileId);
    ("hours", optional hours_document (draft_hours d)); ("hours_profile", draft_hours_profile d);
    ("privacy", privacy_document (draft_privacy d)); ("selection", selection_document (draft_selection d));
    ("destination", optional (λ color, JObject [("color", JString color)]) (draft_color d));
    ("destination_edits", draft_destination_edits d);
    ("horizon", optional (λ h, JObject [("past_days", int (past_days h)); ("future_days", int (future_days h))])
                  (draft_horizon d))].

Definition cursor_state_text (s : SyncCursor.CursorState) : string :=
  match s with
  | SyncCursor.full_required => "full_required" | SyncCursor.syncing => "syncing"
  | SyncCursor.ready => "ready" | SyncCursor.action_required => "action_required"
  end.

(** The columns of a cursor that a fingerprint covers; a [bigint] is read as a text. *)
Definition cursor_json (c : SyncCursor.CursorRow) : json :=
  JObject [("query_fingerprint", JString (SyncCursor.query_fingerprint c));
    ("generation", JString (pretty (SyncCursor.generation c))); ("sync_token", text_json (SyncCursor.sync_token c));
    ("state", JString (cursor_state_text (SyncCursor.state c)))].

Definition policyDraftForPersistence (draft : PolicyDraft) (hoursProfileId : option string) : PolicyDraft :=
  let mode := match draft_hours draft with
    | Some (mode, _) => mode
    | None => if truthy hoursProfileId then overlaps_profile else all_times
    end in
  {| draft_name := draft_name draft; source_calendar_id := source_calendar_id draft;
     destination_calendar_id := destination_calendar_id draft; hours_profile_id := hoursProfileId;
     draft_hours := Some (mode, if negb (bool_decide (mode = all_times)) then non_empty hoursProfileId else None);
     draft_hours_profile := JUndefined; draft_privacy := draft_privacy draft; draft_selection := draft_selection draft;
     draft_color := draft_color draft;
     draft_destination_edits := policy_document (normalizeDestinationEditPolicy (draft_destination_edits draft));
     draft_horizon := draft_horizon draft |}.

(** ** Checks *)

Section checks.
Context `{Unicode} `{Digest} `{TimeZones} `{Uuids}.

Definition requirePolicyDraftIds (draft : PolicyDraft) : res failure () :=
  refuse (negb (validateUuid (source_calendar_id draft)) || negb (validateUuid (destination_calendar_id draft))
          || match hours_profile_id draft with Some id => negb (validateUuid id) | None => false end) "invalid_policy".

Definition requireLocalPolicyId (value : string) : res failure () := refuse (negb (validateUuid value)) "invalid_request".

(** What a draft is refused for before anything is read; its inline hours. *)
Definition check_draft (draft : PolicyDraft) : res failure (option InlineHoursProfile) :=
  let saved := truthy (hours_profile_id draft) in
  let edits := draft_destination_edits draft in
  _ ← requirePolicyDraftIds draft;
  _ ← refuse (source_calendar_id draft =? destination_calendar_id draft)%string "same_calendar";
  _ ← refuse (saved && json_truthy (draft_hours_profile draft)) "invalid_hours_profile";
  _ ← refuse (is_defined edits && absent (isDestinationEditPolicy edits)) "invalid_destination_edits";
  inline ← (if json_truthy (draft_hours_profile draft)
            then Some <$> validateInlineHoursProfile (draft_hours_profile draft) else Ok None);
  let has_hours := saved || negb (absent inline) in
  let hoursMode := match draft_hours draft with
    | Some (mode, _) => mode
    | None => if has_hours then overlaps_profile else all_times
    end in
  _ ← refuse (negb (bool_decide (hoursMode = all_times)) && negb has_hours) "invalid_hours_profile";
  _ ← refuse (bool_decide (hoursMode = all_times) && has_hours) "invalid_hours_profile";
  Ok inline.

Record PolicyCalendarCapability := {
  capability_id : string;
  capability_connection : string;
  capability_remote : string;
  capability_readable : bool;
  capability_writable : bool;
  capability_capabilities : json;
  capability_provider : string;
  capability_role : string;
  capability_status : string;
}.

Definition capability_row (organization : string) (d : Db) (id : string) : option PolicyCalendarCapability :=
  e ← calendar_endpoints d !! id;
  c ← provider_connections d !! Endpoint.connection e;
  if bool_decide (Endpoint.organization e = organization)
  then Some {| capability_id := id; capability_connection := Endpoint.connection e;
               capability_remote := Endpoint.remote_id e; capability_readable := Endpoint.readable e;
               capability_writable := Endpoint.writable e; capability_capabilities := Endpoint.capabilities e;
               capability_provider := Connection.provider c; capability_role := Connection.intended_role c;
               capability_status := Connection.status c |}
  else None.

Definition loadPolicyCalendarCapabilities (organization source destination : string) (d : Db)
    : list PolicyCalendarCapability :=
  omap (capability_row organization d) [source; destination].

Definition capability_identity (c : PolicyCalendarCapability) : string :=
  providerCalendarIdentity (capability_provider c) (capability_connection c) (capability_remote c).

Definition requirePolicyCalendars (source destination : string) (calendars : list PolicyCalendarCapability)
    : res failure (PolicyCalendarCapability * PolicyCalendarCapability) :=
  let found id := find (λ c, (capability_id c =? id)%string) calendars in
  match found source, found destination with
  | Some s, Some t =>
      if negb (capability_status s =? "active")%string || negb (capability_readable s)
         || negb (includes ["source"; "both"] (capability_role s))
         || negb (capability_status t =? "active")%string || negb (capability_writable t)
         || negb (includes ["destination"; "both"] (capability_role t))
      then Throw (input_error "calendar_capability")
      else if (capability_identity s =? capability_identity t)%string then Throw (input_error "same_provider_calendar")
      else Ok (s, t)
  | _, _ => Throw (input_error "calendar_capability")
  end.

Definition policy_calendars (organization source destination : string) (d : Db)
    : res failure (PolicyCalendarCapability * PolicyCalendarCapability) :=
  requirePolicyCalendars source destination (loadPolicyCalendarCapabilities organization source destination d).

Definition requireNoConflictResponseRule (organization : string) (identities : list string) (d : Db) : res failure () :=
  refuse (existsb (λ '(_, r), bool_decide (ConflictRule.organization r = organization) && ConflictRule.live r
            && existsb (includes identities) (ConflictRule.protected r)) (map_to_list (conflict_rules d)))
    "no_copy_rule_conflict".

Definition requireCompletedCursor (cursor : option SyncCursor.CursorRow) (code : string) : res failure () :=
  match cursor with
  | Some c => refuse (negb (bool_decide (SyncCursor.state c = SyncCursor.ready)) || negb (truthy (SyncCursor.sync_token c))) code
  | None => Throw (input_error code)
  end.

Definition cursor_rows (organization calendar fingerprint : string) (d : Db) : list SyncCursor.CursorRow :=
  List.filter (λ c, bool_decide (SyncCursor.organization c = organization)
                    && bool_decide (SyncCursor.calendar c = calendar)
                    && bool_decide (SyncCursor.query_fingerprint c = fingerprint))
    (map snd (map_to_list (sync_cursors d))).

Definition isCompletePreviewResult (value : PreviewResult) : bool :=
  result_complete value && negb (includes (result_warnings value) "preview_truncated").
End checks.

(** ** Preview *)

Definition resultCountKey (r : PolicyEvaluationResult) : string :=
  match result_selection r with
  | Selection.included =>
      match Types.operation r with Operation.none => "unchanged" | op => evaluation_operation_text op end
  | _ => "excluded"
  end.

(** [counts[key] = (counts[key] ?? 0) + 1]. *)
Fixpoint count_key (key : string) (counts : list (string * Z)) : list (string * Z) :=
  match counts with
  | [] => [(key, 1)]
  | (k, n) :: rest => if (k =? key)%string then (k, n + 1) :: rest else (k, n) :: count_key key rest
  end.

Record Tally := {
  tally_counts : list (string * Z);
  tally_excluded : list (string * Z);
  tally_disclosure : option DisclosureManifest;
  tally_examples : list PreviewExample;
}.

Definition no_results : Tally :=
  {| tally_counts := [("create", 0); ("update", 0); ("delete", 0); ("unchanged", 0); ("excluded", 0)];
     tally_excluded := []; tally_disclosure := None; tally_examples := [] |}.

Definition tally_result (o : Observation.ObservationRow) (r : PolicyEvaluationResult) (t : Tally) : Tally :=
  let decision := resultCountKey r in
  {| tally_counts := count_key decision (tally_counts t);
     tally_excluded := if (decision =? "excluded")%string
                       then fold_left (λ l reason, count_key (reason_text reason) l) (reason_codes r) (tally_excluded t)
                       else tally_excluded t;
     tally_disclosure := match tally_disclosure t with Some m => Some m | None => disclosure_manifest r end;
     tally_examples := if (length (tally_examples t) <? 3)%nat
                       then tally_examples t ++ [{| example_hash := Observation.observation_hash o;
                              example_decision := decision; example_reasons := reason_codes r;
                              example_disclosure := disclosure_manifest r |}]
                       else tally_examples t |}.

(** The rows a preview evaluates: [order by observed_at desc limit], rows of one
    time in the order of their ids. *)
Definition previewed_leb (left right : string * Observation.ObservationRow) : bool :=
  (Observation.observed_at right.2 <? Observation.observed_at left.2)
  || ((Observation.observed_at left.2 =? Observation.observed_at right.2) && text_leb left.1 right.1).

Definition previewed_rows (organization calendar : string) (d : Db) : list (string * Observation.ObservationRow) :=
  List.filter (λ '(_, o), bool_decide (Observation.organization o = organization)
      && bool_decide (Observation.calendar o = calendar)
      && negb (Observation.tombstone o) && negb (Observation.managed_copy o))
    (map_to_list (source_observations d)).

Definition previewed_observations (organization calendar : string) (d : Db) : list (string * Observation.ObservationRow) :=
  take (S PREVIEW_OBSERVATION_LIMIT) (sort_by previewed_leb (previewed_rows organization calendar d)).

(** What the evaluations share. *)
Record PreviewPolicy := {
  preview_policy : SyncPolicy;
  preview_capabilities : DestinationCapabilities;
  preview_hours : option HoursProfile;
  preview_horizon : Horizon;
}.

Definition preview_of (draft : PolicyDraft) (destination : PolicyCalendarCapability) (hoursProfile : option HoursProfile)
    : PreviewPolicy :=
  {| preview_policy := compilePolicyDraft draft "preview" 1 Types.active (profile_ref <$> hoursProfile);
     preview_capabilities := destinationCapabilities (capability_capabilities destination) (capability_writable destination);
     preview_hours := hoursProfile; preview_horizon := horizon_of draft |}.

Definition preview_input (c : PreviewPolicy) (id : string) (o : Observation.ObservationRow) (now : Z)
    : PolicyEvaluationInput :=
  evaluation_input (preview_policy c) (preview_capabilities c) (preview_hours c) (Observation.event o)
    (preview_horizon c) ("preview:" +:+ id) None now.

Section preview.
Context {R C : Type} `{NewId} `{Unicode} `{Digest} `{Temporal} `{TimeZones} `{Uuids}.
Local Notation M := (Transaction.M Db R C).

Fixpoint evaluate_observations (c : PreviewPolicy) (now : Z) (rows : list (string * Observation.ObservationRow)) (t : Tally)
    : res failure Tally :=
  match rows with
  | [] => Ok t
  | (id, o) :: rows =>
      r ← evaluate (preview_input c id o now);
      evaluate_observations c now rows (tally_result o r t)
  end.

(** The profile of the evaluation: inline, under the hash of its document, or saved. *)
Definition preview_profile (organization : string) (draft : PolicyDraft) (inline : option InlineHoursProfile) (d : Db)
    : res failure (option HoursProfile) :=
  match inline with
  | Some profile => inlineHash ← hash (inline_json profile); Ok (Some (profile_of ("inline:" +:+ inlineHash) 1 profile))
  | None =>
      let saved := load_hours organization (hours_profile_id draft) d in
      _ ← refuse (truthy (hours_profile_id draft) && absent saved) "hours_profile_not_found";
      Ok saved
  end.

Definition insert_policy_preview (id : string) (row : PolicyPreview.PreviewRow) : M () :=
  taken ← read_db (λ d, bool_decide (is_Some (policy_previews d !! id)));
  if taken : bool then throw (unique_violation "policy_previews_pkey")
  else write_db (with_policy_previews (λ t, <[id := row]> t)).

Definition from_store {A} (f : Db → res failure A) : M A := d ← read_db (λ d, d); lift (f d).

(** The statements are no transaction: [interfere n] is what others do before
    the n-th of them. *)
Definition preview (interfere : nat → Db → Db) (organization principalId : string) (draft : PolicyDraft) (now : Z)
    : M PreviewSummary :=
  let calendar := source_calendar_id draft in
  inline ← lift (check_draft draft);
  selection ← from_store (policy_calendars organization calendar (destination_calendar_id draft));
  let '(source, destination) := selection in
  _ ← write_db (interfere 1%nat);
  _ ← from_store (requireNoConflictResponseRule organization [capability_identity source; capability_identity destination]);
  queryFingerprint ← lift (calendarSyncQueryFingerprint (capability_provider source) (capability_remote source));
  _ ← write_db (interfere 2%nat);
  initialRows ← read_db (cursor_rows organization calendar queryFingerprint);
  _ ← lift (requireCompletedCursor (head initialRows) "source_sync_incomplete");
  initialCursorFingerprint ← lift (hash (JArray (map cursor_json (take 1 initialRows))));
  _ ← write_db (interfere 3%nat);
  observations ← read_db (previewed_observations organization calendar);
  _ ← lift (refuse (PREVIEW_OBSERVATION_LIMIT <? length observations)%nat "preview_incomplete");
  _ ← write_db (interfere 4%nat);
  hoursProfile ← from_store (preview_profile organization draft inline);
  tally ← lift (evaluate_observations (preview_of draft destination hoursProfile) now observations no_results);
  policyHash ← lift (hash (draft_json (optional JString (hours_profile_id draft)) draft));
  _ ← write_db (interfere 5%nat);
  cursorRows ← read_db (cursor_rows organization calendar queryFingerprint);
  _ ← lift (requireCompletedCursor (head cursorRows) "source_sync_incomplete");
  cursorFingerprint ← lift (hash (JArray (map cursor_json cursorRows)));
  _ ← lift (refuse (negb (cursorFingerprint =? initialCursorFingerprint)%string) "source_sync_incomplete");
  _ ← write_db (interfere 6%nat);
  id ← fresh_id;
  let expiresAt := now + PREVIEW_LIFETIME_MILLISECONDS in
  let resultDocument := {| result_complete := true; result_counts := tally_counts tally;
    excluded_by_reason := tally_excluded tally; result_disclosure := tally_disclosure tally;
    result_examples := tally_examples tally; result_warnings := [] |} in
  _ ← insert_policy_preview id
    {| PolicyPreview.organization := organization; PolicyPreview.principal := principalId;
       PolicyPreview.document := draft; PolicyPreview.hash := policyHash;
       PolicyPreview.cursor_fingerprint := cursorFingerprint; PolicyPreview.result := resultDocument;
       PolicyPreview.expires_at := expiresAt; PolicyPreview.consumed_at := None |};
  mret {| summary_token := id; summary_expires_at := toISOString expiresAt; summary_result := resultDocument |}.
End preview.

(** ** Activation *)

Definition bridge_fact (organization : string) (actor : Actor) (action policyId reasonCode : string)
    (before after : option string) (detail : list (string * json)) (now : Z) : Audit.AuditFact :=
  {| Audit.organization := organization; Audit.principal := Some (principal actor); Audit.actor_kind := actor_kind actor;
     Audit.action := action; Audit.target_type := "sync_policy"; Audit.target := policyId;
     Audit.reason_code := reasonCode; Audit.before_hash := before; Audit.after_hash := after;
     Audit.detail := auditActorDetail detail actor; Audit.created_at := now |}.

Definition reconcile_job_key (policyId : string) (revision : Z) : string :=
  "policy:" +:+ policyId +:+ ":revision:" +:+ pretty revision.

(** What [activate] locks, and [setPaused] for a resumption. *)
Definition bridge_locks (source destination sourceIdentity destinationIdentity : string) : list string :=
  [source; destination; providerCalendarProtectionKey sourceIdentity; providerCalendarProtectionKey destinationIdentity].

Definition status_text (status : Policy.PolicyStatus) : string :=
  match status with Policy.active => "active" | Policy.paused => "paused" | Policy.deleted => "deleted" end.

(** The columns of the inserted profile; [version] is 1 by default. *)
Definition hours_row (organization : string) (p : InlineHoursProfile) : HoursRow.HoursProfileRow :=
  {| HoursRow.organization := organization; HoursRow.version := 1; HoursRow.timezone := inline_timezone p;
     HoursRow.ambiguous_resolution := inline_ambiguous p; HoursRow.nonexistent_resolution := inline_nonexistent p;
     HoursRow.weekly_intervals := map weekly_of_json (inline_weekly p);
     HoursRow.exceptions := map exception_of_json (inline_exceptions p) |}.

Definition new_policy (organization : string) (draft persisted : PolicyDraft) (sourceIdentity destinationIdentity : string)
    (hoursProfileId : option string) (policyHash : string) (now : Z) : Policy.PolicyRow :=
  {| Policy.organization := organization; Policy.source_calendar := source_calendar_id draft;
     Policy.destination_calendar := destination_calendar_id draft; Policy.source_identity := sourceIdentity;
     Policy.destination_identity := destinationIdentity; Policy.hours_profile := hoursProfileId;
     Policy.status := Policy.active; Policy.revision := 1; Policy.document := persisted; Policy.hash := policyHash;
     Policy.last_success_at := None; Policy.safe_error_code := None; Policy.updated_at := now |}.

(** The unique index on the route and the hash of live bridges. *)
Definition route_taken (row : Policy.PolicyRow) (d : Db) : bool :=
  existsb (λ '(_, p), bool_decide (Policy.organization p = Policy.organization row)
      && bool_decide (Policy.source_calendar p = Policy.source_calendar row)
      && bool_decide (Policy.destination_calendar p = Policy.destination_calendar row)
      && bool_decide (Policy.hash p = Policy.hash row) && negb (bool_decide (Policy.status p = Policy.deleted)))
    (map_to_list (sync_policies d)).

(** A preview that is used. *)
Definition consume (now : Z) (p : PolicyPreview.PreviewRow) : PolicyPreview.PreviewRow :=
  {| PolicyPreview.organization := PolicyPreview.organization p; PolicyPreview.principal := PolicyPreview.principal p;
     PolicyPreview.document := PolicyPreview.document p; PolicyPreview.hash := PolicyPreview.hash p;
     PolicyPreview.cursor_fingerprint := PolicyPreview.cursor_fingerprint p; PolicyPreview.result := PolicyPreview.result p;
     PolicyPreview.expires_at := PolicyPreview.expires_at p; PolicyPreview.consumed_at := Some now |}.

(** The status a command sets. *)
Definition with_status (status : Policy.PolicyStatus) (now : Z) (p : Policy.PolicyRow) : Policy.PolicyRow :=
  {| Policy.organization := Policy.organization p; Policy.source_calendar := Policy.source_calendar p;
     Policy.destination_calendar := Policy.destination_calendar p; Policy.source_identity := Policy.source_identity p;
     Policy.destination_identity := Policy.destination_identity p; Policy.hours_profile := Policy.hours_profile p;
     Policy.status := status; Policy.revision := Policy.revision p; Policy.document := Policy.document p;
     Policy.hash := Policy.hash p; Policy.last_success_at := Policy.last_success_at p;
     Policy.safe_error_code := Policy.safe_error_code p; Policy.updated_at := now |}.

(** The row [id] of the organisation, unless it is deleted. *)
Definition live_policy (organization id : string) (d : Db) : option Policy.PolicyRow :=
  p ← sync_policies d !! id;
  if bool_decide (Policy.organization p = organization) && negb (bool_decide (Policy.status p = Policy.deleted))
  then Some p else None.

(** Effects that a pause deferred are due again. *)
Definition deferred_by_pause (policyId : string) (revision : Z) (e : Effect.EffectRow) : bool :=
  bool_decide (Effect.policy e = policyId) && (Effect.policy_revision e =? revision)
  && bool_decide (Effect.state e = retry) && bool_decide (Effect.safe_error_code e = Some "policy_paused").

Definition wake_effect (now : Z) (e : Effect.EffectRow) : Effect.EffectRow :=
  {| Effect.organization := Effect.organization e; Effect.policy := Effect.policy e;
     Effect.projection := Effect.projection e; Effect.source_basis_hash := Effect.source_basis_hash e;
     Effect.policy_revision := Effect.policy_revision e; Effect.operation := Effect.operation e;
     Effect.idempotency_key := Effect.idempotency_key e; Effect.desired_state := Effect.desired_state e;
     Effect.state := Effect.state e; Effect.attempt_count := Effect.attempt_count e; Effect.run_after := now;
     Effect.lease_owner := Effect.lease_owner e; Effect.lease_expires_at := Effect.lease_expires_at e;
     Effect.ambiguous := Effect.ambiguous e; Effect.safe_error_code := None; Effect.created_at := Effect.created_at e;
     Effect.updated_at := now |}.

Section commands.
Context {R C : Type} `{NewId} `{Unicode} `{Digest} `{TimeZones} `{Uuids}.
Local Notation M := (Transaction.M Db R C).

(** The preview, when it may still be confirmed. *)
Definition confirmable_preview (organization principalId previewId : string) (now : Z) (d : Db)
    : res failure PolicyPreview.PreviewRow :=
  let own := p ← policy_previews d !! previewId;
    if bool_decide (PolicyPreview.organization p = organization) && bool_decide (PolicyPreview.principal p = principalId)
    then Some p else None in
  p ← otherwise own (input_error "preview_stale");
  _ ← refuse (negb (absent (PolicyPreview.consumed_at p)) || (PolicyPreview.expires_at p <=? now)) "preview_stale";
  _ ← refuse (negb (isCompletePreviewResult (PolicyPreview.result p))) "preview_stale";
  Ok p.

(** The cursor of the source is where the preview left it. *)
Definition check_cursor (organization : string) (source : PolicyCalendarCapability) (fingerprint : string) (d : Db)
    : res failure () :=
  queryFingerprint ← calendarSyncQueryFingerprint (capability_provider source) (capability_remote source);
  let cursorRows := cursor_rows organization (capability_id source) queryFingerprint d in
  _ ← requireCompletedCursor (head cursorRows) "preview_stale";
  cursorFingerprint ← hash (JArray (map cursor_json cursorRows));
  refuse (negb (cursorFingerprint =? fingerprint)%string) "preview_stale".

(** The calendars are still the ones that were selected. *)
Definition check_calendars (organization source destination sourceIdentity destinationIdentity code : string) (d : Db)
    : res failure PolicyCalendarCapability :=
  selection ← policy_calendars organization source destination d;
  _ ← refuse (negb (capability_identity selection.1 =? sourceIdentity)%string
              || negb (capability_identity selection.2 =? destinationIdentity)%string) code;
  Ok selection.1.

(** The hours of a new bridge: an inline profile is saved. *)
Definition save_hours (organization : string) (draft : PolicyDraft) : M (option string) :=
  inline ← lift (if json_truthy (draft_hours_profile draft)
                 then Some <$> validateInlineHoursProfile (draft_hours_profile draft) else Ok None);
  match inline with
  | Some profile =>
      hoursProfileId ← fresh_id;
      _ ← write_db (with_hours_profiles (λ t, <[hoursProfileId := hours_row organization profile]> t));
      mret (Some hoursProfileId)
  | None => mret (hours_profile_id draft)
  end.

Definition insert_policy (id : string) (row : Policy.PolicyRow) : M () :=
  taken ← read_db (λ d, bool_decide (is_Some (sync_policies d !! id)));
  same_route ← read_db (route_taken row);
  if taken : bool then throw (unique_violation "sync_policies_pkey")
  else if same_route : bool then throw (unique_violation "sync_policy_active_route_idx")
  else write_db (with_policies (λ t, <[id := row]> t)).

Definition consume_policy_preview (previewId : string) (now : Z) : M () :=
  row ← read_db (λ d, policy_previews d !! previewId);
  match row with
  | Some p => write_db (with_policy_previews (λ t, <[previewId := consume now p]> t))
  | None => throw no_result
  end.

(** [insert into audit_facts]. *)
Definition record_bridge_fact (fact : Audit.AuditFact) : M () := _ ← fresh_id; write_db (with_audit fact).

(** The rows of a new bridge. *)
Definition create_policy (organization : string) (actor : Actor) (previewId : string) (draft : PolicyDraft)
    (sourceIdentity destinationIdentity : string) (now : Z) : M (string * Z) :=
  hoursProfileId ← save_hours organization draft;
  let persistedDraft := policyDraftForPersistence draft hoursProfileId in
  persistedPolicyHash ← lift (hash (draft_json (text_json hoursProfileId) persistedDraft));
  id ← fresh_id;
  _ ← insert_policy id (new_policy organization draft persistedDraft sourceIdentity destinationIdentity hoursProfileId
        persistedPolicyHash now);
  _ ← consume_policy_preview previewId now;
  _ ← record_bridge_fact (bridge_fact organization actor "policy.activated" id "preview_confirmed" None
        (Some persistedPolicyHash) [("policy_revision", int 1)] now);
  _ ← enqueue_job organization "reconcile_policy" (reconcile_job_key id 1) [("policy_id", JString id)] now;
  mret (id, 1).

Definition activate (seen : Db) (organization : string) (actor : Actor) (previewId : string) (now : Z) : M (string * Z) :=
  _ ← lift (requireLocalPolicyId previewId);
  transaction (
    p ← from_store (confirmable_preview organization (principal actor) previewId now);
    let draft := PolicyPreview.document p in
    let source := source_calendar_id draft in
    let destination := destination_calendar_id draft in
    initial ← lift (policy_calendars organization source destination seen);
    let sourceIdentity := capability_identity initial.1 in
    let destinationIdentity := capability_identity initial.2 in
    _ ← from_store (requireNoConflictResponseRule organization [sourceIdentity; destinationIdentity]);
    current ← from_store (check_calendars organization source destination sourceIdentity destinationIdentity "preview_stale");
    _ ← from_store (check_cursor organization current (PolicyPreview.cursor_fingerprint p));
    create_policy organization actor previewId draft sourceIdentity destinationIdentity now).

(** ** Commands on a bridge *)

Definition set_policy (id : string) (f : Policy.PolicyRow → Policy.PolicyRow) : M () :=
  row ← read_db (λ d, sync_policies d !! id);
  match row with
  | Some p => write_db (with_policies (λ t, <[id := f p]> t))
  | None => throw no_result
  end.

(** What a resumption checks once it has its locks. *)
Definition check_resumption (organization : string) (p : Policy.PolicyRow) : M () :=
  _ ← from_store (requireNoConflictResponseRule organization [Policy.source_identity p; Policy.destination_identity p]);
  _ ← from_store (check_calendars organization (Policy.source_calendar p) (Policy.destination_calendar p)
        (Policy.source_identity p) (Policy.destination_identity p) "connection_role_changed");
  mret ().

Definition setPaused (organization : string) (actor : Actor) (id : string) (paused : bool) (now : Z) : M () :=
  _ ← lift (requireLocalPolicyId id);
  transaction (
    row ← read_db (live_policy organization id);
    policy ← lift (otherwise row (input_error "not_found"));
    _ ← (if paused then mret () else check_resumption organization policy);
    let nextStatus := if paused then Policy.paused else Policy.active in
    _ ← set_policy id (with_status nextStatus now);
    _ ← (if paused then mret ()
         else write_db (with_effects (fmap (λ e,
                if deferred_by_pause id (Policy.revision policy) e then wake_effect now e else e))));
    _ ← record_bridge_fact (bridge_fact organization actor (if paused then "policy.paused" else "policy.resumed") id
          "user_command" (Some (Policy.hash policy)) (Some (Policy.hash policy))
          [("previous_status", JString (status_text (Policy.status policy))); ("status", JString (status_text nextStatus))] now);
    if paused then mret ()
    else enqueue_job organization "reconcile_policy" (reconcile_job_key id (Policy.revision policy))
           [("policy_id", JString id)] now).

Definition requestReconcile (organization id : string) (actor : Actor) (now : Z) : M (option string) :=
  _ ← lift (requireLocalPolicyId id);
  transaction (
    row ← read_db (live_policy organization id);
    policy ← lift (otherwise row (input_error "not_found"));
    job ← enqueue_job_id organization "reconcile_policy" (reconcile_job_key id (Policy.revision policy))
            [("policy_id", JString id)] now;
    _ ← record_bridge_fact (bridge_fact organization actor "policy.reconcile_requested" id "user_command"
          (Some (Policy.hash policy)) (Some (Policy.hash policy)) [("enqueued", JBool (negb (absent job)))] now);
    mret job).
End commands.

(** ** Runs *)

Lemma unrefused condition code u : refuse condition code = Ok u ↔ condition = false.
Proof. unfold refuse. destruct condition, u; naive_solver. Qed.

Section service_runs.
Context {R C : Type} `{NewId} `{Unicode} `{Digest} `{TimeZones} `{Uuids}.
Implicit Types w : Transaction.World Db R C.

Lemma run_store {A} (f : Db → res failure A) w a w' : from_store f w = (Ok a, w') → f (db w) = Ok a ∧ w' = w.
Proof using Type. unfold from_store. intros (d & w1 & [-> ->]%run_read & Hf)%run_bind. by apply run_lift in Hf. Qed.

Lemma run_set_policy id f w u w' :
  set_policy id f w = (Ok u, w') →
  ∃ p, sync_policies (db w) !! id = Some p ∧ w' = at_db (with_policies (λ t, <[id := f p]> t) (db w)) w.
Proof using Type.
  unfold set_policy. intros (row & w1 & [-> ->]%run_read & Hrun)%run_bind.
  destruct (sync_policies (db w) !! id) as [p|]; [|done]. apply run_write in Hrun as ->. by exists p.
Qed.

Lemma run_bridge_fact fact w u w' : record_bridge_fact fact w = (Ok u, w') →
  db w' = with_audit fact (db w) ∧ issued w' = S (issued w) ∧ calls w' = calls w.
Proof using Type. unfold record_bridge_fact. intros (i & w1 & [_ ->]%run_fresh & ->%run_write)%run_bind. done. Qed.

(** A job that is enqueued changes the jobs only, and waits. *)
Lemma run_enqueue_job organization kind dedupeKey payload now w out w' :
  enqueue_job_id organization kind dedupeKey payload now w = (out, w') →
  ∃ jobs', db w' = with_jobs (λ _, jobs') (db w) ∧ issued w' = S (issued w) ∧ calls w' = calls w ∧ is_Some (match out with Ok o => Some o | _ => None end) ∧
    (scheduled_jobs (db w) !! newId (issued w) = None → job_waits organization kind dedupeKey (db w')).
Proof using Type.
  intros Hrun. refine (wp_run _ _ (λ out w', _) _ _ _ Hrun). apply enqueue_job_id_wp.
  intros o jobs' _ _ Hhas. cbn. exists jobs'. split_and!; [done..|by eexists|done].
Qed.

Lemma run_enqueue_bridge organization kind dedupeKey payload now w u w' :
  enqueue_job organization kind dedupeKey payload now w = (u, w') →
  ∃ jobs', db w' = with_jobs (λ _, jobs') (db w) ∧ u = Ok () ∧
    (scheduled_jobs (db w) !! newId (issued w) = None → job_waits organization kind dedupeKey (db w')).
Proof using Type.
  unfold enqueue_job. rewrite bind_run. destruct (enqueue_job_id _ _ _ _ _ w) as [[out|e] w1] eqn:Hq;
    apply run_enqueue_job in Hq as (jobs' & Hdb & _ & _ & Hout & Hwaits); [|by destruct Hout].
  intros [= <- <-]. by exists jobs'.
Qed.

Lemma confirmable_preview_spec organization principalId previewId now d p :
  confirmable_preview organization principalId previewId now d = Ok p →
  policy_previews d !! previewId = Some p ∧ PolicyPreview.organization p = organization ∧
  PolicyPreview.principal p = principalId ∧ PolicyPreview.consumed_at p = None ∧ now < PolicyPreview.expires_at p ∧
  isCompletePreviewResult (PolicyPreview.result p) = true.
Proof using Type.
  unfold confirmable_preview. intros (p' & Hp%otherwise_Some & H6)%bind_Ok_inv.
  destruct (policy_previews d !! previewId) as [p0|] eqn:Hrow; cbn in Hp; [|done]. destruct (_ && _) eqn:Hown; [|done].
  injection Hp as ->. bool_to_prop. apply bind_Ok_inv in H6 as (u & Hst%unrefused & H6).
  apply bind_Ok_inv in H6 as (u' & Hc%unrefused & [= <-]). apply negb_false_iff in Hc.
  apply orb_false_iff in Hst as [Hcons Hexp]. bool_to_prop. split_and!; try done.
  by destruct (PolicyPreview.consumed_at p').
Qed.

(** ** What activation checks, and what it leaves *)

Record bridge_checked (seen : Db) (organization : string) (actor : Actor) (previewId : string) (now : Z) (d : Db)
    (p : PolicyPreview.PreviewRow) (source destination current : PolicyCalendarCapability) : Prop := {
  bridge_preview : confirmable_preview organization (principal actor) previewId now d = Ok p;
  bridge_calendars : policy_calendars organization (source_calendar_id (PolicyPreview.document p))
    (destination_calendar_id (PolicyPreview.document p)) seen = Ok (source, destination);
  bridge_unprotected :
    requireNoConflictResponseRule organization [capability_identity source; capability_identity destination] d = Ok ();
  bridge_current : check_calendars organization (source_calendar_id (PolicyPreview.document p))
    (destination_calendar_id (PolicyPreview.document p)) (capability_identity source) (capability_identity destination)
    "preview_stale" d = Ok current;
  bridge_cursor : check_cursor organization current (PolicyPreview.cursor_fingerprint p) d = Ok ();
}.

Record bridge_created (organization : string) (actor : Actor) (previewId : string) (p : PolicyPreview.PreviewRow)
    (sourceIdentity destinationIdentity : string) (now : Z) (d : Db) (n : nat) (policyId : string) (d' : Db) : Prop := {
  bridge_new : sync_policies d !! policyId = None;
  bridge_row : ∃ hoursProfileId policyHash,
    hash (draft_json (text_json hoursProfileId) (policyDraftForPersistence (PolicyPreview.document p) hoursProfileId))
      = Ok policyHash ∧
    (json_truthy (draft_hours_profile (PolicyPreview.document p)) = false → hoursProfileId = hours_profile_id (PolicyPreview.document p)) ∧
    (∀ profile, json_truthy (draft_hours_profile (PolicyPreview.document p)) = true →
      validateInlineHoursProfile (draft_hours_profile (PolicyPreview.document p)) = Ok profile →
      ∃ i, hoursProfileId = Some i ∧ hours_profiles d' !! i = Some (hours_row organization profile)) ∧
    sync_policies d' = <[policyId := new_policy organization (PolicyPreview.document p)
      (policyDraftForPersistence (PolicyPreview.document p) hoursProfileId) sourceIdentity destinationIdentity
      hoursProfileId policyHash now]> (sync_policies d);
  bridge_consumed : policy_previews d' = <[previewId := consume now p]> (policy_previews d);
  bridge_job : fresh_jobs n d → job_waits organization "reconcile_policy" (reconcile_job_key policyId 1) d';
  bridge_rest : source_observations d' = source_observations d ∧ projections d' = projections d ∧
    outbox_effects d' = outbox_effects d ∧ conflict_rules d' = conflict_rules d ∧ sync_cursors d' = sync_cursors d;
}.

Lemma run_save_hours organization draft w h w' :
  save_hours organization draft w = (Ok h, w') →
  ∃ f, db w' = with_hours_profiles f (db w) ∧ (issued w <= issued w')%nat ∧
    (json_truthy (draft_hours_profile draft) = false → h = hours_profile_id draft) ∧
    (∀ profile, json_truthy (draft_hours_profile draft) = true →
      validateInlineHoursProfile (draft_hours_profile draft) = Ok profile →
      ∃ i, h = Some i ∧ f (hours_profiles (db w)) !! i = Some (hours_row organization profile)).
Proof using Type.
  unfold save_hours. intros (inline & w1 & [Hinline ->]%run_lift & Hrun)%run_bind.
  destruct inline as [profile|].
  - run_step Hrun as i w2 Hi. apply run_fresh in Hi as [-> ->]. run_step Hrun as u w3 Hw. apply run_write in Hw as ->.
    injection Hrun as <- <-. cbn. eexists (λ t, <[_ := _]> t). split_and!; [reflexivity|lia| |].
    + intros Hno. by rewrite Hno in Hinline.
    + intros profile' Hyes Hv. rewrite Hyes, Hv in Hinline. injection Hinline as <-. eexists. split; [done|].
      by rewrite lookup_insert_eq.
  - injection Hrun as <- <-. exists (λ t, t). split_and!; [by destruct (db w)|done..|].
    intros profile' Hyes Hv. by rewrite Hyes, Hv in Hinline.
Qed.

Lemma run_insert_policy id row w u w' :
  insert_policy id row w = (Ok u, w') →
  sync_policies (db w) !! id = None ∧ w' = at_db (with_policies (λ t, <[id := row]> t) (db w)) w.
Proof using Type.
  unfold insert_policy. intros (taken & w1 & [-> ->]%run_read & Hrun)%run_bind.
  run_step Hrun as b w2 Hr. apply run_read in Hr as [-> ->]. case_bool_decide as Hnew; [done|].
  destruct (route_taken _ _); [done|]. apply run_write in Hrun as ->. split; [by apply eq_None_not_Some|done].
Qed.

Lemma run_consume_preview previewId now w u w' :
  consume_policy_preview previewId now w = (Ok u, w') →
  ∃ p, policy_previews (db w) !! previewId = Some p ∧
    w' = at_db (with_policy_previews (λ t, <[previewId := consume now p]> t) (db w)) w.
Proof using Type.
  unfold consume_policy_preview. intros (row & w1 & [-> ->]%run_read & Hrun)%run_bind.
  destruct (policy_previews (db w) !! previewId) as [p|]; [|done]. apply run_write in Hrun as ->. by exists p.
Qed.

Lemma run_create_policy organization actor previewId p sourceIdentity destinationIdentity now w out w' :
  policy_previews (db w) !! previewId = Some p →
  create_policy organization actor previewId (PolicyPreview.document p) sourceIdentity destinationIdentity now w
    = (Ok out, w') →
  out.2 = 1 ∧ bridge_created organization actor previewId p sourceIdentity destinationIdentity now (db w) (issued w)
    out.1 (db w').
Proof using Type.
  intros Hp. unfold create_policy.
  intros (h & w1 & (f & Hdb1 & Hi1 & Hsaved & Hinline)%run_save_hours & Hrun)%run_bind.
  run_step Hrun as policyHash w2 Hh. apply run_lift in Hh as [Hhash ->].
  run_step Hrun as id w3 Hi. apply run_fresh in Hi as [_ ->].
  run_step Hrun as u w4 Hn. apply run_insert_policy in Hn as [Hnew ->].
  run_step Hrun as u1 w5 Hc. apply run_consume_preview in Hc as (p' & Hp' & ->).
  run_step Hrun as u2 w6 Hf. apply run_bridge_fact in Hf as (Hdb6 & Hi6 & _).
  run_step Hrun as u3 w7 Hq. apply run_enqueue_bridge in Hq as (jobs' & Hdb7 & _ & Hwaits). injection Hrun as <- <-.
  cbn in Hnew, Hp', Hdb6, Hi6. rewrite Hdb1 in Hnew, Hp', Hdb6. cbn in Hnew, Hp'. rewrite Hp in Hp'. injection Hp' as <-.
  split; [done|]. split; cbn; rewrite ?Hdb7, ?Hdb6; cbn; try done.
  - exists h, policyHash. done.
  - intros Hfresh. rewrite Hdb7 in Hwaits. apply Hwaits. rewrite Hdb6. cbn. apply Hfresh. lia.
Qed.

Lemma run_activate_bridge seen organization actor previewId now w out w' :
  activate seen organization actor previewId now w = (Ok out, w') →
  ∃ p source destination current,
    bridge_checked seen organization actor previewId now (db w) p source destination current ∧ out.2 = 1 ∧
    bridge_created organization actor previewId p (capability_identity source) (capability_identity destination) now
      (db w) (issued w) out.1 (db w').
Proof using Type.
  unfold activate. intros (u & w1 & [_ ->]%run_lift & Hrun%run_transaction)%run_bind.
  run_step Hrun as p w2 Hp. apply run_store in Hp as [Hp ->].
  run_step Hrun as calendars w2 Hc. apply run_lift in Hc as [Hc ->]. destruct calendars as [source destination].
  run_step Hrun as u2 w2 Hr. apply run_store in Hr as [Hr ->]. destruct u2.
  run_step Hrun as current w2 Hk. apply run_store in Hk as [Hk ->].
  run_step Hrun as u2 w2 Hf. apply run_store in Hf as [Hf ->]. destruct u2.
  exists p, source, destination, current. split; [by split|]. eapply run_create_policy; [|exact Hrun].
  by apply confirmable_preview_spec in Hp as [? _].
Qed.

(** A command that throws leaves the database as it was. *)
Lemma guarded_transaction_throws {A} (r : res failure ()) (m : Transaction.M Db R C A) w e w' :
  (_ ← lift r; transaction m) w = (Throw e, w') → db w' = db w.
Proof using Type.
  rewrite bind_run. destruct r as [u|e']; cbn; [apply transaction_throws|by intros [= _ <-]].
Qed.
End service_runs.

(** ** What bridges and rules share *)

Definition bridge_view (p : Policy.PolicyRow) : BridgeView :=
  {| view_organization := Policy.organization p; view_status := Policy.status p; view_source := Policy.source_identity p;
     view_destination := Policy.destination_identity p |}.

Definition rule_protection (r : ConflictRule.RuleView) : option Protection :=
  if ConflictRule.live r
  then Some {| protected_organization := ConflictRule.organization r; protected_identities := ConflictRule.protected r |}
  else None.

Definition policy_copies (d : Db) : Copies :=
  {| bridge_views := bridge_view <$> sync_policies d; live_rules := omap rule_protection (conflict_rules d) |}.

Lemma policy_copies_update id p d d' :
  sync_policies d' = <[id := p]> (sync_policies d) → conflict_rules d' = conflict_rules d →
  policy_copies d' = {| bridge_views := <[id := bridge_view p]> (bridge_views (policy_copies d));
                        live_rules := live_rules (policy_copies d) |}.
Proof. intros Hp Hr. unfold policy_copies. by rewrite Hp, Hr, fmap_insert. Qed.

(** The check of the code is what the contract asks of a bridge that opens. *)
Lemma requireNoConflictResponseRule_opens organization source destination d :
  requireNoConflictResponseRule organization [source; destination] d = Ok () →
  may_open organization source destination (policy_copies d).
Proof.
  intros Hnone%unrefused r p Hr Ho. cbn in Hr. rewrite lookup_omap in Hr.
  destruct (conflict_rules d !! r) as [v|] eqn:Hv; cbn in Hr; [|done]. unfold rule_protection in Hr.
  destruct (ConflictRule.live v) eqn:Hlive; [|done]. injection Hr as <-. cbn in *.
  assert (∀ x, x ∈ [source; destination] → x ∉ ConflictRule.protected v) as Hout; [|split; apply Hout; set_solver].
  intros x Hx Hin. apply not_true_iff_false in Hnone. apply Hnone. apply existsb_exists. exists (r, v).
  split; [by apply list_elem_of_In, elem_of_map_to_list|]. rewrite bool_decide_eq_true_2, Hlive by done. cbn.
  apply existsb_exists. exists x. split; [by apply list_elem_of_In|]. by apply includes_spec.
Qed.

Lemma bridge_locks_cover id organization source destination sourceIdentity destinationIdentity :
  required_locks (open_bridge id organization sourceIdentity destinationIdentity)
    ⊆ bridge_locks source destination sourceIdentity destinationIdentity.
Proof. cbn. set_solver. Qed.

Lemma live_policy_spec organization id d p :
  live_policy organization id d = Some p ↔
  sync_policies d !! id = Some p ∧ Policy.organization p = organization ∧ Policy.status p ≠ Policy.deleted.
Proof.
  unfold live_policy. destruct (sync_policies d !! id) as [p'|] eqn:Hp; cbn; [|naive_solver].
  destruct (bool_decide (Policy.organization p' = organization)) eqn:Ho, (bool_decide (Policy.status p' = Policy.deleted)) eqn:Hs;
    cbn; bool_to_prop; naive_solver.
Qed.

Inductive BridgeCommand :=
| activate_bridge (seen : Db) (previewId : string)
| pause_bridge (id : string)
| resume_bridge (id : string)
| reconcile_bridge (id : string).

Section bridge_commands.
Context {R C : Type} `{NewId} `{Unicode} `{Digest} `{TimeZones} `{Uuids}.
Context (organization : string) (actor : Actor) (now : Z).
Implicit Types w : Transaction.World Db R C.

Definition run_bridge_command (c : BridgeCommand) : Transaction.M Db R C () :=
  match c with
  | activate_bridge seen previewId => _ ← activate seen organization actor previewId now; mret ()
  | pause_bridge id => setPaused organization actor id true now
  | resume_bridge id => setPaused organization actor id false now
  | reconcile_bridge id => _ ← requestReconcile organization id actor now; mret ()
  end.

(** What a resumption has checked. *)
Definition may_resume (p : Policy.PolicyRow) (d : Db) : Prop :=
  requireNoConflictResponseRule organization [Policy.source_identity p; Policy.destination_identity p] d = Ok () ∧
  ∃ source, check_calendars organization (Policy.source_calendar p) (Policy.destination_calendar p)
    (Policy.source_identity p) (Policy.destination_identity p) "connection_role_changed" d = Ok source.

Lemma run_setPaused_bridge id stop w u w' :
  setPaused organization actor id stop now w = (Ok u, w') →
  ∃ p, live_policy organization id (db w) = Some p ∧ (stop = false → may_resume p (db w)) ∧
    sync_policies (db w') = <[id := with_status (if stop then Policy.paused else Policy.active) now p]> (sync_policies (db w)) ∧
    outbox_effects (db w') = (if stop then outbox_effects (db w) else (λ e,
      if deferred_by_pause id (Policy.revision p) e then wake_effect now e else e) <$> outbox_effects (db w)) ∧
    conflict_rules (db w') = conflict_rules (db w) ∧ projections (db w') = projections (db w) ∧
    (stop = false → fresh_jobs (issued w) (db w) →
     job_waits organization "reconcile_policy" (reconcile_job_key id (Policy.revision p)) (db w')).
Proof using Type.
  unfold setPaused. intros (u1 & w1 & [_ ->]%run_lift & Hrun%run_transaction)%run_bind.
  run_step Hrun as row w2 Hr. apply run_read in Hr as [-> ->].
  run_step Hrun as p w2 Hp. apply run_lift in Hp as [Hp%otherwise_Some ->].
  run_step Hrun as u2 w2 Hc.
  assert (w2 = w ∧ (stop = false → may_resume p (db w))) as [-> Hmay].
  { destruct stop; [by injection Hc as _ <-|]. unfold check_resumption in Hc.
    run_step Hc as u3 w3 Hr. apply run_store in Hr as [Hr ->]. destruct u3.
    run_step Hc as source w3 Hk. apply run_store in Hk as [Hk ->]. injection Hc as _ <-. split; [done|].
    intros _. split; [done|by exists source]. }
  run_step Hrun as u3 w3 Hs. apply run_set_policy in Hs as (p' & Hp' & ->).
  pose proof Hp as (Hrow & _ & _)%live_policy_spec. rewrite Hrow in Hp'. injection Hp' as <-.
  run_step Hrun as u4 w4 He. run_step Hrun as u5 w5 Hf. apply run_bridge_fact in Hf as (Hdb5 & Hi5 & _).
  exists p. split; [done|]. split; [done|]. destruct stop.
  - injection He as _ <-. injection Hrun as _ <-. rewrite Hdb5. cbn. done.
  - apply run_write in He as ->. apply run_enqueue_bridge in Hrun as (jobs' & Hdb6 & _ & Hwaits).
    rewrite Hdb5 in Hdb6, Hwaits. rewrite Hdb6. cbn in Hwaits |- *. split_and!; try done.
    intros _ Hfresh. rewrite Hdb6 in Hwaits. apply Hwaits. rewrite Hi5. apply Hfresh. cbn. lia.
Qed.

Lemma run_request_reconcile id w job w' :
  requestReconcile organization id actor now w = (Ok job, w') →
  ∃ p, live_policy organization id (db w) = Some p ∧ sync_policies (db w') = sync_policies (db w) ∧
    conflict_rules (db w') = conflict_rules (db w) ∧
    (fresh_jobs (issued w) (db w) →
     job_waits organization "reconcile_policy" (reconcile_job_key id (Policy.revision p)) (db w')).
Proof using Type.
  unfold requestReconcile. intros (u1 & w1 & [_ ->]%run_lift & Hrun%run_transaction)%run_bind.
  run_step Hrun as row w2 Hr. apply run_read in Hr as [-> ->].
  run_step Hrun as p w2 Hp. apply run_lift in Hp as [Hp%otherwise_Some ->].
  run_step Hrun as out w3 Hq. apply run_enqueue_job in Hq as (jobs' & Hdb3 & _ & _ & _ & Hwaits).
  run_step Hrun as u2 w4 Hf. apply run_bridge_fact in Hf as (Hdb4 & _ & _). injection Hrun as _ <-.
  exists p. rewrite Hdb4. split; [done|]. rewrite Hdb3 in Hwaits |- *. cbn. split_and!; try done.
  intros Hfresh. apply Hwaits. by apply Hfresh.
Qed.

End bridge_commands.

(** ** Activation is confirmed *)

(** Calendars a bridge may join: each active and authorised for its part, and
    two at the provider. *)
Record bridgeable (s t : PolicyCalendarCapability) : Prop := {
  source_active : capability_status s = "active";
  source_readable : capability_readable s = true;
  source_role : capability_role s ∈ ["source"; "both"];
  destination_active : capability_status t = "active";
  destination_writable : capability_writable t = true;
  destination_role : capability_role t ∈ ["destination"; "both"];
  distinct_calendars : capability_identity s ≠ capability_identity t;
}.

Lemma loaded_capability organization source destination d id c :
  find (λ c, (capability_id c =? id)%string) (loadPolicyCalendarCapabilities organization source destination d) = Some c →
  capability_id c = id ∧ capability_row organization d id = Some c.
Proof.
  intros [Hin Heq]%find_some. bool_to_prop. split; [done|].
  apply list_elem_of_In, list_elem_of_omap in Hin as (x & _ & Hrow). assert (capability_id c = x) as Hx; [|congruence].
  unfold capability_row in Hrow. destruct (calendar_endpoints d !! x); cbn in Hrow; [|done].
  destruct (provider_connections d !! _); cbn in Hrow; [|done]. case_bool_decide; [|done]. by injection Hrow as <-.
Qed.

Lemma policy_calendars_spec organization source destination d s t :
  policy_calendars organization source destination d = Ok (s, t) →
  bridgeable s t ∧ capability_id s = source ∧
  capability_row organization d source = Some s ∧ capability_row organization d destination = Some t.
Proof.
  unfold policy_calendars, requirePolicyCalendars. intros Hcal.
  destruct (find _ _) as [s'|] eqn:Hs; [|done]. destruct (find _ _) as [t'|] eqn:Ht in Hcal; [|done].
  apply loaded_capability in Hs as [Hid Hs]. apply loaded_capability in Ht as [_ Ht].
  destruct (_ || _) eqn:Hbad in Hcal; [done|]. destruct (_ =? _)%string eqn:Hsame in Hcal; [done|]. injection Hcal as -> ->.
  rewrite !orb_false_iff, !negb_false_iff, !includes_spec in Hbad. destruct_and! Hbad. bool_to_prop. done.
Qed.

Lemma check_calendars_spec organization source destination sourceIdentity destinationIdentity code d current :
  check_calendars organization source destination sourceIdentity destinationIdentity code d = Ok current →
  ∃ t, policy_calendars organization source destination d = Ok (current, t) ∧
    capability_identity current = sourceIdentity ∧ capability_identity t = destinationIdentity.
Proof.
  unfold check_calendars. intros ([s t] & Hsel & Hrest)%bind_Ok_inv.
  apply bind_Ok_inv in Hrest as (u & Hsame%unrefused & [= <-]). cbn in Hsame. exists t. split; [done|].
  apply orb_false_iff in Hsame as [Hs%negb_false_iff Ht%negb_false_iff]. bool_to_prop. done.
Qed.

(** The cursor of a calendar is ready, with a token, and has the fingerprint. *)
Definition synchronised_as `{Unicode} `{Digest} (organization calendar fingerprint : string) (d : Db) : Prop :=
  ∃ query c rest, cursor_rows organization calendar query d = c :: rest ∧
    SyncCursor.state c = SyncCursor.ready ∧ truthy (SyncCursor.sync_token c) = true ∧
    hash (JArray (map cursor_json (c :: rest))) = Ok fingerprint.

Lemma requireCompletedCursor_Ok cursor code u :
  requireCompletedCursor cursor code = Ok u ↔
  ∃ c, cursor = Some c ∧ SyncCursor.state c = SyncCursor.ready ∧ truthy (SyncCursor.sync_token c) = true.
Proof.
  unfold requireCompletedCursor. destruct cursor as [c|]; [|naive_solver]. rewrite unrefused.
  rewrite orb_false_iff, !negb_false_iff, bool_decide_eq_true. naive_solver.
Qed.

Lemma check_cursor_spec `{Unicode} `{Digest} organization source fingerprint d u :
  check_cursor organization source fingerprint d = Ok u →
  synchronised_as organization (capability_id source) fingerprint d.
Proof.
  unfold check_cursor. intros (query & _ & Hrest)%bind_Ok_inv.
  apply bind_Ok_inv in Hrest as (u1 & (c & Hc & Hready & Htoken)%requireCompletedCursor_Ok & Hrest).
  apply bind_Ok_inv in Hrest as (h & Hh & Heq%unrefused). bool_to_prop. subst h.
  destruct (cursor_rows _ _ _ _) as [|c' rest] eqn:Hrows; [done|]. injection Hc as ->. by exists query, c, rest.
Qed.

Section activations.
Context {R C : Type} `{NewId} `{Unicode} `{Digest} `{TimeZones} `{Uuids}.
Context (organization : string) (actor : Actor) (now : Z).
Implicit Types w : Transaction.World Db R C.

(** C28. A bridge starts only as its owner confirmed it: an activation that throws
    changes nothing. One that succeeds was made with the owner's own preview,
    complete, unused and unexpired; the calendars are active, authorised and
    distinct, no live rule protects them, and the source is synchronised as it
    was when the preview was calculated. It creates one bridge of revision 1
    with the draft that was shown, leaves a job for it, and consumes the
    preview: it cannot be used again. *)
Theorem bridge_activation_is_confirmed seen previewId w r w' :
  activate seen organization actor previewId now w = (r, w') →
  match r with
  | Throw _ => db w' = db w
  | Ok out =>
      ∃ p s t, policy_previews (db w) !! previewId = Some p ∧ PolicyPreview.organization p = organization ∧
        PolicyPreview.principal p = principal actor ∧ PolicyPreview.consumed_at p = None ∧ now < PolicyPreview.expires_at p ∧
        isCompletePreviewResult (PolicyPreview.result p) = true ∧
        policy_calendars organization (source_calendar_id (PolicyPreview.document p))
          (destination_calendar_id (PolicyPreview.document p)) (db w) = Ok (s, t) ∧ bridgeable s t ∧
        may_open organization (capability_identity s) (capability_identity t) (policy_copies (db w)) ∧
        synchronised_as organization (source_calendar_id (PolicyPreview.document p)) (PolicyPreview.cursor_fingerprint p) (db w) ∧
        out.2 = 1 ∧ bridge_created organization actor previewId p (capability_identity s) (capability_identity t) now
          (db w) (issued w) out.1 (db w') ∧
        ∀ seen2 w2 later, policy_previews (db w2) !! previewId = policy_previews (db w') !! previewId →
          ∃ e, (activate seen2 organization actor previewId later w2).1 = Throw e
  end.
Proof using Type.
  intros Hrun. destruct r as [out|e]; [|by eapply guarded_transaction_throws].
  apply run_activate_bridge in Hrun as (p & source & destination & current & [Hp _ Hrule Hcur Hcursor] & Hrev & Hcreated).
  apply check_calendars_spec in Hcur as (t & Hcal & Hs & Ht). exists p, current, t. rewrite Hs, Ht.
  pose proof Hcal as (Hb & Hid & _)%policy_calendars_spec. apply check_cursor_spec in Hcursor. rewrite Hid in Hcursor.
  apply confirmable_preview_spec in Hp as (Hp & Ho & Hpr & Hc & He & Hcomplete). split_and!; try done.
  - by apply requireNoConflictResponseRule_opens.
  - intros seen2 w2 later Hsame. destruct (activate seen2 _ _ _ later w2) as [[out2|e] w3] eqn:Hagain; [|by eexists]. exfalso.
    apply run_activate_bridge in Hagain as (p2 & ? & ? & ? & [Hp2 _ _ _ _] & _).
    apply confirmable_preview_spec in Hp2 as (Hp2 & _ & _ & Hunused & _).
    rewrite Hsame, (bridge_consumed _ _ _ _ _ _ _ _ _ _ _ Hcreated), lookup_insert_eq in Hp2. by injection Hp2 as <-.
Qed.
End activations.
