(* ===== verification/PolicyPreviews.v ===== *)
(** * Bridges: what a preview says

    The preview of [PolicyService] counts every source the bridge would read,
    and the first reconciliation of the bridge it is activated as decides each
    of them the same way. *)

From S2P Require Import Prelude Canonical DestinationEdits Types Dates Text Evaluate PlanningDrafts Temporal Hours Jobs Transaction Policies HoursDrafts ConflictResponse ConflictInputs Store NoCopy Effects Notices Reconciliation PolicyService.
From stdpp Require Import options.
Open Scope Z_scope.

(** ** Equal questions *)

(** Two profiles with the same hours, whatever they are called. *)
Record same_hours (p q : HoursProfile) : Prop := {
  same_timezone : profile_timezone p = profile_timezone q;
  same_ambiguous : ambiguous_resolution p = ambiguous_resolution q;
  same_nonexistent : nonexistent_resolution p = nonexistent_resolution q;
  same_weekly : weekly p = weekly q;
  same_exceptions : exceptions p = exceptions q;
}.

#[export] Instance same_hours_refl : Reflexive same_hours.
Proof. by intros p. Qed.

Definition same_hours_option (p q : option HoursProfile) : Prop :=
  match p, q with Some p, Some q => same_hours p q | None, None => True | _, _ => False end.

(** The profile with another name. *)
Definition renamed (ref : string) (revision : Z) (p : HoursProfile) : HoursProfile :=
  {| profile_ref := ref; profile_revision := revision; profile_timezone := profile_timezone p;
     ambiguous_resolution := ambiguous_resolution p; nonexistent_resolution := nonexistent_resolution p;
     weekly := weekly p; exceptions := exceptions p |}.

Lemma same_hours_renamed p q : same_hours p q → q = renamed (profile_ref q) (profile_revision q) p.
Proof. destruct p, q. intros []. cbn in *. unfold renamed. cbn. congruence. Qed.

(** The policy would be refused for its hours. *)
Definition hours_refused (input : PolicyEvaluationInput) : bool :=
  negb (bool_decide (hours_mode (policy input) = all_times)) &&
  match hours_profile input with
  | Some profile => negb (bool_decide (hours_profile_ref (policy input) = Some (profile_ref profile)))
  | None => true
  end.

(** Inputs that ask for the same decision on a source without a copy: they
    may name policy, projection and profile differently. *)
Record same_question (i j : PolicyEvaluationInput) : Prop := {
  same_horizon : horizon i = horizon j;
  same_source : source i = source j;
  same_capabilities : destination_capabilities i = destination_capabilities j;
  same_state : Types.state (policy i) = Types.state (policy j);
  same_source_calendar : source_calendar_ref (policy i) = source_calendar_ref (policy j);
  same_destination_calendar : destination_calendar_ref (policy i) = destination_calendar_ref (policy j);
  same_mode : hours_mode (policy i) = hours_mode (policy j);
  same_privacy : privacy (policy i) = privacy (policy j);
  same_selection : selection (policy i) = selection (policy j);
  same_color : destination_color (policy i) = destination_color (policy j);
  same_refusal : hours_refused i = hours_refused j;
  same_profile : same_hours_option (hours_profile i) (hours_profile j);
  no_copy_i : ownership (projection i) = none;
  no_copy_j : ownership (projection j) = none;
}.

(** The next step that may throw. *)
Tactic Notation "open_bind" "as" simple_intropattern(pat) :=
  match goal with |- context [mbind _ (otherwise ?m ?e)] => destruct (otherwise m e) as pat; cbn [mbind res_bind] end.

Section answers.
Context `{Unicode} `{Digest} `{Temporal}.

Lemma days_of_renamed fuel inclusive date bound days ref revision p concrete ds :
  days_of fuel inclusive date bound days (renamed ref revision p) concrete ds
    = days_of fuel inclusive date bound days p concrete ds.
Proof using Type.
  revert date days concrete ds. induction fuel as [|fuel IH]; intros date days concrete ds; [done|]. cbn [days_of].
  change (intervalsForDate date (renamed ref revision p)) with (intervalsForDate date p).
  destruct (if inclusive then _ else _); [|done]. destruct (MAX_DAYS <? days); [done|]. cbv [mbind Diag_bind].
  destruct (intervalsForDate date p ds) as [[today ds']|]; [|done].
  unfold lift. destruct (otherwise _ _); [|done]. apply IH.
Qed.

Lemma evaluateHours_renamed m e ref revision p :
  evaluateHours {| mode := m; event := e; profile := Some (renamed ref revision p) |}
    = evaluateHours {| mode := m; event := e; profile := Some p |}.
Proof using Type.
  unfold evaluateHours. cbn [event mode profile]. do 2 (open_bind as [?|]; [|done]). destruct (_ <=? _); [done|].
  assert (∀ m s f, evaluate_profile m s f (renamed ref revision p) = evaluate_profile m s f p) as Hsame.
  { intros m' s f. unfold evaluate_profile. change (profile_timezone (renamed ref revision p)) with (profile_timezone p).
    open_bind as [[]|]; [|done]. open_bind as [?|]; [|done]. open_bind as [[]|]; [|done]. by rewrite days_of_renamed. }
  rewrite !Hsame. by destruct m.
Qed.

Lemma select_hours_same i j t : same_question i j → select_hours i t = select_hours j t.
Proof using Type.
  intros Hq. unfold select_hours. destruct t; [|done]. rewrite (same_mode _ _ Hq). pose proof (same_profile _ _ Hq) as Hp.
  unfold same_hours_option in Hp. destruct (hours_profile i), (hours_profile j); try done.
  apply same_hours_renamed in Hp as ->. by rewrite evaluateHours_renamed.
Qed.

Lemma validate_same i j : same_question i j → validate i = validate j.
Proof using Type.
  intros Hq.
  unfold validate. rewrite (same_source_calendar _ _ Hq), (same_destination_calendar _ _ Hq), (same_capabilities _ _ Hq),
    (same_privacy _ _ Hq), (same_color _ _ Hq), (same_source _ _ Hq).
  pose proof (same_refusal _ _ Hq) as Hr. unfold hours_refused in Hr. rewrite (same_mode _ _ Hq) in Hr |- *.
  destruct (negb (bool_decide (hours_mode (policy j) = all_times))); cbn [andb] in Hr;
    repeat match goal with |- (if ?b then _ else _) = (if ?b then _ else _) => destruct b; [done|] end; [|done].
  destruct (hours_profile i), (hours_profile j); repeat case_bool_decide; done.
Qed.

Lemma verdict_same i j : same_question i j → verdict_of i = verdict_of j.
Proof using Type.
  intros Hq. unfold verdict_of, policy_refusal. rewrite (validate_same i j Hq), (same_state _ _ Hq).
  assert (source_exclusion i = source_exclusion j) as ->.
  { unfold source_exclusion, containsNoSync, effectiveAvailability. by rewrite (same_source _ _ Hq), (same_selection _ _ Hq). }
  destruct (match validate j with Some _ => _ | None => _ end) as [[]|]; [done|].
  destruct (source_exclusion j) as [[]|]; [done|]. rewrite (same_source _ _ Hq). destruct (timing (source j)) as [t|]; [|done].
  unfold timing_verdict, effectiveAvailability, select_timing, select_free.
  rewrite (same_source _ _ Hq), (same_selection _ _ Hq), (same_horizon _ _ Hq), (same_privacy _ _ Hq), (select_hours_same i j t Hq).
  done.
Qed.

(** The same question has the same answer. *)
Lemma answer_same i j r r' :
  same_question i j → evaluatePolicy i = Ok r → evaluatePolicy j = Ok r' →
  result_selection r = result_selection r' ∧ Types.operation r = Types.operation r' ∧
  primary_reason_code r = primary_reason_code r'.
Proof using Type.
  intros Hq (v & Hv & Hr)%evaluatePolicy_Ok (v' & Hv' & Hr')%evaluatePolicy_Ok.
  rewrite (verdict_same i j Hq), Hv' in Hv. injection Hv as <-.
  pose proof (no_copy_i _ _ Hq) as Hi. pose proof (no_copy_j _ _ Hq) as Hj.
  destruct v' as [s code|code removed|a reasons ws]; cbn [apply_verdict] in Hr, Hr'.
  - by injection Hr as <-; injection Hr' as <-.
  - unfold excluded in Hr, Hr'. rewrite Hi in Hr. rewrite Hj in Hr'. by injection Hr as <-; injection Hr' as <-.
  - apply project_Ok in Hr as [[? _]|[[? _]|(_ & d & m & f & op & code & _ & _ & Hc & ->)]]; [congruence..|].
    apply project_Ok in Hr' as [[? _]|[[? _]|(_ & d' & m' & f' & op' & code' & _ & _ & Hc' & ->)]]; [congruence..|].
    unfold choose_operation in Hc, Hc'. rewrite bool_decide_eq_true_2 in Hc by done. rewrite bool_decide_eq_true_2 in Hc' by done.
    injection Hc as <- <-. injection Hc' as <- <-. done.
Qed.

Lemma refused_not_included i s code : verdict_of i = Ok (Refused s code) → s ≠ Selection.included.
Proof using Type.
  unfold verdict_of, policy_refusal. destruct (validate i); [by intros [= <- _]|].
  destruct (Types.state (policy i)); [|by intros [= <- _]..]. destruct (source_exclusion i) as [[]|]; [done|].
  destruct (timing (source i)) as [t|]; [|by intros [= <- _]]. unfold timing_verdict.
  intros (interval & _ & Hv)%bind_Ok_inv. apply bind_Ok_inv in Hv as (inside & _ & Hv). destruct inside; [|done]. cbn [negb] in Hv.
  destruct (select_timing _ _ _); [done|]. destruct (select_free _ _) as [|[[]]]; [done|].
  apply bind_Ok_inv in Hv as ([] & _ & Hv); done.
Qed.

(** A source without a copy is created or left out. *)
Lemma answer_key i r :
  ownership (projection i) = none → evaluatePolicy i = Ok r →
  resultCountKey r = "create" ∧ Types.operation r = Operation.create ∨
  resultCountKey r = "excluded" ∧ Types.operation r = Operation.none.
Proof using Type.
  intros Hi (v & Hv & Hr)%evaluatePolicy_Ok.
  destruct v as [s code|code removed|a reasons ws]; cbn [apply_verdict] in Hr.
  - injection Hr as <-. right. split; [|done]. unfold resultCountKey. cbn. apply refused_not_included in Hv. by destruct s.
  - unfold excluded in Hr. rewrite Hi in Hr. injection Hr as <-. by right.
  - apply project_Ok in Hr as [[? _]|[[? _]|(_ & d & m & f & op & code & _ & _ & Hc & ->)]]; [congruence..|].
    unfold choose_operation in Hc. rewrite bool_decide_eq_true_2 in Hc by done. injection Hc as <- <-. by left.
Qed.
End answers.

(** ** Counts *)

Definition lookup_count (key : string) (counts : list (string * Z)) : Z :=
  nullish (snd <$> find (λ '(k, _), (k =? key)%string) counts) 0.

Lemma lookup_count_key key k counts :
  lookup_count k (count_key key counts) = lookup_count k counts + (if (key =? k)%string then 1 else 0).
Proof.
  unfold lookup_count. induction counts as [|[k' n] counts IH]; cbn.
  - by destruct (key =? k)%string.
  - destruct (k' =? key)%string eqn:Hk'; cbn; destruct (k' =? k)%string eqn:Hk; cbn.
    + apply String.eqb_eq in Hk' as ->. by rewrite Hk.
    + apply String.eqb_eq in Hk' as ->. rewrite Hk. lia.
    + apply String.eqb_eq in Hk as ->. rewrite String.eqb_sym, Hk'. lia.
    + exact IH.
Qed.

Lemma count_key_keys key counts : key ∈ map fst counts → map fst (count_key key counts) = map fst counts.
Proof.
  induction counts as [|[k n] counts IH]; cbn; [by intros ?%elem_of_nil|]. intros Hin.
  destruct (k =? key)%string eqn:Hk; cbn; [done|]. apply String.eqb_neq in Hk. f_equal. apply IH. set_solver.
Qed.

(** How many of the values have the key. *)
Definition occurrences {A} (f : A → string) (k : string) (xs : list A) : Z :=
  Z.of_nat (length (List.filter (λ x, (f x =? k)%string) xs)).

Lemma occurrences_cons {A} (f : A → string) k x xs :
  occurrences f k (x :: xs) = (if (f x =? k)%string then 1 else 0) + occurrences f k xs.
Proof. unfold occurrences. cbn. destruct (f x =? k)%string; cbn; lia. Qed.

Lemma occurrences_app {A} (f : A → string) k xs ys : occurrences f k (xs ++ ys) = occurrences f k xs + occurrences f k ys.
Proof. unfold occurrences. rewrite List.filter_app, length_app. lia. Qed.

Lemma count_keys_spec {A} (f : A → string) k xs counts :
  lookup_count k (fold_left (λ l x, count_key (f x) l) xs counts) = lookup_count k counts + occurrences f k xs.
Proof.
  revert counts. induction xs as [|x xs IH]; intros counts; cbn [fold_left]; [unfold occurrences; cbn; lia|].
  rewrite IH, lookup_count_key, occurrences_cons. lia.
Qed.

Definition COUNT_KEYS : list string := ["create"; "update"; "delete"; "unchanged"; "excluded"].

Lemma resultCountKey_known r : resultCountKey r ∈ COUNT_KEYS.
Proof. unfold resultCountKey. destruct (result_selection r), (Types.operation r); cbn; set_solver. Qed.

(** The reasons of the results that are left out. *)
Definition excluded_reasons (results : list PolicyEvaluationResult) : list ReasonCode :=
  List.concat (map reason_codes (List.filter (λ r, (resultCountKey r =? "excluded")%string) results)).

Section counts.
Context `{Unicode} `{Digest} `{Temporal}.

(** The results of the rows. *)
Definition evaluated_as (c : PreviewPolicy) (now : Z) (rows : list (string * Observation.ObservationRow))
    (results : list PolicyEvaluationResult) : Prop :=
  Forall2 (λ row r, evaluate (preview_input c row.1 row.2 now) = Ok r) rows results.

Lemma evaluate_observations_spec c now rows t t' :
  evaluate_observations c now rows t = Ok t' → map fst (tally_counts t) = COUNT_KEYS →
  ∃ results, evaluated_as c now rows results ∧ map fst (tally_counts t') = COUNT_KEYS ∧
    (∀ k, lookup_count k (tally_counts t') = lookup_count k (tally_counts t) + occurrences resultCountKey k results) ∧
    (∀ k, lookup_count k (tally_excluded t')
       = lookup_count k (tally_excluded t) + occurrences reason_text k (excluded_reasons results)).
Proof using Type.
  revert t. induction rows as [|[id o] rows IH]; intros t Hrun Hkeys; cbn [evaluate_observations] in Hrun.
  - injection Hrun as <-. exists []. split_and!; [by constructor|done| |]; intros k; unfold occurrences; cbn; lia.
  - apply bind_Ok_inv in Hrun as (r & Hr & Hrun). apply IH in Hrun as (results & Hall & Hkeys' & Hcounts & Hreasons).
    2: { cbn. rewrite count_key_keys; [done|]. rewrite Hkeys. apply resultCountKey_known. }
    exists (r :: results). split_and!; [by constructor|done| |]; intros k.
    + rewrite Hcounts. cbn [tally_counts tally_result]. rewrite lookup_count_key, occurrences_cons. lia.
    + rewrite Hreasons. cbn [tally_excluded tally_result]. unfold excluded_reasons. cbn [List.filter].
      destruct (resultCountKey r =? "excluded")%string; [|done]. cbn [map List.concat].
      rewrite count_keys_spec, occurrences_app. lia.
Qed.

(** Without a copy, every result is a creation or an exclusion. *)
Lemma evaluated_keys c now rows results :
  evaluated_as c now rows results →
  occurrences resultCountKey "create" results + occurrences resultCountKey "excluded" results = Z.of_nat (length rows) ∧
  ∀ k, k ∈ ["update"; "delete"; "unchanged"] → occurrences resultCountKey k results = 0.
Proof using Type.
  induction 1 as [|[id o] r rows results Hr _ [IHsum IHnone]].
  - split; [done|]. intros k _. done.
  - unfold evaluate in Hr. destruct (evaluatePolicy _) as [r0|] eqn:Hev; [|done]. injection Hr as <-.
    apply answer_key in Hev; [|done]. cbn [length]. rewrite !occurrences_cons.
    split; [destruct Hev as [[-> _]|[-> _]]; cbn; lia|]. intros k Hk. rewrite occurrences_cons, (IHnone k Hk).
    destruct Hev as [[-> _]|[-> _]]; match goal with |- context [String.eqb ?a k] => destruct (String.eqb_spec a k) as [<-|] end;
      try done; exfalso; by repeat (apply elem_of_cons in Hk as [?|Hk]; [done|]); apply elem_of_nil in Hk.
Qed.
End counts.

(** ** The preview *)

Lemma sorted_previewed organization calendar d :
  (length (previewed_observations organization calendar d) <= PREVIEW_OBSERVATION_LIMIT)%nat →
  previewed_observations organization calendar d ≡ₚ previewed_rows organization calendar d.
Proof.
  unfold previewed_observations. intros Hlen. rewrite length_take in Hlen. rewrite take_ge by lia. apply sort_by_perm.
Qed.

Section previews.
Context {R C : Type} `{NewId} `{Unicode} `{Digest} `{Temporal} `{TimeZones} `{Uuids}.
Context (interfere : nat → Db → Db) (organization me : string) (draft : PolicyDraft) (now : Z).
Implicit Types w : Transaction.World Db R C.

(** The database when the sources are read, and when the preview is stored. *)
Definition read_state (d : Db) : Db := interfere 3%nat (interfere 2%nat (interfere 1%nat d)).
Definition stored_state (d : Db) : Db := interfere 6%nat (interfere 5%nat (interfere 4%nat (read_state d))).

Lemma run_insert_preview id row w u w' :
  insert_policy_preview id row w = (Ok u, w') →
  policy_previews (db w) !! id = None ∧ db w' = with_policy_previews (λ t, <[id := row]> t) (db w).
Proof using Type.
  unfold insert_policy_preview. intros (taken & w1 & [-> ->]%run_read & Hrun)%run_bind.
  case_bool_decide as Hnew; [done|]. apply run_write in Hrun as ->. split; [by apply eq_None_not_Some|done].
Qed.

(** What a preview has checked and computed. *)
Record previewed (d : Db) (s t : PolicyCalendarCapability) (hoursProfile : option HoursProfile) (tally : Tally)
    (rows : list (string * Observation.ObservationRow)) (fingerprint : string) : Prop := {
  preview_draft : ∃ inline, check_draft draft = Ok inline ∧
    preview_profile organization draft inline (interfere 4%nat (read_state d)) = Ok hoursProfile;
  preview_calendars : policy_calendars organization (source_calendar_id draft) (destination_calendar_id draft) d = Ok (s, t);
  preview_unprotected : requireNoConflictResponseRule organization [capability_identity s; capability_identity t]
    (interfere 1%nat d) = Ok ();
  preview_rows : rows = previewed_observations organization (source_calendar_id draft) (read_state d);
  preview_limit : (length rows <= PREVIEW_OBSERVATION_LIMIT)%nat;
  preview_tally : evaluate_observations (preview_of draft t hoursProfile) now rows no_results = Ok tally;
  preview_cursor : synchronised_as organization (source_calendar_id draft) fingerprint
    (interfere 5%nat (interfere 4%nat (read_state d)));
}.

Definition preview_row (policyHash fingerprint : string) (result : PreviewResult) : PolicyPreview.PreviewRow :=
  {| PolicyPreview.organization := organization; PolicyPreview.principal := me; PolicyPreview.document := draft;
     PolicyPreview.hash := policyHash; PolicyPreview.cursor_fingerprint := fingerprint; PolicyPreview.result := result;
     PolicyPreview.expires_at := now + PREVIEW_LIFETIME_MILLISECONDS; PolicyPreview.consumed_at := None |}.

Definition result_of (tally : Tally) : PreviewResult :=
  {| result_complete := true; result_counts := tally_counts tally; excluded_by_reason := tally_excluded tally;
     result_disclosure := tally_disclosure tally; result_examples := tally_examples tally; result_warnings := [] |}.

Lemma run_preview w out w' :
  preview interfere organization me draft now w = (Ok out, w') →
  ∃ s t hoursProfile tally rows fingerprint policyHash,
    previewed (db w) s t hoursProfile tally rows fingerprint ∧ summary_result out = result_of tally ∧
    policy_previews (stored_state (db w)) !! summary_token out = None ∧
    db w' = with_policy_previews (λ p, <[summary_token out := preview_row policyHash fingerprint (result_of tally)]> p)
      (stored_state (db w)) ∧
    calls w' = calls w.
Proof using Type.
  unfold preview. intros (inline & w1 & [Hdraft ->]%run_lift & Hrun)%run_bind.
  run_step Hrun as [s t] w1 Hc. apply run_store in Hc as [Hc ->].
  run_step Hrun as u w1 Hm. apply run_write in Hm as ->.
  run_step Hrun as [] w1 Hn. apply run_store in Hn as [Hn ->].
  run_step Hrun as query w1 Hm. apply run_lift in Hm as [_ ->].
  run_step Hrun as u1 w1 Hm. apply run_write in Hm as ->.
  run_step Hrun as initialRows w1 Hm. apply run_read in Hm as [_ ->].
  run_step Hrun as u2 w1 Hm. apply run_lift in Hm as [_ ->].
  run_step Hrun as initial w1 Hm. apply run_lift in Hm as [_ ->].
  run_step Hrun as u3 w1 Hm. apply run_write in Hm as ->.
  run_step Hrun as rows w1 Hrows. apply run_read in Hrows as [Hrows ->].
  run_step Hrun as u4 w1 Hl. apply run_lift in Hl as [Hl%unrefused ->]. apply Nat.ltb_ge in Hl.
  run_step Hrun as u5 w1 Hm. apply run_write in Hm as ->.
  run_step Hrun as hp w1 Hh. apply run_store in Hh as [Hh ->].
  run_step Hrun as tally w1 Ht. apply run_lift in Ht as [Ht ->].
  run_step Hrun as policyHash w1 Hm. apply run_lift in Hm as [_ ->].
  run_step Hrun as u6 w1 Hm. apply run_write in Hm as ->.
  run_step Hrun as cursorRows w1 Hr. apply run_read in Hr as [Hr ->].
  run_step Hrun as u7 w1 Hd. apply run_lift in Hd as [(c & Hc0 & Hready & Htoken)%requireCompletedCursor_Ok ->].
  run_step Hrun as fingerprint w1 Hf. apply run_lift in Hf as [Hf ->].
  run_step Hrun as u8 w1 Hm. apply run_lift in Hm as [_ ->].
  run_step Hrun as u9 w1 Hm. apply run_write in Hm as ->.
  run_step Hrun as id w1 Hi. apply run_fresh in Hi as [_ ->].
  run_step Hrun as u10 w1 Hp. pose proof Hp as Hcalls. apply run_insert_preview in Hp as [Hnew Hdb].
  injection Hrun as <- <-. exists s, t, hp, tally, rows, fingerprint, policyHash. cbn [db at_db] in *.
  split_and!; [|done|done|exact Hdb|].
  - split; [by exists inline|done|exact Hn|exact Hrows|exact Hl|exact Ht|].
    destruct cursorRows as [|c' rest]; [done|]. injection Hc0 as ->. by exists query, c, rest.
  - unfold insert_policy_preview in Hcalls. rewrite bind_run in Hcalls. cbn [read_db] in Hcalls.
    by case_bool_decide; [|injection Hcalls as _ <-].
Qed.

(** A preview counts every source the bridge would read, once, as the
    evaluation of the draft on it decides, and never a part of them: live
    originals of the calendar, at most 5000. It announces creations and
    exclusions only, and for every reason the exclusions it stands in. It
    stores the draft that was evaluated with the fingerprint of a synchronised
    cursor, and changes nothing else. *)
Theorem preview_counts_every_source w out w' :
  preview interfere organization me draft now w = (Ok out, w') →
  ∃ s t hoursProfile tally rows fingerprint policyHash results,
    previewed (db w) s t hoursProfile tally rows fingerprint ∧
    rows ≡ₚ previewed_rows organization (source_calendar_id draft) (read_state (db w)) ∧
    (length rows <= PREVIEW_OBSERVATION_LIMIT)%nat ∧
    evaluated_as (preview_of draft t hoursProfile) now rows results ∧
    map fst (result_counts (summary_result out)) = COUNT_KEYS ∧
    (∀ k, lookup_count k (result_counts (summary_result out)) = occurrences resultCountKey k results) ∧
    lookup_count "create" (result_counts (summary_result out)) + lookup_count "excluded" (result_counts (summary_result out))
      = Z.of_nat (length rows) ∧
    (∀ reason, lookup_count (reason_text reason) (excluded_by_reason (summary_result out))
       = occurrences reason_text (reason_text reason) (excluded_reasons results)) ∧
    db w' = with_policy_previews (λ p, <[summary_token out := preview_row policyHash fingerprint (summary_result out)]> p)
      (stored_state (db w)) ∧ calls w' = calls w.
Proof using Type.
  intros (s & t & hp & tally & rows & fingerprint & policyHash & Hprev & Hres & _ & Hdb & Hcalls)%run_preview.
  destruct (evaluate_observations_spec _ _ _ _ _ (preview_tally _ _ _ _ _ _ _ Hprev) eq_refl)
    as (results & Hall & Hkeys & Hcounts & Hreasons).
  exists s, t, hp, tally, rows, fingerprint, policyHash, results. rewrite Hres. cbn [result_counts excluded_by_reason result_of].
  assert (∀ k, lookup_count k (tally_counts tally) = occurrences resultCountKey k results) as Hk.
  { intros k. rewrite Hcounts. change (tally_counts no_results) with (map (λ k, (k, 0)) COUNT_KEYS).
    assert (∀ ks, lookup_count k (map (λ k, (k, 0)) ks) = 0) as ->; [|lia].
    induction ks as [|k' ks IHks]; [done|]. unfold lookup_count in *. cbn. by destruct (k' =? k)%string. }
  pose proof (preview_limit _ _ _ _ _ _ _ Hprev) as Hlimit. pose proof (preview_rows _ _ _ _ _ _ _ Hprev) as Hrows.
  split_and!; try done.
  - rewrite Hrows. apply sorted_previewed. by rewrite <-Hrows.
  - rewrite !Hk. by eapply evaluated_keys.
Qed.
End previews.

(** ** The first reconciliation *)

Section predictions.
Context `{Unicode} `{Digest} `{Temporal} `{TimeZones} `{Uuids}.
Context (organization : string) (draft : PolicyDraft) (inline : option InlineHoursProfile) (hoursId : option string).
Context (d1 d2 : Db).

(** The hours a bridge was activated with, in [d2], are the ones its preview
    read in [d1]: the saved profile is what it was, an inline one was saved. *)
Definition hours_kept : Prop :=
  match inline with
  | None => hoursId = hours_profile_id draft ∧ load_hours organization hoursId d2 = load_hours organization hoursId d1
  | Some profile => ∃ i, hoursId = Some i ∧ i ≠ "" ∧ hours_profiles d2 !! i = Some (hours_row organization profile)
  end.

Lemma non_empty_Some text s : non_empty text = Some s ↔ text = Some s ∧ s ≠ "".
Proof using Type. unfold non_empty. destruct text as [[|c s']|]; cbn; naive_solver. Qed.

Lemma load_hours_ref profileId d p : load_hours organization profileId d = Some p → profileId = Some (profile_ref p) ∧ profile_ref p ≠ "".
Proof using Type.
  unfold load_hours. destruct (non_empty profileId) as [i|] eqn:Hi; cbn; [|done]. apply non_empty_Some in Hi as [-> Hne].
  destruct (hours_profiles d !! i); cbn; [|done]. case_bool_decide; [|done]. by intros [= <-].
Qed.

Definition hours_mode_of (m : option (HoursMode * option string)) (has_hours : bool) : HoursMode :=
  match m with Some (mode, _) => mode | None => if has_hours then overlaps_profile else all_times end.

(** The draft was accepted: it names hours exactly when its mode needs them. *)
Lemma check_draft_hours :
  check_draft draft = Ok inline →
  json_truthy (draft_hours_profile draft) = negb (absent inline) ∧
  (truthy (hours_profile_id draft) = true → inline = None) ∧
  bool_decide (hours_mode_of (draft_hours draft) (truthy (hours_profile_id draft) || negb (absent inline)) = all_times)
    = negb (truthy (hours_profile_id draft) || negb (absent inline)).
Proof using Type.
  unfold check_draft. intros (u1 & _ & Hc)%bind_Ok_inv. apply bind_Ok_inv in Hc as (u2 & _ & Hc).
  apply bind_Ok_inv in Hc as (u3 & Hboth%unrefused & Hc). apply bind_Ok_inv in Hc as (u4 & _ & Hc).
  apply bind_Ok_inv in Hc as (inline' & Hinline & Hc). apply bind_Ok_inv in Hc as (u5 & Hneeds%unrefused & Hc).
  apply bind_Ok_inv in Hc as (u6 & Hunused%unrefused & [= ->]).
  assert (json_truthy (draft_hours_profile draft) = negb (absent inline)) as Htruthy.
  { destruct (json_truthy _); [|by injection Hinline as <-]. by destruct (validateInlineHoursProfile _); [injection Hinline as <-|]. }
  split; [done|]. split.
  - intros Hsaved. rewrite Hsaved, Htruthy in Hboth. by destruct inline.
  - unfold hours_mode_of. destruct (truthy _ || negb (absent inline)), (bool_decide _) eqn:Hb; cbn in *; rewrite ?Hb in *; done.
Qed.

Lemma compiled_mode policyRef revision st ref :
  hours_mode (compilePolicyDraft draft policyRef revision st ref)
    = hours_mode_of (draft_hours draft) (truthy (hours_profile_id draft) || json_truthy (draft_hours_profile draft)).
Proof using Type. done. Qed.

(** The preview and the pass ask the same question of a source. *)
Lemma preview_question hp policyId (j : PolicyJoin) (t : PolicyCalendarCapability) id o projectionId now :
  check_draft draft = Ok inline → preview_profile organization draft inline d1 = Ok hp → hours_kept →
  Policy.document (join_policy j) = policyDraftForPersistence draft hoursId → Policy.hours_profile (join_policy j) = hoursId →
  Endpoint.capabilities (join_destination j) = capability_capabilities t →
  Endpoint.writable (join_destination j) = capability_writable t →
  let pass := pass_of organization policyId j d2 in
  same_question (preview_input (preview_of draft t hp) id o now)
    (evaluation_input (pass_policy pass) (pass_capabilities pass) (pass_hours pass) (Observation.event o) (pass_horizon pass)
       projectionId None now).
Proof using Type.
  intros (Htruthy & Hexcl & Hmode)%check_draft_hours Hhp Hkept Hdoc Hhours Hcap Hwr pass.
  set (saved := truthy (hours_profile_id draft)) in *. set (mode := hours_mode_of (draft_hours draft) (saved || negb (absent inline))) in *.
  assert (hours_mode (pass_policy pass) = mode) as Hpass.
  { unfold pass, pass_of. cbn [pass_policy compilePolicyDraft hours_mode]. rewrite Hdoc. cbn [draft_hours policyDraftForPersistence].
    unfold mode, hours_mode_of, hours_kept in *. destruct (draft_hours draft) as [[]|]; [done|].
    destruct inline as [profile|]; cbn [absent negb orb].
    - destruct Hkept as (i & -> & Hne & _). rewrite orb_true_r. by destruct i.
    - destruct Hkept as [-> _]. by rewrite orb_false_r. }
  assert (hours_mode (preview_policy (preview_of draft t hp)) = mode) as Hprev.
  { cbn. by rewrite Htruthy. }
  assert (hours_profile_ref (pass_policy pass) = if bool_decide (mode = all_times) then None else non_empty hoursId) as Hpref.
  { unfold pass, pass_of in Hpass |- *. cbn [pass_policy compilePolicyDraft hours_mode hours_profile_ref] in Hpass |- *.
    rewrite Hdoc in Hpass |- *. rewrite Hpass. cbn [draft_hours policyDraftForPersistence hours_profile_id] in Hpass |- *. rewrite Hpass.
    case_bool_decide; cbn [negb andb]; [done|]. destruct (non_empty hoursId) as [ref|] eqn:Hne.
    - apply non_empty_Some in Hne as [_ Hne]. unfold truthy. by destruct ref.
    - unfold non_empty in Hne. by destruct (truthy hoursId). }
  assert (hours_refused (preview_input (preview_of draft t hp) id o now) = false ∧
    hours_refused (evaluation_input (pass_policy pass) (pass_capabilities pass) (pass_hours pass) (Observation.event o)
      (pass_horizon pass) projectionId None now) = false ∧ same_hours_option hp (pass_hours pass)) as (Href1 & Href2 & Hsame).
  { unfold hours_refused. cbn [policy hours_profile evaluation_input preview_input]. rewrite Hprev, Hpass, Hpref.
    unfold preview_profile in Hhp. unfold hours_kept in Hkept. unfold pass, pass_of. cbn [pass_hours]. rewrite Hhours.
    cbn [preview_hours preview_of preview_policy compilePolicyDraft hours_profile_ref] in Hprev |- *.
    cbn [hours_mode compilePolicyDraft] in Hprev. rewrite Hprev. destruct inline as [profile|].
    - destruct Hkept as (i & -> & Hne & Hrow). rewrite orb_true_r in Hmode. cbn [absent negb] in Hmode. rewrite Hmode.
      apply bind_Ok_inv in Hhp as (h & _ & [= <-]). cbn [fmap option_fmap option_map profile_ref profile_of negb andb].
      assert (load_hours organization (Some i) d2 = Some (renamed i 1 (profile_of ("inline:" +:+ h) 1 profile))) as ->.
      { unfold load_hours. rewrite (proj2 (non_empty_Some (Some i) i)) by done. cbn [mbind option_bind]. rewrite Hrow.
        cbn [mbind option_bind]. by rewrite bool_decide_eq_true_2. }
      cbn [profile_ref renamed]. rewrite (proj2 (non_empty_Some (Some i) i)) by done.
      rewrite !bool_decide_eq_true_2 by done. done.
    - destruct Hkept as [-> Hload]. cbn [absent negb] in Hmode. rewrite orb_false_r in Hmode.
      apply bind_Ok_inv in Hhp as (u & Hfound%unrefused & [= <-]). rewrite Hload, Hmode. fold saved in Hfound.
      destruct (load_hours organization (hours_profile_id draft) d1) as [p|] eqn:Hp.
      + pose proof (load_hours_ref _ _ _ Hp) as [Hid Hne]. unfold saved. rewrite Hid.
        rewrite (proj2 (non_empty_Some (Some (profile_ref p)) (profile_ref p))) by done.
        cbn [fmap option_fmap option_map]. assert (truthy (Some (profile_ref p)) = true) as -> by (by destruct (profile_ref p)).
        cbn [negb andb]. rewrite !bool_decide_eq_true_2 by done. done.
      + cbn [absent] in Hfound. rewrite andb_true_r in Hfound. rewrite Hfound. cbn. done. }
  split; first [exact Hsame | exact (eq_trans Hprev (eq_sym Hpass)) | exact (eq_trans Href1 (eq_sym Href2)) | idtac];
    cbn; by rewrite ?Hdoc, ?Hcap, ?Hwr.
Qed.

Context {R C : Type} `{NewId}.
Implicit Types w : Transaction.World Db R C.

(** C29. The preview foretells the first reconciliation of the bridge: a source
    that is not an invitation of the destination account, and has no copy yet,
    is decided as the preview decided it, under the same reason, whatever names
    the policy, the copy and the hours have got. Where the preview counted a
    creation, a copy is planned, with a create effect unless one has the same
    key; where it counted an exclusion, nothing is done. *)
Theorem preview_foretells_first_pass hp policyId (j : PolicyJoin) (t : PolicyCalendarCapability) id o now w outcome w' r :
  check_draft draft = Ok inline → preview_profile organization draft inline d1 = Ok hp → hours_kept →
  Policy.document (join_policy j) = policyDraftForPersistence draft hoursId → Policy.hours_profile (join_policy j) = hoursId →
  Endpoint.capabilities (join_destination j) = capability_capabilities t →
  Endpoint.writable (join_destination j) = capability_writable t →
  let pass := pass_of organization policyId j d2 in
  Observation.tombstone o = false →
  markDestinationIdentityInvitation (Observation.event o) (pass_identity pass) = Observation.event o →
  find_projection organization policyId id (Observation.recurrence_identity o) (db w) = None →
  evaluate (preview_input (preview_of draft t hp) id o now) = Ok r →
  reconcile_row organization pass id o now w = (Ok outcome, w') →
  decision outcome = decision_text r ∧
  (resultCountKey r = "create" ∧
     (∃ projectionId p, projections (db w') = <[projectionId := p]> (projections (db w)) ∧ Projection.policy p = policyId ∧
        Projection.source_observation p = id ∧ Projection.status p = "pending" ∧
        (created outcome = true → ∃ effectId e, outbox_effects (db w') = <[effectId := e]> (outbox_effects (db w)) ∧
           Effect.operation e = op_create ∧ Effect.projection e = projectionId ∧ Effect.state e = pending)) ∨
   resultCountKey r = "excluded" ∧ created outcome = false ∧ db w' = db w).
Proof using Type.
  intros Hdraft Hhp Hkept Hdoc Hhours Hcap Hwr pass Htomb Hmark Hnone Hr%evaluate_Ok Hrun%run_transaction.
  assert (observationForEvaluation (Observation.event o) (Observation.tombstone o) = Observation.event o) as Hobs
    by (by rewrite Htomb).
  rewrite Hobs, Hmark in Hrun.
  pose proof (wp_run _ _ _ _ _ (reconcileObservation_wp organization (pass_policy pass) (pass_capabilities pass)
    (pass_hours pass) id (Observation.observation_hash o) (Observation.tombstone o) (Observation.recurrence_identity o)
    (Observation.event o) (pass_horizon pass) now w) Hrun outcome eq_refl) as Hstep.
  assert (existing_projection organization (pass_policy pass) id (Observation.recurrence_identity o) (db w) = None) as Hno
    by exact Hnone.
  assert (∀ i r', evaluates (pass_policy pass) (pass_capabilities pass) (pass_hours pass) (Observation.event o) (pass_horizon pass)
    now i None r' → decision_text r' = decision_text r ∧ Types.operation r = Types.operation r' ∧ result_selection r = result_selection r')
    as Hsame.
  { intros i r' Hr'. destruct (answer_same _ _ r r' (preview_question hp policyId j t id o i now Hdraft Hhp Hkept Hdoc
      Hhours Hcap Hwr) Hr Hr') as (Hs & Ho & Hp). unfold decision_text. by rewrite Hs, Ho, Hp. }
  apply answer_key in Hr; [|done]. inversion Hstep as [r' He Hr' Hop Heq Hdb|? ? ? ? He|? ? ? ? He|ex pid r' basis op key He Hpid Hr' Hop Hb saved row Hkey taken effectId Heq Hdb];
    try congruence.
  - destruct (Hsame _ _ Hr') as (-> & Hop' & _). split; [done|].
    destruct Hr as [[_ Hc]|[Hx _]]; [congruence|right]. done.
  - rewrite Hno in He. subst ex. destruct Hpid as [-> Htaken]. destruct (Hsame _ _ Hr') as (-> & Hop' & _). split; [done|].
    destruct Hr as [[Hx Hc]|[_ Hx]]; [|rewrite <-Hop', Hx in Hop; done]. left. split; [done|].
    assert (Types.operation r' = Operation.create) as Hc' by congruence.
    rewrite Hc' in Hop. injection Hop as <-. exists (newId (issued w)), row. subst row taken.
    destruct (idempotency_taken _ _); cbn; rewrite Hc'; (split_and!; [done..|]); [done|].
    intros _. eexists _, _. split; [reflexivity|]. done.
Qed.
End predictions.

(** ** Examples *)

Module Samples.
Import Reconciliation.Samples.
#[local] Existing Instance Effects.sample_ids.
#[export] Instance long_ids : Uuids := {| validateUuid s := (4 <=? String.length s)%nat |}.

Definition me : Actor := {| principal := "me"; actor_kind := "user"; actor_token := None |}.

Definition cursor : SyncCursor.CursorRow :=
  {| SyncCursor.organization := "o"; SyncCursor.calendar := "home";
     SyncCursor.query_fingerprint := value (calendarSyncQueryFingerprint "fake" "remote") "";
     SyncCursor.sync_token := Some "token"; SyncCursor.generation := 1; SyncCursor.state := SyncCursor.ready;
     SyncCursor.last_started_at := None; SyncCursor.last_full_sync_at := None; SyncCursor.last_success_at := None;
     SyncCursor.safe_error_code := None; SyncCursor.updated_at := 0 |}.

(** Two calendars and one event, and no bridge yet. *)
Definition unbridged (o : Observation.ObservationRow) : Db :=
  with_policies (λ _, ∅) (with_cursors (λ _, {[ "cursor" := cursor ]})
    (with_observations (λ _, {[ "source" := o ]}) (before sample_source ∅))).

Definition previewed_bridge : res failure PreviewSummary * Transaction.World Db () () :=
  preview (λ _ d, d) "o" "me" sample_draft october (world (unbridged sample_observation)).

Definition activated_bridge : res failure (string * Z) * Transaction.World Db () () :=
  activate (unbridged sample_observation) "o" me "new-0" (october + 60000) previewed_bridge.2.

Definition counts_of (r : res failure PreviewSummary) : list (string * Z) :=
  match r with Ok s => result_counts (summary_result s) | Throw _ => [] end.

Example preview_announces_creation : counts_of previewed_bridge.1
  = [("create", 1); ("update", 0); ("delete", 0); ("unchanged", 0); ("excluded", 0)].
Proof. vm_compute. reflexivity. Qed.

Example preview_activates : activated_bridge.1 = Ok ("new-1", 1).
Proof. vm_compute. reflexivity. Qed.

Lemma previewed_Ok : ∃ out, previewed_bridge = (Ok out, previewed_bridge.2) ∧ summary_token out = "new-0".
Proof. eexists. split; [vm_compute; reflexivity|reflexivity]. Qed.

Lemma activated_Ok : activated_bridge = (Ok ("new-1", 1), activated_bridge.2).
Proof. vm_compute. reflexivity. Qed.

Lemma preview_counts_every_source_witness :
  ∃ out, previewed_bridge.1 = Ok out ∧
    lookup_count "create" (result_counts (summary_result out)) + lookup_count "excluded" (result_counts (summary_result out)) = 1.
Proof.
  destruct previewed_Ok as (out & Hrun & _). exists out. split; [rewrite Hrun; reflexivity|].
  destruct (preview_counts_every_source (λ _ d, d) "o" "me" sample_draft october _ _ _ Hrun)
    as (s & t & hp & tally & rows & fingerprint & policyHash & results & _ & Hrows & _ & _ & _ & _ & Hsum & _).
  refine (eq_trans Hsum _). apply Permutation_length in Hrows. rewrite Hrows. vm_compute. reflexivity.
Defined.

Lemma bridge_activation_is_confirmed_witness :
  ∃ p s t, policy_previews (db previewed_bridge.2) !! "new-0" = Some p ∧ bridgeable s t ∧
    bridge_created "o" me "new-0" p (capability_identity s) (capability_identity t) (october + 60000)
      (db previewed_bridge.2) 1 "new-1" (db activated_bridge.2).
Proof.
  assert (issued previewed_bridge.2 = 1%nat) as Hissued by (vm_compute; reflexivity). rewrite <-Hissued.
  destruct (bridge_activation_is_confirmed "o" me (october + 60000) (unbridged sample_observation) "new-0" _ _ _ activated_Ok)
    as (p & s & t & Hp & _ & _ & _ & _ & _ & _ & Hb & _ & _ & _ & Hcreated & _).
  exists p, s, t. split; [exact Hp|]. split; [exact Hb|exact Hcreated].
Defined.


(** The bridge as it was activated, and its first reconciliation. *)
Definition bridge_row_of (d : Db) : Policy.PolicyRow :=
  match sync_policies d !! "new-1" with Some p => p | None => sample_policy Policy.deleted end.

Definition bridge_join : PolicyJoin :=
  {| join_policy := bridge_row_of (db activated_bridge.2); join_source := sample_endpoint "c1";
     join_source_connection := sample_connection "source"; join_destination := sample_endpoint "c2";
     join_destination_connection := sample_connection "destination" |}.

Definition destination_capability : PolicyCalendarCapability :=
  match capability_row "o" (unbridged sample_observation) "work" with
  | Some c => c
  | None => {| capability_id := ""; capability_connection := ""; capability_remote := ""; capability_readable := false;
               capability_writable := false; capability_capabilities := JNull; capability_provider := "";
               capability_role := ""; capability_status := "" |}
  end.

Definition first_pass_of (o : Observation.ObservationRow) : res failure Outcome * Transaction.World Db () () :=
  reconcile_row "o" (pass_of "o" "new-1" bridge_join (db activated_bridge.2)) "source" o october activated_bridge.2.

Definition announced (o : Observation.ObservationRow) : res failure PolicyEvaluationResult :=
  evaluate (preview_input (preview_of sample_draft destination_capability None) "source" o october).

Lemma preview_foretells_first_pass_witness :
  ∃ outcome r, (first_pass_of sample_observation).1 = Ok outcome ∧ announced sample_observation = Ok r ∧
    decision outcome = decision_text r ∧ resultCountKey r = "create".
Proof.
  destruct (announced sample_observation) as [r|e] eqn:Hr; [|exfalso; revert Hr; vm_compute; discriminate].
  assert (resultCountKey (value (announced sample_observation) Reconciliation.Samples.no_result) = "create") as Hkey
    by (vm_compute; reflexivity).
  rewrite Hr in Hkey. cbn [value] in Hkey.
  destruct (first_pass_of sample_observation) as [[outcome|e] w'] eqn:Hrun; [|exfalso; revert Hrun; vm_compute; discriminate].
  assert (check_draft sample_draft = Ok None) as Hdraft by (vm_compute; reflexivity).
  assert (preview_profile "o" sample_draft None (db previewed_bridge.2) = Ok None) as Hhours by (vm_compute; reflexivity).
  assert (hours_kept "o" sample_draft None None (db previewed_bridge.2) (db activated_bridge.2)) as Hkept by (split; reflexivity).
  assert (Policy.document (join_policy bridge_join) = policyDraftForPersistence sample_draft None) as Hdoc by (vm_compute; reflexivity).
  assert (Policy.hours_profile (join_policy bridge_join) = None) as Hprofile by (vm_compute; reflexivity).
  assert (markDestinationIdentityInvitation (Observation.event sample_observation)
    (pass_identity (pass_of "o" "new-1" bridge_join (db activated_bridge.2))) = Observation.event sample_observation) as Hmark
    by (vm_compute; reflexivity).
  assert (find_projection "o" "new-1" "source" (Observation.recurrence_identity sample_observation) (db activated_bridge.2) = None)
    as Hnone by (vm_compute; reflexivity).
  exists outcome, r. split; [reflexivity|]. split; [reflexivity|].
  unfold first_pass_of in Hrun.
  pose proof (preview_foretells_first_pass "o" sample_draft None None (db previewed_bridge.2) (db activated_bridge.2) None "new-1"
    bridge_join destination_capability "source" sample_observation october activated_bridge.2 outcome w' r
    Hdraft Hhours Hkept Hdoc Hprofile eq_refl eq_refl eq_refl Hmark Hnone Hr) as Hforetold. cbv zeta in Hforetold.
  destruct (Hforetold Hrun) as [Hd _]. split; [exact Hd|exact Hkey].
Defined.

(** An invitation of the destination account is announced as a creation, and
    left out by the reconciliation: the preview does not look at the account. *)
Definition invited_observation : Observation.ObservationRow :=
  {| Observation.organization := "o"; Observation.calendar := "home"; Observation.remote_event := "event";
     Observation.recurrence_identity := ""; Observation.remote_etag := Some "1";
     Observation.event := {|
       source_event_ref := "event"; source_occurrence_ref := ""; Types.remote_revision := "1"; lifecycle := confirmed;
       origin := provider_original; timing := timing sample_source; recurrence := None; availability := Some busy;
       relationship := relationship sample_source; destination_identity_invited := false; content := content sample_source;
       attendees := Some ["me@example.org"]; organizer := None; attachments := None; source_url := None;
       provider_metadata := None |};
     Observation.observation_hash := "observed"; Observation.managed_copy := false; Observation.tombstone := false;
     Observation.sync_generation := 1; Observation.observed_at := 0; Observation.updated_at := 0 |}.

Lemma preview_ignores_invitations :
  counts_of (preview (R := ()) (C := ()) (λ _ d, d) "o" "me" sample_draft october (world (unbridged invited_observation))).1
    = [("create", 1); ("update", 0); ("delete", 0); ("unchanged", 0); ("excluded", 0)] ∧
  (first_pass_of invited_observation).1 = Ok {| created := false; decision := "excluded:none:already_invited" |}.
Proof. split; vm_compute; reflexivity. Qed.
End Samples.
