(* ===== verification/PolicyRecovery.v ===== *)
(** * Bridges: recovery of blocked copies

    [retryBlocked] of [server/src/policy/service.ts]: after a person has looked
    at the destination, dead effects are replayed and held copies are scheduled
    again, as far as what was recorded is still what the source asks for. *)

From S2P Require Import Prelude Canonical Types Evaluate Jobs Transaction Policies ConflictResponse Store Effects Notices Reconciliation PolicyService.
From stdpp Require Import options.
Open Scope Z_scope.

(** ** Recovery *)

Definition RETRY_LIMIT : nat := 100.

(** [exists (select 1 from outbox_effects ... state = 'dead')]. *)
Definition has_dead_effect (organization projectionId : string) (d : Db) : bool :=
  existsb (λ '(_, e), bool_decide (Effect.organization e = organization)
      && bool_decide (Effect.projection e = projectionId) && bool_decide (Effect.state e = dead))
    (map_to_list (outbox_effects d)).

Definition blocked_rows (organization policyId : string) (d : Db) : list (string * Projection.ProjectionRow) :=
  List.filter (λ '(id, p), bool_decide (Projection.organization p = organization)
      && bool_decide (Projection.policy p = policyId)
      && (includes ["held"; "failed"] (Projection.status p) || has_dead_effect (Projection.organization p) id d))
    (map_to_list (projections d)).

(** [order by updated_at limit 100], rows of one time in the order of their ids. *)
Definition oldest_first (left right : string * Projection.ProjectionRow) : bool :=
  (Projection.updated_at left.2 <? Projection.updated_at right.2)
  || ((Projection.updated_at left.2 =? Projection.updated_at right.2) && text_leb left.1 right.1).

Definition blocked_projections (organization policyId : string) (d : Db) : list (string * Projection.ProjectionRow) :=
  take RETRY_LIMIT (sort_by oldest_first (blocked_rows organization policyId d)).

Definition sourceBasisMatches (basis : option string) (e : Effect.EffectRow) (p : Projection.ProjectionRow) : bool :=
  match basis, Effect.source_basis_hash e, Projection.source_basis_hash p with
  | Some current, Some recorded, Some projected => (recorded =? projected)%string && (recorded =? current)%string
  | _, _, _ => false
  end.

(** The dead effect is what the projection still records. *)
Definition deadPayloadMatches `{Unicode} `{Digest} (policyId projectionId : string) (e : Effect.EffectRow)
    (p : Projection.ProjectionRow) : res failure bool :=
  match Effect.operation e with
  | op_delete =>
      Ok (bool_decide (Projection.desired_hash p = None) && bool_decide (Projection.desired_state p = None))
  | _ =>
      match Effect.desired_state e, Projection.desired_hash p, Projection.desired_state p with
      | Some deadDesired, Some desiredHash, Some desired =>
          if negb (provenance_is policyId projectionId (Projection.generation p) deadDesired) then Ok false
          else
            deadHash ← hash (desired_json deadDesired);
            if negb (deadHash =? desiredHash)%string then Ok false
            else
              projectedHash ← hash (desired_json desired);
              Ok (projectedHash =? desiredHash)%string
      | _, _, _ => Ok false
      end
  end.

Section recovery.
Context {R C : Type} `{NewId} `{Unicode} `{Digest} `{Uuids}.
Local Notation M := (Transaction.M Db R C).
Context (organization policyId : string) (policy : Policy.PolicyRow) (now : Z).

(** [update outbox_effects ... where id and state = 'dead'], [executeTakeFirstOrThrow]. *)
Definition set_dead_effect (effectId : string) (f : Effect.EffectRow → Effect.EffectRow) : M () :=
  row ← read_db (λ d, outbox_effects d !! effectId);
  match row with
  | Some e =>
      if bool_decide (Effect.state e = dead) then write_db (with_effects (λ t, <[effectId := f e]> t)) else throw no_result
  | None => throw no_result
  end.

(** The dead effect is executed again, as one that may have been carried out. *)
Definition replay_dead (effectId projectionId : string) : M Z :=
  _ ← set_dead_effect effectId (settle retry (λ _, 0) (λ _, now) true None now);
  _ ← set_projection projectionId (λ q, release_projection (Projection.ownership q) (Projection.intent_sequence q)
        "retrying" now q);
  mret 1.

(** A reconciliation is left to decide. *)
Definition reconcile_instead (projectionId status reason suffix : string) : M Z :=
  _ ← set_projection projectionId (mark_projection status None "recovery_basis_changed" now);
  _ ← enqueue_job organization "reconcile_policy"
        (reconcile_job_key policyId (Policy.revision policy) +:+ reason +:+ suffix) [("policy_id", JString policyId)] now;
  mret 1.

(** The recorded evidence of a copy that no dead effect blocks any more. *)
Definition recover_evidence (projectionId : string) (p : Projection.ProjectionRow) (superseded : option string)
    (basis : option string) : M Z :=
  let supersededDead := negb (absent superseded) in
  match Projection.recovery_operation p with
  | Some op =>
      if (negb supersededDead && (negb (Projection.status p =? "held")%string
             || negb (bool_decide (Projection.ownership p = Projection.ambiguous))))
         || negb (Projection.policy_revision p =? Policy.revision policy)
      then if supersededDead then reconcile_instead projectionId "failed" ":recovery:" (nullish superseded projectionId)
           else mret 0
      else if is_empty basis || is_empty (Projection.source_basis_hash p)
              || negb (bool_decide (basis = Projection.source_basis_hash p))
      then reconcile_instead projectionId (if supersededDead then "failed" else "held") ":recovery-basis:" projectionId
      else
        evidence ← lift (recovery_evidence policyId projectionId p op);
        if negb evidence
        then if supersededDead then reconcile_instead projectionId "failed" ":recovery-payload:" projectionId else mret 0
        else
          _ ← schedule_recovery organization policyId (Policy.revision policy) projectionId p op
                "user_requested_ambiguous_recovery" now;
          mret 1
  | None =>
      if supersededDead then reconcile_instead projectionId "failed" ":recovery:" (nullish superseded projectionId)
      else mret 0
  end.

Definition retry_projection (projectionId : string) (p : Projection.ProjectionRow) : M Z :=
  blocking ← read_db (blocking_effect organization projectionId);
  basis ← current_basis organization (Projection.source_observation p);
  match blocking with
  | Some (effectId, e) =>
      payload ← lift (deadPayloadMatches policyId projectionId e p);
      if (Effect.policy_revision e =? Policy.revision policy) && sourceBasisMatches basis e p && payload
      then replay_dead effectId projectionId
      else
        let reasonCode := if Effect.policy_revision e =? Policy.revision policy then "recovery_basis_changed"
                          else "policy_revision_superseded" in
        _ ← set_dead_effect effectId (settle succeeded (λ n, n) (λ r, r) false (Some reasonCode) now);
        recover_evidence projectionId p (Some effectId) basis
  | None => recover_evidence projectionId p None basis
  end.

Fixpoint retry_projections (rows : list (string * Projection.ProjectionRow)) (retried : Z) : M Z :=
  match rows with
  | [] => mret retried
  | (id, p) :: rows => n ← retry_projection id p; retry_projections rows (retried + n)
  end.
End recovery.

Definition retryBlocked {R C} `{NewId} `{Unicode} `{Digest} `{Uuids} (organization : string) (actor : Actor) (id : string)
    (now : Z) : Transaction.M Db R C Z :=
  _ ← lift (requireLocalPolicyId id);
  transaction (
    row ← read_db (live_policy organization id);
    policy ← lift (otherwise row (input_error "not_found"));
    rows ← read_db (blocked_projections organization id);
    retried ← retry_projections organization id policy now rows 0;
    _ ← record_bridge_fact (bridge_fact organization actor "policy.recovery_requested" id "user_command"
          (Some (Policy.hash policy)) (Some (Policy.hash policy)) [("effects_retried", int retried)] now);
    mret retried).

(** ** What a retry may do *)

(** The part of a projection that is the copy it stands for. *)
Definition copy_of (p : Projection.ProjectionRow) :=
  ((Projection.organization p, Projection.policy p, Projection.source_observation p, Projection.source_basis_hash p),
   (Projection.destination_calendar p, Projection.destination_event p, Projection.destination_etag p),
   (Projection.generation p, Projection.ownership p, Projection.desired_hash p, Projection.desired_state p)).

Section retries.
Context {R C : Type} `{NewId} `{Unicode} `{Digest} `{Uuids}.
Context (organization policyId : string) (policy : Policy.PolicyRow) (now : Z).
Implicit Types w : Transaction.World Db R C.

(** The basis of an observation as it is. *)
Definition basis_is (d : Db) (observation basis : string) : Prop :=
  ∃ o, source_observations d !! observation = Some o ∧ Observation.organization o = organization ∧
    sourceObservationBasisHash (Observation.observation_hash o) (Observation.tombstone o) = Ok basis.

(** A projection of the bridge whose recorded basis is what the source is now. *)
Record current_projection (d : Db) (projectionId basis : string) (p : Projection.ProjectionRow) : Prop := {
  current_row : projections d !! projectionId = Some p;
  current_organization : Projection.organization p = organization;
  current_policy : Projection.policy p = policyId;
  current_recorded : Projection.source_basis_hash p = Some basis;
  current_source : basis_is d (Projection.source_observation p) basis;
}.

(** The effects a retry leaves that were not there: a dead one replayed or
    superseded, and the recorded evidence scheduled. *)
Inductive retried (d : Db) (i : string) : Effect.EffectRow → Prop :=
| retried_replayed e p basis :
    outbox_effects d !! i = Some e → Effect.state e = dead → Effect.organization e = organization →
    Effect.policy_revision e = Policy.revision policy → Effect.source_basis_hash e = Some basis →
    current_projection d (Effect.projection e) basis p → deadPayloadMatches policyId (Effect.projection e) e p = Ok true →
    retried d i (settle retry (λ _, 0) (λ _, now) true None now e)
| retried_superseded e p code :
    outbox_effects d !! i = Some e → Effect.state e = dead → Effect.organization e = organization →
    projections d !! Effect.projection e = Some p → Projection.policy p = policyId →
    code ∈ ["recovery_basis_changed"; "policy_revision_superseded"] →
    retried d i (settle succeeded (λ n, n) (λ r, r) false (Some code) now e)
| retried_scheduled projectionId p op basis key :
    current_projection d projectionId basis p → Projection.policy_revision p = Policy.revision policy →
    Projection.recovery_operation p = Some op → recovery_evidence policyId projectionId p op = Ok true →
    retried d i (new_effect organization policyId projectionId (Some basis) (Policy.revision policy) op key
      (Projection.desired_state p) true now).

(** What holds while a retry goes through the projections. *)
Record retrying (d0 d : Db) : Prop := {
  retrying_sources : source_observations d = source_observations d0;
  retrying_policies : sync_policies d = sync_policies d0;
  retrying_rules : conflict_rules d = conflict_rules d0;
  retrying_effects : ∀ i e, outbox_effects d !! i = Some e → outbox_effects d0 !! i = Some e ∨ retried d0 i e;
  retrying_projections : ∀ id p, projections d !! id = Some p → ∃ p0, projections d0 !! id = Some p0 ∧
    copy_of p = copy_of p0 ∧ (Projection.policy p0 ≠ policyId → p = p0);
}.

Lemma retrying_refl d : retrying d d.
Proof using Type. split; try done; [by left|]. intros id p Hp. by exists p. Qed.

Lemma retried_not_dead d i e : retried d i e → Effect.state e ≠ dead.
Proof using Type. by intros []. Qed.

(** An effect that is dead was so from the beginning. *)
Lemma retrying_dead d0 d i e : retrying d0 d → outbox_effects d !! i = Some e → Effect.state e = dead →
  outbox_effects d0 !! i = Some e.
Proof using Type.
  intros Hinv He Hdead. destruct (retrying_effects _ _ Hinv i e He) as [|Hr]; [done|].
  by apply retried_not_dead in Hr.
Qed.

Lemma retrying_effect d0 d i e : retrying d0 d → retried d0 i e → retrying d0 (with_effects (λ t, <[i := e]> t) d).
Proof using Type.
  intros [] He. split; cbn; try done. intros i' e' [[<- <-]|[_ He']]%lookup_insert_Some; [by right|eauto].
Qed.

Lemma retrying_projection d0 d id p0 p f :
  retrying d0 d → projections d0 !! id = Some p0 → Projection.policy p0 = policyId →
  projections d !! id = Some p → copy_of (f p) = copy_of p → retrying d0 (with_projections (λ t, <[id := f p]> t) d).
Proof using Type.
  intros Hinv Hp0 Hpol Hp Hf. pose proof Hinv as [Hs Hpo Hr He Hpr]. split; cbn; try done.
  intros id' p' [[<- <-]|[_ Hp']]%lookup_insert_Some; [|eauto]. exists p0. split; [done|].
  destruct (Hpr id p Hp) as (p1 & Hp1 & Hcopy & _). rewrite Hp0 in Hp1. injection Hp1 as <-. split; [congruence|done].
Qed.

Lemma retrying_jobs d0 d f : retrying d0 d → retrying d0 (with_jobs f d).
Proof using Type. by intros []. Qed.

Lemma run_set_projection id f w u w' :
  set_projection id f w = (Ok u, w') →
  ∃ p, projections (db w) !! id = Some p ∧ w' = at_db (with_projections (λ t, <[id := f p]> t) (db w)) w.
Proof using Type.
  unfold set_projection. intros (row & w1 & [-> ->]%run_read & Hrun)%run_bind.
  destruct (projections (db w) !! id) as [p|]; [|done]. apply run_write in Hrun as ->. by exists p.
Qed.

Lemma run_set_dead i f w u w' :
  set_dead_effect i f w = (Ok u, w') →
  ∃ e, outbox_effects (db w) !! i = Some e ∧ Effect.state e = dead ∧
    w' = at_db (with_effects (λ t, <[i := f e]> t) (db w)) w.
Proof using Type.
  unfold set_dead_effect. intros (row & w1 & [-> ->]%run_read & Hrun)%run_bind.
  destruct (outbox_effects (db w) !! i) as [e|]; [|done]. case_bool_decide; [|done].
  apply run_write in Hrun as ->. by exists e.
Qed.

Lemma run_current_basis observation w basis w' :
  current_basis organization observation w = (Ok basis, w') →
  w' = w ∧ ∀ b, basis = Some b → basis_is (db w) observation b.
Proof using Type.
  unfold current_basis. intros (row & w1 & [-> ->]%run_read & Hrun)%run_bind.
  destruct (source_observations (db w) !! observation) as [o|] eqn:Ho; [|by injection Hrun as <- <-].
  case_bool_decide as Horg; [|by injection Hrun as <- <-].
  run_step Hrun as h w2 Hh. apply run_lift in Hh as [Hh ->]. injection Hrun as <- <-.
  split; [done|]. intros b [= <-]. by exists o.
Qed.

Lemma run_insert_effect row w u w' :
  insert_effect row w = (Ok u, w') → ∃ i, db w' = with_effects (λ t, <[i := row]> t) (db w) ∧ calls w' = calls w.
Proof using Type.
  unfold insert_effect. intros (i & w1 & [_ ->]%run_fresh & Hrun)%run_bind.
  run_step Hrun as taken w2 Hr. apply run_read in Hr as [-> ->]. destruct (idempotency_taken _ _); [done|].
  apply run_write in Hrun as ->. by eexists.
Qed.

(** A step of the retry: it keeps the invariant, counts at most one, and calls nobody. *)
Definition retry_step (d0 : Db) (m : Transaction.M Db R C Z) : Prop := ∀ w n w',
  retrying d0 (db w) → m w = (Ok n, w') → retrying d0 (db w') ∧ calls w' = calls w ∧ 0 <= n <= 1.

Lemma retry_step_ret d0 n : 0 <= n <= 1 → retry_step d0 (mret n).
Proof using Type. intros Hn w n' w' Hinv [= <- <-]. done. Qed.

Lemma reconcile_instead_step d0 id p0 status reason suffix :
  projections d0 !! id = Some p0 → Projection.policy p0 = policyId →
  retry_step d0 (reconcile_instead organization policyId policy now id status reason suffix).
Proof using Type.
  intros Hp0 Hpol w n w' Hinv. unfold reconcile_instead. intros (u & w1 & (p & Hp & ->)%run_set_projection & Hrun)%run_bind.
  run_step Hrun as u1 w2 Hq. unfold enqueue_job in Hq. apply run_bind in Hq as (out & w3 & Hq & [= _ <-]).
  apply run_enqueue_job in Hq as (jobs' & Hdb & _ & Hcalls & _). injection Hrun as <- <-. rewrite Hdb. split_and!; [|done..].
  apply retrying_jobs. by eapply retrying_projection.
Qed.

Lemma schedule_recovery_step d0 id p op basis :
  current_projection d0 id basis p → Projection.policy_revision p = Policy.revision policy →
  Projection.recovery_operation p = Some op → recovery_evidence policyId id p op = Ok true →
  retry_step d0 (_ ← schedule_recovery organization policyId (Policy.revision policy) id p op
    "user_requested_ambiguous_recovery" now; mret 1).
Proof using Type.
  intros Hcur Hrev Hop Hev w n w' Hinv Hrun. run_step Hrun as u w1 Hs. injection Hrun as <- <-.
  unfold schedule_recovery in Hs. run_step Hs as key w2 Hk. apply run_lift in Hk as [_ ->].
  run_step Hs as u1 w2 Hi. apply run_insert_effect in Hi as (i & Hdb & Hcalls).
  apply run_set_projection in Hs as (q & Hq & ->). rewrite (current_recorded _ _ _ _ Hcur) in Hdb. cbn [db at_db calls].
  rewrite Hdb in Hq |- *. split_and!; [|done..]. eapply retrying_projection; [|apply Hcur|apply Hcur|exact Hq|done].
  apply retrying_effect; [done|]. by eapply retried_scheduled.
Qed.

Lemma recover_evidence_step d0 id p superseded basis :
  projections d0 !! id = Some p → Projection.organization p = organization → Projection.policy p = policyId →
  (∀ b, basis = Some b → basis_is d0 (Projection.source_observation p) b) →
  retry_step d0 (recover_evidence organization policyId policy now id p superseded basis).
Proof using Type.
  intros Hp Ho Hpol Hbasis. unfold recover_evidence.
  assert (∀ status reason suffix, retry_step d0 (reconcile_instead organization policyId policy now id status reason suffix))
    as Hinstead by (intros; by eapply reconcile_instead_step).
  destruct (Projection.recovery_operation p) as [op|] eqn:Hop.
  2: { destruct (negb (absent superseded)); [apply Hinstead|by apply retry_step_ret]. }
  destruct (_ || negb (Projection.policy_revision p =? _)) eqn:Hrefused.
  { destruct (negb (absent superseded)); [apply Hinstead|by apply retry_step_ret]. }
  apply orb_false_iff in Hrefused as [_ Hrev]. bool_to_prop.
  destruct (_ || negb (bool_decide _)) eqn:Hstale; [apply Hinstead|].
  apply orb_false_iff in Hstale as [[Hb _]%orb_false_iff Heq%negb_false_iff]. bool_to_prop.
  destruct basis as [b|]; [|done]. intros w n w' Hinv Hrun. run_step Hrun as evidence w1 Hev.
  apply run_lift in Hev as [Hev ->]. destruct evidence; cbn [negb] in Hrun.
  - eapply schedule_recovery_step; [|done..|exact Hinv|exact Hrun]. by split; [..|apply Hbasis].
  - destruct (negb (absent superseded)); [by eapply Hinstead|by eapply retry_step_ret].
Qed.

Lemma sourceBasisMatches_spec basis e p :
  sourceBasisMatches basis e p = true →
  ∃ b, basis = Some b ∧ Effect.source_basis_hash e = Some b ∧ Projection.source_basis_hash p = Some b.
Proof using Type.
  unfold sourceBasisMatches. destruct basis, (Effect.source_basis_hash e), (Projection.source_basis_hash p); try done.
  intros ?. bool_to_prop. subst. by eexists.
Qed.

Lemma blocking_effect_spec projectionId d i e :
  blocking_effect organization projectionId d = Some (i, e) →
  outbox_effects d !! i = Some e ∧ Effect.organization e = organization ∧ Effect.projection e = projectionId ∧
  Effect.state e = dead.
Proof using Type.
  unfold blocking_effect. intros Hh%head_Some_elem_of. rewrite sort_by_perm in Hh.
  apply list_elem_of_In, List.filter_In in Hh as [Hin Hc]. apply list_elem_of_In, elem_of_map_to_list in Hin.
  by bool_to_prop.
Qed.

Lemma retry_projection_step d0 id p :
  projections d0 !! id = Some p → Projection.organization p = organization → Projection.policy p = policyId →
  retry_step d0 (retry_projection organization policyId policy now id p).
Proof using Type.
  intros Hp Ho Hpol w n w' Hinv. unfold retry_projection. intros (blocking & w1 & [-> ->]%run_read & Hrun)%run_bind.
  run_step Hrun as basis w1 Hb. apply run_current_basis in Hb as [-> Hb].
  assert (∀ b, basis = Some b → basis_is d0 (Projection.source_observation p) b) as Hbasis.
  { intros b Hsome. unfold basis_is. rewrite <-(retrying_sources _ _ Hinv). by apply Hb. }
  destruct (blocking_effect organization id (db w)) as [[i e]|] eqn:Hblock; [|by eapply recover_evidence_step].
  apply blocking_effect_spec in Hblock as (He & Heo & Hep & Hdead). pose proof (retrying_dead _ _ _ _ Hinv He Hdead) as He0.
  run_step Hrun as payload w1 Hpay. apply run_lift in Hpay as [Hpay ->].
  destruct (_ && _) eqn:Hreplay.
  - apply andb_true_iff in Hreplay as [[Hrev Hmatch]%andb_true_iff Htrue]. destruct payload; [|done]. bool_to_prop.
    apply sourceBasisMatches_spec in Hmatch as (b & -> & Heb & Hpb). unfold replay_dead in Hrun.
    run_step Hrun as u w1 Hs. apply run_set_dead in Hs as (e' & He' & _ & ->). rewrite He in He'. injection He' as <-.
    run_step Hrun as u1 w1 Hs. apply run_set_projection in Hs as (q & Hq & ->). injection Hrun as <- <-. cbn in Hq |- *.
    split_and!; [|done..]. eapply retrying_projection; [|exact Hp|done|exact Hq|done]. apply retrying_effect; [done|].
    eapply (retried_replayed _ _ e p b); try done; rewrite Hep; [|done]. split; try done. by apply Hbasis.
  - run_step Hrun as u w1 Hs. apply run_set_dead in Hs as (e' & He' & _ & ->). rewrite He in He'. injection He' as <-.
    eapply recover_evidence_step in Hrun; [exact Hrun|done..|]. cbn. apply retrying_effect; [done|].
    eapply (retried_superseded _ _ e p); try done; [by rewrite Hep|]. destruct (_ =? _); set_solver.
Qed.

Lemma retry_projections_run d0 rows k w n w' :
  (∀ id p, (id, p) ∈ rows → projections d0 !! id = Some p ∧ Projection.organization p = organization ∧
     Projection.policy p = policyId) →
  retrying d0 (db w) → retry_projections organization policyId policy now rows k w = (Ok n, w') →
  retrying d0 (db w') ∧ calls w' = calls w ∧ k <= n <= k + Z.of_nat (length rows).
Proof using Type.
  revert k w. induction rows as [|[id p] rows IH]; intros k w Hrows Hinv Hrun; cbn [retry_projections] in Hrun.
  - injection Hrun as <- <-. cbn. split_and!; [done..|lia|lia].
  - run_step Hrun as m w1 Hm. destruct (Hrows id p) as (Hp & Ho & Hpol); [by left|].
    apply (retry_projection_step d0) in Hm as (Hinv1 & Hcalls & Hm); [|done..].
    apply IH in Hrun as (Hinv2 & Hcalls2 & Hn); [|intros; apply Hrows; by right|done]. cbn [length].
    split_and!; [done|congruence|lia|lia].
Qed.

Lemma blocked_projections_spec d id p :
  (id, p) ∈ blocked_projections organization policyId d →
  projections d !! id = Some p ∧ Projection.organization p = organization ∧ Projection.policy p = policyId.
Proof using Type.
  unfold blocked_projections. intros Hin%elem_of_take. destruct Hin as (i & Hin%list_elem_of_lookup_2 & _).
  rewrite sort_by_perm in Hin. apply list_elem_of_In, List.filter_In in Hin as [Hin Hc].
  apply list_elem_of_In, elem_of_map_to_list in Hin. by bool_to_prop.
Qed.
End retries.

Lemma retrying_fact `{Unicode} `{Digest} organization policyId policy now d0 d fact :
  retrying organization policyId policy now d0 d → retrying organization policyId policy now d0 (with_audit fact d).
Proof. by intros []. Qed.

Section retry.
Context {R C : Type} `{NewId} `{Unicode} `{Digest} `{Uuids}.
Context (organization : string) (actor : Actor) (policyId : string) (now : Z).
Implicit Types w : Transaction.World Db R C.

(** C30. A retry writes nothing itself and makes nothing executable that was not
    justified. It replays a dead effect only while revision, source and recorded
    copy are those of the effect, and schedules recorded evidence only while
    they are those of the projection, both as ambiguous, so that the calendar is
    read before it is written; every other dead effect it meets is superseded.
    No copy forgets what it is, copies of other bridges are not touched, and at
    most a hundred copies are counted. A retry that throws changes nothing. *)
Theorem retries_are_justified w r w' :
  retryBlocked organization actor policyId now w = (r, w') →
  match r with
  | Throw _ => db w' = db w
  | Ok n =>
      0 <= n <= 100 ∧ calls w' = calls w ∧
      ∃ policy, live_policy organization policyId (db w) = Some policy ∧
        retrying organization policyId policy now (db w) (db w')
  end.
Proof using Type.
  intros Hrun. destruct r as [n|e]; [|by eapply guarded_transaction_throws].
  unfold retryBlocked in Hrun. run_step Hrun as u w1 Hm. apply run_lift in Hm as [_ ->]. apply run_transaction in Hrun.
  run_step Hrun as row w1 Hm. apply run_read in Hm as [-> ->].
  run_step Hrun as policy w1 Hm. apply run_lift in Hm as [Hpolicy%otherwise_Some ->].
  run_step Hrun as rows w1 Hm. apply run_read in Hm as [-> ->].
  run_step Hrun as k w1 Hm. run_step Hrun as u1 w2 Hf. apply run_bridge_fact in Hf as (Hdb & _ & Hcalls).
  injection Hrun as <- <-. apply (retry_projections_run _ _ _ _ (db w)) in Hm as (Hinv & Hcalls1 & Hk).
  - split; [|split; [congruence|]].
    + assert (length (blocked_projections organization policyId (db w)) <= RETRY_LIMIT)%nat as Hlen.
      { unfold blocked_projections. rewrite length_take. lia. }
      unfold RETRY_LIMIT in Hlen. lia.
    + exists policy. split; [done|]. rewrite Hdb. by apply retrying_fact.
  - intros id p Hin. by apply blocked_projections_spec.
  - apply retrying_refl.
Qed.
End retry.

(** ** Examples *)

Module Samples.
Import Reconciliation.Samples.
#[local] Existing Instance Effects.sample_ids.
#[local] Instance long_ids : Uuids := {| validateUuid s := (4 <=? String.length s)%nat |}.

Definition me : Actor := {| principal := "me"; actor_kind := "user"; actor_token := None |}.

(** A failed copy with a dead update, and the same after the source changed. *)
Definition failed_copy : Projection.ProjectionRow :=
  mark_projection "failed" None "provider_unavailable" 0 (sample_projection (Some "copy")).
Definition dead_update : Effect.EffectRow :=
  settle dead (λ _, 10) (λ r, r) true (Some "provider_unavailable") 0 (sample_effect_row op_update false).

Definition blocked (observationHash : string) : Db :=
  with_effects (λ _, {[ "e1" := dead_update ]})
    (with_observations (λ _, {[ "source" :=
       {| Observation.organization := "o"; Observation.calendar := "home"; Observation.remote_event := "event";
          Observation.recurrence_identity := ""; Observation.remote_etag := Some "1"; Observation.event := sample_source;
          Observation.observation_hash := observationHash; Observation.managed_copy := false;
          Observation.tombstone := false; Observation.sync_generation := 1; Observation.observed_at := 0;
          Observation.updated_at := 0 |} ]})
       (before sample_source {[ sample_uuid := failed_copy ]})).

Definition retry_of (observationHash : string) : res failure Z * Transaction.World Db () () :=
  retryBlocked "o" me "policy" october (world (blocked observationHash)).

Example replays :
  (retry_of "observed").1 = Ok 1 ∧
  (Effect.state <$> outbox_effects (db (retry_of "observed").2) !! "e1") = Some retry ∧
  (Effect.ambiguous <$> outbox_effects (db (retry_of "observed").2) !! "e1") = Some true.
Proof. split_and!; vm_compute; reflexivity. Qed.

Example supersedes_changed :
  (retry_of "changed").1 = Ok 1 ∧
  (Effect.state <$> outbox_effects (db (retry_of "changed").2) !! "e1") = Some succeeded ∧
  (Projection.status <$> projections (db (retry_of "changed").2) !! sample_uuid) = Some "failed".
Proof. split_and!; vm_compute; reflexivity. Qed.

Lemma retries_are_justified_witness :
  (Effect.state <$> outbox_effects (db (retry_of "observed").2) !! "e1") = Some retry ∧
  ∃ policy, retrying "o" "policy" policy october (blocked "observed") (db (retry_of "observed").2).
Proof.
  split; [vm_compute; reflexivity|].
  assert (retry_of "observed" = (Ok 1, (retry_of "observed").2)) as Hrun by (vm_compute; reflexivity).
  destruct (retries_are_justified "o" me "policy" october _ _ _ Hrun) as (_ & _ & policy & _ & Hretrying).
  exists policy. exact Hretrying.
Defined.
End Samples.
