(* ===== verification/PlanningStore.v ===== *)
(** * The tables of planning and its provider

    The tables of [server/migrations/0004_planning_rules.sql] as
    [server/src/database/types.ts] types them, next to the shared tables of
    [Store]; the managed event of [server/src/planning/types.ts] with its
    document; the calls of the provider that write planned events. *)

From S2P Require Import Prelude Canonical Types Text Dates PlanningDrafts Planning Jobs Transaction Policies Store.
From stdpp Require Import options.
Open Scope Z_scope.

(** ** Managed events *)

Inductive PlanningRuleKind := kind_boundary | kind_meeting.
#[export] Instance PlanningRuleKind_eq_dec : EqDecision PlanningRuleKind.
Proof. solve_decision. Defined.

Definition kind_text (k : PlanningRuleKind) : string :=
  match k with kind_boundary => "availability_boundary" | kind_meeting => "smart_meeting" end.

Definition kind_of (d : PlanningDraft) : PlanningRuleKind :=
  match d with availability_boundary _ => kind_boundary | smart_meeting _ => kind_meeting end.
Definition name_of (d : PlanningDraft) : string :=
  match d with availability_boundary d => boundary_name d | smart_meeting d => meeting_name d end.
Definition target_of (d : PlanningDraft) : string :=
  match d with availability_boundary d => boundary_target d | smart_meeting d => meeting_target d end.

Record Provenance := {
  provenance_kind : PlanningRuleKind;
  rule_ref : string;
  planned_event_ref : string;
  provenance_key : string;
  provenance_generation : Z;
  provenance_intent : Z;
}.

Record ManagedPlanningEvent := { template : PlanningEvent; provenance : Provenance }.

Definition withProvenance (e : PlanningEvent) (kind : PlanningRuleKind) (ruleId plannedEventId occurrenceKey : string)
    (generation intentSequence : Z) : ManagedPlanningEvent :=
  {| template := e;
     provenance := {| provenance_kind := kind; rule_ref := ruleId; planned_event_ref := plannedEventId;
       provenance_key := occurrenceKey; provenance_generation := generation; provenance_intent := intentSequence |} |}.

Definition withIntent (e : ManagedPlanningEvent) (intentSequence : Z) : ManagedPlanningEvent :=
  let p := provenance e in
  withProvenance (template e) (provenance_kind p) (rule_ref p) (planned_event_ref p) (provenance_key p)
    (provenance_generation p) intentSequence.

Definition with_generation (e : ManagedPlanningEvent) (generation : Z) : ManagedPlanningEvent :=
  let p := provenance e in
  withProvenance (template e) (provenance_kind p) (rule_ref p) (planned_event_ref p) (provenance_key p)
    generation (provenance_intent p).

(** The document of an event: what is stored and hashed. *)
Definition planning_event_members (e : PlanningEvent) : list (string * json) :=
  [("timing", JObject [("start_instant", JString (start (event_interval e)));
                       ("end_instant", JString (end_ (event_interval e))); ("timezone", JString (event_timezone e))]);
   ("summary", JString (event_summary e)); ("description", optional_json (event_description e));
   ("location", optional_json (event_location e));
   ("transparency", JString (match event_transparency e with opaque => "opaque" | transparent => "transparent" end));
   ("visibility", visibility_json (event_visibility e));
   ("attendees", JArray (map (λ '(address, is_optional), JObject [("email", JString address); ("optional", JBool is_optional)])
                            (event_attendees e)));
   ("reminders", JArray []); ("write_controls", JObject [("send_updates", JBool (event_send_updates e))])].

Definition provenance_json (p : Provenance) : json :=
  JObject [("version", int 1); ("kind", JString (kind_text (provenance_kind p))); ("rule_ref", JString (rule_ref p));
    ("planned_event_ref", JString (planned_event_ref p)); ("occurrence_key", JString (provenance_key p));
    ("generation", int (provenance_generation p)); ("intent_sequence", int (provenance_intent p))].

Definition managed_json (e : ManagedPlanningEvent) : json :=
  JObject (planning_event_members (template e) ++ [("provenance", provenance_json (provenance e))]).

(** [new Date(event.timing.start_instant).getTime()], [NaN] as [None]. *)
Definition event_start (e : ManagedPlanningEvent) : option Z := Date_parse (start (event_interval (template e))).
Definition event_end (e : ManagedPlanningEvent) : option Z := Date_parse (end_ (event_interval (template e))).

Definition insideNoMoveWindow (value : option ManagedPlanningEvent) (now lockBeforeMinutes : Z) : bool :=
  match value ≫= event_start with
  | Some s => (now <? s) && (s <=? now + lockBeforeMinutes * 60000)
  | None => false
  end.

Definition eventHasEnded (value : option ManagedPlanningEvent) (now : Z) : bool :=
  match value ≫= event_end with Some e => e <=? now | None => false end.

(** ** Rows *)

Module PlanRule.
Inductive RuleStatus := active | paused | deleting | deleted.
Record RuleRow := {
  organization : string;
  owner : string;
  kind : PlanningRuleKind;
  name : string;
  target_calendar : string;
  status : RuleStatus;
  revision : Z;
  document : json;
  hash : string;
  last_planned_at : option Z;
  last_success_at : option Z;
  safe_error_code : option string;
  updated_at : Z;
}.
End PlanRule.

Module Planned.
Inductive EventStatus := pending_create | pending_update | pending_delete | converged | held | unmet | skipped | deleted.
(** [desired_state] holds a managed event or [null]: nothing else is ever written. *)
Record EventRow := {
  organization : string;
  rule : string;
  rule_revision : Z;
  occurrence_key : string;
  destination_calendar : string;
  generation : Z;
  intent_sequence : Z;
  destination_event : option string;
  destination_etag : option string;
  desired_hash : option string;
  desired_state : option ManagedPlanningEvent;
  status : EventStatus;
  send_updates : bool;
  reason_code : string;
  last_success_at : option Z;
  last_verified_at : option Z;
  safe_error_code : option string;
  updated_at : Z;
}.
End Planned.

Module Suggestion.
Inductive SuggestionKind := move | shorten | skip.
Inductive SuggestionStatus := pending | accepted | dismissed | expired.
Record SuggestionRow := {
  organization : string;
  rule : string;
  planned_event : string;
  kind : SuggestionKind;
  basis_hash : string;
  proposed_state : option ManagedPlanningEvent;
  reason_code : string;
  status : SuggestionStatus;
  expires_at : Z;
  updated_at : Z;
}.
End Suggestion.

Module PlanPreview.
Record PreviewRow := {
  organization : string;
  principal : string;
  rule_kind : PlanningRuleKind;
  draft : json;
  draft_hash : string;
  snapshot_hash : string;
  result : PlanningResult;
  reference_at : Z;
  expires_at : Z;
  consumed_at : option Z;
}.
End PlanPreview.

#[export] Instance PlanRuleStatus_eq_dec : EqDecision PlanRule.RuleStatus.
Proof. solve_decision. Defined.
#[export] Instance EventStatus_eq_dec : EqDecision Planned.EventStatus.
Proof. solve_decision. Defined.
#[export] Instance SuggestionStatus_eq_dec : EqDecision Suggestion.SuggestionStatus.
Proof. solve_decision. Defined.

Record PlanningDb := {
  base : Db;
  plan_previews : gmap string PlanPreview.PreviewRow;
  plan_rules : gmap string PlanRule.RuleRow;
  planned_events : gmap string Planned.EventRow;
  suggestions : gmap string Suggestion.SuggestionRow;
}.

Definition with_base (f : Db → Db) (d : PlanningDb) : PlanningDb :=
  {| base := f (base d); plan_previews := plan_previews d; plan_rules := plan_rules d; planned_events := planned_events d;
     suggestions := suggestions d |}.
Definition with_plan_previews (f : gmap string PlanPreview.PreviewRow → gmap string PlanPreview.PreviewRow)
    (d : PlanningDb) : PlanningDb :=
  {| base := base d; plan_previews := f (plan_previews d); plan_rules := plan_rules d; planned_events := planned_events d;
     suggestions := suggestions d |}.
Definition with_plan_rules (f : gmap string PlanRule.RuleRow → gmap string PlanRule.RuleRow) (d : PlanningDb) : PlanningDb :=
  {| base := base d; plan_previews := plan_previews d; plan_rules := f (plan_rules d); planned_events := planned_events d;
     suggestions := suggestions d |}.
Definition with_planned (f : gmap string Planned.EventRow → gmap string Planned.EventRow) (d : PlanningDb) : PlanningDb :=
  {| base := base d; plan_previews := plan_previews d; plan_rules := plan_rules d; planned_events := f (planned_events d);
     suggestions := suggestions d |}.
Definition with_suggestions (f : gmap string Suggestion.SuggestionRow → gmap string Suggestion.SuggestionRow)
    (d : PlanningDb) : PlanningDb :=
  {| base := base d; plan_previews := plan_previews d; plan_rules := plan_rules d; planned_events := planned_events d;
     suggestions := f (suggestions d) |}.

(** The check of [planned_events]: a row has a desired state exactly when its
    status asks for one. *)
Definition check_event (p : Planned.EventRow) : bool :=
  match Planned.status p with
  | Planned.unmet | Planned.skipped | Planned.pending_delete | Planned.deleted => negb (bool_decide (is_Some (Planned.desired_state p)))
  | _ => bool_decide (is_Some (Planned.desired_state p)) && bool_decide (is_Some (Planned.desired_hash p))
  end.

(** ** The provider *)

Record PlanningIdentity := {
  identity_kind : PlanningRuleKind;
  identity_rule : string;
  identity_event : string;
  identity_key : string;
  plan_generation : Z;
  identity_intent : Z;
}.

Record PlanningLookup := {
  plan_found_id : string;
  plan_found_revision : string;
  plan_identity : option PlanningIdentity;
}.

(** A call of the calendar, with the answer it got. *)
Inductive PlanningCall :=
| GetPlanningEvent (calendar event : string) (answer : res failure (option PlanningLookup))
| CreatePlanningEvent (calendar event : string) (desired : ManagedPlanningEvent) (answer : res failure ProviderWriteResult)
| UpdatePlanningEvent (calendar event expectedRevision : string) (desired : ManagedPlanningEvent)
    (answer : res failure ProviderWriteResult)
| DeletePlanningEvent (calendar event expectedRevision : string) (sendUpdates : bool) (answer : res failure ()).

(** The provider and the token broker over a remote state, as [Provider]. *)
Class PlanningProvider (R : Type) := {
  planning_resolve : string → res failure ();
  planning_token : string → string → R → res failure string * R;
  planning_get : string → string → string → string → R → res failure (option PlanningLookup) * R;
  planning_create : string → string → string → string → ManagedPlanningEvent → R → res failure ProviderWriteResult * R;
  planning_update : string → string → string → string → string → ManagedPlanningEvent → R →
    res failure ProviderWriteResult * R;
  planning_delete : string → string → string → string → string → bool → R → res failure () * R;
}.

(** [planningEventId]. *)
Definition planningEventId `{Digest} (plannedEventId : string) (generation : Z) : string :=
  "p" +:+ slice_to 48 (sha256_hex (plannedEventId +:+ ":" +:+ pretty generation)).

(** ** Operations on the tables *)

Section operations.
Context {R C : Type} `{NewId}.
Local Notation M := (Transaction.M PlanningDb R C).

(** An operation of the shared tables. *)
Definition on_base {A} (m : Transaction.M Db R C A) : M A := λ w,
  let '(r, w') := m {| db := base (db w); remote := remote w; calls := calls w; issued := issued w |} in
  (r, {| db := with_base (λ _, db w') (db w); remote := remote w'; calls := calls w'; issued := issued w' |}).

(** [update planned_events set ... where id = id], [executeTakeFirstOrThrow]. *)
Definition set_event (id : string) (f : Planned.EventRow → Planned.EventRow) : M () :=
  row ← read_db (λ d, planned_events d !! id);
  match row with
  | Some p => if check_event (f p) then write_db (with_planned (λ t, <[id := f p]> t))
              else throw (coded_failure "23514" false)
  | None => throw no_result
  end.

Definition set_plan_rule (id : string) (f : PlanRule.RuleRow → PlanRule.RuleRow) : M () :=
  row ← read_db (λ d, plan_rules d !! id);
  match row with
  | Some r => write_db (with_plan_rules (λ t, <[id := f r]> t))
  | None => throw no_result
  end.

(** [insert into planned_events]: its keys are unique. *)
Definition insert_event (id : string) (p : Planned.EventRow) : M () :=
  taken ← read_db (λ d, bool_decide (is_Some (planned_events d !! id)));
  same ← read_db (λ d, existsb (λ '(_, q), bool_decide (Planned.rule q = Planned.rule p)
    && bool_decide (Planned.occurrence_key q = Planned.occurrence_key p)) (map_to_list (planned_events d)));
  if taken : bool then throw (unique_violation "planned_events_pkey")
  else if same : bool then throw (unique_violation "planned_events_rule_id_occurrence_key_key")
  else if check_event p then write_db (with_planned (λ t, <[id := p]> t))
  else throw (coded_failure "23514" false).

(** The job that applies an intent of a planned event, under one of its keys. *)
Definition enqueue_apply (organization plannedEventId key : string) (intent now : Z) : M () :=
  on_base (enqueue_job organization "apply_planned_event" ("planned-event:" +:+ plannedEventId +:+ key)
    [("planned_event_id", JString plannedEventId); ("intent_sequence", int intent)] now).
End operations.

(** ** Rules for the operations *)

Section rules.
Context {R C : Type}.
Implicit Types w : Transaction.World PlanningDb R C.

Lemma set_event_wp id f p w Q :
  planned_events (db w) !! id = Some p → check_event (f p) = true →
  Q (Ok ()) (at_db (with_planned (λ t, <[id := f p]> t) (db w)) w) → wp (set_event id f) w Q.
Proof. intros Hp Hf HQ. unfold set_event. do 2 wp_step. rewrite Hp, Hf. by wp_step. Qed.

Lemma set_plan_rule_wp id f r w Q :
  plan_rules (db w) !! id = Some r → Q (Ok ()) (at_db (with_plan_rules (λ t, <[id := f r]> t) (db w)) w) →
  wp (set_plan_rule id f) w Q.
Proof. intros Hr HQ. unfold set_plan_rule. do 2 wp_step. rewrite Hr. by wp_step. Qed.

(** A job that applies an intent: the other jobs stay. *)
Definition apply_waits (organization plannedEventId key : string) (d : PlanningDb) : Prop :=
  job_waits organization "apply_planned_event" ("planned-event:" +:+ plannedEventId +:+ key) (base d).

Lemma enqueue_apply_wp `{NewId} organization id key intent now w Q :
  (∀ jobs', (∀ i j, scheduled_jobs (base (db w)) !! i = Some j → jobs' !! i = Some j) →
     (∀ i, i ≠ newId (issued w) → jobs' !! i = scheduled_jobs (base (db w)) !! i) →
     (scheduled_jobs (base (db w)) !! newId (issued w) = None →
        apply_waits organization id key (with_base (with_jobs (λ _, jobs')) (db w))) →
     Q (Ok ()) {| db := with_base (with_jobs (λ _, jobs')) (db w); remote := remote w; calls := calls w; issued := S (issued w) |}) →
  wp (enqueue_apply organization id key intent now) w Q.
Proof.
  intros HQ. unfold enqueue_apply, on_base, wp.
  set (w0 := {| db := base (db w); remote := remote w; calls := calls w; issued := issued w |}).
  destruct (enqueue_job _ _ _ _ _ w0) as [r w'] eqn:Hrun. cbn.
  refine (wp_run _ w0 (λ r (w' : Transaction.World Db R C), Q r {| db := with_base (λ _, db w') (db w);
    remote := remote w'; calls := calls w'; issued := issued w' |}) r w' _ Hrun).
  apply enqueue_job_wp. intros jobs' Hkeep Hsame Hwait. by apply HQ.
Qed.
End rules.
