(* ===== verification/PlanningInputs.v ===== *)
(** * Planning: what a plan is calculated from

    [prepare] of [server/src/planning/service.ts]: the target calendar, the
    calendars of availability and their freshness, the busy intervals of their
    events and of other meetings, and the snapshot that an activation compares;
    the rolling start of a recurring meeting. *)

From S2P Require Import Prelude Canonical Types Text Dates Temporal Hours PlanningDrafts Planning Jobs Transaction Policies Store PlanningStore.
From stdpp Require Import options.
Open Scope Z_scope.

(** ** Errors *)

(** [new PlanningInputError(code, ...)]. *)
Definition plan_error (code : string) : failure := coded_failure code false.

Definition require_plan (condition : bool) (code : string) : res failure () :=
  if condition then Ok () else Throw (plan_error code).

Definition parse_plan `{Unicode} `{TimeZones} (value : json) : res failure PlanningDraft :=
  match parsePlanningDraft value with Ok d => Ok d | Throw _ => Throw (plan_error "invalid_planning_rule") end.

(** A [RangeError] of the engine; its fuel never runs out on a parsed draft. *)
Definition engine_failure {A} (r : res planning_error A) : res failure A :=
  match r with
  | Ok a => Ok a
  | Throw PlanningRangeError => Throw (other_failure "rangeerror")
  | Throw PlanningOutOfFuel => Throw (other_failure "fuel")
  end.

(** ** The snapshot *)

Definition AVAILABILITY_MAX_AGE_MILLISECONDS : Z := 30 * 60000.

Record SnapshotTarget := { target_id : string; target_writable : bool; target_status : string; target_role : string }.
Record SnapshotCalendar := { snapshot_calendar : string; snapshot_readable : bool; snapshot_status : string }.

Record PlanningSnapshotState := {
  snapshot_target : SnapshotTarget;
  snapshot_calendars : list SnapshotCalendar;
  knownAvailabilityCalendarIds : list string;
  snapshot_busy : list PlanningBusyInterval;
}.

Definition busy_json (b : PlanningBusyInterval) : json :=
  JObject [("calendar_id", JString (busy_calendar b)); ("start", JString (start (busy_interval b)));
           ("end", JString (end_ (busy_interval b)))].

Definition calendar_json (c : SnapshotCalendar) : json :=
  JObject [("id", JString (snapshot_calendar c)); ("readable", JBool (snapshot_readable c));
           ("status", JString (snapshot_status c))].

(** [compareText(l, r) || rest]. *)
Definition then_by (l r : string) (rest : bool) : bool := (l <? r)%string || ((l =? r)%string && rest).

Definition busy_leb (x y : PlanningBusyInterval) : bool :=
  then_by (busy_calendar x) (busy_calendar y)
    (then_by (start (busy_interval x)) (start (busy_interval y))
       (text_leb (end_ (busy_interval x)) (end_ (busy_interval y)))).

Definition planningSnapshotDocument (s : PlanningSnapshotState) : json :=
  let t := snapshot_target s in
  JObject [("version", int 2);
    ("target", JObject [("id", JString (target_id t)); ("writable", JBool (target_writable t));
                        ("status", JString (target_status t)); ("intended_role", JString (target_role t))]);
    ("calendars", JArray (map calendar_json
       (sort_by (λ x y, text_leb (snapshot_calendar x) (snapshot_calendar y)) (snapshot_calendars s))));
    ("availability_calendar_ids", JArray (map JString (sort_by text_leb (knownAvailabilityCalendarIds s))));
    ("busy", JArray (map busy_json (sort_by busy_leb (snapshot_busy s))))].

(** ** Rows *)

(** A calendar of the organization with its connection. *)
Definition calendar_row (organization id : string) (d : Db) : option (Endpoint.EndpointRow * Connection.ConnectionRow) :=
  e ← calendar_endpoints d !! id;
  c ← provider_connections d !! Endpoint.connection e;
  if bool_decide (Endpoint.organization e = organization) then Some (e, c) else None.

Definition load_target (organization id : string) (d : Db) : option SnapshotTarget :=
  '(e, c) ← calendar_row organization id d;
  Some {| target_id := id; target_writable := Endpoint.writable e; target_status := Connection.status c;
          target_role := Connection.intended_role c |}.

Definition target_usable (t : SnapshotTarget) : bool :=
  target_writable t && (target_status t =? "active")%string
  && ((target_role t =? "destination")%string || (target_role t =? "both")%string).

(** [where id in requested order by id]. *)
Definition load_calendars (organization : string) (requested : list string) (d : Db) : list SnapshotCalendar :=
  omap (λ id, '(e, c) ← calendar_row organization id d;
          Some {| snapshot_calendar := id; snapshot_readable := Endpoint.readable e; snapshot_status := Connection.status c |})
    (sort_by text_leb (new_set requested)).

(** A cursor of the calendar that is ready and recent. *)
Definition recently_synchronised (organization calendar : string) (cutoff : Z) (d : Db) : bool :=
  existsb (λ '(_, c), bool_decide (SyncCursor.organization c = organization)
      && bool_decide (SyncCursor.calendar c = calendar) && bool_decide (SyncCursor.state c = SyncCursor.ready)
      && match SyncCursor.last_success_at c with Some t => cutoff <=? t | None => false end)
    (map_to_list (sync_cursors d)).

Definition known_calendars (organization : string) (calendars : list SnapshotCalendar) (cutoff : Z) (d : Db) : list string :=
  map snapshot_calendar
    (List.filter (λ c, snapshot_readable c && (snapshot_status c =? "active")%string
                       && recently_synchronised organization (snapshot_calendar c) cutoff d) calendars).

Definition observation_leb (x y : Observation.ObservationRow) : bool :=
  then_by (Observation.calendar x) (Observation.calendar y)
    (then_by (Observation.remote_event x) (Observation.remote_event y)
       (text_leb (Observation.recurrence_identity x) (Observation.recurrence_identity y))).

Definition load_observations (organization : string) (known : list string) (d : Db) : list Observation.ObservationRow :=
  sort_by observation_leb
    (List.filter (λ o, bool_decide (Observation.organization o = organization) && includes known (Observation.calendar o)
                       && negb (Observation.tombstone o))
       (map snd (map_to_list (source_observations d)))).

(** The events of other active meeting rules on the given calendars. *)
Definition occupies (s : Planned.EventStatus) : bool :=
  match s with
  | Planned.pending_create | Planned.pending_update | Planned.converged | Planned.held => true
  | _ => false
  end.

Definition load_planned (organization : string) (calendars : list string) (excludeRuleId : option string) (d : PlanningDb)
    : list (string * Planned.EventRow) :=
  sort_by (λ x y, text_leb x.1 y.1)
    (List.filter (λ '(_, p), bool_decide (Planned.organization p = organization)
        && match plan_rules d !! Planned.rule p with
           | Some r => bool_decide (PlanRule.status r = PlanRule.active) && bool_decide (PlanRule.kind r = kind_meeting)
           | None => false
           end
        && includes calendars (Planned.destination_calendar p) && occupies (Planned.status p)
        && negb (bool_decide (Some (Planned.rule p) = excludeRuleId)))
       (map_to_list (planned_events d))).

(** ** Busy intervals *)

Definition fullDayProfile (timezone : string) : HoursProfile :=
  {| profile_ref := "planning-all-day-busy"; profile_revision := 1; profile_timezone := timezone;
     ambiguous_resolution := earlier_offset; nonexistent_resolution := shift_forward_by_gap;
     weekly := map (λ day, {| weekday := day; weekly_interval :=
       {| local_start := "00:00:00"; local_end := "00:00:00"; end_day_offset := 1 |} |}) [1; 2; 3; 4; 5; 6; 7];
     exceptions := [] |}.

(** [event.provider_metadata?.["planipus_rule_ref"] !== excludeRuleId]: a
    missing member is [undefined], and so is a rule that is not excluded. *)
Definition rule_marker (event : SourceObservation) : json :=
  match provider_metadata event with Some members => member members "planipus_rule_ref" | None => JUndefined end.

Definition other_rule (event : SourceObservation) (excludeRuleId : option string) : bool :=
  match rule_marker event, excludeRuleId with
  | JUndefined, None => false
  | JString s, Some id => negb (s =? id)%string
  | _, _ => true
  end.

Definition is_busy (event : SourceObservation) (excludeRuleId : option string) : bool :=
  bool_decide (lifecycle event = confirmed) && negb (bool_decide (availability event = Some free))
  && negb (match response (relationship event) with declined => true | _ => false end)
  && other_rule event excludeRuleId.

Section prepare.
Context `{Unicode} `{Digest} `{TimeZones} `{Temporal} `{Intl}.

Definition event_busy (calendar : string) (event : SourceObservation) : res failure (list PlanningBusyInterval) :=
  match timing event with
  | Some (timed begin finish _ _) =>
      Ok [{| busy_calendar := calendar; busy_interval := {| start := begin; end_ := finish |} |}]
  | Some (all_day first last timezone) =>
      m ← engine_failure (materialized (fullDayProfile timezone) first last);
      _ ← require_plan (negb (includes (materialization_diagnostics m) Reason.dst_resolution_rejected)) "availability_not_ready";
      Ok (map (λ i, {| busy_calendar := calendar; busy_interval := i |}) (materialized_intervals m))
  | None => Ok []
  end.

Definition observed_busy (excludeRuleId : option string) (o : Observation.ObservationRow)
    : res failure (list PlanningBusyInterval) :=
  if is_busy (Observation.event o) excludeRuleId then event_busy (Observation.calendar o) (Observation.event o) else Ok [].

Definition planned_busy (row : string * Planned.EventRow) : list PlanningBusyInterval :=
  match Planned.desired_state row.2 with
  | Some e => [{| busy_calendar := Planned.destination_calendar row.2; busy_interval := event_interval (template e) |}]
  | None => []
  end.

(** ** [prepare] *)

Definition requested_calendars (draft : PlanningDraft) : list string :=
  match draft with smart_meeting d => availability_calendar_ids d | availability_boundary _ => [] end.

Record Prepared := { prepared_input : PlanningInput; prepared_snapshot : string }.

(** [seen n]: the database as the n-th statement reads it. *)
Definition prepare (seen : nat → PlanningDb) (organization : string) (draft : PlanningDraft) (now : Z)
    (excludeRuleId : option string) : res failure Prepared :=
  target ← otherwise (load_target organization (target_of draft) (base (seen 0%nat))) (plan_error "calendar_capability");
  _ ← require_plan (target_usable target) "calendar_capability";
  let requested := requested_calendars draft in
  let calendars := load_calendars organization requested (base (seen 1%nat)) in
  let known := known_calendars organization calendars (now - AVAILABILITY_MAX_AGE_MILLISECONDS) (base (seen 2%nat)) in
  _ ← require_plan (match draft with
                    | smart_meeting _ => (length (new_set requested) =? length (new_set known))%nat
                    | availability_boundary _ => true
                    end) "availability_not_ready";
  let observations := load_observations organization known (base (seen 3%nat)) in
  let planned := match draft with
                 | smart_meeting _ => load_planned organization (requested ++ [target_of draft]) excludeRuleId (seen 4%nat)
                 | availability_boundary _ => []
                 end in
  observed ← traverse (observed_busy excludeRuleId) observations;
  let busy := concat observed ++ flat_map planned_busy planned in
  snapshotHash ← hash (planningSnapshotDocument {| snapshot_target := target; snapshot_calendars := calendars;
    knownAvailabilityCalendarIds := known; snapshot_busy := busy |});
  Ok {| prepared_input := {| draft := draft; planning_now := toISOString now; planning_busy := busy;
                             known_availability_calendar_ids := known |};
        prepared_snapshot := snapshotHash |}.

(** ** [rollingDraft] *)

Definition set_start_date (d : SmartMeetingDraft) (date : string) : SmartMeetingDraft :=
  {| meeting_name := meeting_name d; meeting_target := meeting_target d; meeting_timezone := meeting_timezone d;
     meeting_start_date := date; weekdays := weekdays d; window_start := window_start d; window_end := window_end d;
     preferred_time := preferred_time d; cadence_weeks := cadence_weeks d; occurrence_count := occurrence_count d;
     minimum_duration_minutes := minimum_duration_minutes d; maximum_duration_minutes := maximum_duration_minutes d;
     start_step_minutes := start_step_minutes d; priority := priority d; meeting_attendees := meeting_attendees d;
     availability_calendar_ids := availability_calendar_ids d; conflict_policy := conflict_policy d;
     lock_before_minutes := lock_before_minutes d; meeting_description := meeting_description d;
     meeting_location := meeting_location d; meeting_visibility := meeting_visibility d |}.

Definition rollingDraft (draft : PlanningDraft) (now : Z) : res planning_error PlanningDraft :=
  match draft with
  | availability_boundary _ => Ok draft
  | smart_meeting d =>
      today ← localDateAt (toISOString now) (meeting_timezone d);
      let cycleDays := cadence_weeks d * 7 in
      match Date_parse (today +:+ "T00:00:00Z"), Date_parse (meeting_start_date d +:+ "T00:00:00Z") with
      | Some t, Some s =>
          let elapsedDays := (t - s) / MILLISECONDS_PER_DAY in
          if elapsedDays <? cycleDays then Ok draft
          else
            date ← otherwise (addLocalDays (meeting_start_date d) (elapsedDays / cycleDays * cycleDays)) PlanningRangeError;
            Ok (smart_meeting (set_start_date d date))
      | _, _ => Ok draft
      end
  end.

Definition prepareForReconcile (seen : nat → PlanningDb) (organization : string) (draft : PlanningDraft) (now : Z)
    (excludeRuleId : string) : res failure Prepared :=
  rolled ← engine_failure (rollingDraft draft now);
  prepare seen organization rolled now (Some excludeRuleId).
End prepare.
