(* ===== verification/PlanningCoordinator.v ===== *)
(** * Planning: reconciliation and application

    [server/src/planning/coordinator.ts]: the reconciliation of a rule, which
    compares the plan of the moment with the planned events and changes, keeps,
    holds or retires each of them, and the application of one intent, which
    reads the calendar before it writes. *)

From S2P Require Import Prelude Canonical Types Text Dates Temporal Hours PlanningDrafts Planning Jobs Transaction Policies Store PlanningStore PlanningInputs.
From stdpp Require Import options.
Open Scope Z_scope.

(** ** Rows *)

(** What the calendar confirmed. *)
Definition mark_converged (event etag : string) (now : Z) (p : Planned.EventRow) : Planned.EventRow :=
  {| Planned.organization := Planned.organization p; Planned.rule := Planned.rule p;
     Planned.rule_revision := Planned.rule_revision p; Planned.occurrence_key := Planned.occurrence_key p;
     Planned.destination_calendar := Planned.destination_calendar p; Planned.generation := Planned.generation p;
     Planned.intent_sequence := Planned.intent_sequence p; Planned.destination_event := Some event;
     Planned.destination_etag := Some etag; Planned.desired_hash := Planned.desired_hash p;
     Planned.desired_state := Planned.desired_state p; Planned.status := Planned.converged;
     Planned.send_updates := Planned.send_updates p; Planned.reason_code := Planned.reason_code p;
     Planned.last_success_at := Some now; Planned.last_verified_at := Some now; Planned.safe_error_code := None;
     Planned.updated_at := now |}.

(** The event is gone from the calendar. *)
Definition mark_removed (now : Z) (p : Planned.EventRow) : Planned.EventRow :=
  {| Planned.organization := Planned.organization p; Planned.rule := Planned.rule p;
     Planned.rule_revision := Planned.rule_revision p; Planned.occurrence_key := Planned.occurrence_key p;
     Planned.destination_calendar := Planned.destination_calendar p; Planned.generation := Planned.generation p;
     Planned.intent_sequence := Planned.intent_sequence p; Planned.destination_event := None;
     Planned.destination_etag := None; Planned.desired_hash := Planned.desired_hash p;
     Planned.desired_state := Planned.desired_state p;
     Planned.status := if (Planned.reason_code p =? "suggestion_skip_accepted")%string then Planned.skipped else Planned.deleted;
     Planned.send_updates := Planned.send_updates p; Planned.reason_code := Planned.reason_code p;
     Planned.last_success_at := Some now; Planned.last_verified_at := Planned.last_verified_at p;
     Planned.safe_error_code := None; Planned.updated_at := now |}.

(** Status, reason and error; [None] keeps the reason. *)
Definition mark_event (status : Planned.EventStatus) (reason : option string) (code : option string) (now : Z)
    (p : Planned.EventRow) : Planned.EventRow :=
  {| Planned.organization := Planned.organization p; Planned.rule := Planned.rule p;
     Planned.rule_revision := Planned.rule_revision p; Planned.occurrence_key := Planned.occurrence_key p;
     Planned.destination_calendar := Planned.destination_calendar p; Planned.generation := Planned.generation p;
     Planned.intent_sequence := Planned.intent_sequence p; Planned.destination_event := Planned.destination_event p;
     Planned.destination_etag := Planned.destination_etag p; Planned.desired_hash := Planned.desired_hash p;
     Planned.desired_state := Planned.desired_state p; Planned.status := status;
     Planned.send_updates := Planned.send_updates p; Planned.reason_code := nullish reason (Planned.reason_code p);
     Planned.last_success_at := Planned.last_success_at p; Planned.last_verified_at := Planned.last_verified_at p;
     Planned.safe_error_code := code; Planned.updated_at := now |}.

(** The copy in the calendar is missing: the next one has its own generation. *)
Definition advance_event (generation : Z) (desired : ManagedPlanningEvent) (hash : string) (now : Z) (p : Planned.EventRow)
    : Planned.EventRow :=
  {| Planned.organization := Planned.organization p; Planned.rule := Planned.rule p;
     Planned.rule_revision := Planned.rule_revision p; Planned.occurrence_key := Planned.occurrence_key p;
     Planned.destination_calendar := Planned.destination_calendar p; Planned.generation := generation;
     Planned.intent_sequence := Planned.intent_sequence p; Planned.destination_event := None;
     Planned.destination_etag := None; Planned.desired_hash := Some hash; Planned.desired_state := Some desired;
     Planned.status := Planned.status p; Planned.send_updates := Planned.send_updates p;
     Planned.reason_code := Planned.reason_code p; Planned.last_success_at := Planned.last_success_at p;
     Planned.last_verified_at := Planned.last_verified_at p; Planned.safe_error_code := Planned.safe_error_code p;
     Planned.updated_at := now |}.

(** A new intent: what is wanted, or nothing. *)
Definition intend (revision : option Z) (intent : Z) (desired : option (ManagedPlanningEvent * string))
    (status : Planned.EventStatus) (sendUpdates : option bool) (reason : string) (code : option string) (now : Z)
    (p : Planned.EventRow) : Planned.EventRow :=
  {| Planned.organization := Planned.organization p; Planned.rule := Planned.rule p;
     Planned.rule_revision := nullish revision (Planned.rule_revision p);
     Planned.occurrence_key := Planned.occurrence_key p; Planned.destination_calendar := Planned.destination_calendar p;
     Planned.generation := Planned.generation p; Planned.intent_sequence := intent;
     Planned.destination_event := Planned.destination_event p; Planned.destination_etag := Planned.destination_etag p;
     Planned.desired_hash := snd <$> desired; Planned.desired_state := fst <$> desired; Planned.status := status;
     Planned.send_updates := nullish sendUpdates (Planned.send_updates p); Planned.reason_code := reason;
     Planned.last_success_at := Planned.last_success_at p; Planned.last_verified_at := Planned.last_verified_at p;
     Planned.safe_error_code := code; Planned.updated_at := now |}.

(** Nothing is wanted any more, and nothing is left to do. *)
Definition retire (status : Planned.EventStatus) (reason : string) (code : option string → option string) (now : Z)
    (p : Planned.EventRow) : Planned.EventRow :=
  intend None (Planned.intent_sequence p) None status None reason (code (Planned.safe_error_code p)) now p.

Definition new_event (organization ruleId : string) (revision : Z) (target key reason : string)
    (desired : option (ManagedPlanningEvent * string)) (now : Z) : Planned.EventRow :=
  {| Planned.organization := organization; Planned.rule := ruleId; Planned.rule_revision := revision;
     Planned.occurrence_key := key; Planned.destination_calendar := target; Planned.generation := 1;
     Planned.intent_sequence := match desired with Some _ => 1 | None => 0 end; Planned.destination_event := None;
     Planned.destination_etag := None; Planned.desired_hash := snd <$> desired; Planned.desired_state := fst <$> desired;
     Planned.status := match desired with Some _ => Planned.pending_create | None => Planned.unmet end;
     Planned.send_updates := match desired with Some (e, _) => event_send_updates (template e) | None => false end;
     Planned.reason_code := reason; Planned.last_success_at := None; Planned.last_verified_at := None;
     Planned.safe_error_code := None; Planned.updated_at := now |}.

Definition mark_plan_rule (status : option PlanRule.RuleStatus) (planned success : option Z) (code : option string) (now : Z)
    (r : PlanRule.RuleRow) : PlanRule.RuleRow :=
  {| PlanRule.organization := PlanRule.organization r; PlanRule.owner := PlanRule.owner r; PlanRule.kind := PlanRule.kind r;
     PlanRule.name := PlanRule.name r; PlanRule.target_calendar := PlanRule.target_calendar r;
     PlanRule.status := nullish status (PlanRule.status r); PlanRule.revision := PlanRule.revision r;
     PlanRule.document := PlanRule.document r; PlanRule.hash := PlanRule.hash r;
     PlanRule.last_planned_at := match planned with Some t => Some t | None => PlanRule.last_planned_at r end;
     PlanRule.last_success_at := match success with Some t => Some t | None => PlanRule.last_success_at r end;
     PlanRule.safe_error_code := code; PlanRule.updated_at := now |}.

(** ** Application *)

(** The join of a planned event with its rule, its calendar and its connection. *)
Record Target := {
  target_event : Planned.EventRow;
  target_rule : PlanRule.RuleRow;
  target_calendar : Endpoint.EndpointRow;
  target_connection : Connection.ConnectionRow;
}.

Definition load_event (organization plannedEventId : string) (d : PlanningDb) : option Target :=
  p ← planned_events d !! plannedEventId;
  r ← plan_rules d !! Planned.rule p;
  e ← calendar_endpoints (base d) !! Planned.destination_calendar p;
  c ← provider_connections (base d) !! Endpoint.connection e;
  if bool_decide (Planned.organization p = organization)
  then Some {| target_event := p; target_rule := r; target_calendar := e; target_connection := c |} else None.

Definition is_pending (s : Planned.EventStatus) : bool :=
  match s with Planned.pending_create | Planned.pending_update | Planned.pending_delete => true | _ => false end.

Definition is_delete (p : Planned.EventRow) : bool := bool_decide (Planned.status p = Planned.pending_delete).

(** A recorded event of the calendar: [destination_event_id] as a condition. *)
Definition mapped (p : Planned.EventRow) : bool := truthy (Planned.destination_event p).

(** The two early returns of [apply]. *)
Definition is_intended (t : Target) (expectedIntent : Z) : bool :=
  (bool_decide (PlanRule.status (target_rule t) = PlanRule.active) || is_delete (target_event t))
  && (Planned.intent_sequence (target_event t) =? expectedIntent) && is_pending (Planned.status (target_event t)).

Definition is_available (t : Target) : bool :=
  Endpoint.writable (target_calendar t) && (Connection.status (target_connection t) =? "active")%string
  && ((Connection.intended_role (target_connection t) =? "destination")%string
      || (Connection.intended_role (target_connection t) =? "both")%string).

Definition belongs (identity : option PlanningIdentity) (plannedEventId : string) (t : Target) : bool :=
  match identity with
  | Some i =>
      bool_decide (identity_kind i = PlanRule.kind (target_rule t))
      && (identity_rule i =? Planned.rule (target_event t))%string && (identity_event i =? plannedEventId)%string
      && (identity_key i =? Planned.occurrence_key (target_event t))%string
      && (plan_generation i =? Planned.generation (target_event t))
  | None => false
  end.

Section apply.
Context {R : Type} `{PlanningProvider R} `{NewId} `{Unicode} `{Digest}.
Local Notation M := (Transaction.M PlanningDb R PlanningCall).

Definition hold (id code : string) (preservePendingDelete : bool) (now : Z) : M () :=
  set_event id (mark_event (if preservePendingDelete then Planned.pending_delete else Planned.held) None (Some code) now).

Definition event_id (id : string) (p : Planned.EventRow) : string :=
  nullish (Planned.destination_event p) (planningEventId id (Planned.generation p)).

(** A rule that is being deleted is deleted with its last event. *)
Definition finish_deletion (t : Target) (now : Z) : M () :=
  let ruleId := Planned.rule (target_event t) in
  if bool_decide (PlanRule.status (target_rule t) = PlanRule.deleting) then
    remaining ← read_db (λ d, existsb (λ '(_, q), bool_decide (Planned.rule q = ruleId) && is_delete q)
                                (map_to_list (planned_events d)));
    if remaining : bool then mret ()
    else set_plan_rule ruleId (mark_plan_rule (Some PlanRule.deleted) None None None now)
  else mret ().

Section target.
Context (id : string) (t : Target) (provider token : string) (now : Z).
Local Notation p := (target_event t).
Local Notation calendar := (Endpoint.remote_id (target_calendar t)).

Definition get_event (event : string) : M (option PlanningLookup) :=
  call (GetPlanningEvent calendar event) (planning_get provider token calendar event).

Definition apply_delete : M (option failure) :=
  found ← get_event (event_id id p);
  match found with
  | Some f =>
      if negb (belongs (plan_identity f) id t)
      then _ ← hold id "ownership_mismatch" true now;
           mret (Some (provider_failure (provider_error "cleanup_ownership_mismatch" false)))
      else _ ← call (DeletePlanningEvent calendar (plan_found_id f) (plan_found_revision f) (Planned.send_updates p))
                 (planning_delete provider token calendar (plan_found_id f) (plan_found_revision f) (Planned.send_updates p));
           _ ← set_event id (mark_removed now);
           _ ← finish_deletion t now;
           mret None
  | None => _ ← set_event id (mark_removed now); _ ← finish_deletion t now; mret None
  end.

Definition converge_event (event etag : string) : M (option failure) :=
  _ ← set_event id (mark_converged event etag now);
  _ ← set_plan_rule (Planned.rule p) (mark_plan_rule None None (Some now) None now);
  mret None.

(** The write, once the calendar was read. *)
Definition write_event (found : option PlanningLookup) (event : string) (desired : ManagedPlanningEvent) : M (option failure) :=
  if bool_decide (PlanRule.kind (target_rule t) = kind_meeting)
     && match event_start desired with Some s => s <=? now | None => false end
  then _ ← hold id "meeting_start_too_close" false now; mret None
  else
    written ← match found with
              | Some f => call (UpdatePlanningEvent calendar (plan_found_id f) (plan_found_revision f) desired)
                            (planning_update provider token calendar (plan_found_id f) (plan_found_revision f) desired)
              | None => call (CreatePlanningEvent calendar event desired) (planning_create provider token calendar event desired)
              end;
    converge_event (remoteEventId written) (remoteRevision written).

Definition apply_write : M (option failure) :=
  desired ← lift (otherwise (Planned.desired_state p) (provider_failure (provider_error "invalid_desired_state" false)));
  found ← get_event (event_id id p);
  match found with
  | Some f =>
      match plan_identity f with
      | Some i =>
          if negb (belongs (Some i) id t) then _ ← hold id "ownership_mismatch" false now; mret None
          else if identity_intent i =? Planned.intent_sequence p
          then converge_event (plan_found_id f) (plan_found_revision f)
          else if Planned.intent_sequence p <? identity_intent i
          then _ ← hold id "remote_intent_ahead" false now; mret None
          else write_event (Some f) (event_id id p) desired
      | None => _ ← hold id "ownership_mismatch" false now; mret None
      end
  | None =>
      if mapped p
      then
        let generation := Planned.generation p + 1 in
        let desired := with_generation desired generation in
        desiredHash ← lift (hash (managed_json desired));
        _ ← set_event id (advance_event generation desired desiredHash now);
        write_event None (planningEventId id generation) desired
      else write_event None (event_id id p) desired
  end.

(** The [catch] of [apply]. *)
Definition on_apply_error (error : failure) : M (option failure) :=
  match error with
  | provider_failure e =>
      if (code e =? "precondition_failed")%string
      then _ ← hold id "ownership_ambiguous" (is_delete p) now;
           mret (if is_delete p then Some (provider_failure (provider_error "cleanup_precondition_changed" true)) else None)
      else _ ← set_event id (λ q, mark_event (Planned.status q) None (Some (safeErrorCode error)) now q); mret (Some error)
  | _ => _ ← set_event id (λ q, mark_event (Planned.status q) None (Some (safeErrorCode error)) now q); mret (Some error)
  end.
End target.

Definition apply_target (organization plannedEventId : string) (expectedIntent now : Z) : M (option failure) :=
  row ← read_db (load_event organization plannedEventId);
  match row with
  | None => mret None
  | Some t =>
      if negb (is_intended t expectedIntent) then mret None
      else if negb (is_available t)
      then _ ← hold plannedEventId "target_unavailable" (is_delete (target_event t)) now;
           mret (if is_delete (target_event t)
                 then Some (provider_failure (provider_error "cleanup_target_unavailable" true)) else None)
      else
        let provider := Connection.provider (target_connection t) in
        _ ← lift (planning_resolve provider);
        token ← use_remote (planning_token organization (Endpoint.connection (target_calendar t)));
        try_catch (if is_delete (target_event t) then apply_delete plannedEventId t provider token now
                   else apply_write plannedEventId t provider token now)
          (on_apply_error plannedEventId t now)
  end.

Definition apply (writes : bool) (organization plannedEventId : string) (expectedIntent now : Z) : M () :=
  if negb writes then throw (provider_failure (provider_error "planning_writes_disabled" false))
  else
    outcome ← transaction (apply_target organization plannedEventId expectedIntent now);
    match outcome with Some e => throw e | None => mret () end.
End apply.

(** ** Reconciliation *)

(** The [Map] from occurrence keys to the rows of the rule. *)
Definition key_of (row : string * Planned.EventRow) : string := Planned.occurrence_key row.2.

Fixpoint set_key (rows : list (string * Planned.EventRow)) (row : string * Planned.EventRow) : list (string * Planned.EventRow) :=
  match rows with
  | [] => [row]
  | old :: rows => if (key_of old =? key_of row)%string then row :: rows else old :: set_key rows row
  end.

Definition by_key (rows : list (string * Planned.EventRow)) : list (string * Planned.EventRow) := fold_left set_key rows [].

Definition get_key (rows : list (string * Planned.EventRow)) (key : string) : option (string * Planned.EventRow) :=
  List.find (λ row, (key_of row =? key)%string) rows.

Definition delete_key (rows : list (string * Planned.EventRow)) (key : string) : list (string * Planned.EventRow) :=
  List.filter (λ row, negb (key_of row =? key)%string) rows.

Definition events_of (organization ruleId : string) (d : PlanningDb) : list (string * Planned.EventRow) :=
  List.filter (λ '(_, p), bool_decide (Planned.organization p = organization) && bool_decide (Planned.rule p = ruleId))
    (map_to_list (planned_events d)).

(** [conflict_policy] and [lock_before_minutes] of a meeting. *)
Definition meeting_of (d : PlanningDraft) : option SmartMeetingDraft :=
  match d with smart_meeting m => Some m | availability_boundary _ => None end.

Section reconcile.
Context {R : Type} `{NewId} `{Unicode} `{Digest} `{TimeZones} `{Temporal} `{Intl}.
Local Notation M := (Transaction.M PlanningDb R PlanningCall).

Definition enqueueApply (organization plannedEventId : string) (intent now : Z) : M () :=
  enqueue_apply organization plannedEventId (":intent:" +:+ pretty intent) intent now.

(** A value with its hash. *)
Definition hashed (desired : option ManagedPlanningEvent) : M (option (ManagedPlanningEvent * string)) :=
  match desired with
  | Some e => h ← lift (hash (managed_json e)); mret (Some (e, h))
  | None => mret None
  end.

Section rule.
Context (organization ruleId : string) (revision : Z) (draft : PlanningDraft) (now : Z).

Definition insertOccurrence (occurrence : PlannedOccurrenceTemplate) : M () :=
  id ← fresh_id;
  desired ← hashed ((λ e, withProvenance e (kind_of draft) ruleId id (occurrence_key occurrence) 1 1)
                      <$> Planning.planned_event occurrence);
  _ ← insert_event id (new_event organization ruleId revision (target_of draft) (occurrence_key occurrence)
                         (occurrence_reason occurrence) desired now);
  match desired with Some _ => enqueueApply organization id 1 now | None => mret () end.

(** The hash of what is wanted for the occurrence of a row, under its current intent. *)
Definition desired_for (id : string) (p : Planned.EventRow) (occurrence : PlannedOccurrenceTemplate)
    : option ManagedPlanningEvent :=
  (λ e, withProvenance e (kind_of draft) ruleId id (occurrence_key occurrence) (Planned.generation p) (Planned.intent_sequence p))
    <$> Planning.planned_event occurrence.

(** Nothing changed: what waits is enqueued again, and so is what a target that was not available held. *)
Definition keep_event (id : string) (p : Planned.EventRow) : M () :=
  if bool_decide (Planned.status p = Planned.held) && bool_decide (Planned.safe_error_code p = Some "target_unavailable")
  then _ ← set_event id (mark_event (if mapped p then Planned.pending_update else Planned.pending_create) None None now);
       enqueueApply organization id (Planned.intent_sequence p) now
  else if (bool_decide (Planned.status p = Planned.pending_create) || bool_decide (Planned.status p = Planned.pending_update))
          && bool_decide (Planned.safe_error_code p = None)
  then enqueueApply organization id (Planned.intent_sequence p) now
  else mret ().

(** [insert into planning_suggestions ... on conflict do nothing]. *)
Definition suggest_change (id : string) (p : Planned.EventRow) (desired : option (ManagedPlanningEvent * string)) : M () :=
  basis ← lift (hash (JObject [("current", match Planned.desired_hash p with Some h => JString h | None => JNull end);
                               ("proposed", match desired with Some (_, h) => JString h | None => JNull end);
                               ("revision", int revision)]));
  suggestionId ← fresh_id;
  conflict ← read_db (λ d, existsb (λ '(i, s), bool_decide (i = suggestionId)
      || (bool_decide (Suggestion.planned_event s = id) && bool_decide (Suggestion.basis_hash s = basis)))
    (map_to_list (suggestions d)));
  if conflict : bool then mret ()
  else write_db (with_suggestions (λ t, <[suggestionId :=
    {| Suggestion.organization := organization; Suggestion.rule := ruleId; Suggestion.planned_event := id;
       Suggestion.kind := match desired with Some _ => Suggestion.move | None => Suggestion.skip end;
       Suggestion.basis_hash := basis; Suggestion.proposed_state := fst <$> desired;
       Suggestion.reason_code := match desired with Some _ => "conflict_found_better_time" | None => "conflict_no_mutual_time" end;
       Suggestion.status := Suggestion.pending; Suggestion.expires_at := now + 14 * 86400000;
       Suggestion.updated_at := now |}]> t)).

(** What a changed plan does to an event. *)
Inductive PlanResponse := hold_locked | propose | keep_conflict | hold_unmet | replan.

Definition response_to (p : Planned.EventRow) (desired : option ManagedPlanningEvent) : PlanResponse :=
  match meeting_of draft, mapped p with
  | Some m, true =>
      if insideNoMoveWindow (Planned.desired_state p) now (lock_before_minutes m) then hold_locked
      else if bool_decide (conflict_policy m = suggest) && bool_decide (Planned.status p = Planned.converged) then propose
      else if bool_decide (conflict_policy m = keep_with_warning) then keep_conflict
      else match desired with None => hold_unmet | Some _ => replan end
  | _, _ => replan
  end.

Definition replan_event (id : string) (occurrence : PlannedOccurrenceTemplate) (p : Planned.EventRow)
    (desired : option ManagedPlanningEvent) : M () :=
  let intent := Planned.intent_sequence p + 1 in
  written ← hashed ((λ e, withIntent e intent) <$> desired);
  _ ← set_event id (intend (Some revision) intent written
        (match written with
         | Some _ => if mapped p then Planned.pending_update else Planned.pending_create
         | None => Planned.unmet
         end)
        (Some (match written with Some (e, _) => event_send_updates (template e) | None => false end))
        (occurrence_reason occurrence)
        (match written with Some _ => None | None => Some "planning_window_unmet" end) now);
  match written with Some _ => enqueueApply organization id intent now | None => mret () end.

Definition updateOccurrence (id : string) (p : Planned.EventRow) (occurrence : PlannedOccurrenceTemplate) : M () :=
  let desired := desired_for id p occurrence in
  if bool_decide (Planned.status p = Planned.skipped) then mret ()
  else
    wanted ← hashed desired;
    if bool_decide (snd <$> wanted = Planned.desired_hash p) && negb (bool_decide (Planned.status p = Planned.unmet))
    then keep_event id p
    else
      match response_to p desired with
      | hold_locked => set_event id (mark_event Planned.held (Some "inside_no_move_window") (Some "meeting_locked") now)
      | propose => suggest_change id p wanted
      | keep_conflict =>
          set_event id (mark_event Planned.held (Some "conflict_kept_for_manual_resolution") (Some "meeting_conflict") now)
      | hold_unmet =>
          set_event id (mark_event Planned.held (Some "no_mutual_time_inside_meeting_hours") (Some "planning_window_unmet") now)
      | replan => replan_event id occurrence p desired
      end.

(** The loop over the plan: the rows that are left are stale. *)
Fixpoint reconcile_occurrences (rows : list (string * Planned.EventRow)) (occurrences : list PlannedOccurrenceTemplate)
    : M (list (string * Planned.EventRow)) :=
  match occurrences with
  | [] => mret rows
  | o :: occurrences =>
      _ ← match get_key rows (occurrence_key o) with
          | None => insertOccurrence o
          | Some (id, p) => updateOccurrence id p o
          end;
      reconcile_occurrences (delete_key rows (occurrence_key o)) occurrences
  end.

(** An event that is not in the plan any more. *)
Definition retire_event (row : string * Planned.EventRow) : M () :=
  let '(id, p) := row in
  if bool_decide (Planned.status p = Planned.pending_delete) then
    if bool_decide (Planned.safe_error_code p = Some "ownership_mismatch") then mret ()
    else enqueueApply organization id (Planned.intent_sequence p) now
  else if eventHasEnded (Planned.desired_state p) now then
    set_event id (retire Planned.deleted "historical_event_preserved" (λ _, None) now)
  else
  if mapped p && negb (bool_decide (Planned.status p = Planned.deleted)) then
    let intent := Planned.intent_sequence p + 1 in
    _ ← set_event id (intend (Some revision) intent None Planned.pending_delete None "outside_rolling_horizon" None now);
    enqueueApply organization id intent now
  else if negb (mapped p) then set_event id (retire Planned.deleted "outside_rolling_horizon" (λ c, c) now)
  else mret ().

Fixpoint retire_events (rows : list (string * Planned.EventRow)) : M () :=
  match rows with [] => mret () | row :: rows => _ ← retire_event row; retire_events rows end.
End rule.

(** The transaction of [reconcile]. *)
Definition commit_plan (organization ruleId : string) (rule : PlanRule.RuleRow) (draft : PlanningDraft) (plan : PlanningResult)
    (now : Z) : M () :=
  transaction (
    locked ← read_db (λ d, plan_rules d !! ruleId);
    match locked with
    | Some current =>
        if bool_decide (PlanRule.organization current = organization) && bool_decide (PlanRule.status current = PlanRule.active)
           && (PlanRule.revision current =? PlanRule.revision rule)
        then
          existing ← read_db (events_of organization ruleId);
          stale ← reconcile_occurrences organization ruleId (PlanRule.revision rule) draft now (by_key existing) (occurrences plan);
          _ ← retire_events organization (PlanRule.revision rule) now stale;
          set_plan_rule ruleId (mark_plan_rule None (Some now) None
            (if (0 <? unmet_count plan)%nat then Some "planning_window_unmet" else None) now)
        else mret ()
    | None => mret ()
    end).

(** [reconcile]: [seen n] is what the n-th statement of [prepareForReconcile]
    reads, [interleave] what other transactions do until the plan is committed. *)
Definition reconcile (seen : nat → PlanningDb → PlanningDb) (interleave : PlanningDb → PlanningDb)
    (organization ruleId : string) (now : Z) : M () :=
  row ← read_db (λ d, plan_rules d !! ruleId);
  match row with
  | Some rule =>
      if bool_decide (PlanRule.organization rule = organization) && bool_decide (PlanRule.status rule = PlanRule.active)
      then
        draft ← lift (parse_plan (PlanRule.document rule));
        prepared ← read_db (λ d, prepareForReconcile (λ n, seen n d) organization draft now ruleId);
        prepared ← lift prepared;
        plan ← lift (engine_failure (planScheduling (prepared_input prepared)));
        _ ← write_db interleave;
        commit_plan organization ruleId rule (Planning.draft (prepared_input prepared)) plan now
      else mret ()
  | None => mret ()
  end.
End reconcile.

(** ** [dispatch] *)

Definition payload_error : failure := other_failure "error".

Definition field (payload : json) (name : string) : res failure string :=
  match payload with
  | JObject members => match member members name with JString s => Ok s | _ => Throw payload_error end
  | _ => Throw payload_error
  end.

Definition integerField (payload : json) (name : string) : res failure Z :=
  match payload with
  | JObject members =>
      match member members name with
      | JNumber n => match safe_integer n with Some z => if z <? 0 then Throw payload_error else Ok z | None => Throw payload_error end
      | _ => Throw payload_error
      end
  | _ => Throw payload_error
  end.

Definition dispatch {R} `{PlanningProvider R} `{NewId} `{Unicode} `{Digest} `{TimeZones} `{Temporal} `{Intl}
    (writes : bool) (seen : nat → PlanningDb → PlanningDb) (interleave : PlanningDb → PlanningDb)
    (organization kind : string) (payload : json) (now : Z) : Transaction.M PlanningDb R PlanningCall () :=
  if (kind =? "reconcile_planning_rule")%string then
    ruleId ← lift (field payload "rule_id");
    reconcile seen interleave organization ruleId now
  else if (kind =? "apply_planned_event")%string then
    plannedEventId ← lift (field payload "planned_event_id");
    intent ← lift (integerField payload "intent_sequence");
    apply writes organization plannedEventId intent now
  else throw (other_failure "error").

(** ** What an application may do *)

Section application.
Context `{Digest}.
Context (id : string) (t : Target) (now : Z).
Local Notation p := (target_event t).
Local Notation calendar := (Endpoint.remote_id (target_calendar t)).

Definition read_call (answer : res failure (option PlanningLookup)) : PlanningCall :=
  GetPlanningEvent calendar (event_id id p) answer.

(** A meeting is not written once it has started. *)
Definition still_ahead (desired : ManagedPlanningEvent) : Prop :=
  PlanRule.kind (target_rule t) = kind_meeting → ∀ s, event_start desired = Some s → now < s.

(** The writes that the answer of the calendar justifies. *)
Inductive justified_write (answer : res failure (option PlanningLookup)) : PlanningCall → Prop :=
| delete_justified f result :
    is_delete p = true → answer = Ok (Some f) → belongs (plan_identity f) id t = true →
    justified_write answer
      (DeletePlanningEvent calendar (plan_found_id f) (plan_found_revision f) (Planned.send_updates p) result)
| update_justified f i desired result :
    is_delete p = false → answer = Ok (Some f) → plan_identity f = Some i → belongs (Some i) id t = true →
    identity_intent i < Planned.intent_sequence p → Planned.desired_state p = Some desired → still_ahead desired →
    justified_write answer (UpdatePlanningEvent calendar (plan_found_id f) (plan_found_revision f) desired result)
| create_justified desired result :
    is_delete p = false → answer = Ok None → mapped p = false → Planned.desired_state p = Some desired →
    still_ahead desired → justified_write answer (CreatePlanningEvent calendar (event_id id p) desired result)
| recreate_justified desired result :
    is_delete p = false → answer = Ok None → mapped p = true → Planned.desired_state p = Some desired →
    still_ahead desired →
    justified_write answer (CreatePlanningEvent calendar (planningEventId id (Planned.generation p + 1))
      (with_generation desired (Planned.generation p + 1)) result).

(** One read, and at most one write after it. *)
Definition calls_justified (cs : list PlanningCall) : Prop :=
  cs = [] ∨ ∃ answer, cs = [read_call answer] ∨ ∃ c, cs = [read_call answer; c] ∧ justified_write answer c.

(** A write that the calendar confirmed. *)
Definition succeeded (c : PlanningCall) : bool :=
  match c with
  | CreatePlanningEvent _ _ _ (Ok _) | UpdatePlanningEvent _ _ _ _ (Ok _) | DeletePlanningEvent _ _ _ _ (Ok _) => true
  | _ => false
  end.

(** The calendar holds the event of the intent, under this id and revision. *)
Inductive calendar_confirms : list PlanningCall → string → string → Prop :=
| already_there f i :
    plan_identity f = Some i → belongs (Some i) id t = true → identity_intent i = Planned.intent_sequence p →
    calendar_confirms [read_call (Ok (Some f))] (plan_found_id f) (plan_found_revision f)
| updated answer calendar' event revision desired written :
    calendar_confirms [read_call answer; UpdatePlanningEvent calendar' event revision desired (Ok written)]
      (remoteEventId written) (remoteRevision written)
| created answer calendar' event desired written :
    calendar_confirms [read_call answer; CreatePlanningEvent calendar' event desired (Ok written)]
      (remoteEventId written) (remoteRevision written).

(** The row a write starts from: a mapped event that is missing gets a new generation. *)
Inductive starting_row : Planned.EventRow → Prop :=
| same_row : starting_row p
| advanced_row desired h :
    is_delete p = false → Planned.desired_state p = Some desired →
    starting_row (advance_event (Planned.generation p + 1) (with_generation desired (Planned.generation p + 1)) h now p).

(** What is recorded of the calls. *)
Inductive recorded (cs : list PlanningCall) : Planned.EventRow → option failure → Prop :=
| records_convergence q event etag :
    starting_row q → is_delete p = false → calendar_confirms cs event etag → recorded cs (mark_converged event etag now q) None
| records_removal :
    is_delete p = true →
    cs = [read_call (Ok None)] ∨
    (∃ f, cs = [read_call (Ok (Some f));
       DeletePlanningEvent calendar (plan_found_id f) (plan_found_revision f) (Planned.send_updates p) (Ok ())]) →
    recorded cs (mark_removed now p) None
| records_hold q code outcome :
    starting_row q → Forall (λ c, succeeded c = false) cs → (is_Some outcome ↔ is_delete p = true) →
    recorded cs (mark_event (if is_delete p then Planned.pending_delete else Planned.held) None (Some code) now q) outcome
| records_failure q e :
    starting_row q → Forall (λ c, succeeded c = false) cs →
    recorded cs (mark_event (Planned.status q) None (Some (safeErrorCode e)) now q) (Some e).

(** The rule: successful, or deleted with its last event. *)
Inductive rule_follows (d d' : PlanningDb) : Prop :=
| rule_kept : plan_rules d' = plan_rules d → rule_follows d d'
| rule_succeeds :
    plan_rules d' = <[Planned.rule p := mark_plan_rule None None (Some now) None now (target_rule t)]> (plan_rules d) →
    rule_follows d d'
| rule_deleted :
    PlanRule.status (target_rule t) = PlanRule.deleting →
    (∀ i q, planned_events d' !! i = Some q → Planned.rule q = Planned.rule p → is_delete q = false) →
    plan_rules d' = <[Planned.rule p := mark_plan_rule (Some PlanRule.deleted) None None None now (target_rule t)]> (plan_rules d) →
    rule_follows d d'.

Record applied (d : PlanningDb) (cs : list PlanningCall) (outcome : option failure) (d' : PlanningDb) : Prop := {
  applied_calls : calls_justified cs;
  applied_row : ∃ row, planned_events d' = <[id := row]> (planned_events d) ∧ recorded cs row outcome;
  applied_rule : rule_follows d d';
  applied_last : is_delete p = true → outcome = None → PlanRule.status (target_rule t) = PlanRule.deleting →
    (∃ i q, planned_events d' !! i = Some q ∧ Planned.rule q = Planned.rule p ∧ is_delete q = true) ∨
    ∃ r, plan_rules d' !! Planned.rule p = Some r ∧ PlanRule.status r = PlanRule.deleted;
  applied_rest : base d' = base d ∧ suggestions d' = suggestions d ∧ plan_previews d' = plan_previews d;
}.
End application.

(** ** Application: proofs *)

#[local] Arguments belongs : simpl never.

Section apply_proofs.
Context {R : Type} `{PlanningProvider R} `{Unicode} `{Digest}.
Context (organization id : string) (t : Target) (now : Z) (d : PlanningDb) (cs0 : list PlanningCall).
Context (Hload : load_event organization id d = Some t).
Local Notation p := (target_event t).
Local Notation calendar := (Endpoint.remote_id (target_calendar t)).
Implicit Types w : Transaction.World PlanningDb R PlanningCall.

Lemma loaded_event : planned_events d !! id = Some p.
Proof using Hload.
  revert Hload. unfold load_event. destruct (planned_events d !! id) as [q|]; [|done]. cbn.
  destruct (plan_rules d !! _) as [r|]; [|done]. cbn. destruct (calendar_endpoints _ !! _) as [e|]; [|done]. cbn.
  destruct (provider_connections _ !! _); [|done]. cbn. case_bool_decide; [|done]. by intros [= <-].
Qed.

Lemma loaded_rule : plan_rules d !! Planned.rule p = Some (target_rule t).
Proof using Hload.
  revert Hload. unfold load_event. destruct (planned_events d !! id) as [q|]; [|done]. cbn.
  destruct (plan_rules d !! _) as [r|] eqn:Hr; [|done]. cbn. destruct (calendar_endpoints _ !! _) as [e|]; [|done]. cbn.
  destruct (provider_connections _ !! _); [|done]. cbn. case_bool_decide; [|done]. by intros [= <-].
Qed.

Context (Hcheck : check_event (target_event t) = true) (Hpending : is_pending (Planned.status (target_event t)) = true).

Lemma pending_cases : Planned.status p = Planned.pending_delete ∨ is_delete p = false.
Proof using Type. unfold is_delete. case_bool_decide; [by left|by right]. Qed.

(** A row to be written has what is wanted. *)
Lemma starting_wanted q :
  is_delete p = false → starting_row t now q →
  is_Some (Planned.desired_state q) ∧ is_Some (Planned.desired_hash q) ∧ Planned.status q = Planned.status p.
Proof using Hcheck Hpending.
  intros Hd [|desired h _ Hdes]; [|by cbn; eauto].
  enough (is_Some (Planned.desired_state p) ∧ is_Some (Planned.desired_hash p)) as [??] by done.
  apply bool_decide_eq_false in Hd as Hn. pose proof Hcheck as Hc. pose proof Hpending as Hp. unfold check_event in Hc.
  assert (bool_decide (is_Some (Planned.desired_state p)) && bool_decide (is_Some (Planned.desired_hash p)) = true) as Hb.
  { revert Hn Hc Hp. destruct (Planned.status p); naive_solver. }
  apply andb_true_iff in Hb. by rewrite !bool_decide_eq_true in Hb.
Qed.

Lemma check_held q code :
  starting_row t now q → (is_delete p = true → q = p) →
  check_event (mark_event (if is_delete p then Planned.pending_delete else Planned.held) None (Some code) now q) = true.
Proof using Hcheck Hpending.
  intros Hq Hdel. destruct (is_delete p) eqn:Hd.
  - rewrite Hdel by done. apply bool_decide_eq_true in Hd. revert Hcheck. unfold check_event. by rewrite Hd.
  - destruct (starting_wanted q Hd Hq) as (Hx & Hy & _). unfold check_event. cbn. by rewrite !bool_decide_eq_true_2.
Qed.

Lemma check_failed q code :
  starting_row t now q → (is_delete p = true → q = p) →
  check_event (mark_event (Planned.status q) None (Some code) now q) = true.
Proof using Hcheck Hpending.
  intros Hq Hdel. destruct (is_delete p) eqn:Hd.
  - rewrite Hdel by done. exact Hcheck.
  - destruct (starting_wanted q Hd Hq) as (Hx & Hy & Hst). apply bool_decide_eq_false in Hd. pose proof Hpending as Hp.
    unfold check_event. cbn. rewrite Hst, !bool_decide_eq_true_2 by done. by destruct (Planned.status p).
Qed.

(** The database before the row is marked: it has the starting row. *)
Record at_start (q : Planned.EventRow) (d' : PlanningDb) : Prop := {
  start_row : starting_row t now q;
  start_delete : is_delete p = true → q = p;
  start_events : planned_events d' !! id = Some q ∧ ∀ row, <[id := row]> (planned_events d') = <[id := row]> (planned_events d);
  start_rest : base d' = base d ∧ suggestions d' = suggestions d ∧ plan_previews d' = plan_previews d ∧ plan_rules d' = plan_rules d;
}.

Lemma at_start_first : at_start p d.
Proof using Hload. split; [constructor|done|split; [apply loaded_event|done]|done]. Qed.

Definition quiet (cs : list PlanningCall) : Prop := Forall (λ c, succeeded c = false) cs.

(** The end of an application. *)
Definition ends (cs : list PlanningCall) (r : res failure (option failure)) w : Prop :=
  match r with
  | Ok outcome => calls w = cs0 ++ cs ∧ applied id t now d cs outcome (db w)
  | Throw _ => False
  end.

(** A row that is marked without a confirmed write. *)
Lemma marked_applied q cs f outcome d' :
  at_start q d' → calls_justified id t now cs → recorded id t now cs (f q) outcome →
  (is_delete p = true → is_Some outcome) →
  applied id t now d cs outcome (with_planned (λ m, <[id := f q]> m) d').
Proof using Type.
  intros [Hq Hdel [Hev Hins] (Hb & Hs & Hpp & Hru)] Hcalls Hrec Hout. split; cbn.
  - done.
  - exists (f q). by rewrite Hins.
  - by apply rule_kept.
  - intros Hd Hnone. destruct (Hout Hd). congruence.
  - done.
Qed.

Lemma hold_ends q cs code outcome w :
  at_start q (db w) → calls w = cs0 ++ cs → calls_justified id t now cs → quiet cs →
  (is_Some outcome ↔ is_delete p = true) →
  wp (_ ← hold id code (is_delete p) now; mret outcome) w (ends cs).
Proof using Hcheck Hpending.
  intros Hst Hcalls Hjust Hquiet Hout. wp_step. destruct Hst as [Hq Hdel [Hev Hins] Hrest] eqn:Hcopy. eapply set_event_wp.
  - exact Hev.
  - by apply check_held.
  - wp_step. split; [done|]. apply (marked_applied q cs (mark_event _ _ _ _)); [exact Hst|done| |tauto]. by constructor.
Qed.

Lemma failure_ends q cs e w :
  at_start q (db w) → calls w = cs0 ++ cs → calls_justified id t now cs → quiet cs →
  wp (on_apply_error id t now e) w (ends cs).
Proof using Hcheck Hpending.
  intros Hst Hcalls Hjust Hquiet.
  assert (wp (_ ← set_event id (λ q, mark_event (Planned.status q) None (Some (safeErrorCode e)) now q); mret (Some e)) w (ends cs))
    as Hfail.
  { wp_step. destruct Hst as [Hq Hdel [Hev Hins] Hrest] eqn:Hcopy. eapply set_event_wp; [exact Hev|by apply check_failed|].
    wp_step. split; [done|].
    apply (marked_applied q cs (λ q, mark_event (Planned.status q) None (Some (safeErrorCode e)) now q)); [exact Hst|done| |done].
    by constructor. }
  unfold on_apply_error. destruct e as [e| | | |]; try done. destruct (code e =? "precondition_failed")%string; [|done].
  eapply hold_ends; try done. by destruct (is_delete p).
Qed.

Lemma converge_ends q cs event etag w :
  at_start q (db w) → calls w = cs0 ++ cs → calls_justified id t now cs → is_delete p = false → calendar_confirms id t cs event etag →
  wp (converge_event id t now event etag) w (ends cs).
Proof using Hcheck Hpending Hload.
  intros Hst Hcalls Hjust Hd Hconf. destruct Hst as [Hq _ [Hev Hins] (Hb & Hs & Hpp & Hru)].
  destruct (starting_wanted q Hd Hq) as (Hx & Hy & _). unfold converge_event. wp_step. eapply set_event_wp; [exact Hev| |].
  - unfold check_event. cbn. by rewrite !bool_decide_eq_true_2.
  - wp_step. eapply set_plan_rule_wp.
    + cbn. rewrite Hru. apply loaded_rule.
    + wp_step. split; [done|]. split; cbn; try done.
      * exists (mark_converged event etag now q). rewrite Hins. split; [done|]. by constructor.
      * apply rule_succeeds. cbn. by rewrite Hru.
      * congruence.
Qed.

Lemma removal_ends cs w :
  db w = d → calls w = cs0 ++ cs → calls_justified id t now cs → is_delete p = true →
  (cs = [read_call id t (Ok None)] ∨
   ∃ f, cs = [read_call id t (Ok (Some f));
     DeletePlanningEvent calendar (plan_found_id f) (plan_found_revision f) (Planned.send_updates p) (Ok ())]) →
  wp (_ ← set_event id (mark_removed now); _ ← finish_deletion t now; mret None) w (ends cs).
Proof using Hcheck Hload.
  intros Hdb Hcalls Hjust Hd Hcs. wp_step. eapply set_event_wp; [rewrite Hdb; apply loaded_event| |].
  { apply bool_decide_eq_true in Hd. revert Hcheck. unfold check_event. rewrite Hd. cbn. by destruct (_ =? _)%string. }
  wp_step. unfold finish_deletion. rewrite Hdb. set (d1 := with_planned _ d).
  assert (recorded id t now cs (mark_removed now p) None) as Hrec by (by constructor).
  assert (∀ d', base d' = base d → suggestions d' = suggestions d → plan_previews d' = plan_previews d →
    planned_events d' = planned_events d1 → rule_follows t now d d' →
    (PlanRule.status (target_rule t) = PlanRule.deleting →
     (∃ i q, planned_events d' !! i = Some q ∧ Planned.rule q = Planned.rule p ∧ is_delete q = true) ∨
     ∃ r, plan_rules d' !! Planned.rule p = Some r ∧ PlanRule.status r = PlanRule.deleted) →
    applied id t now d cs None d') as Hdone.
  { intros d' Hb Hs Hpp Hev Hrule Hlast. split; try done.
    exists (mark_removed now p). by rewrite Hev. }
  case_bool_decide as Hdel.
  - do 2 wp_step. cbn. fold d1. destruct (existsb _ _) eqn:Hrem.
    + wp_step. split; [done|]. apply Hdone; try done; [by apply rule_kept|]. intros _. left.
      apply existsb_exists in Hrem as ([i q] & Hin%list_elem_of_In%elem_of_map_to_list & Hb). bool_to_prop. by exists i, q.
    + eapply set_plan_rule_wp; [apply loaded_rule|]. split; [done|]. apply Hdone; try done.
      * apply rule_deleted; [done| |done]. cbn. intros i q Hi Hr. destruct (is_delete q) eqn:Hq; [|done]. exfalso.
        assert (existsb (λ '(_, q), bool_decide (Planned.rule q = Planned.rule p) && is_delete q)
                  (map_to_list (planned_events d1)) = true) as Hex; [|exact (eq_true_false_abs _ Hex Hrem)].
        apply existsb_exists. exists (i, q). split; [by apply list_elem_of_In, elem_of_map_to_list|].
        by rewrite bool_decide_eq_true_2, Hq.
      * intros _. right. cbn. exists (mark_plan_rule (Some PlanRule.deleted) None None None now (target_rule t)).
        by rewrite lookup_insert_eq.
  - wp_step. split; [done|]. apply Hdone; try done. by apply rule_kept.
Qed.

(** ** The write *)

(** [Throw]n inside the [try]: the row as the [catch] finds it. *)
Definition tries (r : res failure (option failure)) w : Prop :=
  match r with
  | Ok _ => ∃ cs, ends cs r w
  | Throw _ => ∃ q cs, at_start q (db w) ∧ calls w = cs0 ++ cs ∧ calls_justified id t now cs ∧ quiet cs
  end.

Lemma ends_tries cs m w : wp m w (ends cs) → wp m w tries.
Proof using Type. intros Hm. eapply wp_mono; [exact Hm|]. intros [o|e] w'; [by exists cs|done]. Qed.

Lemma hold_tries q cs code w :
  at_start q (db w) → calls w = cs0 ++ cs → calls_justified id t now cs → quiet cs → is_delete p = false →
  wp (_ ← hold id code false now; mret None) w tries.
Proof using Hcheck Hpending.
  intros Hst Hcalls Hjust Hquiet Hd. eapply ends_tries. rewrite <-Hd. eapply hold_ends; try done. rewrite Hd.
  split; [by intros []|done].
Qed.

Lemma write_event_tries provider token found answer q event desired w :
  at_start q (db w) → calls w = cs0 ++ [read_call id t answer] → is_delete p = false →
  (∀ result, still_ahead t now desired →
     justified_write id t now answer
       match found with
       | Some f => UpdatePlanningEvent calendar (plan_found_id f) (plan_found_revision f) desired result
       | None => CreatePlanningEvent calendar event desired result
       end) →
  wp (write_event id t provider token now found event desired) w tries.
Proof using Hcheck Hpending Hload.
  intros Hst Hcalls Hd Hwrite. unfold write_event.
  assert (calls_justified id t now [read_call id t answer]) as Hread by (right; exists answer; by left).
  assert (quiet [read_call id t answer]) as Hquiet by (constructor; [done|constructor]).
  destruct (_ && _) eqn:Hstarted; [by eapply hold_tries|].
  assert (still_ahead t now desired) as Hahead.
  { intros Hk s Hs. rewrite bool_decide_eq_true_2, Hs in Hstarted by done. cbn in Hstarted. lia. }
  assert (∀ c r remote', justified_write id t now answer c →
    (∀ written, r = Ok written → calendar_confirms id t [read_call id t answer; c] (remoteEventId written) (remoteRevision written)) →
    (∀ e, r = Throw e → succeeded c = false) →
    let w' := {| db := db w; remote := remote'; calls := calls w ++ [c]; issued := issued w |} in
    match r with
    | Ok written => wp (converge_event id t now (remoteEventId written) (remoteRevision written)) w' tries
    | Throw e => tries (Throw e) w'
    end) as Hafter.
  { intros c r remote' Hj Hok Hfail w'.
    assert (calls w' = cs0 ++ [read_call id t answer; c]) as Hcalls' by (subst w'; cbn; by rewrite Hcalls, <-app_assoc).
    assert (calls_justified id t now [read_call id t answer; c]) as Hj' by (right; exists answer; right; by exists c).
    destruct r as [written|e].
    - eapply ends_tries, converge_ends; try done. by apply Hok.
    - exists q, [read_call id t answer; c]. split_and!; try done. constructor; [done|]. constructor; [by eapply Hfail|done]. }
  wp_step. destruct found as [f|]; wp_step; cbn beta iota.
  - apply (Hafter (UpdatePlanningEvent calendar (plan_found_id f) (plan_found_revision f) desired r)); [by apply Hwrite| |].
    + intros written ->. constructor.
    + by intros e ->.
  - apply (Hafter (CreatePlanningEvent calendar event desired r)); [by apply Hwrite| |].
    + intros written ->. constructor.
    + by intros e ->.
Qed.

Lemma apply_write_tries provider token w :
  db w = d → calls w = cs0 → is_delete p = false → wp (apply_write id t provider token now) w tries.
Proof using Hcheck Hpending Hload.
  intros Hdb Hcalls Hd. unfold apply_write. wp_step. wp_step.
  destruct (Planned.desired_state p) as [desired|] eqn:Hdes; cbn.
  2: { exists p, []. rewrite Hdb, app_nil_r. split_and!; [apply at_start_first|done|by left|constructor]. }
  unfold get_event. wp_step. wp_step. rename r into answer.
  change (GetPlanningEvent _ _ answer) with (read_call id t answer).
  set (w1 := {| db := db w; remote := remote'; calls := calls w ++ [read_call id t answer]; issued := issued w |}).
  assert (at_start p (db w1)) as Hst by (subst w1; cbn; rewrite Hdb; apply at_start_first).
  assert (calls w1 = cs0 ++ [read_call id t answer]) as Hc1 by (subst w1; cbn; by rewrite Hcalls).
  assert (calls_justified id t now [read_call id t answer]) as Hread by (right; exists answer; by left).
  assert (quiet [read_call id t answer]) as Hquiet by (constructor; [done|constructor]).
  destruct answer as [[f|]|e].
  - destruct (plan_identity f) as [i|] eqn:Hi; [|by eapply hold_tries].
    destruct (belongs (Some i) id t) eqn:Hb; cbn [negb]; [|by eapply hold_tries].
    destruct (Z.eqb_spec (identity_intent i) (Planned.intent_sequence p)) as [Heq|Hne].
    + eapply ends_tries, converge_ends; try done. by eapply already_there.
    + destruct (Z.ltb_spec (Planned.intent_sequence p) (identity_intent i)); [by eapply hold_tries|].
      eapply write_event_tries; [exact Hst|exact Hc1|done|]. intros result Hahead.
      eapply (update_justified _ _ _ _ f i); try done. lia.
  - destruct (mapped p) eqn:Hm.
    + wp_step. wp_step. destruct (hash _) as [h|e] eqn:Hh; cbn.
      2: { exists p, [read_call id t (Ok None)]. done. }
      wp_step. eapply set_event_wp.
      * cbn. rewrite Hdb. apply loaded_event.
      * destruct (starting_wanted p Hd (same_row _ _)) as (_ & _ & _). pose proof Hpending as Hp.
        apply bool_decide_eq_false in Hd. unfold check_event. cbn. revert Hp Hd. destruct (Planned.status p); naive_solver.
      * set (q := advance_event _ _ _ _ _). eapply (write_event_tries _ _ None (Ok None) q).
        -- split; cbn; [by eapply advanced_row|congruence| |by rewrite Hdb].
           rewrite Hdb. split; [apply lookup_insert_eq|]. intros row. apply insert_insert_eq.
        -- cbn. by rewrite Hcalls.
        -- done.
        -- intros result Hahead. eapply recreate_justified; try done.
    + eapply (write_event_tries _ _ None (Ok None) p); [exact Hst|exact Hc1|done|].
      intros result Hahead. by eapply create_justified.
  - exists p, [read_call id t (Throw e)]. done.
Qed.

Lemma apply_delete_tries provider token w :
  db w = d → calls w = cs0 → is_delete p = true → wp (apply_delete id t provider token now) w tries.
Proof using Hcheck Hpending Hload.
  intros Hdb Hcalls Hd. unfold apply_delete, get_event. wp_step. wp_step. rename r into answer.
  change (GetPlanningEvent _ _ answer) with (read_call id t answer).
  set (w1 := {| db := db w; remote := remote'; calls := calls w ++ [read_call id t answer]; issued := issued w |}).
  assert (at_start p (db w1)) as Hst by (subst w1; cbn; rewrite Hdb; apply at_start_first).
  assert (calls w1 = cs0 ++ [read_call id t answer]) as Hc1 by (subst w1; cbn; by rewrite Hcalls).
  assert (calls_justified id t now [read_call id t answer]) as Hread by (right; exists answer; by left).
  assert (quiet [read_call id t answer]) as Hquiet by (constructor; [done|constructor]).
  destruct answer as [[f|]|e].
  - destruct (belongs (plan_identity f) id t) eqn:Hb; cbn [negb].
    + wp_step. wp_step. set (c := DeletePlanningEvent _ _ _ _ r).
      assert (calls_justified id t now [read_call id t (Ok (Some f)); c]) as Hj.
      { right. exists (Ok (Some f)). right. exists c. split; [done|]. by eapply delete_justified. }
      destruct r as [[]|e].
      * eapply ends_tries, (removal_ends [read_call id t (Ok (Some f)); c]); try done.
        -- cbn. rewrite Hcalls. by rewrite <-app_assoc.
        -- right. by exists f.
      * exists p, [read_call id t (Ok (Some f)); c]. split_and!; try done; [cbn; by rewrite Hcalls, <-app_assoc|].
        repeat constructor.
    + eapply ends_tries. rewrite <-Hd. eapply hold_ends; try done.
  - eapply ends_tries, (removal_ends [read_call id t (Ok None)]); try done. by left.
  - exists p, [read_call id t (Throw e)]. done.
Qed.
End apply_proofs.

Section applications.
Context {R : Type} `{PlanningProvider R} `{NewId} `{Unicode} `{Digest}.
Implicit Types w : Transaction.World PlanningDb R PlanningCall.

(** The row satisfies the check of its table. *)
Definition row_checked (id : string) (d : PlanningDb) : Prop :=
  ∀ p, planned_events d !! id = Some p → check_event p = true.

Definition outcome_of (outcome : option failure) : res failure () :=
  match outcome with Some e => Throw e | None => Ok () end.

(** An application does nothing, or what its target allows. *)
Definition applies (writes : bool) (organization id : string) (expectedIntent now : Z) w (r : res failure ()) w' : Prop :=
  (db w' = db w ∧ calls w' = calls w) ∨
  ∃ t cs outcome, writes = true ∧ load_event organization id (db w) = Some t ∧ is_intended t expectedIntent = true ∧
    (is_available t = true ∨ cs = []) ∧ calls w' = calls w ++ cs ∧ applied id t now (db w) cs outcome (db w') ∧
    r = outcome_of outcome.

(** The current intent of a row that waits, of a rule that is not stopped or for a deletion. *)
Definition intended (t : Target) (expectedIntent : Z) : Prop :=
  (PlanRule.status (target_rule t) = PlanRule.active ∨ Planned.status (target_event t) = Planned.pending_delete) ∧
  Planned.intent_sequence (target_event t) = expectedIntent ∧
  Planned.status (target_event t) ∈ [Planned.pending_create; Planned.pending_update; Planned.pending_delete].

(** A writable calendar whose connection is active and may be a destination. *)
Definition available (t : Target) : Prop :=
  Endpoint.writable (target_calendar t) = true ∧ Connection.status (target_connection t) = "active" ∧
  Connection.intended_role (target_connection t) ∈ ["destination"; "both"].

Lemma is_intended_spec t expectedIntent : is_intended t expectedIntent = true → intended t expectedIntent.
Proof using Type.
  unfold is_intended, is_delete. intros Hi. bool_to_prop. split_and!; [|done|].
  - by match goal with Ho : _ || _ = true |- _ => apply orb_true_iff in Ho as [?|?]; bool_to_prop; [left|right] end.
  - match goal with Hp : is_pending _ = true |- _ => revert Hp end. destruct (Planned.status _); try done; set_solver.
Qed.

Lemma is_available_spec t : is_available t = true → available t.
Proof using Type.
  unfold is_available. intros Ha. bool_to_prop. split_and!; [done..|].
  match goal with Ho : _ || _ = true |- _ => apply orb_true_iff in Ho as [?|?] end; bool_to_prop; set_solver.
Qed.

Lemma apply_target_wp organization id expectedIntent now w :
  row_checked id (db w) →
  wp (apply_target organization id expectedIntent now) w (λ r w',
    match r with
    | Ok outcome => applies true organization id expectedIntent now w (outcome_of outcome) w'
    | Throw _ => calls w' = calls w
    end).
Proof.
  intros Hcheck. unfold apply_target. do 2 wp_step.
  destruct (load_event organization id (db w)) as [t|] eqn:Hload; [|wp_step; by left].
  destruct (is_intended t expectedIntent) eqn:Hint; cbn [negb]; [|wp_step; by left].
  pose proof Hint as [_ Hpending]%andb_true_iff. pose proof (Hcheck _ (loaded_event _ _ _ _ Hload)) as Hc.
  assert (∀ r w', (is_available t = true ∨ calls w' = calls w) →
    (∃ cs, ends id t now (db w) (calls w) cs r w') →
    match r with
    | Ok outcome => applies true organization id expectedIntent now w (outcome_of outcome) w'
    | Throw _ => calls w' = calls w
    end) as Hends.
  { intros [outcome|e] w' Hav (cs & Hcs); [|done]. destruct Hcs as [Hcalls Happ]. right. exists t, cs, outcome.
    split_and!; try done. destruct Hav as [|Hsame]; [by left|right]. rewrite Hsame in Hcalls.
    by apply (app_inv_head (calls w)); rewrite app_nil_r. }
  destruct (is_available t) eqn:Hav; cbn [negb].
  - wp_step. wp_step. destruct (planning_resolve _); [|done]. wp_step. wp_step. destruct r as [token|e]; [|done].
    wp_step. set (w1 := {| db := db w; remote := remote'; calls := calls w; issued := issued w |}).
    assert (wp (if is_delete (target_event t) then apply_delete id t (Connection.provider (target_connection t)) token now
                else apply_write id t (Connection.provider (target_connection t)) token now) w1
              (tries id t now (db w) (calls w))) as Htries.
    { destruct (is_delete (target_event t)) eqn:Hd; [by apply (apply_delete_tries organization)|by apply (apply_write_tries organization)]. }
    eapply wp_mono; [exact Htries|]. intros [outcome|e] w2; cbn.
    + intros (cs & Hcs). apply (Hends (Ok outcome)); [by left|by exists cs].
    + intros (q & cs & Hst & Hcalls & Hj & Hq). eapply wp_mono; [by eapply (failure_ends id t now (db w) (calls w))|].
      intros r w3 Hr. apply Hends; [by left|by exists cs].
  - eapply wp_mono; [eapply (hold_ends id t now (db w) (calls w) Hc Hpending (target_event t) [])|].
    + by apply (at_start_first organization).
    + by rewrite app_nil_r.
    + by left.
    + constructor.
    + by destruct (is_delete (target_event t)).
    + intros r w' Hr. apply Hends; [|by exists []]. right. destruct r; [|done]. destruct Hr as [Hr _]. by rewrite app_nil_r in Hr.
Qed.

Lemma planned_apply_wp writes organization id expectedIntent now w :
  row_checked id (db w) →
  wp (apply writes organization id expectedIntent now) w (applies writes organization id expectedIntent now w).
Proof.
  intros Hcheck. unfold apply. destruct writes; [|cbn; wp_step; by left]. cbn [negb]. wp_step. wp_step.
  eapply wp_mono; [by apply apply_target_wp|]. intros [outcome|e] w' Hpost.
  - by destruct outcome.
  - by left.
Qed.

(** C31. Planned events are written only as intended. An application reads the
    event of the row and makes at most one write after it, where provider writes
    are enabled, for the current intent of a pending row, on a writable
    destination of an active connection. It deletes only what a pending deletion
    asks for and what carries the mark of this very event; it updates only such
    an event that shows an older intent; it creates only what the calendar does
    not have, under an id of its own generation; it writes the stored state and
    no meeting that has started. *)
Theorem planned_writes_are_justified writes organization id expectedIntent now w r w' :
  row_checked id (db w) → apply writes organization id expectedIntent now w = (r, w') →
  ∃ cs, calls w' = calls w ++ cs ∧
    (cs = [] ∨ ∃ t, writes = true ∧ load_event organization id (db w) = Some t ∧ intended t expectedIntent ∧ available t ∧
       calls_justified id t now cs).
Proof.
  intros Hcheck Hrun.
  destruct (wp_run _ _ _ _ _ (planned_apply_wp writes organization id expectedIntent now w Hcheck) Hrun)
    as [[_ Hcalls]|(t & cs & outcome & Hw & Hload & Hint & Hav & Hcalls & Happ & _)].
  - exists []. rewrite app_nil_r. split; [done|by left].
  - exists cs. split; [done|]. destruct Hav as [Hav|]; [|by left]. right. exists t.
    split_and!; [done|done|by apply is_intended_spec|by apply is_available_spec|apply Happ].
Qed.

(** C32. What is recorded is what the calendar confirmed, and a confirmed write is
    always recorded: an application changes nothing and writes nothing, or the
    row converges with the id and revision that the calendar returned, is
    removed once the calendar deleted or does not have the event, is held, or
    keeps the code of the error that is thrown. Other rows stay as they are; a
    rule that is being deleted is deleted with its last event. *)
Theorem applications_are_recorded writes organization id expectedIntent now w r w' :
  row_checked id (db w) → apply writes organization id expectedIntent now w = (r, w') →
  (db w' = db w ∧ calls w' = calls w) ∨
  ∃ t cs row outcome, load_event organization id (db w) = Some t ∧ calls w' = calls w ++ cs ∧ r = outcome_of outcome ∧
    planned_events (db w') = <[id := row]> (planned_events (db w)) ∧ recorded id t now cs row outcome ∧
    rule_follows t now (db w) (db w') ∧
    (is_delete (target_event t) = true → outcome = None → PlanRule.status (target_rule t) = PlanRule.deleting →
     (∃ i q, planned_events (db w') !! i = Some q ∧ Planned.rule q = Planned.rule (target_event t) ∧ is_delete q = true) ∨
     ∃ rule, plan_rules (db w') !! Planned.rule (target_event t) = Some rule ∧ PlanRule.status rule = PlanRule.deleted) ∧
    base (db w') = base (db w) ∧ suggestions (db w') = suggestions (db w) ∧ plan_previews (db w') = plan_previews (db w).
Proof.
  intros Hcheck Hrun.
  destruct (wp_run _ _ _ _ _ (planned_apply_wp writes organization id expectedIntent now w Hcheck) Hrun)
    as [|(t & cs & outcome & _ & Hload & _ & _ & Hcalls & [_ (row & Hev & Hrec) Hrule Hlast Hrest] & Hr)]; [by left|right].
  by exists t, cs, row, outcome.
Qed.
End applications.

(** ** Examples *)

Module Samples.
#[local] Instance ids : NewId := { newId n := "new-" +:+ pretty (Z.of_nat n) }.
#[local] Instance sample_digest : Digest := { sha256_hex s := s }.

(** A calendar that has at most one event. *)
#[local] Instance one_event : PlanningProvider (option PlanningLookup) := {
  planning_resolve _ := Ok ();
  planning_token _ _ r := (Ok "token", r);
  planning_get _ _ _ _ r := (Ok r, r);
  planning_create _ _ _ event desired r :=
    (Ok {| remoteEventId := event; remoteRevision := "1" |}, r);
  planning_update _ _ _ event _ desired r := (Ok {| remoteEventId := event; remoteRevision := "2" |}, r);
  planning_delete _ _ _ _ _ _ _ := (Ok (), None);
}.

Definition october : Z := 1792483200000.

Definition office (role : string) : Connection.ConnectionRow :=
  {| Connection.organization := "o"; Connection.provider := "google"; Connection.account_label := "me";
     Connection.intended_role := role; Connection.status := "active"; Connection.last_success_at := Some october;
     Connection.safe_error_code := None; Connection.updated_at := 0 |}.
Definition calendar_of (connection : string) : Endpoint.EndpointRow :=
  {| Endpoint.organization := "o"; Endpoint.connection := connection; Endpoint.remote_id := connection;
     Endpoint.name := connection; Endpoint.timezone := "Autumn"; Endpoint.access_role := "owner"; Endpoint.readable := true;
     Endpoint.writable := true; Endpoint.primary_calendar := true; Endpoint.capabilities := JNull; Endpoint.updated_at := 0 |}.

(** An ordinary event: Monday from nine to eleven, with no metadata. *)
Definition workshop : SourceObservation :=
  {| source_event_ref := "workshop"; source_occurrence_ref := ""; remote_revision := "1"; lifecycle := confirmed;
     origin := provider_original;
     timing := Some (timed "2026-10-26T08:00:00.000Z" "2026-10-26T10:00:00.000Z" "Autumn" "Autumn"); recurrence := None;
     availability := Some busy; relationship := {| role := organizer_role; response := accepted; response_note := None |};
     destination_identity_invited := false;
     content := {| summary := Some "Workshop"; description := None; location := None; conference := None |};
     attendees := None; organizer := None; attachments := None; source_url := None; provider_metadata := None |}.

Definition observed (event : SourceObservation) : Observation.ObservationRow :=
  {| Observation.organization := "o"; Observation.calendar := "work"; Observation.remote_event := "workshop";
     Observation.recurrence_identity := ""; Observation.remote_etag := Some "1"; Observation.event := event;
     Observation.observation_hash := "workshop"; Observation.managed_copy := false; Observation.tombstone := false;
     Observation.sync_generation := 1; Observation.observed_at := 0; Observation.updated_at := 0 |}.

Definition fresh_cursor : SyncCursor.CursorRow :=
  {| SyncCursor.organization := "o"; SyncCursor.calendar := "work"; SyncCursor.query_fingerprint := "q";
     SyncCursor.sync_token := Some "t"; SyncCursor.generation := 1; SyncCursor.state := SyncCursor.ready;
     SyncCursor.last_started_at := None; SyncCursor.last_full_sync_at := None; SyncCursor.last_success_at := Some october;
     SyncCursor.safe_error_code := None; SyncCursor.updated_at := 0 |}.

Definition shared : Db :=
  {| sync_policies := ∅; calendar_endpoints := {[ "home" := calendar_of "c1"; "work" := calendar_of "c2" ]};
     provider_connections := {[ "c1" := office "both"; "c2" := office "source" ]}; hours_profiles := ∅;
     source_observations := {[ "workshop" := observed workshop ]}; sync_cursors := {[ "cursor" := fresh_cursor ]};
     projections := ∅; outbox_effects := ∅; sync_notices := ∅; conflict_rules := ∅; policy_previews := ∅;
     audit_facts := []; scheduled_jobs := ∅ |}.

Definition weekly_rule : PlanRule.RuleRow :=
  {| PlanRule.organization := "o"; PlanRule.owner := "me"; PlanRule.kind := kind_meeting; PlanRule.name := "Weekly";
     PlanRule.target_calendar := "home"; PlanRule.status := PlanRule.active; PlanRule.revision := 1;
     PlanRule.document := draft_json (smart_meeting weekly_meeting); PlanRule.hash := "weekly";
     PlanRule.last_planned_at := None; PlanRule.last_success_at := None; PlanRule.safe_error_code := None;
     PlanRule.updated_at := 0 |}.

Definition planned_office : PlanningDb :=
  {| base := shared; plan_previews := ∅; plan_rules := {[ "weekly" := weekly_rule ]}; planned_events := ∅; suggestions := ∅ |}.

Definition start_world (calendar : option PlanningLookup) (d : PlanningDb)
    : Transaction.World PlanningDb (option PlanningLookup) PlanningCall :=
  {| db := d; remote := calendar; calls := []; issued := 0 |}.

(** The rule is reconciled: two meetings are planned. *)
Definition first_plan := reconcile (λ _ d, d) (λ d, d) "o" "weekly" october (start_world None planned_office).

Example first_plan_waits :
  first_plan.1 = Ok () ∧
  map (λ '(id, p), (id, Planned.occurrence_key p, Planned.status p)) (map_to_list (planned_events (db first_plan.2)))
    = [("new-2", "week:2026-11-02", Planned.pending_create); ("new-0", "week:2026-10-26", Planned.pending_create)] ∧
  map (λ '(_, j), dedupe_key (key j)) (map_to_list (scheduled_jobs (base (db first_plan.2))))
    = ["planned-event:new-2:intent:1"; "planned-event:new-0:intent:1"].
Proof. split_and!; vm_compute; reflexivity. Qed.

(** The first of them is applied: the calendar does not have it, and it is created. *)
Definition applied_run := apply true "o" "new-0" 1 (october + 60000) first_plan.2.

Definition first_meeting : ManagedPlanningEvent :=
  match planned_events (db first_plan.2) !! "new-0" ≫= Planned.desired_state with
  | Some e => e
  | None => withProvenance (eventTemplate {| start := ""; end_ := "" |} "" "" private [] false None None) kind_meeting "" "" "" 0 0
  end.

Definition first_calls : list PlanningCall :=
  [GetPlanningEvent "c1" "pnew-0:1" (Ok None);
   CreatePlanningEvent "c1" "pnew-0:1" first_meeting (Ok {| remoteEventId := "pnew-0:1"; remoteRevision := "1" |})].

Lemma planned_rows_checked : row_checked "new-0" (db first_plan.2).
Proof.
  assert (check_event <$> planned_events (db first_plan.2) !! "new-0" = Some true) as Ht by (vm_compute; reflexivity).
  intros p Hp. rewrite Hp in Ht. injection Ht as Ht. exact Ht.
Qed.

Lemma planned_writes_are_justified_witness :
  calls applied_run.2 = first_calls ∧
  ∃ t, load_event "o" "new-0" (db first_plan.2) = Some t ∧ calls_justified "new-0" t (october + 60000) first_calls.
Proof.
  assert (calls applied_run.2 = first_calls) as Hcalls by (vm_compute; reflexivity).
  assert (calls first_plan.2 = []) as Hnone by (vm_compute; reflexivity).
  split; [exact Hcalls|].
  destruct (planned_writes_are_justified true "o" "new-0" 1 (october + 60000) first_plan.2 _ _
    planned_rows_checked (surjective_pairing _)) as (cs & Hcs & Hjust). fold applied_run in Hcs.
  rewrite Hcalls, Hnone in Hcs. cbn [app] in Hcs. rewrite <-Hcs in Hjust.
  destruct Hjust as [Heq|(t & _ & Hload & _ & _ & Hjust)]; [discriminate Heq|]. exists t. split; [exact Hload|exact Hjust].
Defined.

Lemma applications_are_recorded_witness :
  (Planned.status <$> planned_events (db applied_run.2) !! "new-0") = Some Planned.converged ∧
  ∃ t row outcome, planned_events (db applied_run.2) = <["new-0" := row]> (planned_events (db first_plan.2)) ∧
    recorded "new-0" t (october + 60000) first_calls row outcome.
Proof.
  assert (calls applied_run.2 = first_calls) as Hcalls by (vm_compute; reflexivity).
  assert (calls first_plan.2 = []) as Hnone by (vm_compute; reflexivity).
  split; [vm_compute; reflexivity|].
  destruct (applications_are_recorded true "o" "new-0" 1 (october + 60000) first_plan.2 _ _
    planned_rows_checked (surjective_pairing _)) as [[_ Hsame]|(t & cs & row & outcome & _ & Hcs & _ & Hrow & Hrec & _)].
  all: fold applied_run in *.
  - rewrite Hcalls, Hnone in Hsame. discriminate Hsame.
  - rewrite Hcalls, Hnone in Hcs. cbn [app] in Hcs. rewrite <-Hcs in Hrec. exists t, row, outcome. split; [exact Hrow|exact Hrec].
Defined.

(** ** A preview does not see unmarked events

    Without a rule to exclude, an event with no marker at all counts as an event
    of the rule: [undefined !== undefined] is false. *)
Example unmarked_events_are_ignored :
  (planning_busy ∘ prepared_input <$> prepare (λ _, planned_office) "o" (smart_meeting weekly_meeting) october None) = Ok [] ∧
  (planning_busy ∘ prepared_input <$> prepareForReconcile (λ _, planned_office) "o" (smart_meeting weekly_meeting) october "weekly")
    = Ok [{| busy_calendar := "work"; busy_interval := {| start := "2026-10-26T08:00:00.000Z"; end_ := "2026-10-26T10:00:00.000Z" |} |}].
Proof. split; vm_compute; reflexivity. Qed.
End Samples.
