(* ===== verification/PlanningReconcile.v ===== *)
(** * Planning: what a reconciliation leaves

    Theorems on [PlanningCoordinator.reconcile]: each row of the rule and each
    occurrence of the plan after the loops, the jobs that wait for them, and
    what a reconciliation never touches. *)

From S2P Require Import Prelude Canonical Types Text Dates Temporal Hours PlanningDrafts Planning Jobs Transaction Policies Store PlanningStore PlanningInputs PlanningCoordinator.
From stdpp Require Import options.
Open Scope Z_scope.

(** ** Frames *)

(** What no step on planned events touches; jobs are only added. *)
Record plan_frame (d d' : PlanningDb) : Prop := {
  frame_rules : plan_rules d' = plan_rules d;
  frame_previews : plan_previews d' = plan_previews d;
  frame_base : ∃ jobs', base d' = with_jobs (λ _, jobs') (base d) ∧
    (∀ i j, scheduled_jobs (base d) !! i = Some j → jobs' !! i = Some j);
}.

Lemma plan_frame_refl d : plan_frame d d.
Proof. split; [done..|]. exists (scheduled_jobs (base d)). split; [by destruct d as [[] ????]|done]. Qed.

Lemma plan_frame_trans d1 d2 d3 : plan_frame d1 d2 → plan_frame d2 d3 → plan_frame d1 d3.
Proof.
  intros [Hr Hp (j2 & Hb & Hk)] [Hr' Hp' (j3 & Hb' & Hk')]. split; [congruence..|].
  exists j3. rewrite Hb' , Hb. split; [done|]. intros i j Hi. apply Hk'. rewrite Hb. by apply Hk.
Qed.

#[export] Instance plan_frame_preorder : PreOrder plan_frame.
Proof. split; [exact plan_frame_refl|exact plan_frame_trans]. Qed.

(** The tables of the events and of the suggestions are free. *)
Lemma plan_frame_tables d1 d2 d3 :
  plan_frame d1 d2 → base d3 = base d2 → plan_rules d3 = plan_rules d2 → plan_previews d3 = plan_previews d2 → plan_frame d1 d3.
Proof. intros [Hr Hp (j & Hb & Hk)] Hb3 Hr3 Hp3. split; [congruence..|]. exists j. by rewrite Hb3. Qed.

(** A job that waits keeps waiting. *)
Lemma apply_waits_frame organization id key d d' :
  plan_frame d d' → apply_waits organization id key d → apply_waits organization id key d'.
Proof.
  intros [_ _ (jobs' & Hb & Hkeep)] (i & j & Hj & Hact). exists i, j. rewrite Hb. cbn. split; [by apply Hkeep|done].
Qed.

Section steps.
Context {R : Type} `{NewId}.
Implicit Types w : Transaction.World PlanningDb R PlanningCall.

Definition ids_fresh w : Prop := Inj (=) (=) newId ∧ fresh_jobs (issued w) (base (db w)).

Definition plan_steps w w' : Prop := plan_frame (db w) (db w') ∧ (ids_fresh w → ids_fresh w').

#[global] Instance plan_steps_preorder : PreOrder plan_steps.
Proof.
  split; [intros w; by split|]. intros w1 w2 w3 [Hf1 Hi1] [Hf2 Hi2]. split; [by etrans|auto].
Qed.

(** A write of events or suggestions. *)
Lemma plan_steps_write w d' :
  base d' = base (db w) → plan_rules d' = plan_rules (db w) → plan_previews d' = plan_previews (db w) → plan_steps w (at_db d' w).
Proof.
  intros Hb Hr Hp. split; [by apply (plan_frame_tables _ (db w))|]. intros [Hinj Hfr]. split; [done|]. cbn. by rewrite Hb.
Qed.

Lemma plan_steps_issued w w' : db w' = db w → issued w' = S (issued w) → plan_steps w w'.
Proof.
  intros Hdb Hi. split; [by rewrite Hdb|]. intros [Hinj Hfr]. split; [done|]. rewrite Hdb, Hi. intros k Hk. apply Hfr. lia.
Qed.

Lemma run_enqueue_apply organization id key intent now w u w' :
  enqueue_apply organization id key intent now w = (Ok u, w') →
  planned_events (db w') = planned_events (db w) ∧ suggestions (db w') = suggestions (db w) ∧ plan_steps w w' ∧
  (ids_fresh w → apply_waits organization id key (db w')).
Proof.
  intros Hrun. refine (wp_run _ _ (λ _ w', _) _ _ _ Hrun). apply enqueue_apply_wp. intros jobs' Hkeep Hsame Hwait. cbn.
  split_and!; [done|done| |].
  - split; [split; [done..|]; by exists jobs'|]. intros [Hinj Hfr]. split; [done|]. intros k Hk. cbn in Hk |- *.
    rewrite Hsame by (intros Heq%Hinj; lia). apply Hfr. lia.
  - intros [_ Hfr]. by apply Hwait, Hfr.
Qed.

Lemma run_set_event id f w u w' :
  set_event id f w = (Ok u, w') →
  ∃ p, planned_events (db w) !! id = Some p ∧ check_event (f p) = true ∧
    w' = at_db (with_planned (λ t, <[id := f p]> t) (db w)) w.
Proof.
  unfold set_event. intros Hrun. run_step Hrun as row w1 Hr. apply run_read in Hr as [-> ->].
  destruct (planned_events (db w) !! id) as [p|]; [|done]. destruct (check_event (f p)) eqn:Hc; [|done].
  apply run_write in Hrun as ->. by exists p.
Qed.

Lemma run_set_plan_rule id f w u w' :
  set_plan_rule id f w = (Ok u, w') →
  ∃ r, plan_rules (db w) !! id = Some r ∧ w' = at_db (with_plan_rules (λ t, <[id := f r]> t) (db w)) w.
Proof.
  unfold set_plan_rule. intros Hrun. run_step Hrun as row w1 Hr. apply run_read in Hr as [-> ->].
  destruct (plan_rules (db w) !! id) as [r|]; [|done]. apply run_write in Hrun as ->. by exists r.
Qed.

Lemma run_insert_event id p w u w' :
  insert_event id p w = (Ok u, w') →
  planned_events (db w) !! id = None ∧ check_event p = true ∧ w' = at_db (with_planned (λ t, <[id := p]> t) (db w)) w.
Proof.
  unfold insert_event. intros Hrun. run_step Hrun as taken w1 Hr. apply run_read in Hr as [-> ->].
  run_step Hrun as same w1 Hr. apply run_read in Hr as [-> ->]. case_bool_decide as Hid; [done|].
  apply eq_None_not_Some in Hid. destruct (existsb _ _); [done|]. destruct (check_event p) eqn:Hc; [|done].
  by apply run_write in Hrun as ->.
Qed.

Lemma run_hashed `{Unicode} `{Digest} desired w written w' :
  hashed (R := R) desired w = (Ok written, w') → fst <$> written = desired ∧ w' = w.
Proof.
  destruct desired as [e|]; cbn [hashed]; [|by intros [= <- <-]]. intros Hrun. run_step Hrun as h w1 Hh.
  apply run_lift in Hh as [_ ->]. by injection Hrun as <- <-.
Qed.
End steps.

(** ** What the plan does to a row *)

Section rule.
Context `{Digest} `{Unicode}.
Context (organization ruleId : string) (revision : Z) (draft : PlanningDraft) (now : Z).

(** A meeting that the owner's settings keep where it is: inside its no-move
    window, with conflicts kept for the owner, or in the calendar while changes
    are only suggested. *)
Definition stays_put (p : Planned.EventRow) : Prop :=
  ∃ m, meeting_of draft = Some m ∧ mapped p = true ∧
    (insideNoMoveWindow (Planned.desired_state p) now (lock_before_minutes m) = true ∨ conflict_policy m = keep_with_warning ∨
     (conflict_policy m = suggest ∧ Planned.status p = Planned.converged)).

(** The event of an occurrence, for a row, a generation and an intent. *)
Definition event_for (id : string) (o : PlannedOccurrenceTemplate) (generation intent : Z) : option ManagedPlanningEvent :=
  (λ e, withProvenance e (kind_of draft) ruleId id (occurrence_key o) generation intent) <$> Planning.planned_event o.

(** What is wanted already. *)
Definition up_to_date (id : string) (o : PlannedOccurrenceTemplate) (p : Planned.EventRow) : Prop :=
  Planned.status p ≠ Planned.unmet ∧
  match event_for id o (Planned.generation p) (Planned.intent_sequence p) with
  | Some e => ∃ h, hash (managed_json e) = Ok h ∧ Planned.desired_hash p = Some h
  | None => Planned.desired_hash p = None
  end.

(** The row of an occurrence, before (if there is one) and after. *)
Inductive row_change (o : PlannedOccurrenceTemplate) (id : string) : option Planned.EventRow → Planned.EventRow → Prop :=
| planned_anew (written : option (ManagedPlanningEvent * string)) :
    fst <$> written = event_for id o 1 1 →
    row_change o id None
      (new_event organization ruleId revision (target_of draft) (occurrence_key o) (occurrence_reason o) written now)
| left_alone p :
    Planned.status p = Planned.skipped ∨ up_to_date id o p ∨ stays_put p → row_change o id (Some p) p
| released p :
    up_to_date id o p → Planned.status p = Planned.held → Planned.safe_error_code p = Some "target_unavailable" →
    row_change o id (Some p)
      (mark_event (if mapped p then Planned.pending_update else Planned.pending_create) None None now p)
| held_back p m reason code :
    meeting_of draft = Some m → mapped p = true → stays_put p ∨ Planning.planned_event o = None →
    row_change o id (Some p) (mark_event Planned.held (Some reason) (Some code) now p)
| replanned p (written : option (ManagedPlanningEvent * string)) :
    ¬ stays_put p → Planned.status p ≠ Planned.skipped →
    (is_Some (meeting_of draft) → mapped p = true → is_Some (Planning.planned_event o)) →
    fst <$> written = event_for id o (Planned.generation p) (Planned.intent_sequence p + 1) →
    row_change o id (Some p)
      (intend (Some revision) (Planned.intent_sequence p + 1) written
        (match written with Some _ => if mapped p then Planned.pending_update else Planned.pending_create | None => Planned.unmet end)
        (Some (match written with Some (e, _) => event_send_updates (template e) | None => false end))
        (occurrence_reason o)
        (match written with Some _ => None | None => Some "planning_window_unmet" end) now p).

(** A row that waits to be written, with nothing known against it. *)
Definition awaits_write (p : Planned.EventRow) : Prop :=
  (Planned.status p = Planned.pending_create ∨ Planned.status p = Planned.pending_update) ∧ Planned.safe_error_code p = None.

(** The job that applies the current intent of a row. *)
Definition intent_waits (id : string) (p : Planned.EventRow) (d : PlanningDb) : Prop :=
  apply_waits organization id (":intent:" +:+ pretty (Planned.intent_sequence p)) d.

(** The row of an event that is not in the plan. *)
Inductive row_retired (p : Planned.EventRow) : Planned.EventRow → Prop :=
| deletion_pending : Planned.status p = Planned.pending_delete → row_retired p p
| history_preserved :
    eventHasEnded (Planned.desired_state p) now = true → Planned.status p ≠ Planned.pending_delete →
    row_retired p (retire Planned.deleted "historical_event_preserved" (λ _, None) now p)
| withdrawn :
    eventHasEnded (Planned.desired_state p) now = false → mapped p = true →
    row_retired p (intend (Some revision) (Planned.intent_sequence p + 1) None Planned.pending_delete None
                     "outside_rolling_horizon" None now p)
| never_written :
    mapped p = false → row_retired p (retire Planned.deleted "outside_rolling_horizon" (λ c, c) now p)
| gone : Planned.status p = Planned.deleted → row_retired p p.

Definition awaits_deletion (p : Planned.EventRow) : Prop :=
  Planned.status p = Planned.pending_delete ∧ Planned.safe_error_code p ≠ Some "ownership_mismatch".

Lemma row_change_key o id p p' :
  row_change o id (Some p) p' → Planned.occurrence_key p' = Planned.occurrence_key p.
Proof. by inversion 1. Qed.

Lemma stays_put_response p desired :
  match response_to draft now p desired with
  | hold_locked | keep_conflict => stays_put p
  | propose => stays_put p ∧ Planned.status p = Planned.converged
  | hold_unmet => ∃ m, meeting_of draft = Some m ∧ mapped p = true ∧ desired = None
  | replan => ¬ stays_put p ∧ (is_Some (meeting_of draft) → mapped p = true → is_Some desired)
  end.
Proof.
  unfold response_to, stays_put. destruct (meeting_of draft) as [m|] eqn:Hm; [|split; [by intros (? & ? & _)|by intros []]].
  destruct (mapped p) eqn:Hp; [|split; [by intros (? & _ & ? & _)|done]].
  destruct (insideNoMoveWindow _ _ _) eqn:Hw; [by exists m; auto|].
  destruct (bool_decide (conflict_policy m = suggest) && _) eqn:Hs.
  { bool_to_prop. split; [|done]. exists m. split_and!; [done..|by right; right]. }
  destruct (bool_decide (conflict_policy m = keep_with_warning)) eqn:Hk; bool_to_prop; [by exists m; auto|].
  destruct desired as [e|]; [|by exists m]. split; [|by eexists].
  intros (m' & [= <-] & _ & [?|[?|[Hc1 Hc2]]]); [congruence|done|]. by rewrite !bool_decide_eq_true_2 in Hs.
Qed.
End rule.

(** ** One row *)

Section reconcile_runs.
Context {R : Type} `{NewId} `{Unicode} `{Digest} `{TimeZones} `{Temporal} `{Intl}.
Context (organization ruleId : string) (revision : Z) (draft : PlanningDraft) (now : Z).
Implicit Types w : Transaction.World PlanningDb R PlanningCall.
Local Notation row_change := (row_change organization ruleId revision draft now).
Local Notation intent_waits := (intent_waits organization).

(** One row was written, and the job of a row that waits is there. *)
Record row_step (id : string) (p' : Planned.EventRow) w w' : Prop := {
  step_events : planned_events (db w') = <[id := p']> (planned_events (db w));
  step_frame : plan_steps w w';
  step_waits : ids_fresh w → awaits_write p' → intent_waits id p' (db w');
}.

Lemma run_enqueueApply id intent w u w' :
  enqueueApply organization id intent now w = (Ok u, w') →
  planned_events (db w') = planned_events (db w) ∧ plan_steps w w' ∧
  (ids_fresh w → apply_waits organization id (":intent:" +:+ pretty intent) (db w')).
Proof using Type. by intros (? & _ & ? & ?)%run_enqueue_apply. Qed.

(** A row is written, and a job enqueued for it. *)
Lemma set_and_enqueue id f intent w u w' :
  (_ ← set_event id f; enqueueApply organization id intent now) w = (Ok u, w') →
  ∃ p, planned_events (db w) !! id = Some p ∧
    (Planned.intent_sequence (f p) = intent → row_step id (f p) w w' ∧ (ids_fresh w → intent_waits id (f p) (db w'))).
Proof using Type.
  intros Hrun. run_step Hrun as u1 w1 Hs. apply run_set_event in Hs as (p & Hp & _ & ->).
  apply run_enqueueApply in Hrun as (Hev & Hst & Hw). exists p. split; [done|]. intros Hintent.
  assert (plan_steps w (at_db (with_planned (λ t, <[id := f p]> t) (db w)) w)) as Hfirst by (by apply plan_steps_write).
  assert (ids_fresh w → intent_waits id (f p) (db w')) as Hwait.
  { intros Hfr. red. rewrite Hintent. apply Hw, Hfirst, Hfr. }
  split; [|done]. split; [by rewrite Hev|by etrans|auto].
Qed.

Lemma set_alone id f w u w' :
  set_event id f w = (Ok u, w') →
  ∃ p, planned_events (db w) !! id = Some p ∧ (¬ awaits_write (f p) → row_step id (f p) w w').
Proof using Type.
  intros (p & Hp & _ & ->)%run_set_event. exists p. split; [done|]. intros Hno.
  split; [done|by apply plan_steps_write|by intros _ ?].
Qed.

Lemma insertOccurrence_run o w u w' :
  insertOccurrence organization ruleId revision draft now o w = (Ok u, w') →
  ∃ id p', planned_events (db w) !! id = None ∧ row_change o id None p' ∧ row_step id p' w w'.
Proof using Type.
  unfold insertOccurrence. intros Hrun. run_step Hrun as id w1 Hid. apply run_fresh in Hid as [-> ->].
  run_step Hrun as written w2 Hh. apply run_hashed in Hh as [Hw ->].
  run_step Hrun as u1 w2 Hi. apply run_insert_event in Hi as (Hnone & _ & ->).
  set (id := newId (issued w)) in *. set (p' := new_event _ _ _ _ _ _ _ _) in *. cbn in Hnone.
  exists id, p'. split; [done|]. split; [by constructor|].
  set (w1 := {| db := db w; remote := remote w; calls := calls w; issued := S (issued w) |}) in *.
  assert (plan_steps w w1) as Hs1 by (by apply plan_steps_issued).
  set (w2 := at_db _ w1) in *. assert (plan_steps w w2) as Hs2 by (etrans; [exact Hs1|by apply plan_steps_write]).
  destruct written as [[e h]|].
  - apply run_enqueueApply in Hrun as (Hev & Hst & Hwait). split; [by rewrite Hev|by etrans|].
    intros Hfr _. apply Hwait, Hs2, Hfr.
  - injection Hrun as _ <-. split; [done|done|]. intros _ [[|] _]; done.
Qed.

(** What is wanted is compared by its hash. *)
Lemma wanted_spec id o p wanted w w' :
  hashed (R := R) (event_for ruleId draft id o (Planned.generation p) (Planned.intent_sequence p)) w = (Ok wanted, w') →
  Planned.status p ≠ Planned.unmet → snd <$> wanted = Planned.desired_hash p → up_to_date ruleId draft id o p.
Proof using Type.
  intros Hh Hst Heq. split; [done|]. destruct (event_for _ _ _ _ _ _) as [e|]; cbn [hashed] in Hh.
  - run_step Hh as h w1 Hl. apply run_lift in Hl as [Hl _]. injection Hh as <- _. exists h. by rewrite <-Heq.
  - injection Hh as <- _. by rewrite <-Heq.
Qed.

Lemma suggest_change_run id p desired w u w' :
  suggest_change organization ruleId revision now id p desired w = (Ok u, w') →
  planned_events (db w') = planned_events (db w) ∧ plan_steps w w'.
Proof using Type.
  unfold suggest_change. intros Hrun. run_step Hrun as basis w1 Hh. apply run_lift in Hh as [_ ->].
  run_step Hrun as i w1 Hi. apply run_fresh in Hi as [-> ->]. run_step Hrun as conflict w1 Hr. apply run_read in Hr as [-> ->].
  set (w1 := {| db := db w; remote := remote w; calls := calls w; issued := S (issued w) |}) in *.
  assert (plan_steps w w1) as Hs1 by (by apply plan_steps_issued).
  destruct (existsb _ _); [by injection Hrun as _ <-|]. apply run_write in Hrun as ->. split; [done|].
  etrans; [exact Hs1|by apply plan_steps_write].
Qed.

(** A row that stays as it is. *)
Lemma left_step id p w w' :
  planned_events (db w) !! id = Some p → planned_events (db w') = planned_events (db w) → plan_steps w w' →
  (ids_fresh w → awaits_write p → intent_waits id p (db w')) → row_step id p w w'.
Proof using Type. intros Hp Hev Hst Hw. split; [by rewrite Hev, insert_id|done|done]. Qed.

Lemma keep_event_run id o p w u w' :
  planned_events (db w) !! id = Some p → up_to_date ruleId draft id o p →
  keep_event organization now id p w = (Ok u, w') → ∃ p', row_change o id (Some p) p' ∧ row_step id p' w w'.
Proof using Type.
  intros Hp Hup Hrun. unfold keep_event in Hrun. destruct (_ && _) eqn:Hheld in Hrun.
  - bool_to_prop. apply set_and_enqueue in Hrun as (q & Hq & Hstep). rewrite Hp in Hq. injection Hq as <-.
    eexists. split; [by apply released|]. by apply Hstep.
  - exists p. split; [by apply left_alone; auto|]. destruct (_ && _) eqn:Hwait in Hrun.
    + apply run_enqueueApply in Hrun as (Hev & Hst & Hj). apply left_step; [done..|]. intros Hfr _. by apply Hj.
    + injection Hrun as _ <-. apply left_step; [done..|]. intros _ [Hs Hc]. exfalso. revert Hwait.
      rewrite (bool_decide_eq_true_2 (Planned.safe_error_code p = None)), andb_true_r by done.
      rewrite orb_false_iff, !bool_decide_eq_false. by intros []; destruct Hs.
Qed.

Lemma held_step m id o p reason code w u w' :
  planned_events (db w) !! id = Some p → meeting_of draft = Some m → mapped p = true →
  stays_put draft now p ∨ Planning.planned_event o = None →
  set_event id (mark_event Planned.held (Some reason) (Some code) now) w = (Ok u, w') →
  ∃ p', row_change o id (Some p) p' ∧ row_step id p' w w'.
Proof using Type.
  intros Hp Hm Hmap Hwhy (q & Hq & Hstep)%set_alone. rewrite Hp in Hq. injection Hq as <-.
  eexists. split; [by eapply held_back|]. apply Hstep. by intros [[] _].
Qed.

Lemma replan_event_run id p o w u w' :
  planned_events (db w) !! id = Some p → ¬ stays_put draft now p → Planned.status p ≠ Planned.skipped →
  (is_Some (meeting_of draft) → mapped p = true → is_Some (Planning.planned_event o)) →
  replan_event organization revision now id o p (desired_for ruleId draft id p o) w = (Ok u, w') →
  ∃ p', row_change o id (Some p) p' ∧ row_step id p' w w'.
Proof using Type.
  intros Hp Hmove Hskip Hplanned Hrun. unfold replan_event in Hrun. run_step Hrun as written w1 Hh.
  apply run_hashed in Hh as [Hwritten ->].
  assert (fst <$> written = event_for ruleId draft id o (Planned.generation p) (Planned.intent_sequence p + 1)) as Hfor.
  { rewrite Hwritten. unfold desired_for, event_for. by destruct (Planning.planned_event o). }
  eexists. split; [by apply (replanned _ _ _ _ _ _ _ p written)|]. destruct written as [[e h]|].
  - apply set_and_enqueue in Hrun as (q & Hq & Hstep). rewrite Hp in Hq. injection Hq as <-. by apply Hstep.
  - run_step Hrun as u1 w1 Hs. injection Hrun as _ <-. apply set_alone in Hs as (q & Hq & Hstep).
    rewrite Hp in Hq. injection Hq as <-. apply Hstep. by intros [[] _].
Qed.

Lemma updateOccurrence_run id p o w u w' :
  planned_events (db w) !! id = Some p →
  updateOccurrence organization ruleId revision draft now id p o w = (Ok u, w') →
  ∃ p', row_change o id (Some p) p' ∧ row_step id p' w w'.
Proof using Type.
  intros Hp Hrun. unfold updateOccurrence in Hrun. destruct (bool_decide (Planned.status p = Planned.skipped)) eqn:Hskip in Hrun.
  { bool_to_prop. injection Hrun as _ <-. exists p. split; [by apply left_alone; auto|]. apply left_step; [done..|].
    intros _ [Hs _]. rewrite Hskip in Hs. by destruct Hs. }
  bool_to_prop. run_step Hrun as wanted w1 Hh. pose proof (run_hashed _ _ _ _ Hh) as [Hwanted ->].
  destruct (_ && _) eqn:Hsame in Hrun.
  { bool_to_prop. apply (keep_event_run id o) in Hrun; [done..|]. by eapply wanted_spec. }
  clear Hsame. pose proof (stays_put_response draft now p (desired_for ruleId draft id p o)) as Hresp.
  destruct (response_to draft now p _).
  - pose proof Hresp as (m & ? & ? & _). eapply held_step; [exact Hp|done|done|by left|exact Hrun].
  - apply suggest_change_run in Hrun as [Hev Hst]. destruct Hresp as [Hstay Hconv]. exists p.
    split; [by apply left_alone; auto|]. apply left_step; [done..|]. intros _ [Hs _]. rewrite Hconv in Hs. by destruct Hs.
  - pose proof Hresp as (m & ? & ? & _). eapply held_step; [exact Hp|done|done|by left|exact Hrun].
  - destruct Hresp as (m & ? & ? & Hnone). eapply held_step; [exact Hp|done|done| |exact Hrun]. right.
    unfold desired_for in Hnone. by destruct (Planning.planned_event o).
  - destruct Hresp as [Hmove Hplanned]. eapply replan_event_run; try done. intros Hm Hmap. specialize (Hplanned Hm Hmap).
    unfold desired_for in Hplanned. by destruct (Planning.planned_event o); [|destruct Hplanned].
Qed.

(** ** The loop over the plan *)

(** The rows a loop works on are the rows of the database. *)
Record rows_current (rows : list (string * Planned.EventRow)) (d : PlanningDb) : Prop := {
  current_rows : ∀ id p, (id, p) ∈ rows → planned_events d !! id = Some p;
  current_ids : NoDup rows.*1;
  current_keys : NoDup (map key_of rows);
}.

(** The row [id] is the row of the occurrence [o] now. *)
Record row_planned (rows : list (string * Planned.EventRow)) w w' (o : PlannedOccurrenceTemplate) (id : string)
    (p' : Planned.EventRow) : Prop := {
  planned_lookup : planned_events (db w') !! id = Some p';
  planned_change : row_change o id (planned_events (db w) !! id) p';
  planned_row : ∀ p, planned_events (db w) !! id = Some p → (id, p) ∈ rows ∧ Planned.occurrence_key p = occurrence_key o;
  planned_waits : ids_fresh w → awaits_write p' → intent_waits id p' (db w');
}.

Record plan_reconciled (os : list PlannedOccurrenceTemplate) (rows : list (string * Planned.EventRow)) w w' : Prop := {
  reconciled_steps : plan_steps w w';
  reconciled_all : ∀ o, o ∈ os → ∃ id p', row_planned rows w w' o id p';
  reconciled_rows : ∀ id p, (id, p) ∈ rows → Planned.occurrence_key p ∈ map occurrence_key os →
    ∃ o p', o ∈ os ∧ row_planned rows w w' o id p';
  reconciled_only : ∀ id, planned_events (db w') !! id = planned_events (db w) !! id ∨
    ∃ o p', o ∈ os ∧ row_planned rows w w' o id p';
}.

Lemma delete_key_elem rows key row : row ∈ delete_key rows key ↔ row ∈ rows ∧ key_of row ≠ key.
Proof using Type.
  unfold delete_key. rewrite !list_elem_of_In, filter_In, negb_true_iff. by rewrite String.eqb_neq.
Qed.

Lemma NoDup_delete_key {B} (f : string * Planned.EventRow → B) rows key : NoDup (map f rows) → NoDup (map f (delete_key rows key)).
Proof using Type.
  induction rows as [|row rows IH]; [done|]. cbn. intros [Hn Hd]%NoDup_cons. destruct (negb _); cbn; [|auto].
  apply NoDup_cons. split; [|auto]. intros (row' & Heq & Hin%delete_key_elem)%list_elem_of_fmap. apply Hn.
  apply list_elem_of_fmap. exists row'. tauto.
Qed.

Lemma get_key_elem rows key id p : get_key rows key = Some (id, p) → (id, p) ∈ rows ∧ Planned.occurrence_key p = key.
Proof using Type. intros [Hin Heq]%find_some. split; [by apply list_elem_of_In|by apply String.eqb_eq in Heq]. Qed.

Lemma get_key_None rows key row : get_key rows key = None → row ∈ rows → key_of row ≠ key.
Proof using Type.
  intros Hno Hin%list_elem_of_In. pose proof (find_none _ _ Hno _ Hin) as Hk. by apply String.eqb_neq in Hk.
Qed.

Lemma get_key_same rows key id p row :
  NoDup (map key_of rows) → get_key rows key = Some (id, p) → row ∈ rows → key_of row = key → row = (id, p).
Proof using Type.
  intros Hnd Hget Hin Hk. apply get_key_elem in Hget as [Hin' Hk']. apply list_elem_of_lookup in Hin as [i Hi].
  apply list_elem_of_lookup in Hin' as [j Hj]. enough (i = j) as -> by congruence.
  eapply NoDup_lookup; [exact Hnd|by rewrite list_lookup_fmap, Hi|]. rewrite list_lookup_fmap, Hj. cbn. unfold key_of in *. cbn in *. congruence.
Qed.

(** The rows that are left once the row [id] was written. *)
Lemma rows_current_step rows rows1 id p' w w1 :
  rows_current rows (db w) → row_step id p' w w1 → (∀ row, row ∈ rows1 → row ∈ rows ∧ row.1 ≠ id) →
  NoDup rows1.*1 → NoDup (map key_of rows1) → rows_current rows1 (db w1).
Proof using Type.
  intros [Hcur _ _] Hstep Hsub Hids Hkeys. split; [|done..]. intros i q Hin. destruct (Hsub _ Hin) as [Hin' Hne].
  rewrite (step_events _ _ _ _ Hstep), lookup_insert_ne by done. by apply Hcur.
Qed.

Lemma row_planned_later rows rows1 id p' w w1 w' o i q :
  row_step id p' w w1 → (∀ row, row ∈ rows1 → row ∈ rows ∧ row.1 ≠ id) → i ≠ id →
  row_planned rows1 w1 w' o i q → row_planned rows w w' o i q.
Proof using Type.
  intros [Hev [_ Hfresh] _] Hsub Hne [Hl Hc Hr Hw]. rewrite Hev, lookup_insert_ne in Hc, Hr by done. split; [done|done| |auto].
  intros p Hp. destruct (Hr p Hp) as [Hin Hk]. split; [by apply Hsub|done].
Qed.

Lemma plan_reconciled_cons o os rows rows1 id p' w w1 w' :
  row_change o id (planned_events (db w) !! id) p' → row_step id p' w w1 →
  (∀ p, planned_events (db w) !! id = Some p → (id, p) ∈ rows ∧ Planned.occurrence_key p = occurrence_key o) →
  (∀ row, row ∈ rows1 → row ∈ rows ∧ row.1 ≠ id) →
  (∀ i p, (i, p) ∈ rows → Planned.occurrence_key p = occurrence_key o → i = id) →
  (∀ i p, (i, p) ∈ rows → Planned.occurrence_key p ≠ occurrence_key o → (i, p) ∈ rows1) →
  plan_reconciled os rows1 w1 w' → plan_reconciled (o :: os) rows w w'.
Proof using Type.
  intros Hchange Hstep Hrow Hsub Hsame Hother [Hst Hall Hrows Honly].
  assert (∀ o' q, ¬ row_planned rows1 w1 w' o' id q) as Hnot.
  { intros o' q [_ _ Hr _]. destruct (Hr p') as [Hin _]; [by rewrite (step_events _ _ _ _ Hstep), lookup_insert_eq|].
    by destruct (Hsub _ Hin). }
  assert (row_planned rows w w' o id p') as Hfirst.
  { split; [|done|done|].
    - destruct (Honly id) as [->|(o' & q & _ & Hq)]; [by rewrite (step_events _ _ _ _ Hstep), lookup_insert_eq|by destruct (Hnot o' q)].
    - intros Hfr Haw. eapply apply_waits_frame; [apply Hst|]. by apply (step_waits _ _ _ _ Hstep). }
  assert (∀ o' i q, row_planned rows1 w1 w' o' i q → row_planned rows w w' o' i q) as Hlater.
  { intros o' i q Hq. eapply row_planned_later; [exact Hstep|exact Hsub| |exact Hq]. intros ->. by eapply Hnot. }
  split.
  - etrans; [exact (step_frame _ _ _ _ Hstep)|exact Hst].
  - intros o' [->|Hin]%elem_of_cons; [by exists id, p'|]. destruct (Hall o' Hin) as (i & q & Hq). exists i, q. by apply Hlater.
  - intros i p Hin Hk. destruct (decide (Planned.occurrence_key p = occurrence_key o)) as [Heq|Hne].
    + rewrite (Hsame i p Hin Heq). exists o, p'. split; [by left|done].
    + cbn in Hk. apply elem_of_cons in Hk as [Hk|Hk]; [done|]. destruct (Hrows i p (Hother i p Hin Hne) Hk) as (o' & q & Ho & Hq).
      exists o', q. split; [by right|by apply Hlater].
  - intros i. destruct (Honly i) as [Heq|(o' & q & Ho & Hq)].
    + destruct (decide (i = id)) as [->|Hne]; [right; exists o, p'; split; [by left|done]|left].
      by rewrite Heq, (step_events _ _ _ _ Hstep), lookup_insert_ne.
    + right. exists o', q. split; [by right|by apply Hlater].
Qed.

Lemma reconcile_occurrences_run os : ∀ rows w stale w',
  rows_current rows (db w) → reconcile_occurrences organization ruleId revision draft now rows os w = (Ok stale, w') →
  plan_reconciled os rows w w' ∧ stale = foldl (λ rows o, delete_key rows (occurrence_key o)) rows os.
Proof using Type.
  induction os as [|o os IH]; intros rows w stale w' Hcur Hrun.
  { injection Hrun as <- <-. split; [|done]. split; [done| | |by left]; [by intros o ?%elem_of_nil|by intros id p _ ?%elem_of_nil]. }
  cbn in Hrun. run_step Hrun as u w1 Hstep.
  assert (NoDup (delete_key rows (occurrence_key o)).*1) as Hids by (apply NoDup_delete_key, Hcur).
  assert (NoDup (map key_of (delete_key rows (occurrence_key o)))) as Hkeys by (apply NoDup_delete_key, Hcur).
  assert (∀ id p' , row_change o id (planned_events (db w) !! id) p' → row_step id p' w w1 →
    (∀ p, planned_events (db w) !! id = Some p → (id, p) ∈ rows ∧ Planned.occurrence_key p = occurrence_key o) →
    (∀ i p, (i, p) ∈ rows → Planned.occurrence_key p = occurrence_key o ↔ i = id) →
    plan_reconciled (o :: os) rows w w' ∧
    stale = foldl (λ rows o, delete_key rows (occurrence_key o)) (delete_key rows (occurrence_key o)) os) as Hcons.
  { intros id p' Hch Hs Hr Hsame.
    assert (∀ row, row ∈ delete_key rows (occurrence_key o) → row ∈ rows ∧ row.1 ≠ id) as Hsub.
    { intros [i p] [Hin Hne]%delete_key_elem. split; [done|]. cbn. intros ->. by apply Hne, (Hsame id p). }
    apply IH in Hrun as [Hrest ->]; [|by eapply rows_current_step]. split; [|done].
    eapply plan_reconciled_cons; try done; [naive_solver|]. intros i p Hin Hne. by apply delete_key_elem. }
  cbn. destruct (get_key rows (occurrence_key o)) as [[id p]|] eqn:Hget.
  - pose proof (get_key_elem _ _ _ _ Hget) as [Hin Hk]. pose proof (current_rows _ _ Hcur _ _ Hin) as Hp.
    apply updateOccurrence_run in Hstep as (p' & Hch & Hs); [|done]. apply (Hcons id p'); [by rewrite Hp|done|naive_solver|].
    intros i q Hq. split; [intros Hkq|].
    + by pose proof (get_key_same _ _ _ _ _ (current_keys _ _ Hcur) Hget Hq Hkq) as [= -> _].
    + intros ->. pose proof (current_rows _ _ Hcur _ _ Hq) as Hp'. congruence.
  - apply insertOccurrence_run in Hstep as (id & p' & Hnone & Hch & Hs). apply (Hcons id p'); [by rewrite Hnone|done|congruence|].
    intros i q Hq. split; [|intros ->].
    + intros Hkq. by destruct (get_key_None _ _ _ Hget Hq).
    + pose proof (current_rows _ _ Hcur _ _ Hq). congruence.
Qed.

(** ** The loop over the stale rows *)

Local Notation row_retired := (row_retired revision now).

Record row_removed w w' (id : string) (p p' : Planned.EventRow) : Prop := {
  removed_lookup : planned_events (db w') !! id = Some p';
  removed_change : row_retired p p';
  removed_waits : ids_fresh w → awaits_deletion p' → intent_waits id p' (db w');
}.

Lemma retire_event_run id p w u w' :
  planned_events (db w) !! id = Some p → retire_event organization revision now (id, p) w = (Ok u, w') →
  ∃ p', planned_events (db w') = <[id := p']> (planned_events (db w)) ∧ plan_steps w w' ∧ row_removed w w' id p p'.
Proof using Type.
  intros Hp Hrun. cbn in Hrun.
  assert (∀ p', row_retired p p' → planned_events (db w') = <[id := p']> (planned_events (db w)) → plan_steps w w' →
    (ids_fresh w → awaits_deletion p' → intent_waits id p' (db w')) →
    ∃ p', planned_events (db w') = <[id := p']> (planned_events (db w)) ∧ plan_steps w w' ∧ row_removed w w' id p p') as Hdone.
  { intros p' Hret Hev Hst Hw. exists p'. split_and!; [done..|]. split; [by rewrite Hev, lookup_insert_eq|done|done]. }
  assert (planned_events (db w) = <[id := p]> (planned_events (db w))) as Hsame by (by rewrite insert_id).
  destruct (bool_decide (Planned.status p = Planned.pending_delete)) eqn:Hpend in Hrun; bool_to_prop.
  { destruct (bool_decide (Planned.safe_error_code p = _)) eqn:Hcode in Hrun; bool_to_prop.
    - injection Hrun as _ <-. apply (Hdone p); [by constructor|done|done|]. by intros _ [_ ?].
    - apply run_enqueueApply in Hrun as (Hev & Hst & Hw). apply (Hdone p); [by constructor|by rewrite Hev|done|]. intros Hfr _. by apply Hw. }
  destruct (eventHasEnded _ _) eqn:Hended in Hrun.
  { apply set_alone in Hrun as (q & Hq & Hstep). rewrite Hp in Hq. injection Hq as <-.
    destruct Hstep as [Hev Hst _]; [by intros [[] _]|]. eapply Hdone; [by apply history_preserved|done|done|]. by intros _ [? _]. }
  destruct (mapped p) eqn:Hmap; cbn in Hrun.
  - destruct (bool_decide (Planned.status p = Planned.deleted)) eqn:Hdel in Hrun; cbn in Hrun; bool_to_prop.
    + injection Hrun as _ <-. apply (Hdone p); [by apply gone|done|done|]. intros _ [Hs _]. by rewrite Hdel in Hs.
    + apply set_and_enqueue in Hrun as (q & Hq & Hstep). rewrite Hp in Hq. injection Hq as <-.
      destruct Hstep as [[Hev Hst _] Hw]; [done|]. eapply Hdone; [by apply withdrawn|done|done|]. auto.
  - apply set_alone in Hrun as (q & Hq & Hstep). rewrite Hp in Hq. injection Hq as <-.
    destruct Hstep as [Hev Hst _]; [by intros [[] _]|]. eapply Hdone; [by apply never_written|done|done|]. by intros _ [? _].
Qed.

Record rows_removed (rows : list (string * Planned.EventRow)) w w' : Prop := {
  removed_steps : plan_steps w w';
  removed_all : ∀ id p, (id, p) ∈ rows → ∃ p', row_removed w w' id p p';
  removed_only : ∀ id, id ∉ rows.*1 → planned_events (db w') !! id = planned_events (db w) !! id;
}.

Lemma retire_events_run rows : ∀ w u w',
  (∀ id p, (id, p) ∈ rows → planned_events (db w) !! id = Some p) → NoDup rows.*1 →
  retire_events organization revision now rows w = (Ok u, w') → rows_removed rows w w'.
Proof using Type.
  induction rows as [|[id p] rows IH]; intros w u w' Hcur Hnd Hrun.
  { injection Hrun as _ <-. split; [done|by intros ?? ?%elem_of_nil|done]. }
  cbn [retire_events] in Hrun. run_step Hrun as u1 w1 Hr. cbn in Hnd. apply NoDup_cons in Hnd as [Hnew Hnd].
  apply retire_event_run in Hr as (p' & Hev & Hst & [Hl Hc Hw]); [|by apply Hcur; left].
  assert (∀ i q, (i, q) ∈ rows → i ≠ id) as Hne.
  { intros i q Hin ->. apply Hnew. apply list_elem_of_fmap. by exists (id, q). }
  apply IH in Hrun as [Hst' Hall Honly]; [|intros i q Hin; rewrite Hev, lookup_insert_ne by (by apply not_eq_sym, (Hne i q)); by apply Hcur; right|done].
  split.
  - by etrans.
  - intros i q [[= -> ->]|Hin]%elem_of_cons.
    + exists p'. split; [by rewrite (Honly id Hnew)|done|]. intros Hfr Haw. eapply apply_waits_frame; [apply Hst'|]. exact (Hw Hfr Haw).
    + destruct (Hall i q Hin) as (q' & [Hl' Hc' Hw']). exists q'. split; [done|done|]. intros Hfr. apply Hw', Hst, Hfr.
  - intros i Hi. cbn in Hi. apply not_elem_of_cons in Hi as [Hi1 Hi2]. by rewrite (Honly i Hi2), Hev, lookup_insert_ne.
Qed.

(** ** The transaction *)

(** [unique (rule_id, occurrence_key)]. *)
Definition keys_unique (d : PlanningDb) : Prop :=
  ∀ i j p q, planned_events d !! i = Some p → planned_events d !! j = Some q → Planned.rule p = Planned.rule q →
    Planned.occurrence_key p = Planned.occurrence_key q → i = j.

Definition of_rule (p : Planned.EventRow) : Prop := Planned.organization p = organization ∧ Planned.rule p = ruleId.

Definition planned_key (plan : PlanningResult) (key : string) : Prop := key ∈ map occurrence_key (occurrences plan).

Lemma elem_of_events_of d id p : (id, p) ∈ events_of organization ruleId d ↔ planned_events d !! id = Some p ∧ of_rule p.
Proof using Type.
  unfold events_of, of_rule. rewrite list_elem_of_In, filter_In, andb_true_iff, !bool_decide_eq_true, <-list_elem_of_In.
  by rewrite elem_of_map_to_list.
Qed.

Lemma events_of_ids d : NoDup (events_of organization ruleId d).*1.
Proof using Type.
  unfold events_of. pose proof (NoDup_fst_map_to_list (planned_events d)) as Hnd. induction (map_to_list _) as [|row rows IH]; [done|].
  cbn in Hnd |- *. apply NoDup_cons in Hnd as [Hn Hnd]. destruct row as [i p]. destruct (_ && _); cbn; [|auto].
  apply NoDup_cons. split; [|auto]. intros Hin. apply Hn. apply list_elem_of_fmap in Hin as (row & Heq & Hin).
  apply list_elem_of_fmap. exists row. split; [done|]. apply list_elem_of_In, filter_In in Hin as [Hin _]. by apply list_elem_of_In.
Qed.

Lemma events_of_keys d : keys_unique d → NoDup (map key_of (events_of organization ruleId d)).
Proof using Type.
  intros Huniq. apply NoDup_fmap_2_strong; [|eapply NoDup_fmap_1, events_of_ids].
  intros [i p] [j q] [Hp [_ Hr]]%elem_of_events_of [Hq [_ Hr']]%elem_of_events_of Hk.
  assert (i = j) as -> by (apply (Huniq i j p q); [done|done|congruence|exact Hk]). congruence.
Qed.

(** With unique keys the [Map] has all rows. *)
Lemma by_key_all rows : NoDup (map key_of rows) → by_key rows = rows.
Proof using Type.
  assert (∀ acc row, key_of row ∉ map key_of acc → set_key acc row = acc ++ [row]) as Hset.
  { induction acc as [|old acc IH]; intros row Hn; [done|]. cbn in Hn |- *. apply not_elem_of_cons in Hn as [Hn1 Hn2].
    destruct (String.eqb_spec (key_of old) (key_of row)); [congruence|]. by rewrite IH. }
  assert (∀ acc, NoDup (map key_of (acc ++ rows)) → fold_left set_key rows acc = acc ++ rows) as Hall; [|by apply (Hall [])].
  induction rows as [|row rows IH]; intros acc Hnd; [by rewrite app_nil_r|]. cbn. rewrite Hset.
  - rewrite IH; [by rewrite <-app_assoc|by rewrite <-app_assoc].
  - rewrite map_app in Hnd. apply NoDup_app in Hnd as (_ & Hd & _). intros Hin. apply (Hd _ Hin). by left.
Qed.

Lemma stale_rows_elem os : ∀ rows row,
  row ∈ foldl (λ rows o, delete_key rows (occurrence_key o)) rows os ↔ row ∈ rows ∧ key_of row ∉ map occurrence_key os.
Proof using Type.
  induction os as [|o os IH]; intros rows row; cbn; [set_solver|]. rewrite IH, delete_key_elem, not_elem_of_cons. tauto.
Qed.

Lemma stale_rows_ids os : ∀ rows, NoDup rows.*1 → NoDup (foldl (λ rows o, delete_key rows (occurrence_key o)) rows os).*1.
Proof using Type. induction os as [|o os IH]; intros rows Hnd; [done|]. cbn. by apply IH, NoDup_delete_key. Qed.

(** A row of the rule, before and after. *)
Inductive row_settled (plan : PlanningResult) (fresh : Prop) (d' : PlanningDb) (id : string) (p p' : Planned.EventRow) : Prop :=
| settled_in_plan o :
    o ∈ occurrences plan → Planned.occurrence_key p = occurrence_key o → row_change o id (Some p) p' →
    (fresh → awaits_write p' → intent_waits id p' d') → row_settled plan fresh d' id p p'
| settled_stale :
    ¬ planned_key plan (Planned.occurrence_key p) → row_retired p p' → (fresh → awaits_deletion p' → intent_waits id p' d') →
    row_settled plan fresh d' id p p'.

Record rule_settled (plan : PlanningResult) (fresh : Prop) (d d' : PlanningDb) : Prop := {
  settled_rows : ∀ id p, planned_events d !! id = Some p → of_rule p →
    ∃ p', planned_events d' !! id = Some p' ∧ row_settled plan fresh d' id p p';
  settled_occurrences : ∀ o, o ∈ occurrences plan → ∃ id p', planned_events d' !! id = Some p' ∧
    row_change o id (planned_events d !! id) p' ∧
    (∀ p, planned_events d !! id = Some p → of_rule p ∧ Planned.occurrence_key p = occurrence_key o);
  settled_others : ∀ id p, planned_events d !! id = Some p → ¬ of_rule p → planned_events d' !! id = Some p;
  settled_new : ∀ id p', planned_events d !! id = None → planned_events d' !! id = Some p' →
    ∃ o, o ∈ occurrences plan ∧ row_change o id None p' ∧ (fresh → awaits_write p' → intent_waits id p' d');
  settled_rest : (∃ r, plan_rules d !! ruleId = Some r ∧ plan_rules d' = <[ruleId := mark_plan_rule None (Some now) None
      (if (0 <? unmet_count plan)%nat then Some "planning_window_unmet" else None) now r]> (plan_rules d)) ∧
    plan_previews d' = plan_previews d ∧ ∃ jobs', base d' = with_jobs (λ _, jobs') (base d);
}.

Lemma row_change_of_rule o id before p' :
  row_change o id before p' → (∀ p, before = Some p → of_rule p ∧ Planned.occurrence_key p = occurrence_key o) →
  of_rule p' ∧ Planned.occurrence_key p' = occurrence_key o.
Proof using Type. unfold of_rule. intros Hch Hb. destruct Hch; cbn; try done; by apply (Hb p). Qed.

Lemma row_settled_base plan (fresh : Prop) d1 d2 id p p' :
  base d2 = base d1 → row_settled plan fresh d1 id p p' → row_settled plan fresh d2 id p p'.
Proof using Type.
  intros Hb. unfold awaits_write. destruct 1 as [o Ho Hk Hc Hw|Hk Hc Hw]; [eapply settled_in_plan|eapply settled_stale]; try done.
  all: intros Hfr Haw; specialize (Hw Hfr Haw); unfold apply_waits in Hw; red; red; by rewrite Hb.
Qed.

(** The two loops, one after the other. *)
Lemma loops_settle plan stale w w1 w2 :
  keys_unique (db w) →
  plan_reconciled (occurrences plan) (events_of organization ruleId (db w)) w w1 →
  stale = foldl (λ rows o, delete_key rows (occurrence_key o)) (events_of organization ruleId (db w)) (occurrences plan) →
  rows_removed stale w1 w2 →
  (∀ id p, planned_events (db w) !! id = Some p → of_rule p →
     ∃ p', planned_events (db w2) !! id = Some p' ∧ row_settled plan (ids_fresh w) (db w2) id p p') ∧
  (∀ o, o ∈ occurrences plan → ∃ id p', planned_events (db w2) !! id = Some p' ∧
     row_change o id (planned_events (db w) !! id) p' ∧
     (∀ p, planned_events (db w) !! id = Some p → of_rule p ∧ Planned.occurrence_key p = occurrence_key o)) ∧
  (∀ id p, planned_events (db w) !! id = Some p → ¬ of_rule p → planned_events (db w2) !! id = Some p) ∧
  (∀ id p', planned_events (db w) !! id = None → planned_events (db w2) !! id = Some p' →
     ∃ o, o ∈ occurrences plan ∧ row_change o id None p' ∧ (ids_fresh w → awaits_write p' → intent_waits id p' (db w2))).
Proof using Type.
  intros Huniq [Hst Hall Hrows Honly] -> [Hst2 Hremoved Hkept]. set (rows := events_of organization ruleId (db w)) in *.
  set (stale := foldl _ _ _) in *.
  assert (∀ o id q, o ∈ occurrences plan → row_planned rows w w1 o id q → id ∉ stale.*1) as Hnot_stale.
  { intros o id q Ho [_ _ Hr _] Hin. apply list_elem_of_fmap in Hin as ([i p] & -> & Hin).
    apply stale_rows_elem in Hin as [Hin Hk]. apply elem_of_events_of in Hin as [Hp _]. destruct (Hr p Hp) as [_ Heq].
    apply Hk. change (Planned.occurrence_key p ∈ map occurrence_key (occurrences plan)). rewrite Heq. apply list_elem_of_fmap.
    by exists o. }
  assert (∀ o id q, o ∈ occurrences plan → row_planned rows w w1 o id q →
    planned_events (db w2) !! id = Some q ∧ row_change o id (planned_events (db w) !! id) q ∧
    (∀ p, planned_events (db w) !! id = Some p → of_rule p ∧ Planned.occurrence_key p = occurrence_key o) ∧
    (ids_fresh w → awaits_write q → intent_waits id q (db w2))) as Hplanned.
  { intros o id q Ho Hq. pose proof (Hnot_stale o id q Ho Hq) as Hns. destruct Hq as [Hl Hc Hr Hw]. split_and!.
    - by rewrite Hkept.
    - done.
    - intros p Hp. destruct (Hr p Hp) as [Hin Heq]. by apply elem_of_events_of in Hin as [_ Hof].
    - intros Hfr Haw. eapply apply_waits_frame; [apply Hst2|]. exact (Hw Hfr Haw). }
  split_and!.
  - intros id p Hp Hof. assert ((id, p) ∈ rows) as Hin by (by apply elem_of_events_of).
    destruct (decide (Planned.occurrence_key p ∈ map occurrence_key (occurrences plan))) as [Hk|Hk].
    + destruct (Hrows id p Hin Hk) as (o & q & Ho & Hq). destruct (Hplanned o id q Ho Hq) as (Hl & Hc & Hr & Hw).
      exists q. split; [done|]. rewrite Hp in Hc. eapply settled_in_plan; [exact Ho|by apply Hr|done|done].
    + assert ((id, p) ∈ stale) as Hs by (by apply stale_rows_elem). destruct (Hremoved id p Hs) as (q & [Hl Hc Hw]).
      exists q. split; [done|]. apply settled_stale; [done|done|]. intros Hfr. apply Hw, Hst, Hfr.
  - intros o Ho. destruct (Hall o Ho) as (id & q & Hq). exists id, q. by destruct (Hplanned o id q Ho Hq) as (? & ? & ? & _).
  - intros id p Hp Hof. rewrite Hkept.
    + destruct (Honly id) as [->|(o & q & Ho & Hq)]; [done|]. destruct (Hplanned o id q Ho Hq) as (_ & _ & Hr & _).
      by destruct (Hr p Hp).
    + intros Hin. apply list_elem_of_fmap in Hin as ([i q] & -> & Hin). apply stale_rows_elem in Hin as [Hin _].
      apply elem_of_events_of in Hin as [Hq Hof']. cbn in Hp. congruence.
  - intros id p' Hnone Hp'. rewrite Hkept in Hp'.
    + destruct (Honly id) as [Heq|(o & q & Ho & Hq)]; [congruence|]. exists o.
      destruct (Hplanned o id q Ho Hq) as (Hl & Hc & _ & Hw). rewrite (planned_lookup _ _ _ _ _ _ Hq) in Hp'. injection Hp' as <-.
      by rewrite Hnone in Hc.
    + intros Hin. apply list_elem_of_fmap in Hin as ([i q] & -> & Hin). apply stale_rows_elem in Hin as [Hin _].
      apply elem_of_events_of in Hin as [Hq _]. cbn in Hnone. congruence.
Qed.

Lemma commit_plan_run rule plan w w' u :
  keys_unique (db w) → PlanRule.revision rule = revision →
  commit_plan organization ruleId rule draft plan now w = (Ok u, w') →
  db w' = db w ∨ rule_settled plan (ids_fresh w) (db w) (db w').
Proof using Type.
  intros Huniq Hrev Hrun. unfold commit_plan in Hrun. apply run_transaction in Hrun. run_step Hrun as locked w1 Hl.
  apply run_read in Hl as [-> ->]. destruct (plan_rules (db w) !! ruleId) as [current|] eqn:Hcur; [|injection Hrun as _ <-; by left].
  destruct (_ && _) eqn:Hlive in Hrun; [right|injection Hrun as _ <-; by left]. clear Hlive.
  run_step Hrun as existing w1 Hl. apply run_read in Hl as [-> ->]. rewrite Hrev in Hrun.
  rewrite by_key_all in Hrun by (by apply events_of_keys). run_step Hrun as stale w1 Hplan.
  apply reconcile_occurrences_run in Hplan as [Hplan Hstale].
  2: { split; [by intros id p [? _]%elem_of_events_of|apply events_of_ids|by apply events_of_keys]. }
  run_step Hrun as u1 w2 Hret. apply run_set_plan_rule in Hrun as (r & Hr & ->).
  apply retire_events_run in Hret.
  - destruct (loops_settle _ _ _ _ _ Huniq Hplan Hstale Hret) as (H1' & H2' & H3' & H4').
    pose proof (reconciled_steps _ _ _ _ Hplan) as [Hf1 _]. pose proof (removed_steps _ _ _ Hret) as [Hf2 _].
    pose proof (plan_frame_trans _ _ _ Hf1 Hf2) as [Hrules Hpre (jobs' & Hb & _)].
    split; [|exact H2'|exact H3'|exact H4'|].
    { intros id p Hp Hof. destruct (H1' id p Hp Hof) as (p' & Hp' & Hset). exists p'. split; [exact Hp'|].
      by apply (row_settled_base _ _ (db w2)). }
    cbn. split_and!; [|done|by exists jobs'].
    exists r. by rewrite <-Hrules.
  - intros id p Hin. rewrite Hstale in Hin. apply stale_rows_elem in Hin as [Hin Hk]. apply elem_of_events_of in Hin as [Hp Hof].
    destruct (reconciled_only _ _ _ _ Hplan id) as [->|(o & q & Ho & Hq)]; [done|].
    destruct (planned_row _ _ _ _ _ _ Hq p Hp) as [_ Heq]. exfalso. apply Hk.
    change (Planned.occurrence_key p ∈ map occurrence_key (occurrences plan)). rewrite Heq. apply list_elem_of_fmap. by exists o.
  - rewrite Hstale. apply stale_rows_ids, events_of_ids.
Qed.
End reconcile_runs.

(** ** Reconciliation *)

Section reconciliation.
Context {R : Type} `{NewId} `{Unicode} `{Digest} `{TimeZones} `{Temporal} `{Intl}.
Implicit Types w : Transaction.World PlanningDb R PlanningCall.

(** The plan of a rule, from what the statements of [prepare] read, with the
    draft it is made for. *)
Definition plan_of (seen : nat → PlanningDb → PlanningDb) (organization ruleId : string) (rule : PlanRule.RuleRow) (now : Z)
    (d : PlanningDb) : res failure (PlanningDraft * PlanningResult) :=
  draft ← parse_plan (PlanRule.document rule);
  prepared ← prepareForReconcile (λ n, seen n d) organization draft now ruleId;
  plan ← engine_failure (planScheduling (prepared_input prepared));
  Ok (Planning.draft (prepared_input prepared), plan).

(** No job has an id that is still to be given out. *)
Definition jobs_fresh (n : nat) (d : PlanningDb) : Prop := Inj (=) (=) newId ∧ fresh_jobs n (base d).

Lemma reconcile_run seen interleave organization ruleId now w r w' :
  keys_unique (interleave (db w)) → reconcile seen interleave organization ruleId now w = (r, w') →
  db w' = db w ∨ db w' = interleave (db w) ∨
  ∃ rule draft plan, r = Ok () ∧ plan_rules (db w) !! ruleId = Some rule ∧
    plan_of seen organization ruleId rule now (db w) = Ok (draft, plan) ∧
    rule_settled organization ruleId (PlanRule.revision rule) draft now plan (jobs_fresh (issued w) (interleave (db w)))
      (interleave (db w)) (db w').
Proof using Type.
  intros Huniq. unfold reconcile. rewrite bind_run. cbn [read_db]. destruct (plan_rules (db w) !! ruleId) as [rule|]; [|by intros [= _ <-]; left].
  destruct (_ && _); [|by intros [= _ <-]; left]. rewrite bind_run. cbn [lift].
  destruct (parse_plan _) as [draft|e] eqn:Hdraft; [|by intros [= _ <-]; left]. rewrite bind_run. cbn [read_db].
  rewrite bind_run. cbn [lift]. destruct (prepareForReconcile _ _ _ _ _) as [prepared|e] eqn:Hprep; [|by intros [= _ <-]; left].
  rewrite bind_run. cbn [lift]. destruct (engine_failure _) as [plan|e] eqn:Hplan; [|by intros [= _ <-]; left].
  rewrite bind_run. cbn [write_db]. set (w1 := {| db := interleave (db w); remote := _; calls := _; issued := _ |}).
  destruct (commit_plan _ _ _ _ _ _ w1) as [[[]|e] w2] eqn:Hcommit; intros [= <- <-].
  - apply (commit_plan_run _ _ (PlanRule.revision rule)) in Hcommit as [->|Hset]; [by right; left| |done|done].
    right; right. exists rule, (Planning.draft (prepared_input prepared)), plan. split_and!; [done|done| |exact Hset].
    unfold plan_of. cbv [mbind res_bind]. by rewrite Hdraft, Hprep, Hplan.
  - right; left. unfold commit_plan in Hcommit. by apply transaction_throws in Hcommit.
Qed.

(** What a reconciliation may do to a row of its rule. *)
Inductive allowed_change (organization ruleId : string) (draft : PlanningDraft) (plan : PlanningResult) (now : Z) (id : string)
    (p p' : Planned.EventRow) : Prop :=
| keeps_event :
    Planned.intent_sequence p' = Planned.intent_sequence p → Planned.desired_state p' = Planned.desired_state p →
    Planned.status p' ∈ [Planned.held; Planned.pending_create; Planned.pending_update] → planned_key plan (Planned.occurrence_key p) →
    allowed_change organization ruleId draft plan now id p p'
| moves_event o :
    o ∈ occurrences plan → Planned.occurrence_key p = occurrence_key o → ¬ stays_put draft now p → Planned.status p ≠ Planned.skipped →
    (is_Some (meeting_of draft) → mapped p = true → is_Some (Planning.planned_event o)) →
    Planned.intent_sequence p' = Planned.intent_sequence p + 1 →
    Planned.desired_state p' = event_for ruleId draft id o (Planned.generation p) (Planned.intent_sequence p') →
    allowed_change organization ruleId draft plan now id p p'
| withdraws_event :
    ¬ planned_key plan (Planned.occurrence_key p) → eventHasEnded (Planned.desired_state p) now = false → mapped p = true →
    Planned.intent_sequence p' = Planned.intent_sequence p + 1 → Planned.status p' = Planned.pending_delete →
    Planned.desired_state p' = None → allowed_change organization ruleId draft plan now id p p'
| forgets_event :
    ¬ planned_key plan (Planned.occurrence_key p) → eventHasEnded (Planned.desired_state p) now = true ∨ mapped p = false →
    Planned.intent_sequence p' = Planned.intent_sequence p → Planned.status p' = Planned.deleted →
    Planned.desired_state p' = None → allowed_change organization ruleId draft plan now id p p'.

(** The identity of a row and what it knows of the calendar. *)
Definition same_event (p p' : Planned.EventRow) : Prop :=
  Planned.organization p' = Planned.organization p ∧ Planned.rule p' = Planned.rule p ∧
  Planned.occurrence_key p' = Planned.occurrence_key p ∧ Planned.generation p' = Planned.generation p ∧
  Planned.destination_calendar p' = Planned.destination_calendar p ∧ Planned.destination_event p' = Planned.destination_event p ∧
  Planned.destination_etag p' = Planned.destination_etag p.

Lemma settled_allowed organization ruleId revision draft now plan fresh d' id p p' :
  row_settled organization ruleId revision draft now plan fresh d' id p p' →
  same_event p p' ∧ (p' = p ∨ allowed_change organization ruleId draft plan now id p p').
Proof using Type.
  intros [o Ho Hk Hc _|Hk Hc _].
  - assert (planned_key plan (Planned.occurrence_key p)) as Hin by (rewrite Hk; apply list_elem_of_fmap; by exists o).
    inversion Hc; subst; split; try done.
    + by left.
    + right. apply keeps_event; [done..| |done]. cbn. destruct (mapped p); set_solver.
    + right. apply keeps_event; [done..| |done]. cbn. set_solver.
    + right. by apply (moves_event _ _ _ _ _ _ _ _ o).
  - inversion Hc; subst; split; try done; [by left|right..|by left].
    + by apply forgets_event; auto.
    + by apply withdraws_event.
    + by apply forgets_event; auto.
Qed.

(** C33. A reconciliation changes nothing, or each row of its rule as the plan of
    the moment and the settings of the owner allow: an event gets a new intent
    only when the plan wants another event for its key, and then never when the
    settings keep the meeting where it is (its no-move window, conflicts kept
    for the owner, changes only suggested) or its row was skipped; it is
    withdrawn from the calendar only when the plan has no such key any more and
    it is not over. Rows of other rules stay as they are, and no row forgets what
    it knows of the calendar. *)
Theorem planned_changes_are_justified seen interleave organization ruleId now w r w' :
  keys_unique (interleave (db w)) → reconcile seen interleave organization ruleId now w = (r, w') →
  db w' = db w ∨ db w' = interleave (db w) ∨
  ∃ rule draft plan, r = Ok () ∧ plan_rules (db w) !! ruleId = Some rule ∧
    plan_of seen organization ruleId rule now (db w) = Ok (draft, plan) ∧
    ∀ id p, planned_events (interleave (db w)) !! id = Some p →
      ∃ p', planned_events (db w') !! id = Some p' ∧ same_event p p' ∧
        (p' = p ∨ of_rule organization ruleId p ∧ allowed_change organization ruleId draft plan now id p p').
Proof using Type.
  intros Huniq Hrun. apply reconcile_run in Hrun as [?|[?|(rule & draft & plan & Hr & Hrule & Hplan & Hset)]]; [by left|by right; left| |done].
  right; right. exists rule, draft, plan. split_and!; [done..|]. intros id p Hp.
  destruct (decide (of_rule organization ruleId p)) as [Hof|Hof].
  - destruct (settled_rows _ _ _ _ _ _ _ _ _ Hset id p Hp Hof) as (p' & Hp' & Hrow). exists p'. split; [done|].
    apply settled_allowed in Hrow as [Hsame [->|?]]; auto.
  - exists p. split; [by apply (settled_others _ _ _ _ _ _ _ _ _ Hset)|]. by split; [|left].
Qed.

(** ** What is left to do *)

(** The row of an occurrence: the event of the plan, or the event that is kept. *)
Definition row_follows (ruleId : string) (draft : PlanningDraft) (now : Z) (d : PlanningDb) (o : PlannedOccurrenceTemplate)
    (id : string) (p' : Planned.EventRow) : Prop :=
  Planned.occurrence_key p' = occurrence_key o ∧
  (Planned.desired_state p' = event_for ruleId draft id o (Planned.generation p') (Planned.intent_sequence p') ∨
   (Planned.desired_state p' = None ∧ Planning.planned_event o = None) ∨
   ∃ p, planned_events d !! id = Some p ∧ Planned.desired_state p' = Planned.desired_state p ∧
     Planned.intent_sequence p' = Planned.intent_sequence p ∧
     (Planned.status p = Planned.skipped ∨ up_to_date ruleId draft id o p ∨ stays_put draft now p ∨
      (is_Some (meeting_of draft) ∧ mapped p = true ∧ Planning.planned_event o = None))).

Lemma row_change_follows organization ruleId revision draft now d o id p' :
  row_change organization ruleId revision draft now o id (planned_events d !! id) p' →
  (∀ p, planned_events d !! id = Some p → Planned.occurrence_key p = occurrence_key o) →
  row_follows ruleId draft now d o id p'.
Proof using Type.
  intros Hch Hkey. remember (planned_events d !! id) as before eqn:Hb. symmetry in Hb. unfold row_follows.
  destruct Hch as [written Hw|p Hwhy|p Hup _ _|p m reason code Hm Hmap Hwhy|p written Hmove Hskip _ Hw]; cbn.
  - split; [done|]. left. rewrite Hw. unfold event_for in *. destruct written as [[e h]|]; [done|].
    by destruct (Planning.planned_event o).
  - split; [by apply Hkey|]. right; right. exists p. split_and!; try done. destruct Hwhy as [?|[?|?]]; auto.
  - split; [by apply Hkey|]. right; right. exists p. split_and!; try done. auto.
  - split; [by apply Hkey|]. right; right. exists p. split_and!; try done. destruct Hwhy as [?|?]; [by auto|].
    do 3 right. split_and!; [by eexists|done..].
  - split; [by apply Hkey|]. by left.
Qed.

End reconciliation.

(** ** Examples *)

Module Samples.
Import PlanningCoordinator.Samples.
#[local] Existing Instances ids sample_digest one_event.

Lemma keys_unique_list d :
  NoDup (map (λ '(_, p), (Planned.rule p, Planned.occurrence_key p)) (map_to_list (planned_events d))) → keys_unique d.
Proof.
  intros Hnd i j p q Hi%elem_of_map_to_list Hj%elem_of_map_to_list Hr Hk.
  apply list_elem_of_lookup in Hi as [m Hm]. apply list_elem_of_lookup in Hj as [n Hn].
  enough (m = n) as -> by congruence. eapply NoDup_lookup; [exact Hnd|by rewrite list_lookup_fmap, Hm|].
  rewrite list_lookup_fmap, Hn. cbn. by rewrite Hr, Hk.
Qed.

Lemma sample_ids_differ : Inj (=) (=) newId.
Proof. intros m n Heq. cbn in Heq. apply (inj (String.append "new-")), (inj pretty) in Heq. lia. Qed.

(** The Monday of the second meeting, which waits to be written, is taken. *)
Definition second_monday : SourceObservation :=
  {| source_event_ref := "monday"; source_occurrence_ref := ""; remote_revision := "1"; lifecycle := confirmed;
     origin := provider_original;
     timing := Some (timed "2026-11-02T06:00:00.000Z" "2026-11-02T20:00:00.000Z" "Autumn" "Autumn"); recurrence := None;
     availability := Some busy; relationship := {| role := organizer_role; response := accepted; response_note := None |};
     destination_identity_invited := false;
     content := {| summary := Some "Monday"; description := None; location := None; conference := None |};
     attendees := None; organizer := None; attachments := None; source_url := None; provider_metadata := None |}.

Definition taken_office : PlanningDb :=
  with_base (with_observations (λ t, <["monday" := observed second_monday]> t)) (db applied_run.2).
Definition taken_world := at_db taken_office applied_run.2.
Definition replanned_run := reconcile (λ _ d, d) (λ d, d) "o" "weekly" (october + 120000) taken_world.

Definition intent_of (id : string) (d : PlanningDb) : option Z := Planned.intent_sequence <$> planned_events d !! id.

Lemma taken_keys_unique : keys_unique taken_office.
Proof. apply keys_unique_list. apply (bool_decide_unpack _). vm_compute. done. Qed.

Lemma planned_changes_are_justified_witness :
  (intent_of "new-2" taken_office, intent_of "new-2" (db replanned_run.2)) = (Some 1, Some 2) ∧
  ∃ draft plan p p', planned_events taken_office !! "new-2" = Some p ∧ planned_events (db replanned_run.2) !! "new-2" = Some p' ∧
    same_event p p' ∧ (p' = p ∨ allowed_change "o" "weekly" draft plan (october + 120000) "new-2" p p').
Proof.
  assert (intent_of "new-2" taken_office = Some 1) as Hbefore by (vm_compute; reflexivity).
  assert (intent_of "new-2" (db replanned_run.2) = Some 2) as Hafter by (vm_compute; reflexivity).
  split; [rewrite Hbefore, Hafter; reflexivity|].
  destruct (planned_changes_are_justified (λ _ d, d) (λ d, d) "o" "weekly" (october + 120000) taken_world _ _
    taken_keys_unique (surjective_pairing _)) as [Hsame|[Hsame|(rule & draft & plan & _ & _ & _ & Hall)]].
  all: fold replanned_run in *.
  - exfalso. change (db replanned_run.2 = taken_office) in Hsame. rewrite Hsame, Hbefore in Hafter. discriminate Hafter.
  - exfalso. change (db replanned_run.2 = taken_office) in Hsame. rewrite Hsame, Hbefore in Hafter. discriminate Hafter.
  - destruct (planned_events taken_office !! "new-2") as [p|] eqn:Hp.
    + destruct (Hall "new-2" p Hp) as (p' & Hp' & Hsame & Hch). exists draft, plan, p, p'.
      split; [reflexivity|]. split; [exact Hp'|]. split; [exact Hsame|]. destruct Hch as [->|[_ Hch]]; [left; reflexivity|right; exact Hch].
    + exfalso. unfold intent_of in Hbefore. rewrite Hp in Hbefore. discriminate Hbefore.
Defined.

Lemma office_jobs_fresh : jobs_fresh 0 planned_office.
Proof. split; [exact sample_ids_differ|]. intros k _. reflexivity. Qed.

Lemma office_keys_unique : keys_unique planned_office.
Proof. apply keys_unique_list. constructor. Qed.


(** ** An accepted cancellation

    A suggestion to skip the first meeting was accepted, and its deletion waits
    to be applied: a reconciliation plans the meeting again, and the deletion is
    no longer the current intent. *)
Definition cancelled_office : PlanningDb :=
  with_planned (alter (λ p, intend None (Planned.intent_sequence p + 1) None Planned.pending_delete None
                               "suggestion_skip_accepted" None (october + 90000) p) "new-0") (db applied_run.2).
Definition cancelled_run := reconcile (λ _ d, d) (λ d, d) "o" "weekly" (october + 120000) (at_db cancelled_office applied_run.2).

Example cancelled_meeting_is_planned_again :
  ((λ p, (Planned.status p, Planned.intent_sequence p)) <$> planned_events cancelled_office !! "new-0") = Some (Planned.pending_delete, 2) ∧
  ((λ p, (Planned.status p, Planned.intent_sequence p)) <$> planned_events (db cancelled_run.2) !! "new-0") = Some (Planned.pending_update, 3).
Proof. split; vm_compute; reflexivity. Qed.
End Samples.
