(* ===== verification/PlanningService.v ===== *)
(** * Planning: the commands of the owner

    [server/src/planning/service.ts]: the preview of a planning rule, its
    activation, the decision on a suggested change, pause and resumption, the
    removal of a rule with the clean-up of its events, a requested plan. *)

From S2P Require Import Prelude Canonical Types Text Dates Temporal Hours PlanningDrafts Planning Jobs Transaction Policies Store PlanningStore PlanningInputs PlanningCoordinator PlanningReconcile.
From stdpp Require Import options.
Open Scope Z_scope.

Definition PREVIEW_LIFETIME : Z := 10 * 60000.

Record PlanningPreviewDocument := { preview_result : PlanningResult; preview_token : string; preview_expires_at : string }.

(** ** Rows *)

Definition preview_row (organization principalId : string) (draft : PlanningDraft) (draftHash snapshotHash : string)
    (result : PlanningResult) (now : Z) : PlanPreview.PreviewRow :=
  {| PlanPreview.organization := organization; PlanPreview.principal := principalId; PlanPreview.rule_kind := kind_of draft;
     PlanPreview.draft := draft_json draft; PlanPreview.draft_hash := draftHash; PlanPreview.snapshot_hash := snapshotHash;
     PlanPreview.result := result; PlanPreview.reference_at := now; PlanPreview.expires_at := now + PREVIEW_LIFETIME;
     PlanPreview.consumed_at := None |}.

Definition consume_plan_preview (now : Z) (p : PlanPreview.PreviewRow) : PlanPreview.PreviewRow :=
  {| PlanPreview.organization := PlanPreview.organization p; PlanPreview.principal := PlanPreview.principal p;
     PlanPreview.rule_kind := PlanPreview.rule_kind p; PlanPreview.draft := PlanPreview.draft p;
     PlanPreview.draft_hash := PlanPreview.draft_hash p; PlanPreview.snapshot_hash := PlanPreview.snapshot_hash p;
     PlanPreview.result := PlanPreview.result p; PlanPreview.reference_at := PlanPreview.reference_at p;
     PlanPreview.expires_at := PlanPreview.expires_at p; PlanPreview.consumed_at := Some now |}.

Definition activated_rule (organization principalId : string) (draft : PlanningDraft) (ruleHash : string) (now : Z)
    : PlanRule.RuleRow :=
  {| PlanRule.organization := organization; PlanRule.owner := principalId; PlanRule.kind := kind_of draft;
     PlanRule.name := name_of draft; PlanRule.target_calendar := target_of draft; PlanRule.status := PlanRule.active;
     PlanRule.revision := 1; PlanRule.document := draft_json draft; PlanRule.hash := ruleHash;
     PlanRule.last_planned_at := Some now; PlanRule.last_success_at := None; PlanRule.safe_error_code := None;
     PlanRule.updated_at := now |}.

(** Status and revision; the rest of the row stays. *)
Definition with_rule_status (status : PlanRule.RuleStatus) (revision : Z) (now : Z) (r : PlanRule.RuleRow) : PlanRule.RuleRow :=
  {| PlanRule.organization := PlanRule.organization r; PlanRule.owner := PlanRule.owner r; PlanRule.kind := PlanRule.kind r;
     PlanRule.name := PlanRule.name r; PlanRule.target_calendar := PlanRule.target_calendar r; PlanRule.status := status;
     PlanRule.revision := revision; PlanRule.document := PlanRule.document r; PlanRule.hash := PlanRule.hash r;
     PlanRule.last_planned_at := PlanRule.last_planned_at r; PlanRule.last_success_at := PlanRule.last_success_at r;
     PlanRule.safe_error_code := PlanRule.safe_error_code r; PlanRule.updated_at := now |}.

Definition with_suggestion_status (status : Suggestion.SuggestionStatus) (now : Z) (s : Suggestion.SuggestionRow)
    : Suggestion.SuggestionRow :=
  {| Suggestion.organization := Suggestion.organization s; Suggestion.rule := Suggestion.rule s;
     Suggestion.planned_event := Suggestion.planned_event s; Suggestion.kind := Suggestion.kind s;
     Suggestion.basis_hash := Suggestion.basis_hash s; Suggestion.proposed_state := Suggestion.proposed_state s;
     Suggestion.reason_code := Suggestion.reason_code s; Suggestion.status := status;
     Suggestion.expires_at := Suggestion.expires_at s; Suggestion.updated_at := now |}.

(** [update planning_suggestions set status = 'expired' where status = 'pending' and ...]. *)
Definition expire_pending (selects : string → Suggestion.SuggestionRow → bool) (now : Z)
    : gmap string Suggestion.SuggestionRow → gmap string Suggestion.SuggestionRow :=
  map_imap (λ id s, Some (if bool_decide (Suggestion.status s = Suggestion.pending) && selects id s
                          then with_suggestion_status Suggestion.expired now s else s)).

Definition suggestion_kind_text (k : Suggestion.SuggestionKind) : string :=
  match k with Suggestion.move => "move" | Suggestion.shorten => "shorten" | Suggestion.skip => "skip" end.

Section service.
Context {R : Type} `{NewId} `{Unicode} `{Digest} `{TimeZones} `{Temporal} `{Intl}.
Local Notation M := (Transaction.M PlanningDb R PlanningCall).

(** A fact of the owner. *)
Definition record_plan_fact (organization principalId action targetType target reason : string)
    (before after : option string) (detail : list (string * json)) (now : Z) : M () :=
  _ ← fresh_id;
  write_db (with_base (with_audit
    {| Audit.organization := organization; Audit.principal := Some principalId; Audit.actor_kind := "user";
       Audit.action := action; Audit.target_type := targetType; Audit.target := target; Audit.reason_code := reason;
       Audit.before_hash := before; Audit.after_hash := after; Audit.detail := detail; Audit.created_at := now |})).

(** ** Preview *)

Definition insert_plan_preview (id : string) (p : PlanPreview.PreviewRow) : M () :=
  taken ← read_db (λ d, bool_decide (is_Some (plan_previews d !! id)));
  if taken : bool then throw (unique_violation "planning_previews_pkey") else write_db (with_plan_previews (λ t, <[id := p]> t)).

(** [seen n]: what the n-th statement of [prepare] reads. *)
Definition preview (seen : nat → PlanningDb → PlanningDb) (organization principalId : string) (input : json) (now : Z)
    : M PlanningPreviewDocument :=
  draft ← lift (parse_plan input);
  prepared ← read_db (λ d, prepare (λ n, seen n d) organization draft now None);
  prepared ← lift prepared;
  result ← lift (engine_failure (planScheduling (prepared_input prepared)));
  id ← fresh_id;
  draftHash ← lift (hash (draft_json draft));
  _ ← insert_plan_preview id (preview_row organization principalId draft draftHash (prepared_snapshot prepared) result now);
  mret {| preview_result := result; preview_token := id; preview_expires_at := toISOString (now + PREVIEW_LIFETIME) |}.

(** ** Activation *)

Definition own_plan_preview (organization principalId previewId : string) (now : Z) (d : PlanningDb)
    : res failure PlanPreview.PreviewRow :=
  match plan_previews d !! previewId with
  | Some p =>
      if bool_decide (PlanPreview.organization p = organization) && bool_decide (PlanPreview.principal p = principalId)
         && bool_decide (PlanPreview.consumed_at p = None) && (now <? PlanPreview.expires_at p)
      then Ok p else Throw (plan_error "preview_stale")
  | None => Throw (plan_error "preview_stale")
  end.

(** A meeting that starts before it could be written. *)
Definition already_started (draft : PlanningDraft) (plan : PlanningResult) (now : Z) : bool :=
  bool_decide (kind_of draft = kind_meeting)
  && existsb (λ o, match Planning.planned_event o with
                   | Some e => match Date_parse (start (event_interval e)) with Some s => s <=? now | None => false end
                   | None => false
                   end) (occurrences plan).

Definition insert_plan_rule (id : string) (r : PlanRule.RuleRow) : M () :=
  taken ← read_db (λ d, bool_decide (is_Some (plan_rules d !! id)));
  if taken : bool then throw (unique_violation "planning_rules_pkey") else write_db (with_plan_rules (λ t, <[id := r]> t)).

Fixpoint insert_occurrences (organization ruleId : string) (draft : PlanningDraft) (now : Z)
    (occurrences : list PlannedOccurrenceTemplate) : M () :=
  match occurrences with
  | [] => mret ()
  | o :: occurrences =>
      _ ← insertOccurrence organization ruleId 1 draft now o;
      insert_occurrences organization ruleId draft now occurrences
  end.

Definition consume_preview_row (previewId : string) (now : Z) : M () :=
  row ← read_db (λ d, plan_previews d !! previewId);
  match row with
  | Some p => write_db (with_plan_previews (λ t, <[previewId := consume_plan_preview now p]> t))
  | None => throw no_result
  end.

(** The advisory lock of the target calendar is waited for before [prepare]
    reads: [seen] is what other transactions have committed until then. *)
Definition activate (seen : nat → PlanningDb → PlanningDb) (organization principalId previewId : string) (now : Z) : M string :=
  transaction (
    row ← read_db (own_plan_preview organization principalId previewId now);
    p ← lift row;
    draft ← lift (parse_plan (PlanPreview.draft p));
    prepared ← read_db (λ d, prepare (λ n, seen n d) organization draft (PlanPreview.reference_at p) None);
    prepared ← lift prepared;
    _ ← lift (require_plan (prepared_snapshot prepared =? PlanPreview.snapshot_hash p)%string "preview_stale");
    plan ← lift (engine_failure (planScheduling (prepared_input prepared)));
    _ ← lift (require_plan (negb (already_started draft plan now)) "preview_stale");
    ruleId ← fresh_id;
    ruleHash ← lift (hash (draft_json draft));
    _ ← insert_plan_rule ruleId (activated_rule organization principalId draft ruleHash now);
    _ ← insert_occurrences organization ruleId draft now (occurrences plan);
    _ ← consume_preview_row previewId now;
    _ ← record_plan_fact organization principalId "planning_rule.activated" "planning_rule" ruleId "preview_confirmed"
          None (Some ruleHash)
          [("kind", JString (kind_text (kind_of draft))); ("scheduled_count", int (Z.of_nat (scheduled_count plan)));
           ("unmet_count", int (Z.of_nat (unmet_count plan)))] now;
    mret ruleId).

(** ** Suggestions *)

Inductive Decision := accept | dismiss.

(** The join of a suggestion with its rule and its event. *)
Definition load_suggestion (organization suggestionId : string) (d : PlanningDb)
    : option (Suggestion.SuggestionRow * PlanRule.RuleRow * Planned.EventRow) :=
  s ← suggestions d !! suggestionId;
  r ← plan_rules d !! Suggestion.rule s;
  p ← planned_events d !! Suggestion.planned_event s;
  if bool_decide (Suggestion.organization s = organization) then Some (s, r, p) else None.

Definition set_suggestion (id : string) (f : Suggestion.SuggestionRow → Suggestion.SuggestionRow) : M () :=
  row ← read_db (λ d, suggestions d !! id);
  match row with
  | Some s => write_db (with_suggestions (λ t, <[id := f s]> t))
  | None => throw no_result
  end.

Definition optional_hash (h : option string) : json := match h with Some h => JString h | None => JNull end.

(** What is proposed is still what would be planned, for the event as it is. *)
Definition check_suggestion (seen : nat → PlanningDb → PlanningDb) (organization : string) (s : Suggestion.SuggestionRow)
    (r : PlanRule.RuleRow) (p : Planned.EventRow) (now : Z) (d : PlanningDb) : res failure () :=
  proposedHash ← match Suggestion.proposed_state s with Some e => Some <$> hash (managed_json e) | None => Ok None end;
  expectedBasis ← hash (JObject [("current", optional_hash (Planned.desired_hash p)); ("proposed", optional_hash proposedHash);
                                 ("revision", int (PlanRule.revision r))]);
  _ ← require_plan (expectedBasis =? Suggestion.basis_hash s)%string "suggestion_stale";
  draft ← parse_plan (PlanRule.document r);
  _ ← require_plan (negb (insideNoMoveWindow (Planned.desired_state p) now
                            (match meeting_of draft with Some m => lock_before_minutes m | None => 0 end))) "suggestion_stale";
  prepared ← prepareForReconcile (λ n, seen n d) organization draft now (Suggestion.rule s);
  plan ← engine_failure (planScheduling (prepared_input prepared));
  let latest := List.find (λ o, (occurrence_key o =? Planned.occurrence_key p)%string) (occurrences plan) in
  latestHash ← match latest ≫= Planning.planned_event with
               | Some e => Some <$> hash (managed_json (withProvenance e (PlanRule.kind r) (Suggestion.rule s)
                             (Suggestion.planned_event s) (Planned.occurrence_key p) (Planned.generation p) (Planned.intent_sequence p)))
               | None => Ok None
               end;
  require_plan (bool_decide (latestHash = proposedHash)) "suggestion_stale".

Definition accept_suggestion (organization suggestionId : string) (s : Suggestion.SuggestionRow) (p : Planned.EventRow) (now : Z)
    : M (option string) :=
  let intent := Planned.intent_sequence p + 1 in
  let id := Suggestion.planned_event s in
  written ← hashed ((λ e, withIntent e intent) <$> Suggestion.proposed_state s);
  _ ← set_event id (match written with
        | Some (e, _) => intend None intent written (if mapped p then Planned.pending_update else Planned.pending_create)
                           (Some (event_send_updates (template e))) "suggestion_accepted" None now
        | None => intend None intent None (if mapped p then Planned.pending_delete else Planned.skipped)
                    None "suggestion_skip_accepted" None now
        end);
  _ ← enqueue_apply organization id (":suggestion:" +:+ suggestionId) intent now;
  _ ← set_suggestion suggestionId (with_suggestion_status Suggestion.accepted now);
  _ ← write_db (with_suggestions (expire_pending (λ i q, bool_decide (Suggestion.planned_event q = id)
                                                         && negb (bool_decide (i = suggestionId))) now));
  mret (snd <$> written).

Definition resolveSuggestion (seen : nat → PlanningDb → PlanningDb) (organization principalId suggestionId : string)
    (decision : Decision) (now : Z) : M () :=
  transaction (
    row ← read_db (load_suggestion organization suggestionId);
    '(s, r, p) ← lift (otherwise row (plan_error "suggestion_stale"));
    _ ← lift (require_plan (bool_decide (Suggestion.status s = Suggestion.pending)) "suggestion_stale");
    _ ← lift (require_plan ((now <? Suggestion.expires_at s) && bool_decide (PlanRule.status r = PlanRule.active)) "suggestion_stale");
    auditedAfterHash ← match decision with
      | dismiss => _ ← set_suggestion suggestionId (with_suggestion_status Suggestion.dismissed now); mret (Planned.desired_hash p)
      | accept =>
          checked ← read_db (check_suggestion seen organization s r p now);
          _ ← lift checked;
          accept_suggestion organization suggestionId s p now
      end;
    record_plan_fact organization principalId
      (match decision with accept => "planning_suggestion.accepted" | dismiss => "planning_suggestion.dismissed" end)
      "planning_suggestion" suggestionId (Suggestion.reason_code s) (Planned.desired_hash p) auditedAfterHash
      [("kind", JString (suggestion_kind_text (Suggestion.kind s)))] now).

(** ** Pause and resumption *)

Definition load_plan_rule (organization ruleId : string) (live : PlanRule.RuleStatus → bool) (d : PlanningDb)
    : res failure PlanRule.RuleRow :=
  match plan_rules d !! ruleId with
  | Some r => if bool_decide (PlanRule.organization r = organization) && live (PlanRule.status r)
              then Ok r else Throw (plan_error "not_found")
  | None => Throw (plan_error "not_found")
  end.

Fixpoint resume_events (organization : string) (events : list (string * Planned.EventRow)) (now : Z) : M () :=
  match events with
  | [] => mret ()
  | (id, p) :: events =>
      _ ← enqueue_apply organization id (":resume:" +:+ pretty (Planned.intent_sequence p) +:+ ":" +:+ pretty now)
            (Planned.intent_sequence p) now;
      resume_events organization events now
  end.

Definition enqueue_plan (organization ruleId key : string) (now : Z) : M (option string) :=
  on_base (enqueue_job_id organization "reconcile_planning_rule" ("planning-rule:" +:+ ruleId +:+ key)
    [("rule_id", JString ruleId)] now).

Definition is_running (s : PlanRule.RuleStatus) : bool :=
  match s with PlanRule.active | PlanRule.paused => true | _ => false end.

Definition setPaused (organization principalId ruleId : string) (paused : bool) (now : Z) : M () :=
  transaction (
    row ← read_db (load_plan_rule organization ruleId is_running);
    rule ← lift row;
    _ ← set_plan_rule ruleId
          (with_rule_status (if paused then PlanRule.paused else PlanRule.active) (PlanRule.revision rule) now);
    _ ← (if paused then mret ()
         else
           _ ← enqueue_plan organization ruleId (":revision:" +:+ pretty (PlanRule.revision rule)) now;
           events ← read_db (events_of organization ruleId);
           resume_events organization (List.filter (λ '(_, p), is_pending (Planned.status p)) events) now);
    record_plan_fact organization principalId (if paused then "planning_rule.paused" else "planning_rule.resumed")
      "planning_rule" ruleId "user_command" (Some (PlanRule.hash rule)) (Some (PlanRule.hash rule))
      [("kind", JString "lifecycle")] now).

(** ** Removal *)

(** Whether the calendar may hold an event that is not over. *)
Definition needs_cleanup (p : Planned.EventRow) (now : Z) : bool :=
  let futureOrCurrent := match Planned.desired_state p ≫= event_end with Some e => now <? e | None => false end in
  let remoteMayExist := bool_decide (is_Some (Planned.destination_event p))
    || bool_decide (Planned.status p = Planned.pending_create) || bool_decide (Planned.status p = Planned.pending_update) in
  is_delete p || (futureOrCurrent && remoteMayExist).

Fixpoint remove_events (organization : string) (events : list (string * Planned.EventRow)) (cleanupCount now : Z) : M Z :=
  match events with
  | [] => mret cleanupCount
  | (id, p) :: events =>
      if needs_cleanup p now
      then
        let intent := Planned.intent_sequence p + 1 in
        _ ← set_event id (intend None intent None Planned.pending_delete None "rule_removed" None now);
        _ ← enqueue_apply organization id (":remove:" +:+ pretty intent) intent now;
        remove_events organization events (cleanupCount + 1) now
      else
        _ ← set_event id (retire Planned.deleted "rule_removed" (λ c, c) now);
        remove_events organization events cleanupCount now
  end.

Definition remove (organization principalId ruleId : string) (now : Z) : M () :=
  transaction (
    row ← read_db (load_plan_rule organization ruleId (λ s, negb (bool_decide (s = PlanRule.deleted))));
    rule ← lift row;
    _ ← set_plan_rule ruleId (with_rule_status PlanRule.deleting (PlanRule.revision rule + 1) now);
    _ ← write_db (with_suggestions (expire_pending (λ _ q, bool_decide (Suggestion.rule q = ruleId)) now));
    events ← read_db (events_of organization ruleId);
    cleanupCount ← remove_events organization events 0 now;
    _ ← (if cleanupCount =? 0
         then set_plan_rule ruleId (with_rule_status PlanRule.deleted (PlanRule.revision rule + 1) now) else mret ());
    record_plan_fact organization principalId
      (if cleanupCount =? 0 then "planning_rule.removed" else "planning_rule.removal_requested") "planning_rule" ruleId
      "user_command" (Some (PlanRule.hash rule)) None
      [("kind", JString (kind_text (PlanRule.kind rule))); ("managed_events", int (Z.of_nat (length events)));
       ("cleanup_pending", int cleanupCount)] now).

(** ** A requested plan *)

Definition requestReplan (organization ruleId : string) (now : Z) : M (option string) :=
  row ← read_db (load_plan_rule organization ruleId (λ s, bool_decide (s = PlanRule.active)));
  rule ← lift row;
  enqueue_plan organization ruleId (":revision:" +:+ pretty (PlanRule.revision rule) +:+ ":manual:" +:+ pretty now) now.
End service.

(** ** Activation: proofs *)

Section activation.
Context {R : Type} `{NewId} `{Unicode} `{Digest} `{TimeZones} `{Temporal} `{Intl}.
Implicit Types w : Transaction.World PlanningDb R PlanningCall.

Lemma require_plan_Ok condition code u : require_plan condition code = Ok u → condition = true.
Proof using Type. by destruct condition. Qed.

Lemma own_plan_preview_spec organization principalId previewId now d p :
  own_plan_preview organization principalId previewId now d = Ok p →
  plan_previews d !! previewId = Some p ∧ PlanPreview.organization p = organization ∧ PlanPreview.principal p = principalId ∧
  PlanPreview.consumed_at p = None ∧ now < PlanPreview.expires_at p.
Proof using Type.
  unfold own_plan_preview. destruct (plan_previews d !! previewId) as [q|]; [|done]. destruct (_ && _) eqn:Hown; [|done].
  intros [= ->]. by bool_to_prop.
Qed.

(** The plan as it was inserted: a new row for each occurrence. *)
Record plan_inserted (organization ruleId : string) (draft : PlanningDraft) (now : Z) (os : list PlannedOccurrenceTemplate)
    w w' : Prop := {
  inserted_steps : plan_steps w w';
  inserted_suggestions : suggestions (db w') = suggestions (db w);
  inserted_kept : ∀ id p, planned_events (db w) !! id = Some p → planned_events (db w') !! id = Some p;
  inserted_all : ∀ o, o ∈ os → ∃ id p, planned_events (db w) !! id = None ∧ planned_events (db w') !! id = Some p ∧
    row_change organization ruleId 1 draft now o id None p;
  inserted_only : ∀ id p, planned_events (db w) !! id = None → planned_events (db w') !! id = Some p →
    ∃ o, o ∈ os ∧ row_change organization ruleId 1 draft now o id None p ∧
      (ids_fresh w → awaits_write p → intent_waits organization id p (db w'));
}.

Lemma insertOccurrence_suggestions organization ruleId revision draft now o w u w' :
  insertOccurrence organization ruleId revision draft now o w = (Ok u, w') → suggestions (db w') = suggestions (db w).
Proof using Type.
  unfold insertOccurrence. intros Hrun. run_step Hrun as id w1 Hid. apply run_fresh in Hid as [-> ->].
  run_step Hrun as written w2 Hh. apply run_hashed in Hh as [_ ->]. run_step Hrun as u1 w2 Hi.
  apply run_insert_event in Hi as (_ & _ & ->). destruct written as [[e h]|]; [|by injection Hrun as _ <-].
  by apply run_enqueue_apply in Hrun as (_ & -> & _).
Qed.

Lemma insert_occurrences_run organization ruleId draft now os : ∀ w u w',
  insert_occurrences organization ruleId draft now os w = (Ok u, w') → plan_inserted organization ruleId draft now os w w'.
Proof using Type.
  induction os as [|o os IH]; intros w u w' Hrun.
  { injection Hrun as _ <-. split; [done..|by intros o ?%elem_of_nil|congruence]. }
  cbn in Hrun. run_step Hrun as u1 w1 Hi. pose proof (insertOccurrence_suggestions _ _ _ _ _ _ _ _ _ Hi) as Hsg1.
  apply insertOccurrence_run in Hi as (id & p & Hnone & Hch & [Hev Hst Hw]). apply IH in Hrun as [Hst' Hsg Hkept Hall Honly].
  assert (∀ i q, planned_events (db w) !! i = Some q → planned_events (db w1) !! i = Some q) as Hk1.
  { intros i q Hi. rewrite Hev, lookup_insert_ne; [done|]. intros <-. congruence. }
  assert (planned_events (db w') !! id = Some p) as Hp by (apply Hkept; rewrite Hev; apply lookup_insert_eq).
  split.
  - by etrans.
  - by rewrite Hsg.
  - auto.
  - intros o' [->|Ho]%elem_of_cons; [by exists id, p|]. destruct (Hall o' Ho) as (i & q & Hi & Hq & Hc). exists i, q.
    split_and!; [|done..]. destruct (planned_events (db w) !! i) as [q'|] eqn:Hq'; [|done]. apply Hk1 in Hq'. congruence.
  - intros i q Hi Hq. destruct (decide (i = id)) as [->|Hne].
    + rewrite Hp in Hq. injection Hq as <-. exists o. split; [by left|]. split; [done|]. intros Hfr Haw.
      eapply apply_waits_frame; [apply Hst'|]. exact (Hw Hfr Haw).
    + destruct (Honly i q) as (o' & Ho & Hc & Hwq); [by rewrite Hev, lookup_insert_ne|done|]. exists o'.
      split; [by right|]. split; [done|]. intros Hfr. apply Hwq, Hst, Hfr.
Qed.

Lemma run_record_plan_fact organization principalId action targetType target reason before after detail now w u w' :
  record_plan_fact organization principalId action targetType target reason before after detail now w = (Ok u, w') →
  plan_rules (db w') = plan_rules (db w) ∧ plan_previews (db w') = plan_previews (db w) ∧
  planned_events (db w') = planned_events (db w) ∧ suggestions (db w') = suggestions (db w) ∧
  (∃ fact, base (db w') = with_audit fact (base (db w))) ∧ calls w' = calls w.
Proof using Type.
  unfold record_plan_fact. intros Hrun. run_step Hrun as i w1 Hi. apply run_fresh in Hi as [-> ->].
  apply run_write in Hrun as ->. cbn. split_and!; try done. by eexists.
Qed.

(** A job keeps waiting whatever fact is recorded. *)
Lemma apply_waits_audit organization id key fact d d' :
  base d' = with_audit fact (base d) → apply_waits organization id key d → apply_waits organization id key d'.
Proof using Type. intros Hb. unfold apply_waits, job_waits. by rewrite Hb. Qed.

(** What an activation leaves. *)
Record rule_activated (organization principalId previewId ruleId : string) (p : PlanPreview.PreviewRow) (draft : PlanningDraft)
    (plan : PlanningResult) (now : Z) (fresh : Prop) (d d' : PlanningDb) : Prop := {
  activated_rules : plan_rules d !! ruleId = None ∧
    ∃ ruleHash, hash (draft_json draft) = Ok ruleHash ∧
      plan_rules d' = <[ruleId := activated_rule organization principalId draft ruleHash now]> (plan_rules d);
  activated_previews : plan_previews d' = <[previewId := consume_plan_preview now p]> (plan_previews d);
  activated_suggestions : suggestions d' = suggestions d;
  activated_kept : ∀ id q, planned_events d !! id = Some q → planned_events d' !! id = Some q;
  activated_all : ∀ o, o ∈ occurrences plan → ∃ id q, planned_events d !! id = None ∧ planned_events d' !! id = Some q ∧
    row_change organization ruleId 1 draft now o id None q;
  activated_only : ∀ id q, planned_events d !! id = None → planned_events d' !! id = Some q →
    ∃ o, o ∈ occurrences plan ∧ row_change organization ruleId 1 draft now o id None q ∧
      (fresh → awaits_write q → intent_waits organization id q d');
}.

(** A preview that its owner may still use. *)
Definition usable_preview (organization principalId previewId : string) (now : Z) (d : PlanningDb) (p : PlanPreview.PreviewRow)
    : Prop :=
  plan_previews d !! previewId = Some p ∧ PlanPreview.organization p = organization ∧ PlanPreview.principal p = principalId ∧
  PlanPreview.consumed_at p = None ∧ now < PlanPreview.expires_at p.

(** The plan of a preview, as it comes out now: the snapshot is the one of the preview. *)
Definition foretold (seen : nat → PlanningDb → PlanningDb) (organization : string) (p : PlanPreview.PreviewRow) (d : PlanningDb)
    (draft : PlanningDraft) (plan : PlanningResult) : Prop :=
  parse_plan (PlanPreview.draft p) = Ok draft ∧
  ∃ prepared, prepare (λ n, seen n d) organization draft (PlanPreview.reference_at p) None = Ok prepared ∧
    prepared_snapshot prepared = PlanPreview.snapshot_hash p ∧ engine_failure (planScheduling (prepared_input prepared)) = Ok plan.

Lemma already_started_false draft plan now :
  already_started draft plan now = false → kind_of draft = kind_meeting →
  ∀ o e s, o ∈ occurrences plan → Planning.planned_event o = Some e → Date_parse (start (event_interval e)) = Some s → now < s.
Proof using Type.
  unfold already_started. intros Hno Hk o e s Ho He Hs. rewrite bool_decide_eq_true_2 in Hno by done. cbn [andb] in Hno.
  assert (¬ (s <= now)); [|lia]. intros Hle. apply not_true_iff_false in Hno. apply Hno. apply existsb_exists. exists o.
  split; [by apply list_elem_of_In|]. rewrite He. cbn beta iota. rewrite Hs. lia.
Qed.

(** C35. A planning rule becomes active only as it was previewed: an activation
    that throws changes nothing; one that returns has used the unused and
    unexpired preview of the same person, whose snapshot is the one prepared
    now, and no meeting of the plan has started. The rule is new and the preview
    used up; each occurrence of the plan has one new row, each new row waits with
    a job if it has an event, and the other rows stay. *)
Theorem planning_activation_is_confirmed seen organization principalId previewId now w r w' :
  activate seen organization principalId previewId now w = (r, w') →
  (∃ e, r = Throw e ∧ db w' = db w) ∨
  ∃ ruleId p draft plan, r = Ok ruleId ∧ usable_preview organization principalId previewId now (db w) p ∧
    foretold seen organization p (db w) draft plan ∧
    (kind_of draft = kind_meeting → ∀ o e s, o ∈ occurrences plan → Planning.planned_event o = Some e →
       Date_parse (start (event_interval e)) = Some s → now < s) ∧
    rule_activated organization principalId previewId ruleId p draft plan now (ids_fresh w) (db w) (db w').
Proof using Type.
  intros Hrun. destruct r as [ruleId|e]; [right|left; exists e; split; [done|by eapply transaction_throws]].
  apply run_transaction in Hrun. run_step Hrun as row w1 Hr. apply run_read in Hr as [-> ->].
  run_step Hrun as p w1 Hp. apply run_lift in Hp as [Hp ->]. apply own_plan_preview_spec in Hp.
  run_step Hrun as draft w1 Hd. apply run_lift in Hd as [Hd ->]. run_step Hrun as prep w1 Hr. apply run_read in Hr as [-> ->].
  run_step Hrun as prepared w1 Hpr. apply run_lift in Hpr as [Hpr ->]. run_step Hrun as u1 w1 Hs.
  apply run_lift in Hs as [Hs%require_plan_Ok%String.eqb_eq ->]. run_step Hrun as plan w1 Hpl. apply run_lift in Hpl as [Hpl ->].
  run_step Hrun as u2 w1 Ha. apply run_lift in Ha as [Ha%require_plan_Ok%negb_true_iff ->].
  run_step Hrun as id w1 Hid. apply run_fresh in Hid as [-> ->]. set (w1 := {| db := db w; remote := _; calls := _; issued := _ |}) in *.
  assert (plan_steps w w1) as Hst1 by (by apply plan_steps_issued).
  run_step Hrun as ruleHash w2 Hh. apply run_lift in Hh as [Hh ->]. run_step Hrun as u3 w2 Hi.
  unfold insert_plan_rule in Hi. run_step Hi as taken w3 Hr. apply run_read in Hr as [-> ->]. cbn in Hi.
  case_bool_decide as Hnew; [done|]. apply run_write in Hi as ->. apply eq_None_not_Some in Hnew.
  set (w2 := at_db _ w1) in *. run_step Hrun as u4 w3 Hos. apply insert_occurrences_run in Hos as [Hst3 Hsg Hkept Hall Honly].
  run_step Hrun as u5 w4 Hc. unfold consume_preview_row in Hc. run_step Hc as row w5 Hr. apply run_read in Hr as [-> ->].
  pose proof (proj1 Hst3) as [Hrules Hpre _].
  assert (plan_previews (db w3) = plan_previews (db w)) as Hpre' by done. rewrite Hpre', (proj1 Hp) in Hc. apply run_write in Hc as ->.
  run_step Hrun as u6 w5 Hf. apply run_record_plan_fact in Hf as (Hf1 & Hf2 & Hf3 & Hf4 & (fact & Hf5) & _).
  injection Hrun as <- <-. cbn [at_db db with_plan_previews plan_rules plan_previews planned_events suggestions base] in Hf1, Hf2, Hf3, Hf4, Hf5.
  exists (newId (issued w)), p, draft, plan. split_and!; [done|exact Hp|by split; [|exists prepared]|by apply already_started_false|].
  split.
  - split; [done|]. exists ruleHash. split; [done|]. by rewrite Hf1, Hrules.
  - by rewrite Hf2, Hpre'.
  - by rewrite Hf4, Hsg.
  - intros i q Hq. rewrite Hf3. by apply Hkept.
  - intros o Ho. rewrite Hf3. exact (Hall o Ho).
  - intros i q Hi Hq. rewrite Hf3 in Hq. destruct (Honly i q Hi Hq) as (o & Ho & Hc & Hw). exists o. split; [done|]. split; [done|].
    intros Hfr Haw. eapply apply_waits_audit; [exact Hf5|]. apply Hw; [|done]. destruct (proj2 Hst1 Hfr) as [Hinj Hj]. by split.
Qed.
End activation.

(** ** Removal: proofs *)

Section removal.
Context {R : Type} `{NewId} `{Unicode} `{Digest} `{TimeZones} `{Temporal} `{Intl}.
Implicit Types w : Transaction.World PlanningDb R PlanningCall.

(** The calendar may hold the event, and it is not over. *)
Definition may_be_held (p : Planned.EventRow) (now : Z) : Prop :=
  Planned.status p = Planned.pending_delete ∨
  ((∃ e, Planned.desired_state p ≫= event_end = Some e ∧ now < e) ∧
   (is_Some (Planned.destination_event p) ∨ Planned.status p = Planned.pending_create ∨ Planned.status p = Planned.pending_update)).

Lemma needs_cleanup_spec p now : needs_cleanup p now = true ↔ may_be_held p now.
Proof using Type.
  unfold needs_cleanup, may_be_held, is_delete. rewrite orb_true_iff, andb_true_iff, !orb_true_iff, !bool_decide_eq_true.
  assert (match Planned.desired_state p ≫= event_end with Some e => now <? e | None => false end = true ↔
          ∃ e, Planned.desired_state p ≫= event_end = Some e ∧ now < e) as ->; [|tauto].
  destruct (_ ≫= event_end) as [e|]; split.
  - intros Hlt%Z.ltb_lt. by exists e.
  - intros (e' & [= <-] & Hlt). by apply Z.ltb_lt.
  - done.
  - by intros (e' & ? & _).
Qed.

Lemma load_plan_rule_spec organization ruleId live d rule :
  load_plan_rule organization ruleId live d = Ok rule →
  plan_rules d !! ruleId = Some rule ∧ PlanRule.organization rule = organization ∧ live (PlanRule.status rule) = true.
Proof using Type.
  unfold load_plan_rule. destruct (plan_rules d !! ruleId) as [q|]; [|done]. destruct (_ && _) eqn:Hown; [|done].
  intros [= ->]. bool_to_prop. done.
Qed.

(** A suggestion that is selected is not pending any more. *)
Lemma expire_pending_spec selects now t i s :
  expire_pending selects now t !! i = Some s →
  ∃ s0, t !! i = Some s0 ∧ Suggestion.rule s = Suggestion.rule s0 ∧ Suggestion.planned_event s = Suggestion.planned_event s0 ∧
    (selects i s0 = true → Suggestion.status s ≠ Suggestion.pending) ∧ (selects i s0 = false → s = s0).
Proof using Type.
  unfold expire_pending. rewrite map_lookup_imap. destruct (t !! i) as [s0|]; [|done]. cbn. intros [= <-]. exists s0.
  split; [done|]. case_bool_decide as Hp; destruct (selects i s0) eqn:Hs; cbn; by split_and!.
Qed.

(** A row of a rule that is removed. *)
Inductive row_cleaned (organization : string) (now : Z) (fresh : Prop) (d' : PlanningDb) (id : string) (p p' : Planned.EventRow) : Prop :=
| cleaned :
    may_be_held p now → Planned.status p' = Planned.pending_delete →
    Planned.intent_sequence p' = Planned.intent_sequence p + 1 → Planned.safe_error_code p' = None →
    (fresh → apply_waits organization id (":remove:" +:+ pretty (Planned.intent_sequence p')) d') →
    row_cleaned organization now fresh d' id p p'
| dropped :
    ¬ may_be_held p now → Planned.status p' = Planned.deleted → Planned.intent_sequence p' = Planned.intent_sequence p →
    row_cleaned organization now fresh d' id p p'.

Definition row_removal (organization : string) (now : Z) (fresh : Prop) (d d' : PlanningDb) (id : string) (p : Planned.EventRow)
    : Prop :=
  ∃ p', planned_events d' !! id = Some p' ∧ same_event p p' ∧ Planned.desired_state p' = None ∧
    row_cleaned organization now fresh d' id p p'.

Record events_cleaned (organization : string) (now : Z) (rows : list (string * Planned.EventRow)) (count count' : Z) w w' : Prop := {
  cleaned_steps : plan_steps w w';
  cleaned_suggestions : suggestions (db w') = suggestions (db w);
  cleaned_rows : ∀ id p, (id, p) ∈ rows → row_removal organization now (ids_fresh w) (db w) (db w') id p;
  cleaned_only : ∀ id, id ∉ rows.*1 → planned_events (db w') !! id = planned_events (db w) !! id;
  cleaned_count : count <= count' ∧ (count' = count ↔ ∀ id p, (id, p) ∈ rows → ¬ may_be_held p now);
}.

Lemma row_cleaned_frame organization now (fresh fresh' : Prop) d d' id p p' :
  (fresh' → fresh) → plan_frame d d' → row_cleaned organization now fresh d id p p' → row_cleaned organization now fresh' d' id p p'.
Proof using Type.
  intros Hfr Hf [Hm Hs Hi Hc Hw|Hm Hs Hi]; [|by apply dropped]. apply cleaned; [done..|]. intros Hfresh.
  eapply apply_waits_frame; [exact Hf|]. auto.
Qed.

Lemma remove_events_run organization now rows : ∀ count w count' w',
  (∀ id p, (id, p) ∈ rows → planned_events (db w) !! id = Some p) → NoDup rows.*1 →
  remove_events organization rows count now w = (Ok count', w') → events_cleaned organization now rows count count' w w'.
Proof using Type.
  induction rows as [|[id p] rows IH]; intros count w count' w' Hcur Hnd Hrun.
  { injection Hrun as <- <-. split; [done|done|by intros ?? ?%elem_of_nil|done|]. split; [done|].
    split; [|done]. by intros _ ?? ?%elem_of_nil. }
  cbn in Hnd. apply NoDup_cons in Hnd as [Hnew Hnd].
  assert (planned_events (db w) !! id = Some p) as Hp by (apply Hcur; by left).
  assert (∀ i q, (i, q) ∈ rows → i ≠ id) as Hne.
  { intros i q Hin ->. apply Hnew. apply list_elem_of_fmap. by exists (id, q). }
  assert (∀ p' c w1, planned_events (db w1) = <[id := p']> (planned_events (db w)) → suggestions (db w1) = suggestions (db w) →
    plan_steps w w1 → same_event p p' → Planned.desired_state p' = None → row_cleaned organization now (ids_fresh w) (db w1) id p p' →
    count <= c ∧ (c = count ↔ ¬ may_be_held p now) → remove_events organization rows c now w1 = (Ok count', w') →
    events_cleaned organization now ((id, p) :: rows) count count' w w') as Hcons.
  { intros p' c w1 Hev Hsg Hst Hsame Hdes Hclean [Hle Hc] Hrest. apply IH in Hrest as [Hst' Hsg' Hrows Honly [Hle' Hc']]; [| |done].
    2: { intros i q Hin. rewrite Hev, lookup_insert_ne by (by apply not_eq_sym, (Hne i q)). apply Hcur. by right. }
    split.
    - by etrans.
    - by rewrite Hsg'.
    - intros i q [[= -> ->]|Hin]%elem_of_cons.
      + exists p'. rewrite (Honly id Hnew), Hev. split_and!; [apply lookup_insert_eq|done|done|].
        eapply row_cleaned_frame; [|apply Hst'|exact Hclean]. done.
      + destruct (Hrows i q Hin) as (q' & Hq' & Hs & Hd & Hcl). exists q'. split_and!; [done..|].
        eapply row_cleaned_frame; [|done|exact Hcl]. apply Hst.
    - intros i Hi. cbn in Hi. apply not_elem_of_cons in Hi as [Hi1 Hi2]. by rewrite (Honly i Hi2), Hev, lookup_insert_ne.
    - split; [lia|]. split.
      + intros Heq i q [[= -> ->]|Hin]%elem_of_cons; [apply Hc; lia|]. eapply Hc'; [lia|exact Hin].
      + intros Hno. assert (c = count) as Hcc by (apply Hc; eapply Hno; by left). rewrite <-Hcc. apply Hc'.
        intros i q Hin. eapply Hno. by right. }
  cbn [remove_events] in Hrun. pose proof (needs_cleanup_spec p now) as Hspec. destruct (needs_cleanup p now).
  - run_step Hrun as u1 w1 Hs. apply run_set_event in Hs as (q & Hq & _ & ->). rewrite Hp in Hq. injection Hq as <-.
    run_step Hrun as u2 w2 He. apply run_enqueue_apply in He as (Hev & Hsg & Hst & Hw). cbn in Hev, Hsg.
    assert (plan_steps w (at_db (with_planned (λ t, <[id := intend None (Planned.intent_sequence p + 1) None Planned.pending_delete
      None "rule_removed" None now p]> t) (db w)) w)) as Hst0 by (by apply plan_steps_write).
    eapply Hcons; [exact Hev|exact Hsg|by etrans|done|done| | |exact Hrun].
    + apply cleaned; [by apply Hspec|done..|]. intros Hfr. apply Hw, Hst0, Hfr.
    + split; [lia|]. split; [lia|]. intros Hno. exfalso. by apply Hno, Hspec.
  - run_step Hrun as u1 w1 Hs. apply run_set_event in Hs as (q & Hq & _ & ->). rewrite Hp in Hq. injection Hq as <-.
    assert (¬ may_be_held p now) as Hno by (by intros ?%Hspec).
    eapply Hcons; [| | | | | | |exact Hrun]; try done; [by apply plan_steps_write|by apply dropped].
Qed.

(** A rule that is not active: its events are deleted, and never written. *)
Definition writes_event (c : PlanningCall) : bool :=
  match c with CreatePlanningEvent _ _ _ _ | UpdatePlanningEvent _ _ _ _ _ => true | _ => false end.

Lemma stopped_rule_only_deletes `{PlanningProvider R} writes organization id intent now w r w' p rule :
  planned_events (db w) !! id = Some p → check_event p = true → plan_rules (db w) !! Planned.rule p = Some rule →
  PlanRule.status rule ≠ PlanRule.active → apply writes organization id intent now w = (r, w') →
  ∃ cs, calls w' = calls w ++ cs ∧ Forall (λ c, writes_event c = false) cs.
Proof using Type.
  intros Hp Hcheck Hrule Hstop Hrun.
  destruct (wp_run _ _ _ _ _ (planned_apply_wp writes organization id intent now w
    ltac:(intros q Hq; rewrite Hp in Hq; injection Hq as <-; exact Hcheck)) Hrun)
    as [[_ Hcalls]|(t & cs & outcome & _ & Hload & Hint & _ & Hcalls & [Hjust _ _ _ _] & _)].
  { exists []. by rewrite app_nil_r. }
  exists cs. split; [done|]. apply is_intended_spec in Hint as (Hwhy & _ & _).
  pose proof (loaded_event _ _ _ _ Hload) as Hev. rewrite Hp in Hev. injection Hev as Hev.
  pose proof (loaded_rule _ _ _ _ Hload) as Hr. rewrite <-Hev, Hrule in Hr. injection Hr as Hr.
  assert (is_delete (target_event t) = true) as Hdel.
  { destruct Hwhy as [Hact|Hdel]; [|by apply bool_decide_eq_true]. congruence. }
  destruct Hjust as [->|(answer & [->|(c & -> & Hj)])]; [by constructor|by repeat constructor|].
  constructor; [done|]. constructor; [|done]. by destruct Hj; [|congruence..].
Qed.

Lemma held_row_exists organization ruleId now d :
  (∀ id p, (id, p) ∈ events_of organization ruleId d → ¬ may_be_held p now) ∨
  ∃ id p, planned_events d !! id = Some p ∧ of_rule organization ruleId p ∧ may_be_held p now.
Proof using Type.
  destruct (existsb (λ '(_, p), needs_cleanup p now) (events_of organization ruleId d)) eqn:Hex.
  - apply existsb_exists in Hex as ([id p] & Hin%list_elem_of_In%elem_of_events_of & Hneeds%needs_cleanup_spec). right.
    exists id, p. tauto.
  - left. intros id p Hin Hm%needs_cleanup_spec. apply not_true_iff_false in Hex. apply Hex.
    apply existsb_exists. exists (id, p). split; [by apply list_elem_of_In|done].
Qed.

(** What a removal leaves. *)
Record rule_removed (organization ruleId : string) (now : Z) (fresh : Prop) (d d' : PlanningDb) : Prop := {
  removed_rule : ∃ rule status, plan_rules d !! ruleId = Some rule ∧ PlanRule.organization rule = organization ∧
    PlanRule.status rule ≠ PlanRule.deleted ∧
    plan_rules d' = <[ruleId := with_rule_status status (PlanRule.revision rule + 1) now rule]> (plan_rules d) ∧
    ((status = PlanRule.deleting ∧ ∃ id p, planned_events d !! id = Some p ∧ of_rule organization ruleId p ∧ may_be_held p now) ∨
     (status = PlanRule.deleted ∧ ∀ id p, planned_events d !! id = Some p → of_rule organization ruleId p → ¬ may_be_held p now));
  removed_events : ∀ id p, planned_events d !! id = Some p → of_rule organization ruleId p → row_removal organization now fresh d d' id p;
  removed_others : ∀ id, (∀ p, planned_events d !! id = Some p → ¬ of_rule organization ruleId p) →
    planned_events d' !! id = planned_events d !! id;
  removed_suggestions : ∀ i s, suggestions d' !! i = Some s → Suggestion.rule s = ruleId → Suggestion.status s ≠ Suggestion.pending;
}.

Lemma remove_run organization principalId ruleId now w w' :
  remove organization principalId ruleId now w = (Ok (), w') → rule_removed organization ruleId now (ids_fresh w) (db w) (db w').
Proof using Type.
  intros Hrun.
  apply run_transaction in Hrun. run_step Hrun as row w1 Hr. apply run_read in Hr as [-> ->].
  run_step Hrun as rule w1 Hl. apply run_lift in Hl as [Hrule ->]. apply load_plan_rule_spec in Hrule as (Hrule & Horg & Hlive).
  apply negb_true_iff, bool_decide_eq_false in Hlive.
  run_step Hrun as u1 w1 Hs. apply run_set_plan_rule in Hs as (rule' & Hrule' & ->). rewrite Hrule in Hrule'. injection Hrule' as <-.
  run_step Hrun as u2 w1 Hs. apply run_write in Hs as ->. run_step Hrun as events w1 Hr. apply run_read in Hr as [-> ->].
  cbn [at_db db with_suggestions with_plan_rules] in Hrun. set (w1 := at_db _ (at_db _ w)) in Hrun.
  change (events_of organization ruleId _) with (events_of organization ruleId (db w)) in Hrun.
  run_step Hrun as count w2 Hev. apply remove_events_run in Hev as [Hst Hsg Hrows Honly [Hle Hcount]];
    [|by intros id p [? _]%elem_of_events_of|apply events_of_ids].
  set (next := if count =? 0 then PlanRule.deleted else PlanRule.deleting).
  run_step Hrun as u3 w3 Hlast. apply run_record_plan_fact in Hrun as (Hf1 & _ & Hf3 & Hf4 & (fact & Hf5) & _).
  assert (base (db w3) = base (db w2) ∧ planned_events (db w3) = planned_events (db w2) ∧ suggestions (db w3) = suggestions (db w2) ∧
    plan_rules (db w3) = <[ruleId := with_rule_status next (PlanRule.revision rule + 1) now rule]> (plan_rules (db w)))
    as (Hb3 & He3 & Hs3 & Hr3).
  { pose proof (proj1 Hst) as [Hrules _ _]. cbn in Hrules. subst next. destruct (count =? 0).
    - apply run_set_plan_rule in Hlast as (r' & Hr' & ->). rewrite Hrules, lookup_insert_eq in Hr'. injection Hr' as <-. cbn.
      by rewrite Hrules, insert_insert_eq.
    - by injection Hlast as _ <-. }
  clear Hlast. rewrite He3 in Hf3. rewrite Hs3, Hsg in Hf4. rewrite Hr3 in Hf1. rewrite Hb3 in Hf5.
  assert (∀ id p, planned_events (db w) !! id = Some p → of_rule organization ruleId p →
    row_removal organization now (ids_fresh w) (db w) (db w') id p) as Hremoval.
  { intros id p Hp Hof. destruct (Hrows id p) as (p' & Hp' & Hsame & Hdes & Hcl); [by apply elem_of_events_of|]. exists p'.
    rewrite Hf3. split_and!; [done..|]. destruct Hcl as [Hm Hps Hi Hc Hw|Hm Hps Hi]; [|by apply dropped].
    apply cleaned; [done..|]. intros Hfr. eapply apply_waits_audit; [exact Hf5|]. by apply Hw. }
  split; [|exact Hremoval| |].
  - exists rule, next. split_and!; [done..|]. subst next. destruct (Z.eqb_spec count 0) as [Hz|Hz]; [right|left]; split; try done.
    + intros id p Hp Hof. apply Hcount with (id := id); [done|by apply elem_of_events_of].
    + destruct (held_row_exists organization ruleId now (db w)) as [Hno|Hyes]; [|exact Hyes]. exfalso. by apply Hz, Hcount.
  - intros id Hno. rewrite Hf3. apply Honly. intros Hin. apply list_elem_of_fmap in Hin as ([i q] & -> & Hin).
    apply elem_of_events_of in Hin as [Hq Hof]. by apply (Hno q).
  - intros i q Hq Hof. rewrite Hf4 in Hq. apply expire_pending_spec in Hq as (q0 & _ & Hr0 & _ & Hsel & _).
    apply Hsel. apply bool_decide_eq_true. congruence.
Qed.

End removal.

(** ** Suggestions: proofs *)

Section decisions.
Context {R : Type} `{NewId} `{Unicode} `{Digest} `{TimeZones} `{Temporal} `{Intl}.
Implicit Types w : Transaction.World PlanningDb R PlanningCall.

(** The hash of what is wanted, or that nothing is. *)
Definition hash_of (desired : option ManagedPlanningEvent) : res failure (option string) :=
  match desired with Some e => Some <$> hash (managed_json e) | None => Ok None end.

(** A suggestion its owner may still decide on, with its rule and its event. *)
Definition open_suggestion (organization suggestionId : string) (now : Z) (d : PlanningDb) (s : Suggestion.SuggestionRow)
    (rule : PlanRule.RuleRow) (p : Planned.EventRow) : Prop :=
  suggestions d !! suggestionId = Some s ∧ plan_rules d !! Suggestion.rule s = Some rule ∧
  planned_events d !! Suggestion.planned_event s = Some p ∧ Suggestion.organization s = organization ∧
  Suggestion.status s = Suggestion.pending ∧ now < Suggestion.expires_at s ∧ PlanRule.status rule = PlanRule.active.

(** What the plan of the moment wants for the event. *)
Definition wanted_now (s : Suggestion.SuggestionRow) (rule : PlanRule.RuleRow) (p : Planned.EventRow) (plan : PlanningResult)
    : option ManagedPlanningEvent :=
  (λ e, withProvenance e (PlanRule.kind rule) (Suggestion.rule s) (Suggestion.planned_event s) (Planned.occurrence_key p)
          (Planned.generation p) (Planned.intent_sequence p))
    <$> (List.find (λ o, (occurrence_key o =? Planned.occurrence_key p)%string) (occurrences plan) ≫= Planning.planned_event).

(** The proposal is about the event as it is, is not too late, and is what is planned now. *)
Definition still_proposed (seen : nat → PlanningDb → PlanningDb) (organization : string) (s : Suggestion.SuggestionRow)
    (rule : PlanRule.RuleRow) (p : Planned.EventRow) (now : Z) (d : PlanningDb) : Prop :=
  ∃ draft rolled plan h, parse_plan (PlanRule.document rule) = Ok draft ∧
    insideNoMoveWindow (Planned.desired_state p) now
      (match meeting_of draft with Some m => lock_before_minutes m | None => 0 end) = false ∧
    plan_of seen organization (Suggestion.rule s) rule now d = Ok (rolled, plan) ∧
    hash_of (Suggestion.proposed_state s) = Ok h ∧ hash_of (wanted_now s rule p plan) = Ok h ∧
    hash (JObject [("current", optional_hash (Planned.desired_hash p)); ("proposed", optional_hash h);
                   ("revision", int (PlanRule.revision rule))]) = Ok (Suggestion.basis_hash s).

Lemma check_suggestion_spec seen organization s rule p now d u :
  check_suggestion seen organization s rule p now d = Ok u → still_proposed seen organization s rule p now d.
Proof using Type.
  unfold check_suggestion. intros (h & Hh & Hrun)%bind_Ok_inv. apply bind_Ok_inv in Hrun as (basis & Hb & Hrun).
  apply bind_Ok_inv in Hrun as (u1 & Hsame%require_plan_Ok%String.eqb_eq & Hrun). subst basis.
  apply bind_Ok_inv in Hrun as (draft & Hd & Hrun). apply bind_Ok_inv in Hrun as (u2 & Hw%require_plan_Ok%negb_true_iff & Hrun).
  apply bind_Ok_inv in Hrun as (prepared & Hp & Hrun). apply bind_Ok_inv in Hrun as (plan & Hpl & Hrun).
  apply bind_Ok_inv in Hrun as (h' & Hh' & Hrun). apply require_plan_Ok, bool_decide_eq_true in Hrun. subst h'.
  exists draft, (Planning.draft (prepared_input prepared)), plan, h. split_and!; try done.
  - unfold plan_of. cbv [mbind res_bind]. by rewrite Hd, Hp, Hpl.
  - unfold wanted_now. by destruct (_ ≫= Planning.planned_event).
Qed.

(** The event takes the proposal, under a new intent that a job applies. *)
Record proposal_taken (organization suggestionId : string) (now : Z) (fresh : Prop) (s : Suggestion.SuggestionRow)
    (p : Planned.EventRow) (d d' : PlanningDb) : Prop := {
  taken_event : ∃ p', planned_events d' = <[Suggestion.planned_event s := p']> (planned_events d) ∧ same_event p p' ∧
    Planned.intent_sequence p' = Planned.intent_sequence p + 1 ∧
    Planned.desired_state p' = (λ e, withIntent e (Planned.intent_sequence p + 1)) <$> Suggestion.proposed_state s ∧
    Planned.status p' = match Suggestion.proposed_state s with
      | Some _ => if mapped p then Planned.pending_update else Planned.pending_create
      | None => if mapped p then Planned.pending_delete else Planned.skipped
      end ∧
    (fresh → apply_waits organization (Suggestion.planned_event s) (":suggestion:" +:+ suggestionId) d');
  taken_suggestion : suggestions d' !! suggestionId = Some (with_suggestion_status Suggestion.accepted now s);
  taken_siblings : ∀ i q, suggestions d' !! i = Some q → Suggestion.planned_event q = Suggestion.planned_event s →
    Suggestion.status q ≠ Suggestion.pending;
  taken_others : ∀ i, i ≠ suggestionId → (∀ q, suggestions d !! i = Some q → Suggestion.planned_event q ≠ Suggestion.planned_event s) →
    suggestions d' !! i = suggestions d !! i;
}.

Lemma run_set_suggestion id f w u w' :
  set_suggestion (R := R) id f w = (Ok u, w') →
  ∃ s, suggestions (db w) !! id = Some s ∧ w' = at_db (with_suggestions (λ t, <[id := f s]> t) (db w)) w.
Proof using Type.
  unfold set_suggestion. intros Hrun. run_step Hrun as row w1 Hr. apply run_read in Hr as [-> ->].
  destruct (suggestions (db w) !! id) as [s|]; [|done]. apply run_write in Hrun as ->. by exists s.
Qed.

Lemma accept_suggestion_run organization suggestionId s p now w h w' :
  suggestions (db w) !! suggestionId = Some s → planned_events (db w) !! Suggestion.planned_event s = Some p →
  accept_suggestion organization suggestionId s p now w = (Ok h, w') →
  proposal_taken organization suggestionId now (ids_fresh w) s p (db w) (db w') ∧ plan_steps w w'.
Proof using Type.
  intros Hs Hp Hrun. unfold accept_suggestion in Hrun. run_step Hrun as written w1 Hh. apply run_hashed in Hh as [Hwritten ->].
  run_step Hrun as u1 w1 Hset. apply run_set_event in Hset as (q & Hq & _ & ->). rewrite Hp in Hq. injection Hq as <-.
  set (p' := match written with Some _ => _ | None => _ end p) in Hrun. set (w1 := at_db _ w) in Hrun.
  assert (plan_steps w w1) as Hst1 by (by apply plan_steps_write).
  run_step Hrun as u2 w2 He. apply run_enqueue_apply in He as (Hev & Hsg & Hst2 & Hw).
  run_step Hrun as u3 w3 Hset. apply run_set_suggestion in Hset as (s' & Hs' & ->). rewrite Hsg in Hs'.
  change (suggestions (db w) !! suggestionId = Some s') in Hs'. rewrite Hs in Hs'. injection Hs' as <-.
  run_step Hrun as u4 w3 Hexp. apply run_write in Hexp as ->. injection Hrun as _ <-.
  split; [|etrans; [exact Hst1|etrans; [exact Hst2|]]].
  2: { etrans; [|by apply plan_steps_write]. by apply plan_steps_write. }
  cbn [at_db db].
  assert (suggestions (db w2) = suggestions (db w)) as Hsg' by done.
  split; cbn [with_suggestions suggestions planned_events base].
  - exists p'. split; [by rewrite Hev|]. subst p'. destruct written as [[e hash']|]; cbn in Hwritten;
      destruct (Suggestion.proposed_state s) as [e'|]; try done; cbn; split_and!; try done; intros Hfr; apply Hw, Hst1, Hfr.
  - unfold expire_pending. rewrite map_lookup_imap, lookup_insert_eq. cbn. case_bool_decide; [done|]. done.
  - intros i q Hq Hsame. apply expire_pending_spec in Hq as (q0 & Hq0 & _ & Hev0 & Hsel & Hkeep). cbn beta in Hsel, Hkeep.
    destruct (decide (i = suggestionId)) as [->|Hne].
    + rewrite Hkeep by (by rewrite (bool_decide_eq_true_2 (suggestionId = suggestionId)), andb_false_r).
      rewrite lookup_insert_eq in Hq0. by injection Hq0 as <-.
    + apply Hsel. rewrite bool_decide_eq_true_2, bool_decide_eq_false_2 by congruence. done.
  - intros i Hne Hother. unfold expire_pending. rewrite map_lookup_imap, lookup_insert_ne by done. rewrite Hsg'.
    destruct (suggestions (db w) !! i) as [q|] eqn:Hq; [|done]. cbn. rewrite (bool_decide_eq_false_2 (_ = Suggestion.planned_event s)) by (by apply Hother).
    by rewrite andb_false_r.
Qed.

Lemma load_suggestion_spec organization suggestionId d s rule p :
  load_suggestion organization suggestionId d = Some (s, rule, p) →
  suggestions d !! suggestionId = Some s ∧ plan_rules d !! Suggestion.rule s = Some rule ∧
  planned_events d !! Suggestion.planned_event s = Some p ∧ Suggestion.organization s = organization.
Proof using Type.
  unfold load_suggestion. destruct (suggestions d !! suggestionId) as [s'|]; [|done]. cbn.
  destruct (plan_rules d !! _) as [r'|] eqn:Hr; [|done]. cbn. destruct (planned_events d !! _) as [p'|] eqn:Hp; [|done]. cbn.
  case_bool_decide; [|done]. by intros [= <- <- <-].
Qed.

(** C36. A decision on a suggestion does what it says or nothing: it is about a
    pending, unexpired suggestion of an active rule. A dismissal changes its
    status only. An acceptance finds the event as it was, outside its no-move
    window, and the proposal equal to what is planned now; then the event takes
    the proposal under the next intent, with a job, and no other suggestion for
    it stays pending. *)
Theorem suggestions_are_resolved_exactly seen organization principalId suggestionId decision now w r w' :
  resolveSuggestion seen organization principalId suggestionId decision now w = (r, w') →
  (∃ e, r = Throw e ∧ db w' = db w) ∨
  r = Ok () ∧ ∃ s rule p, open_suggestion organization suggestionId now (db w) s rule p ∧
    plan_rules (db w') = plan_rules (db w) ∧ plan_previews (db w') = plan_previews (db w) ∧
    match decision with
    | dismiss =>
        planned_events (db w') = planned_events (db w) ∧ scheduled_jobs (base (db w')) = scheduled_jobs (base (db w)) ∧
        suggestions (db w') = <[suggestionId := with_suggestion_status Suggestion.dismissed now s]> (suggestions (db w))
    | accept =>
        still_proposed seen organization s rule p now (db w) ∧
        proposal_taken organization suggestionId now (ids_fresh w) s p (db w) (db w')
    end.
Proof using Type.
  intros Hrun. destruct r as [[]|e]; [right; split; [done|]|left; exists e; split; [done|by eapply transaction_throws]].
  apply run_transaction in Hrun. run_step Hrun as row w1 Hr. apply run_read in Hr as [-> ->].
  run_step Hrun as srp w1 Hl. apply run_lift in Hl as [Hl%otherwise_Some ->]. destruct srp as [[s rule] p].
  apply load_suggestion_spec in Hl as (Hs & Hr & Hp & Ho). cbn beta iota in Hrun.
  run_step Hrun as u1 w1 Hc. apply run_lift in Hc as [Hpend%require_plan_Ok%bool_decide_eq_true ->].
  run_step Hrun as u2 w1 Hc. apply run_lift in Hc as [Hlive%require_plan_Ok ->]. apply andb_true_iff in Hlive as [Hexp Hact].
  apply Z.ltb_lt in Hexp. apply bool_decide_eq_true in Hact. run_step Hrun as after w1 Hd.
  apply run_record_plan_fact in Hrun as (Hf1 & Hf2 & Hf3 & Hf4 & (fact & Hf5) & _).
  exists s, rule, p. split; [done|]. destruct decision.
  - run_step Hd as checked w2 Hc. apply run_read in Hc as [-> ->]. run_step Hd as u3 w2 Hc. apply run_lift in Hc as [Hc ->].
    apply check_suggestion_spec in Hc. apply accept_suggestion_run in Hd as [[(p' & Hev & Htaken) Hsugg Hsib Hoth] [[Hrules Hpre _] _]]; [|done..].
    rewrite Hf1, Hf2, Hrules, Hpre. split_and!; [done..|]. split; [|by rewrite Hf4|by rewrite Hf4|by rewrite Hf4].
    exists p'. rewrite Hf3. destruct Htaken as (? & ? & ? & ? & Hw). split_and!; [done..|]. intros Hfr.
    eapply apply_waits_audit; [exact Hf5|by apply Hw].
  - run_step Hd as u3 w2 Hset. apply run_set_suggestion in Hset as (s' & Hs' & ->). rewrite Hs in Hs'. injection Hs' as <-.
    injection Hd as _ <-. rewrite Hf1, Hf2, Hf3, Hf4, Hf5. done.
Qed.
End decisions.

(** ** Examples *)

Module Samples.
Import PlanningCoordinator.Samples PlanningReconcile.Samples.
#[local] Existing Instances ids sample_digest one_event.

(** The weekly meeting is previewed in an office without rules, and activated a minute later. *)
Definition new_office : PlanningDb :=
  {| base := shared; plan_previews := ∅; plan_rules := ∅; planned_events := ∅; suggestions := ∅ |}.
Definition previewed :=
  preview (λ _ d, d) "o" "me" (draft_json (smart_meeting weekly_meeting)) october (start_world None new_office).
Definition activated := activate (λ _ d, d) "o" "me" "new-0" (october + 60000) previewed.2.

Lemma planning_activation_is_confirmed_witness :
  activated.1 = Ok "new-1" ∧
  ∃ p draft plan, usable_preview "o" "me" "new-0" (october + 60000) (db previewed.2) p ∧
    rule_activated "o" "me" "new-0" "new-1" p draft plan (october + 60000) (ids_fresh previewed.2) (db previewed.2) (db activated.2).
Proof.
  assert (activated.1 = Ok "new-1") as Hok by (vm_compute; reflexivity).
  split; [exact Hok|].
  destruct (planning_activation_is_confirmed (λ _ d, d) "o" "me" "new-0" (october + 60000) previewed.2 _ _ (surjective_pairing _))
    as [(e & He & _)|(ruleId & p & draft & plan & Hr & Hp & _ & _ & Hact)].
  all: fold activated in *.
  - exfalso. rewrite Hok in He. discriminate He.
  - rewrite Hok in Hr. injection Hr as <-. exists p, draft, plan. split; [exact Hp|exact Hact].
Defined.

(** The rule of the office is removed after its first meeting was written: the
    meeting is to be deleted. *)
Definition removed := remove "o" "me" "weekly" (october + 180000) applied_run.2.


(** The day of the first meeting is taken: a change is suggested, and the owner accepts. *)
Definition first_day : SourceObservation :=
  {| source_event_ref := "first"; source_occurrence_ref := ""; remote_revision := "1"; lifecycle := confirmed;
     origin := provider_original;
     timing := Some (timed "2026-10-28T06:00:00.000Z" "2026-10-28T20:00:00.000Z" "Autumn" "Autumn"); recurrence := None;
     availability := Some busy; relationship := {| role := organizer_role; response := accepted; response_note := None |};
     destination_identity_invited := false;
     content := {| summary := Some "Away"; description := None; location := None; conference := None |};
     attendees := None; organizer := None; attachments := None; source_url := None; provider_metadata := None |}.

Definition away_world :=
  at_db (with_base (with_observations (λ t, <["first" := observed first_day]> t)) (db applied_run.2)) applied_run.2.
Definition suggested := reconcile (λ _ d, d) (λ d, d) "o" "weekly" (october + 120000) away_world.
Definition accepted_run := resolveSuggestion (λ _ d, d) "o" "me" "new-4" accept (october + 180000) suggested.2.

Lemma suggestions_are_resolved_exactly_witness :
  accepted_run.1 = Ok () ∧
  ((λ p, (Planned.status p, Planned.intent_sequence p)) <$> planned_events (db accepted_run.2) !! "new-0") = Some (Planned.pending_update, 2) ∧
  ∃ s rule p, open_suggestion "o" "new-4" (october + 180000) (db suggested.2) s rule p ∧
    still_proposed (λ _ d, d) "o" s rule p (october + 180000) (db suggested.2).
Proof.
  assert (accepted_run.1 = Ok ()) as Hok by (vm_compute; reflexivity).
  split; [exact Hok|]. split; [vm_compute; reflexivity|].
  destruct (suggestions_are_resolved_exactly (λ _ d, d) "o" "me" "new-4" accept (october + 180000) suggested.2 _ _
    (surjective_pairing _)) as [(e & He & _)|(_ & s & rule & p & Hopen & _ & _ & Hstill & _)].
  all: fold accepted_run in *.
  - exfalso. rewrite Hok in He. discriminate He.
  - exists s, rule, p. split; [exact Hopen|exact Hstill].
Defined.
End Samples.
